(** * Library management system: storage backends and loan lifecycle

    A shallow embedding of the C++ sources (domain_core, utils,
    persistence_service, catalog_service, user_service, loan_service) and the
    properties of the storage contract and of the borrow / return / overdue
    state machine that are checked against it.

    Conventions of the embedding:
    - [std::string] is [string]; [std::vector<T>] is [list T];
      [std::optional<T>] and nullable smart pointers are [option T];
    - [std::map<EntityId, T>] is a key-sorted association list ([StdMap]),
      because iteration order (by key) is observable in the sources;
    - a C++ exception is the [Throw] outcome; an access outside the bounds of
      a vector (undefined behaviour) is the [Fault] outcome;
    - [std::chrono::system_clock::time_point] is the integer count of clock
      ticks (nanoseconds) since the epoch, a signed 64-bit count in the
      sources: the conversion from seconds wraps around as the count does,
      and the sum of a time point and a duration is the code's where it fits
      the 64 bits, which the statements that depend on it require;
    - the local time zone has a fixed offset from UTC: daylight saving rules
      are not modelled, and statements about local days are for such zones;
    - text written to [std::cerr] is modelled only where a property speaks of
      it (the item loader of the file backend). *)

From Stdlib Require Import ZArith List String Ascii Bool Lia Sorted.
Import ListNotations.
Local Open Scope string_scope.
Local Open Scope Z_scope.

(** ** domain_core/types.h *)

Definition EntityId := string.
Definition Date := Z.

(** The three exception classes derived from [LmsException]; the message text
    is not modelled.  [StdInvalidArgument] is [std::invalid_argument], raised
    by the service constructors. *)
Inductive LmsException : Type :=
| NotFoundException
| InvalidArgumentException
| OperationFailedException
| StdInvalidArgument.

Inductive outcome (A : Type) : Type :=
| Ok (a : A)
| Throw (e : LmsException)
| Fault.
Arguments Ok {A} a.
Arguments Throw {A} e.
Arguments Fault {A}.

Definition bind {A B : Type} (x : outcome A) (k : A -> outcome B) : outcome B :=
  match x with
  | Ok a => k a
  | Throw e => Throw e
  | Fault => Fault
  end.

Notation "x <- e ;; k" := (bind e (fun x => k))
  (at level 61, e at next level, right associativity).
Notation "' p <- e ;; k" := (bind e (fun p => k))
  (at level 61, p pattern, e at next level, right associativity).

(** [std::string::empty]. *)
Definition empty (s : string) : bool :=
  match s with
  | EmptyString => true
  | String _ _ => false
  end.

(** ** std::map<std::string, V>

    Entries are kept sorted by key ([std::less<std::string>], the bytewise
    lexicographic order), as iteration over the map yields them. *)
Module StdMap.
Section Map.
Context {V : Type}.

Definition t : Type := list (string * V).

Fixpoint find (k : string) (m : t) : option V :=
  match m with
  | [] => None
  | (k', v) :: m' => if String.eqb k k' then Some v else find k m'
  end.

(** [it->second = v] at the entry found for [k]. *)
Fixpoint assign (k : string) (v : V) (m : t) : t :=
  match m with
  | [] => []
  | (k', v') :: m' =>
      if String.eqb k k' then (k', v) :: m' else (k', v') :: assign k v m'
  end.

(** [m.emplace(k, v)]: inserts at the sorted position, and leaves an entry
    that already has the key alone. *)
Fixpoint emplace (k : string) (v : V) (m : t) : t :=
  match m with
  | [] => [(k, v)]
  | (k', v') :: m' =>
      if String.eqb k k' then (k', v') :: m'
      else if String.ltb k k' then (k, v) :: (k', v') :: m'
      else (k', v') :: emplace k v m'
  end.

(** [m[k] = v]. *)
Definition set (k : string) (v : V) (m : t) : t :=
  match find k m with
  | Some _ => assign k v m
  | None => emplace k v m
  end.

(** [m.erase(k)]. *)
Fixpoint erase (k : string) (m : t) : t :=
  match m with
  | [] => []
  | (k', v') :: m' =>
      if String.eqb k k' then m' else (k', v') :: erase k m'
  end.

(** The mapped values in iteration order. *)
Definition values (m : t) : list V := map snd m.

Definition keys (m : t) : list string := map fst m.
End Map.
Arguments t : clear implicits.
End StdMap.

(** ** domain_core: Author, User, Book, LoanRecord *)

Module Author.
Record t : Type := mk { m_id : EntityId; m_name : string }.

Definition new (id : EntityId) (name : string) : outcome t :=
  if empty id then Throw InvalidArgumentException
  else if empty name then Throw InvalidArgumentException
  else Ok (mk id name).

(** The message of the exception that the constructor raises. *)
Definition what (id : EntityId) (name : string) : string :=
  if empty id then "Author ID cannot be empty." else "Author name cannot be empty.".

Definition getId (a : t) : EntityId := m_id a.
Definition getName (a : t) : string := m_name a.

Definition setName (a : t) (name : string) : outcome t :=
  if empty name then Throw InvalidArgumentException
  else Ok (mk (m_id a) name).

(** What the constructor and the setter establish. *)
Definition valid (a : t) : Prop :=
  m_id a <> EmptyString /\ m_name a <> EmptyString.
End Author.

Module User.
Record t : Type := mk { m_user_id : EntityId; m_name : string }.

Definition new (user_id : EntityId) (name : string) : outcome t :=
  if empty user_id then Throw InvalidArgumentException
  else if empty name then Throw InvalidArgumentException
  else Ok (mk user_id name).

Definition getUserId (u : t) : EntityId := m_user_id u.
Definition getName (u : t) : string := m_name u.

Definition setName (u : t) (name : string) : outcome t :=
  if empty name then Throw InvalidArgumentException
  else Ok (mk (m_user_id u) name).

Definition valid (u : t) : Prop :=
  m_user_id u <> EmptyString /\ m_name u <> EmptyString.
End User.

(** [enum class AvailabilityStatus].  [UNNAMED v] stands for the value that
    [static_cast<AvailabilityStatus>(v)] yields for an integer [v] outside
    0..3, which no enumerator names; only the cast produces it. *)
Inductive AvailabilityStatus : Type :=
| AVAILABLE
| BORROWED
| RESERVED
| MAINTENANCE
| UNNAMED (v : Z).

Definition status_to_int (s : AvailabilityStatus) : Z :=
  match s with
  | AVAILABLE => 0
  | BORROWED => 1
  | RESERVED => 2
  | MAINTENANCE => 3
  | UNNAMED v => v
  end.

Definition status_of_int (v : Z) : AvailabilityStatus :=
  if v =? 0 then AVAILABLE
  else if v =? 1 then BORROWED
  else if v =? 2 then RESERVED
  else if v =? 3 then MAINTENANCE
  else UNNAMED v.

Definition is_available (s : AvailabilityStatus) : bool :=
  match s with
  | AVAILABLE => true
  | _ => false
  end.

(** The only [ILibraryItem]; the author is a [std::shared_ptr<Author>], held
    here by value (no property below depends on mutation through the shared
    pointer). *)
Module Book.
Record t : Type := mk {
  m_id : EntityId;
  m_title : string;
  m_author : option Author.t;
  m_isbn : string;
  m_publication_year : Z;
  m_availability_status : AvailabilityStatus
}.

Definition new (id : EntityId) (title : string) (author : option Author.t)
    (isbn : string) (publication_year : Z) (status : AvailabilityStatus)
    : outcome t :=
  if empty id then Throw InvalidArgumentException
  else if empty title then Throw InvalidArgumentException
  else match author with
       | None => Throw InvalidArgumentException
       | Some _ =>
           if empty isbn then Throw InvalidArgumentException
           else if publication_year <=? 0 then Throw InvalidArgumentException
           else Ok (mk id title author isbn publication_year status)
       end.

(** The message of the exception that the constructor raises. *)
Definition what (id : EntityId) (title : string) (author : option Author.t)
    (isbn : string) : string :=
  if empty id then "Book ID cannot be empty."
  else if empty title then "Book title cannot be empty."
  else match author with
       | None => "Book author cannot be null."
       | Some _ =>
           if empty isbn then "Book ISBN cannot be empty."
           else "Publication year must be positive."
       end.

Definition getId (b : t) : EntityId := m_id b.
Definition getTitle (b : t) : string := m_title b.
Definition getAuthor (b : t) : option Author.t := m_author b.
Definition getIsbn (b : t) : string := m_isbn b.
Definition getPublicationYear (b : t) : Z := m_publication_year b.
Definition getAvailabilityStatus (b : t) : AvailabilityStatus :=
  m_availability_status b.

Definition setAvailabilityStatus (b : t) (status : AvailabilityStatus) : t :=
  mk (m_id b) (m_title b) (m_author b) (m_isbn b) (m_publication_year b) status.

(** [clone] goes through the constructor again. *)
Definition clone (b : t) : outcome t :=
  new (m_id b) (m_title b) (m_author b) (m_isbn b) (m_publication_year b)
      (m_availability_status b).

Definition valid (b : t) : Prop :=
  m_id b <> EmptyString /\ m_title b <> EmptyString /\
  m_author b <> None /\ m_isbn b <> EmptyString /\ 0 < m_publication_year b.

(** The guarded setters; the argument of [setAuthor] is a pointer that may be
    null. *)
Definition setTitle (b : t) (title : string) : outcome t :=
  if empty title then Throw InvalidArgumentException
  else Ok (mk (m_id b) title (m_author b) (m_isbn b) (m_publication_year b)
              (m_availability_status b)).

Definition setAuthor (b : t) (author : option Author.t) : outcome t :=
  match author with
  | None => Throw InvalidArgumentException
  | Some _ =>
      Ok (mk (m_id b) (m_title b) author (m_isbn b) (m_publication_year b)
             (m_availability_status b))
  end.

Definition setPublicationYear (b : t) (year : Z) : outcome t :=
  if year <=? 0 then Throw InvalidArgumentException
  else Ok (mk (m_id b) (m_title b) (m_author b) (m_isbn b) year
              (m_availability_status b)).

Definition setIsbn (b : t) (isbn : string) : outcome t :=
  if empty isbn then Throw InvalidArgumentException
  else Ok (mk (m_id b) (m_title b) (m_author b) isbn (m_publication_year b)
              (m_availability_status b)).

(** The mutators of the class, as data, and a run of them on a book: a call
    that raises leaves the object as it was. *)
Inductive call : Type :=
| CallSetTitle (title : string)
| CallSetAuthor (author : option Author.t)
| CallSetPublicationYear (year : Z)
| CallSetIsbn (isbn : string)
| CallSetAvailabilityStatus (status : AvailabilityStatus).

Definition apply_call (b : t) (c : call) : outcome t :=
  match c with
  | CallSetTitle title => setTitle b title
  | CallSetAuthor author => setAuthor b author
  | CallSetPublicationYear year => setPublicationYear b year
  | CallSetIsbn isbn => setIsbn b isbn
  | CallSetAvailabilityStatus status => Ok (setAvailabilityStatus b status)
  end.

Definition after_call (b : t) (c : call) : t :=
  match apply_call b c with
  | Ok b' => b'
  | _ => b
  end.

Definition after_calls (b : t) (cs : list call) : t :=
  fold_left after_call cs b.
End Book.

Module LoanRecord.
Record t : Type := mk {
  m_record_id : EntityId;
  m_item_id : EntityId;
  m_user_id : EntityId;
  m_loan_date : Date;
  m_due_date : Date;
  m_return_date : option Date
}.

Definition new (record_id item_id user_id : EntityId) (loan_date due_date : Date)
    : outcome t :=
  if empty record_id then Throw InvalidArgumentException
  else if empty item_id then Throw InvalidArgumentException
  else if empty user_id then Throw InvalidArgumentException
  else if due_date <? loan_date then Throw InvalidArgumentException
  else Ok (mk record_id item_id user_id loan_date due_date None).

Definition getRecordId (r : t) : EntityId := m_record_id r.
Definition getItemId (r : t) : EntityId := m_item_id r.
Definition getUserId (r : t) : EntityId := m_user_id r.
Definition getLoanDate (r : t) : Date := m_loan_date r.
Definition getDueDate (r : t) : Date := m_due_date r.
Definition getReturnDate (r : t) : option Date := m_return_date r.

Definition setDueDate (r : t) (due_date : Date) : outcome t :=
  if due_date <? m_loan_date r then Throw InvalidArgumentException
  else Ok (mk (m_record_id r) (m_item_id r) (m_user_id r) (m_loan_date r)
              due_date (m_return_date r)).

Definition setReturnDate (r : t) (return_date : Date) : outcome t :=
  if return_date <? m_loan_date r then Throw InvalidArgumentException
  else Ok (mk (m_record_id r) (m_item_id r) (m_user_id r) (m_loan_date r)
              (m_due_date r) (Some return_date)).

(** The two mutators of the class, as data, and a run of them on a record:
    a call that raises leaves the object as it was. *)
Inductive call : Type :=
| CallSetDueDate (d : Date)
| CallSetReturnDate (d : Date).

Definition apply_call (r : t) (c : call) : outcome t :=
  match c with
  | CallSetDueDate d => setDueDate r d
  | CallSetReturnDate d => setReturnDate r d
  end.

Definition after_call (r : t) (c : call) : t :=
  match apply_call r c with
  | Ok r' => r'
  | _ => r
  end.

Definition after_calls (r : t) (cs : list call) : t :=
  fold_left after_call cs r.

(** The date invariant of the specification. *)
Definition dates_ok (r : t) : Prop :=
  m_loan_date r <= m_due_date r /\
  forall d, m_return_date r = Some d -> m_loan_date r <= d.

Definition ids_ok (r : t) : Prop :=
  m_record_id r <> EmptyString /\ m_item_id r <> EmptyString /\
  m_user_id r <> EmptyString.
End LoanRecord.

(** ** Text and numbers: std::to_string, std::stoi, std::replace *)

Module Text.
Definition newline : ascii := "010"%char.
Definition comma : ascii := ","%char.
Definition quote : ascii := "034"%char.

Definition is_digit (c : ascii) : bool :=
  (48 <=? nat_of_ascii c)%nat && (nat_of_ascii c <=? 57)%nat.

(** [std::isspace] in the C locale. *)
Definition is_space (c : ascii) : bool :=
  let n := nat_of_ascii c in
  (n =? 32)%nat || ((9 <=? n)%nat && (n <=? 13)%nat).

(** [tolower] and [toupper] of the C locale. *)
Definition tolower (c : ascii) : ascii :=
  let n := nat_of_ascii c in
  if (65 <=? n)%nat && (n <=? 90)%nat then ascii_of_nat (n + 32) else c.

Definition toupper (c : ascii) : ascii :=
  let n := nat_of_ascii c in
  if (97 <=? n)%nat && (n <=? 122)%nat then ascii_of_nat (n - 32) else c.

Definition digit_value (c : ascii) : Z := Z.of_nat (nat_of_ascii c) - 48.

Definition digit_char (d : Z) : ascii := ascii_of_nat (48 + Z.to_nat d).

(** Decimal digits of a non-negative number, most significant first, in
    front of [acc]. *)
Fixpoint digits_of (fuel : nat) (n : Z) (acc : string) : string :=
  match fuel with
  | O => acc
  | S fuel' =>
      let acc' := String (digit_char (n mod 10)) acc in
      if n <? 10 then acc' else digits_of fuel' (n / 10) acc'
  end.

(** [std::to_string] on an integer. *)
Definition to_string (z : Z) : string :=
  if z <? 0 then String "-" (digits_of (S (Z.to_nat (Z.log2 (- z)))) (- z) EmptyString)
  else digits_of (S (Z.to_nat (Z.log2 z))) z EmptyString.

Fixpoint skip_space (s : string) : string :=
  match s with
  | String c s' => if is_space c then skip_space s' else s
  | EmptyString => s
  end.

(** The longest run of decimal digits at the front of [s], read as a
    number: the value, how many digits were read, and the rest. *)
Fixpoint read_digits (s : string) (acc : Z) (count : nat) : Z * nat * string :=
  match s with
  | String c s' =>
      if is_digit c then read_digits s' (acc * 10 + digit_value c) (S count)
      else (acc, count, s)
  | EmptyString => (acc, count, s)
  end.

Definition INT_MIN : Z := - 2147483648.
Definition INT_MAX : Z := 2147483647.

(** [std::stoi]: leading white space, an optional sign, then digits; what
    follows the digits is ignored.  [None] is the exception it raises
    ([std::invalid_argument] without digits, [std::out_of_range] outside
    [int]). *)
Definition stoi (s : string) : option Z :=
  let s1 := skip_space s in
  let '(neg, s2) :=
    match s1 with
    | String "-" r => (true, r)
    | String "+" r => (false, r)
    | _ => (false, s1)
    end in
  let '(v, count, _) := read_digits s2 0 O in
  match count with
  | O => None
  | S _ =>
      let v' := if neg then - v else v in
      if (INT_MIN <=? v') && (v' <=? INT_MAX) then Some v' else None
  end.

(** [std::replace(s.begin(), s.end(), a, b)]. *)
Fixpoint replace (a b : ascii) (s : string) : string :=
  match s with
  | EmptyString => EmptyString
  | String c s' => String (if Ascii.eqb c a then b else c) (replace a b s')
  end.

(** The fields that [while (std::getline(stream, field, delim))] yields on
    a stream holding [s]: a field ends at a delimiter, which is consumed,
    or at the end of the input; a read at the end of the input that
    extracts nothing fails and ends the loop, so an empty field after the
    last delimiter is never produced. *)
Fixpoint getline_all (delim : ascii) (s : string) : list string :=
  match s with
  | EmptyString => []
  | String c s' =>
      if Ascii.eqb c delim then EmptyString :: getline_all delim s'
      else match getline_all delim s' with
           | [] => [String c EmptyString]
           | field :: fields => String c field :: fields
           end
  end.

Fixpoint contains (c : ascii) (s : string) : bool :=
  match s with
  | EmptyString => false
  | String c' s' => Ascii.eqb c' c || contains c s'
  end.
End Text.

(** ** utils/date_time_utils

    The C library calls the class relies on ([localtime], [mktime]) and the
    stream manipulators ([std::put_time], [std::get_time]) are modelled for a
    local time zone at a fixed offset [tz] (seconds east of UTC) and for the
    conversion specifiers the program uses.  The clock ticks are the
    nanoseconds of [std::chrono::system_clock]. *)
Module DateTimeUtils.
Definition ticks_per_second : Z := 1000000000.

(** A time point is a signed 64-bit count of ticks; arithmetic on the
    count wraps around. *)
Definition wrap_int64 (z : Z) : Z :=
  (z + 9223372036854775808) mod 18446744073709551616 - 9223372036854775808.

(** [system_clock::to_time_t]: [duration_cast] truncates toward zero. *)
Definition to_time_t (tp : Date) : Z := Z.quot tp ticks_per_second.

(** [system_clock::from_time_t]: the seconds are scaled to ticks in the
    64-bit count. *)
Definition from_time_t (t : Z) : Date := wrap_int64 (t * ticks_per_second).

Record tm : Type := mk_tm {
  tm_year : Z;  (* years since 1900 *)
  tm_mon : Z;   (* 0..11 *)
  tm_mday : Z;
  tm_hour : Z;
  tm_min : Z;
  tm_sec : Z
}.

(** Days since 1970-01-01 of a date of the proleptic Gregorian calendar,
    and back. *)
Definition days_from_civil (y m d : Z) : Z :=
  let y' := if m <=? 2 then y - 1 else y in
  let era := y' / 400 in
  let yoe := y' - era * 400 in
  let doy := (153 * (if 2 <? m then m - 3 else m + 9) + 2) / 5 + d - 1 in
  let doe := yoe * 365 + yoe / 4 - yoe / 100 + doy in
  era * 146097 + doe - 719468.

Definition civil_from_days (z : Z) : Z * Z * Z :=
  let z' := z + 719468 in
  let era := z' / 146097 in
  let doe := z' - era * 146097 in
  let yoe := (doe - doe / 1460 + doe / 36524 - doe / 146096) / 365 in
  let doy := doe - (365 * yoe + yoe / 4 - yoe / 100) in
  let mp := (5 * doy + 2) / 153 in
  let d := doy - (153 * mp + 2) / 5 + 1 in
  let m := if mp <? 10 then mp + 3 else mp - 9 in
  let y := yoe + era * 400 in
  ((if m <=? 2 then y + 1 else y), m, d).

Section Zone.
Variable tz : Z.

Definition localtime (t : Z) : tm :=
  let l := t + tz in
  let '(y, m, d) := civil_from_days (l / 86400) in
  let sod := l mod 86400 in
  mk_tm (y - 1900) (m - 1) d (sod / 3600) ((sod / 60) mod 60) (sod mod 60).

(** [mktime] normalises the month into the year and lets the other
    fields overflow into the day count. *)
Definition mktime (v : tm) : Z :=
  let months := (tm_year v + 1900) * 12 + tm_mon v in
  let days := days_from_civil (months / 12) (months mod 12 + 1) 1 + (tm_mday v - 1) in
  days * 86400 + tm_hour v * 3600 + tm_min v * 60 + tm_sec v - tz.

Definition pad2 (n : Z) : string :=
  if (0 <=? n) && (n <? 10) then String "0" (Text.to_string n)
  else Text.to_string n.

Definition put_conversion (v : tm) (c : ascii) : string :=
  if Ascii.eqb c "Y" then Text.to_string (tm_year v + 1900)
  else if Ascii.eqb c "m" then pad2 (tm_mon v + 1)
  else if Ascii.eqb c "d" then pad2 (tm_mday v)
  else if Ascii.eqb c "H" then pad2 (tm_hour v)
  else if Ascii.eqb c "M" then pad2 (tm_min v)
  else if Ascii.eqb c "S" then pad2 (tm_sec v)
  else String "%" (String c EmptyString).

(** [std::put_time(&v, fmt)]. *)
Fixpoint put_time (v : tm) (fmt : string) : string :=
  match fmt with
  | EmptyString => EmptyString
  | String "%" (String c rest) => put_conversion v c ++ put_time v rest
  | String c rest => String c (put_time v rest)
  end.

(** A number of at most [len] digits, at least one, within [lo..hi]. *)
Definition get_num (len : nat) (lo hi : Z) (s : string) : option (Z * string) :=
  let '(v, count, _) := Text.read_digits (substring 0 len s) 0 O in
  match count with
  | O => None
  | S _ =>
      if (lo <=? v) && (v <=? hi)
      then Some (v, substring count (String.length s - count) s)
      else None
  end.

(** The day of the month may come after one white space character. *)
Definition skip_one_space (s : string) : string :=
  match s with
  | String c r => if Text.is_space c then r else s
  | EmptyString => s
  end.

Definition get_conversion (c : ascii) (v : tm) (s : string) : option (tm * string) :=
  if Ascii.eqb c "Y" then
    match get_num 4 0 9999 s with
    | Some (n, r) => Some (mk_tm (n - 1900) (tm_mon v) (tm_mday v) (tm_hour v) (tm_min v) (tm_sec v), r)
    | None => None
    end
  else if Ascii.eqb c "m" then
    match get_num 2 1 12 s with
    | Some (n, r) => Some (mk_tm (tm_year v) (n - 1) (tm_mday v) (tm_hour v) (tm_min v) (tm_sec v), r)
    | None => None
    end
  else if Ascii.eqb c "d" then
    match get_num 2 1 31 (skip_one_space s) with
    | Some (n, r) => Some (mk_tm (tm_year v) (tm_mon v) n (tm_hour v) (tm_min v) (tm_sec v), r)
    | None => None
    end
  else if Ascii.eqb c "H" then
    match get_num 2 0 23 s with
    | Some (n, r) => Some (mk_tm (tm_year v) (tm_mon v) (tm_mday v) n (tm_min v) (tm_sec v), r)
    | None => None
    end
  else if Ascii.eqb c "M" then
    match get_num 2 0 59 s with
    | Some (n, r) => Some (mk_tm (tm_year v) (tm_mon v) (tm_mday v) (tm_hour v) n (tm_sec v), r)
    | None => None
    end
  else if Ascii.eqb c "S" then
    match get_num 2 0 60 s with
    | Some (n, r) => Some (mk_tm (tm_year v) (tm_mon v) (tm_mday v) (tm_hour v) (tm_min v) n, r)
    | None => None
    end
  else None.

(** A character of the format that is not part of a conversion matches the
    next character of the text up to its case. *)
Definition same_letter (c c' : ascii) : bool :=
  Ascii.eqb (Text.tolower c) (Text.tolower c') || Ascii.eqb (Text.toupper c) (Text.toupper c').

(** The loop of [time_get::get] over the format.  Reaching the end of the
    text while format is left sets the fail bit; a conversion that reads the
    text to its end ends the loop with the end-of-file bit alone, so what is
    left of the format is not looked at.  White space in the format matches
    any run of white space; [in_space] says that the loop is inside a run of
    white space of the format. *)
Fixpoint get_time_loop (fmt : string) (in_space : bool) (v : tm) (s : string) : option tm :=
  match fmt with
  | EmptyString => Some v
  | String c rest =>
      if in_space && Text.is_space c then get_time_loop rest true v s
      else
        match s with
        | EmptyString => None
        | String c' s' =>
            if Ascii.eqb c "%" then
              match rest with
              | EmptyString => None
              | String f rest' =>
                  match get_conversion f v s with
                  | Some (v', r) =>
                      match r with
                      | EmptyString => Some v'
                      | String _ _ => get_time_loop rest' false v' r
                      end
                  | None => None
                  end
              end
            else if Text.is_space c then get_time_loop rest true v (Text.skip_space s)
            else if same_letter c' c then get_time_loop rest false v s'
            else None
        end
  end.

(** [stream >> std::get_time(&v, fmt)] on a stream positioned at [s];
    [None] when the stream fails. *)
Definition get_time (fmt : string) (v : tm) (s : string) : option tm :=
  get_time_loop fmt false v s.

Definition formatDateTime (tp : Date) (fmt : string) : string :=
  put_time (localtime (to_time_t tp)) fmt.

Definition formatDate (tp : Date) (fmt : string) : string :=
  formatDateTime tp fmt.

(** The extraction first skips white space and fails at the end of the
    stream. *)
Definition parseDate (date_str : string) (fmt : string) : option Date :=
  match Text.skip_space date_str with
  | EmptyString => None
  | String _ _ as s =>
      match get_time fmt (mk_tm 0 0 0 0 0 0) s with
      | None => None
      | Some v =>
          let v' := mk_tm (tm_year v) (tm_mon v) (tm_mday v) 0 0 0 in
          let time_t_val := mktime v' in
          if time_t_val =? -1 then None else Some (from_time_t time_t_val)
      end
  end.

(** [today]: the local midnight that starts the day of [now]. *)
Definition today (now : Date) : Date :=
  let now_tm := localtime (to_time_t now) in
  from_time_t (mktime (mk_tm (tm_year now_tm) (tm_mon now_tm) (tm_mday now_tm) 0 0 0)).
End Zone.

Definition date_time_format : string := "%Y-%m-%d %H:%M:%S".
Definition date_format : string := "%Y-%m-%d".

(** [int] arithmetic on [days * 24], then whole hours added to the time
    point.  The sum is the code's as long as it fits the 64 bits of a time
    point, as it does for every clock reading and duration that
    [due_date_fits] admits. *)
Definition wrap_int (z : Z) : Z := (z + 2147483648) mod 4294967296 - 2147483648.

Definition addDays (tp : Date) (days : Z) : Date :=
  tp + wrap_int (days * 24) * (3600 * ticks_per_second).
End DateTimeUtils.

(** ** persistence_service/i_persistence_service.h

    The storage contract, over the state [S] of a backend.  A mutating
    operation returns the backend's next state; an operation that raises
    leaves the backend as it was.  Pointer arguments may be null. *)
Module IPersistenceService.
Class t (S : Type) : Type := {
  saveAuthor : S -> option Author.t -> outcome S;
  loadAuthor : S -> EntityId -> outcome (option Author.t);
  loadAllAuthors : S -> outcome (list Author.t);
  deleteAuthor : S -> EntityId -> outcome S;
  saveLibraryItem : S -> option Book.t -> outcome S;
  loadLibraryItem : S -> EntityId -> outcome (option Book.t);
  loadAllLibraryItems : S -> outcome (list Book.t);
  deleteLibraryItem : S -> EntityId -> outcome S;
  saveUser : S -> User.t -> outcome S;
  loadUser : S -> EntityId -> outcome (option User.t);
  loadAllUsers : S -> outcome (list User.t);
  deleteUser : S -> EntityId -> outcome S;
  saveLoanRecord : S -> LoanRecord.t -> outcome S;
  loadLoanRecord : S -> EntityId -> outcome (option LoanRecord.t);
  loadLoanRecordsByUserId : S -> EntityId -> outcome (list LoanRecord.t);
  loadLoanRecordsByItemId : S -> EntityId -> outcome (list LoanRecord.t);
  loadAllLoanRecords : S -> outcome (list LoanRecord.t);
  deleteLoanRecord : S -> EntityId -> outcome S;
  updateLoanRecord : S -> LoanRecord.t -> outcome S
}.
End IPersistenceService.

(** A [for] loop whose body may raise, over the elements of a vector. *)
Fixpoint for_each {S X : Type} (body : S -> X -> outcome S) (xs : list X) (s : S)
    : outcome S :=
  match xs with
  | [] => Ok s
  | x :: xs' => s' <- body s x ;; for_each body xs' s'
  end.

Fixpoint map_outcome {X Y : Type} (f : X -> outcome Y) (xs : list X) : outcome (list Y) :=
  match xs with
  | [] => Ok []
  | x :: xs' => y <- f x ;; ys <- map_outcome f xs' ;; Ok (y :: ys)
  end.

(** ** persistence_service/in_memory_persistence_service.cc

    The four members are the [std::map]s that the class declares, keyed by
    id; the mutex is not modelled. *)
Module InMemoryPersistenceService.
Record t : Type := mk {
  m_authors : StdMap.t Author.t;
  m_items : StdMap.t Book.t;
  m_users : StdMap.t User.t;
  m_loan_records : StdMap.t LoanRecord.t
}.

Definition new : t := mk [] [] [] [].

Definition saveAuthor (s : t) (author : option Author.t) : outcome t :=
  match author with
  | None => Ok s
  | Some a =>
      Ok (mk (StdMap.set (Author.getId a) a (m_authors s))
             (m_items s) (m_users s) (m_loan_records s))
  end.

Definition loadAuthor (s : t) (author_id : EntityId) : outcome (option Author.t) :=
  Ok (StdMap.find author_id (m_authors s)).

Definition loadAllAuthors (s : t) : outcome (list Author.t) :=
  Ok (StdMap.values (m_authors s)).

Definition deleteAuthor (s : t) (author_id : EntityId) : outcome t :=
  Ok (mk (StdMap.erase author_id (m_authors s))
         (m_items s) (m_users s) (m_loan_records s)).

Definition saveLibraryItem (s : t) (item : option Book.t) : outcome t :=
  match item with
  | None => Ok s
  | Some b =>
      c <- Book.clone b ;;
      Ok (mk (m_authors s) (StdMap.set (Book.getId b) c (m_items s))
             (m_users s) (m_loan_records s))
  end.

Definition loadLibraryItem (s : t) (item_id : EntityId) : outcome (option Book.t) :=
  match StdMap.find item_id (m_items s) with
  | Some b => c <- Book.clone b ;; Ok (Some c)
  | None => Ok None
  end.

Definition loadAllLibraryItems (s : t) : outcome (list Book.t) :=
  map_outcome Book.clone (StdMap.values (m_items s)).

Definition deleteLibraryItem (s : t) (item_id : EntityId) : outcome t :=
  Ok (mk (m_authors s) (StdMap.erase item_id (m_items s))
         (m_users s) (m_loan_records s)).

Definition saveUser (s : t) (user : User.t) : outcome t :=
  let users :=
    match StdMap.find (User.getUserId user) (m_users s) with
    | Some _ => StdMap.assign (User.getUserId user) user (m_users s)
    | None => StdMap.emplace (User.getUserId user) user (m_users s)
    end in
  Ok (mk (m_authors s) (m_items s) users (m_loan_records s)).

Definition loadUser (s : t) (user_id : EntityId) : outcome (option User.t) :=
  Ok (StdMap.find user_id (m_users s)).

Definition loadAllUsers (s : t) : outcome (list User.t) :=
  Ok (StdMap.values (m_users s)).

Definition deleteUser (s : t) (user_id : EntityId) : outcome t :=
  Ok (mk (m_authors s) (m_items s) (StdMap.erase user_id (m_users s))
         (m_loan_records s)).

Definition saveLoanRecord (s : t) (record : LoanRecord.t) : outcome t :=
  let loans :=
    match StdMap.find (LoanRecord.getRecordId record) (m_loan_records s) with
    | Some _ => StdMap.assign (LoanRecord.getRecordId record) record (m_loan_records s)
    | None => StdMap.emplace (LoanRecord.getRecordId record) record (m_loan_records s)
    end in
  Ok (mk (m_authors s) (m_items s) (m_users s) loans).

Definition loadLoanRecord (s : t) (record_id : EntityId) : outcome (option LoanRecord.t) :=
  Ok (StdMap.find record_id (m_loan_records s)).

Definition loadLoanRecordsByUserId (s : t) (user_id : EntityId)
    : outcome (list LoanRecord.t) :=
  Ok (filter (fun r => String.eqb (LoanRecord.getUserId r) user_id)
             (StdMap.values (m_loan_records s))).

Definition loadLoanRecordsByItemId (s : t) (item_id : EntityId)
    : outcome (list LoanRecord.t) :=
  Ok (filter (fun r => String.eqb (LoanRecord.getItemId r) item_id)
             (StdMap.values (m_loan_records s))).

Definition loadAllLoanRecords (s : t) : outcome (list LoanRecord.t) :=
  Ok (StdMap.values (m_loan_records s)).

Definition deleteLoanRecord (s : t) (record_id : EntityId) : outcome t :=
  Ok (mk (m_authors s) (m_items s) (m_users s)
         (StdMap.erase record_id (m_loan_records s))).

Definition updateLoanRecord (s : t) (record : LoanRecord.t) : outcome t :=
  let loans :=
    match StdMap.find (LoanRecord.getRecordId record) (m_loan_records s) with
    | Some _ => StdMap.assign (LoanRecord.getRecordId record) record (m_loan_records s)
    | None => StdMap.emplace (LoanRecord.getRecordId record) record (m_loan_records s)
    end in
  Ok (mk (m_authors s) (m_items s) (m_users s) loans).

#[global] Instance backend : IPersistenceService.t t := {|
  IPersistenceService.saveAuthor := saveAuthor;
  IPersistenceService.loadAuthor := loadAuthor;
  IPersistenceService.loadAllAuthors := loadAllAuthors;
  IPersistenceService.deleteAuthor := deleteAuthor;
  IPersistenceService.saveLibraryItem := saveLibraryItem;
  IPersistenceService.loadLibraryItem := loadLibraryItem;
  IPersistenceService.loadAllLibraryItems := loadAllLibraryItems;
  IPersistenceService.deleteLibraryItem := deleteLibraryItem;
  IPersistenceService.saveUser := saveUser;
  IPersistenceService.loadUser := loadUser;
  IPersistenceService.loadAllUsers := loadAllUsers;
  IPersistenceService.deleteUser := deleteUser;
  IPersistenceService.saveLoanRecord := saveLoanRecord;
  IPersistenceService.loadLoanRecord := loadLoanRecord;
  IPersistenceService.loadLoanRecordsByUserId := loadLoanRecordsByUserId;
  IPersistenceService.loadLoanRecordsByItemId := loadLoanRecordsByItemId;
  IPersistenceService.loadAllLoanRecords := loadAllLoanRecords;
  IPersistenceService.deleteLoanRecord := deleteLoanRecord;
  IPersistenceService.updateLoanRecord := updateLoanRecord
|}.
End InMemoryPersistenceService.

(** ** persistence_service/file_persistence_service.cc

    The state of the backend is the content of its four files; a file that
    does not exist reads like an empty one.  Opening a file for writing is
    taken to succeed. *)
Module FilePersistenceService.
Record t : Type := mk {
  authors_csv : string;
  users_csv : string;
  items_csv : string;
  loans_csv : string
}.

Definition new : t := mk EmptyString EmptyString EmptyString EmptyString.

Definition COMMA_PLACEHOLDER : ascii := "030"%char.
Definition QUOTE_PLACEHOLDER : ascii := "031"%char.

Definition escapeCsvField (field : string) : string :=
  Text.replace Text.comma COMMA_PLACEHOLDER
    (Text.replace Text.quote QUOTE_PLACEHOLDER field).

Definition unescapeCsvField (field : string) : string :=
  Text.replace COMMA_PLACEHOLDER Text.comma
    (Text.replace QUOTE_PLACEHOLDER Text.quote field).

Definition read_record (line : string) : list string :=
  map unescapeCsvField (Text.getline_all Text.comma line).

Fixpoint read_lines (lines : list string) : list (list string) :=
  match lines with
  | [] => []
  | line :: rest =>
      if empty line then read_lines rest
      else read_record line :: read_lines rest
  end.

Definition readCsvFile (content : string) : list (list string) :=
  read_lines (Text.getline_all Text.newline content).

Fixpoint write_fields (record : list string) : string :=
  match record with
  | [] => EmptyString
  | [field] => escapeCsvField field
  | field :: rest => escapeCsvField field ++ String Text.comma (write_fields rest)
  end.

Definition write_record (record : list string) : string :=
  write_fields record ++ String Text.newline EmptyString.

Fixpoint writeCsvFile (data : list (list string)) : string :=
  match data with
  | [] => EmptyString
  | record :: rest => write_record record ++ writeCsvFile rest
  end.

(** [!record_fields.empty() && record_fields[0] == id]. *)
Definition has_id (id : string) (record_fields : list string) : bool :=
  match record_fields with
  | [] => false
  | f0 :: _ => String.eqb f0 id
  end.

(** [fields[i]] where the size of [fields] has been checked. *)
Definition field (i : nat) (fields : list string) : string :=
  nth i fields EmptyString.

(** The loop of [saveAuthor] and [saveUser]: at the first record that has
    the id, [record_fields[1] = name] and [break].  The assignment is not
    guarded by the size of the record. *)
Fixpoint assign_name (id name : string) (data : list (list string))
    : outcome (bool * list (list string)) :=
  match data with
  | [] => Ok (false, [])
  | record_fields :: rest =>
      if has_id id record_fields then
        match record_fields with
        | f0 :: _ :: tail => Ok (true, (f0 :: name :: tail) :: rest)
        | _ => Fault
        end
      else
        '(found, rest') <- assign_name id name rest ;;
        Ok (found, record_fields :: rest')
  end.

(** The loop of [saveLibraryItem] and [updateLoanRecord]: at the first
    record that has the id, [record_fields = new_fields] and [break]. *)
Fixpoint assign_record (id : string) (new_fields : list string)
    (data : list (list string)) : bool * list (list string) :=
  match data with
  | [] => (false, [])
  | record_fields :: rest =>
      if has_id id record_fields then (true, new_fields :: rest)
      else
        let '(found, rest') := assign_record id new_fields rest in
        (found, record_fields :: rest')
  end.

(** [erase(remove_if(...))] with the predicate of the delete operations. *)
Definition remove_id (id : string) (data : list (list string)) : list (list string) :=
  filter (fun record_fields => negb (has_id id record_fields)) data.

(** *** Authors *)

Definition saveAuthor (s : t) (author : option Author.t) : outcome t :=
  match author with
  | None => Ok s
  | Some a =>
      let all_authors_data := readCsvFile (authors_csv s) in
      '(found, data) <- assign_name (Author.getId a) (Author.getName a) all_authors_data ;;
      let data' :=
        if found then data else (data ++ [[Author.getId a; Author.getName a]])%list in
      Ok (mk (writeCsvFile data') (users_csv s) (items_csv s) (loans_csv s))
  end.

Fixpoint loadAuthor_loop (author_id : EntityId) (data : list (list string))
    : outcome (option Author.t) :=
  match data with
  | [] => Ok None
  | fields :: rest =>
      if (List.length fields =? 2)%nat && String.eqb (field 0 fields) author_id then
        a <- Author.new (field 0 fields) (field 1 fields) ;; Ok (Some a)
      else loadAuthor_loop author_id rest
  end.

Definition loadAuthor (s : t) (author_id : EntityId) : outcome (option Author.t) :=
  loadAuthor_loop author_id (readCsvFile (authors_csv s)).

Fixpoint loadAllAuthors_loop (data : list (list string)) : list Author.t :=
  match data with
  | [] => []
  | fields :: rest =>
      if (List.length fields =? 2)%nat then
        match Author.new (field 0 fields) (field 1 fields) with
        | Ok a => a :: loadAllAuthors_loop rest
        | _ => loadAllAuthors_loop rest
        end
      else loadAllAuthors_loop rest
  end.

Definition loadAllAuthors (s : t) : outcome (list Author.t) :=
  Ok (loadAllAuthors_loop (readCsvFile (authors_csv s))).

Definition deleteAuthor (s : t) (author_id : EntityId) : outcome t :=
  Ok (mk (writeCsvFile (remove_id author_id (readCsvFile (authors_csv s))))
         (users_csv s) (items_csv s) (loans_csv s)).

(** *** Library items (books) *)

Definition book_fields (book : Book.t) : list string :=
  [ Book.getId book;
    "Book";
    Book.getTitle book;
    match Book.getAuthor book with
    | Some a => Author.getId a
    | None => EmptyString
    end;
    Book.getIsbn book;
    Text.to_string (Book.getPublicationYear book);
    Text.to_string (status_to_int (Book.getAvailabilityStatus book)) ].

Definition saveLibraryItem (s : t) (item : option Book.t) : outcome t :=
  match item with
  | None => Ok s
  | Some book =>
      let all_items_data := readCsvFile (items_csv s) in
      let new_fields := book_fields book in
      let '(found, data) := assign_record (Book.getId book) new_fields all_items_data in
      let data' := if found then data else (data ++ [new_fields])%list in
      Ok (mk (authors_csv s) (users_csv s) (writeCsvFile data') (loans_csv s))
  end.

(** The body of the [try] block that rebuilds a book from the seven fields
    of its record, with the lines it writes to [std::cerr]; it is the same in
    [loadLibraryItem] and [loadAllLibraryItems].  The [catch] clause of the
    caller receives whatever it raises: the author lookup, [std::stoi] and
    the constructor of [Book] can all raise. *)
Definition book_of_fields (s : t) (fields : list string) : list string * outcome Book.t :=
  let author_id := field 3 fields in
  let lookup :=
    if empty author_id then Ok None else loadAuthor s author_id in
  match lookup with
  | Throw e => ([], Throw e)
  | Fault => ([], Fault)
  | Ok author =>
      let log :=
        match author with
        | Some _ => []
        | None =>
            if empty author_id then []
            else [ "Warning: Author ID '" ++ author_id ++ "' not found for book '"
                     ++ field 0 fields ++ "'.";
                   "FilePersistenceService: Could not load author " ++ author_id
                     ++ " for book " ++ field 0 fields ]
        end in
      match Text.stoi (field 5 fields), Text.stoi (field 6 fields) with
      | Some year, Some status =>
          (log, Book.new (field 0 fields) (field 2 fields) author (field 4 fields)
                         year (status_of_int status))
      | _, _ => (log, Throw StdInvalidArgument)
      end
  end.

(** [e.what()] of the exception that [book_of_fields] raises: the message
    of [std::stoi], of the constructor of [Book], or of the constructor of
    [Author] (whose id is then the author id of the record, not empty). *)
Definition book_error_what (s : t) (fields : list string) : string :=
  let author_id := field 3 fields in
  let lookup :=
    if empty author_id then Ok None else loadAuthor s author_id in
  match lookup with
  | Ok author =>
      match Text.stoi (field 5 fields), Text.stoi (field 6 fields) with
      | Some _, Some _ =>
          Book.what (field 0 fields) (field 2 fields) author (field 4 fields)
      | _, _ => "stoi"
      end
  | _ => Author.what author_id EmptyString
  end.

Fixpoint loadLibraryItem_loop (s : t) (item_id : EntityId) (data : list (list string))
    : list string * outcome (option Book.t) :=
  match data with
  | [] => ([], Ok None)
  | fields :: rest =>
      if (2 <=? List.length fields)%nat && String.eqb (field 0 fields) item_id
         && String.eqb (field 1 fields) "Book" && (List.length fields =? 7)%nat
      then
        match book_of_fields s fields with
        | (log, Ok book) => (log, Ok (Some book))
        | (log, Throw _) =>
            (List.app log [("Error parsing book record for ID " ++ field 0 fields ++ ": "
                              ++ book_error_what s fields)%string], Ok None)
        | (log, Fault) => (log, Fault)
        end
      else loadLibraryItem_loop s item_id rest
  end.

(** [loadLibraryItem] with what it logs. *)
Definition loadLibraryItem_logged (s : t) (item_id : EntityId)
    : list string * outcome (option Book.t) :=
  loadLibraryItem_loop s item_id (readCsvFile (items_csv s)).

Definition loadLibraryItem (s : t) (item_id : EntityId) : outcome (option Book.t) :=
  snd (loadLibraryItem_logged s item_id).

Fixpoint loadAllLibraryItems_loop (s : t) (data : list (list string))
    : outcome (list Book.t) :=
  match data with
  | [] => Ok []
  | fields :: rest =>
      if (2 <=? List.length fields)%nat && String.eqb (field 1 fields) "Book"
         && (List.length fields =? 7)%nat
      then
        match snd (book_of_fields s fields) with
        | Ok book => items <- loadAllLibraryItems_loop s rest ;; Ok (book :: items)
        | Throw _ => loadAllLibraryItems_loop s rest
        | Fault => Fault
        end
      else loadAllLibraryItems_loop s rest
  end.

Definition loadAllLibraryItems (s : t) : outcome (list Book.t) :=
  loadAllLibraryItems_loop s (readCsvFile (items_csv s)).

Definition deleteLibraryItem (s : t) (item_id : EntityId) : outcome t :=
  Ok (mk (authors_csv s) (users_csv s)
         (writeCsvFile (remove_id item_id (readCsvFile (items_csv s))))
         (loans_csv s)).

(** *** Users *)

Definition saveUser (s : t) (user : User.t) : outcome t :=
  let all_users_data := readCsvFile (users_csv s) in
  '(found, data) <- assign_name (User.getUserId user) (User.getName user) all_users_data ;;
  let data' :=
    if found then data else (data ++ [[User.getUserId user; User.getName user]])%list in
  Ok (mk (authors_csv s) (writeCsvFile data') (items_csv s) (loans_csv s)).

Fixpoint loadUser_loop (user_id : EntityId) (data : list (list string)) : option User.t :=
  match data with
  | [] => None
  | fields :: rest =>
      if (List.length fields =? 2)%nat && String.eqb (field 0 fields) user_id then
        match User.new (field 0 fields) (field 1 fields) with
        | Ok u => Some u
        | _ => loadUser_loop user_id rest
        end
      else loadUser_loop user_id rest
  end.

Definition loadUser (s : t) (user_id : EntityId) : outcome (option User.t) :=
  Ok (loadUser_loop user_id (readCsvFile (users_csv s))).

Fixpoint loadAllUsers_loop (data : list (list string)) : list User.t :=
  match data with
  | [] => []
  | fields :: rest =>
      if (List.length fields =? 2)%nat then
        match User.new (field 0 fields) (field 1 fields) with
        | Ok u => u :: loadAllUsers_loop rest
        | _ => loadAllUsers_loop rest
        end
      else loadAllUsers_loop rest
  end.

Definition loadAllUsers (s : t) : outcome (list User.t) :=
  Ok (loadAllUsers_loop (readCsvFile (users_csv s))).

Definition deleteUser (s : t) (user_id : EntityId) : outcome t :=
  Ok (mk (authors_csv s)
         (writeCsvFile (remove_id user_id (readCsvFile (users_csv s))))
         (items_csv s) (loans_csv s)).

(** *** Loan records

    [tz] is the local time zone of the [DateTimeUtils] the backend holds. *)
Section Loans.
Variable tz : Z.

Definition loan_fields (record : LoanRecord.t) : list string :=
  let return_date_str :=
    match LoanRecord.getReturnDate record with
    | Some d => DateTimeUtils.formatDateTime tz d DateTimeUtils.date_time_format
    | None => EmptyString
    end in
  [ LoanRecord.getRecordId record;
    LoanRecord.getItemId record;
    LoanRecord.getUserId record;
    DateTimeUtils.formatDateTime tz (LoanRecord.getLoanDate record)
      DateTimeUtils.date_time_format;
    DateTimeUtils.formatDateTime tz (LoanRecord.getDueDate record)
      DateTimeUtils.date_time_format;
    return_date_str ].

Definition updateLoanRecord (s : t) (record : LoanRecord.t) : outcome t :=
  let all_loans_data := readCsvFile (loans_csv s) in
  let new_fields := loan_fields record in
  let '(found, data) :=
    assign_record (LoanRecord.getRecordId record) new_fields all_loans_data in
  let data' := if found then data else (data ++ [new_fields])%list in
  Ok (mk (authors_csv s) (users_csv s) (items_csv s) (writeCsvFile data')).

Definition saveLoanRecord (s : t) (record : LoanRecord.t) : outcome t :=
  updateLoanRecord s record.

(** The body of the [try] block that rebuilds a loan record from the six
    fields of its record, the same in [loadLoanRecord] and
    [loadAllLoanRecords]; [None] when the record is passed over: a loan or
    due date that does not parse ([continue]), or an exception from the
    constructor or from [setReturnDate] (caught and logged).  A return date
    that does not parse is logged and left unset. *)
Definition loan_of_fields (fields : list string) : option LoanRecord.t :=
  match DateTimeUtils.parseDate tz (field 3 fields) DateTimeUtils.date_time_format,
        DateTimeUtils.parseDate tz (field 4 fields) DateTimeUtils.date_time_format with
  | Some loan_date, Some due_date =>
      match LoanRecord.new (field 0 fields) (field 1 fields) (field 2 fields)
                           loan_date due_date with
      | Ok loan =>
          if empty (field 5 fields) then Some loan
          else
            match DateTimeUtils.parseDate tz (field 5 fields)
                    DateTimeUtils.date_time_format with
            | Some return_date =>
                match LoanRecord.setReturnDate loan return_date with
                | Ok loan' => Some loan'
                | _ => None
                end
            | None => Some loan
            end
      | _ => None
      end
  | _, _ => None
  end.

Fixpoint loadLoanRecord_loop (record_id : EntityId) (data : list (list string))
    : option LoanRecord.t :=
  match data with
  | [] => None
  | fields :: rest =>
      if (List.length fields =? 6)%nat && String.eqb (field 0 fields) record_id then
        match loan_of_fields fields with
        | Some loan => Some loan
        | None => loadLoanRecord_loop record_id rest
        end
      else loadLoanRecord_loop record_id rest
  end.

Definition loadLoanRecord (s : t) (record_id : EntityId) : outcome (option LoanRecord.t) :=
  Ok (loadLoanRecord_loop record_id (readCsvFile (loans_csv s))).

Fixpoint loadAllLoanRecords_loop (data : list (list string)) : list LoanRecord.t :=
  match data with
  | [] => []
  | fields :: rest =>
      if (List.length fields =? 6)%nat then
        match loan_of_fields fields with
        | Some loan => loan :: loadAllLoanRecords_loop rest
        | None => loadAllLoanRecords_loop rest
        end
      else loadAllLoanRecords_loop rest
  end.

Definition loadAllLoanRecords (s : t) : outcome (list LoanRecord.t) :=
  Ok (loadAllLoanRecords_loop (readCsvFile (loans_csv s))).

Definition loadLoanRecordsByUserId (s : t) (user_id : EntityId)
    : outcome (list LoanRecord.t) :=
  all_loans <- loadAllLoanRecords s ;;
  Ok (filter (fun loan => String.eqb (LoanRecord.getUserId loan) user_id) all_loans).

Definition loadLoanRecordsByItemId (s : t) (item_id : EntityId)
    : outcome (list LoanRecord.t) :=
  all_loans <- loadAllLoanRecords s ;;
  Ok (filter (fun loan => String.eqb (LoanRecord.getItemId loan) item_id) all_loans).

Definition deleteLoanRecord (s : t) (record_id : EntityId) : outcome t :=
  Ok (mk (authors_csv s) (users_csv s) (items_csv s)
         (writeCsvFile (remove_id record_id (readCsvFile (loans_csv s))))).

(** The backend as an implementation of the contract. *)
Definition backend : IPersistenceService.t t := {|
  IPersistenceService.saveAuthor := saveAuthor;
  IPersistenceService.loadAuthor := loadAuthor;
  IPersistenceService.loadAllAuthors := loadAllAuthors;
  IPersistenceService.deleteAuthor := deleteAuthor;
  IPersistenceService.saveLibraryItem := saveLibraryItem;
  IPersistenceService.loadLibraryItem := loadLibraryItem;
  IPersistenceService.loadAllLibraryItems := loadAllLibraryItems;
  IPersistenceService.deleteLibraryItem := deleteLibraryItem;
  IPersistenceService.saveUser := saveUser;
  IPersistenceService.loadUser := loadUser;
  IPersistenceService.loadAllUsers := loadAllUsers;
  IPersistenceService.deleteUser := deleteUser;
  IPersistenceService.saveLoanRecord := saveLoanRecord;
  IPersistenceService.loadLoanRecord := loadLoanRecord;
  IPersistenceService.loadLoanRecordsByUserId := loadLoanRecordsByUserId;
  IPersistenceService.loadLoanRecordsByItemId := loadLoanRecordsByItemId;
  IPersistenceService.loadAllLoanRecords := loadAllLoanRecords;
  IPersistenceService.deleteLoanRecord := deleteLoanRecord;
  IPersistenceService.updateLoanRecord := updateLoanRecord
|}.
End Loans.
End FilePersistenceService.

(** ** persistence_service/caching_file_persistence_service.cc *)
Module CachingFilePersistenceService.
Record t : Type := mk {
  m_memory_store : InMemoryPersistenceService.t;
  m_file_store : FilePersistenceService.t
}.

Section Cache.
Variable tz : Z.

Definition loadAllFromFileToMemory (file_store : FilePersistenceService.t) : outcome t :=
  let memory0 := InMemoryPersistenceService.new in
  authors_from_file <- FilePersistenceService.loadAllAuthors file_store ;;
  memory1 <- for_each (fun m author => InMemoryPersistenceService.saveAuthor m (Some author))
               authors_from_file memory0 ;;
  users_from_file <- FilePersistenceService.loadAllUsers file_store ;;
  memory2 <- for_each InMemoryPersistenceService.saveUser users_from_file memory1 ;;
  items_from_file <- FilePersistenceService.loadAllLibraryItems file_store ;;
  memory3 <- for_each (fun m item => InMemoryPersistenceService.saveLibraryItem m (Some item))
               items_from_file memory2 ;;
  loans_from_file <- FilePersistenceService.loadAllLoanRecords tz file_store ;;
  memory4 <- for_each InMemoryPersistenceService.saveLoanRecord loans_from_file memory3 ;;
  Ok (mk memory4 file_store).

(** The constructor. *)
Definition new (file_store : FilePersistenceService.t) : outcome t :=
  loadAllFromFileToMemory file_store.

Definition persistAllToFile (c : t) : outcome t :=
  all_authors_mem <- InMemoryPersistenceService.loadAllAuthors (m_memory_store c) ;;
  file1 <- for_each (fun f author => FilePersistenceService.saveAuthor f (Some author))
             all_authors_mem (m_file_store c) ;;
  all_users_mem <- InMemoryPersistenceService.loadAllUsers (m_memory_store c) ;;
  file2 <- for_each FilePersistenceService.saveUser all_users_mem file1 ;;
  all_items_mem <- InMemoryPersistenceService.loadAllLibraryItems (m_memory_store c) ;;
  file3 <- for_each (fun f item => FilePersistenceService.saveLibraryItem f (Some item))
             all_items_mem file2 ;;
  all_loans_mem <- InMemoryPersistenceService.loadAllLoanRecords (m_memory_store c) ;;
  file4 <- for_each (FilePersistenceService.saveLoanRecord tz) all_loans_mem file3 ;;
  Ok (mk (m_memory_store c) file4).

(** Every operation of the contract goes to the memory store alone. *)
Definition on_memory (c : t) (r : outcome InMemoryPersistenceService.t) : outcome t :=
  m <- r ;; Ok (mk m (m_file_store c)).

Definition saveAuthor (c : t) (author : option Author.t) : outcome t :=
  on_memory c (InMemoryPersistenceService.saveAuthor (m_memory_store c) author).
Definition loadAuthor (c : t) (author_id : EntityId) : outcome (option Author.t) :=
  InMemoryPersistenceService.loadAuthor (m_memory_store c) author_id.
Definition loadAllAuthors (c : t) : outcome (list Author.t) :=
  InMemoryPersistenceService.loadAllAuthors (m_memory_store c).
Definition deleteAuthor (c : t) (author_id : EntityId) : outcome t :=
  on_memory c (InMemoryPersistenceService.deleteAuthor (m_memory_store c) author_id).

Definition saveLibraryItem (c : t) (item : option Book.t) : outcome t :=
  on_memory c (InMemoryPersistenceService.saveLibraryItem (m_memory_store c) item).
Definition loadLibraryItem (c : t) (item_id : EntityId) : outcome (option Book.t) :=
  InMemoryPersistenceService.loadLibraryItem (m_memory_store c) item_id.
Definition loadAllLibraryItems (c : t) : outcome (list Book.t) :=
  InMemoryPersistenceService.loadAllLibraryItems (m_memory_store c).
Definition deleteLibraryItem (c : t) (item_id : EntityId) : outcome t :=
  on_memory c (InMemoryPersistenceService.deleteLibraryItem (m_memory_store c) item_id).

Definition saveUser (c : t) (user : User.t) : outcome t :=
  on_memory c (InMemoryPersistenceService.saveUser (m_memory_store c) user).
Definition loadUser (c : t) (user_id : EntityId) : outcome (option User.t) :=
  InMemoryPersistenceService.loadUser (m_memory_store c) user_id.
Definition loadAllUsers (c : t) : outcome (list User.t) :=
  InMemoryPersistenceService.loadAllUsers (m_memory_store c).
Definition deleteUser (c : t) (user_id : EntityId) : outcome t :=
  on_memory c (InMemoryPersistenceService.deleteUser (m_memory_store c) user_id).

Definition saveLoanRecord (c : t) (record : LoanRecord.t) : outcome t :=
  on_memory c (InMemoryPersistenceService.saveLoanRecord (m_memory_store c) record).
Definition loadLoanRecord (c : t) (record_id : EntityId) : outcome (option LoanRecord.t) :=
  InMemoryPersistenceService.loadLoanRecord (m_memory_store c) record_id.
Definition loadLoanRecordsByUserId (c : t) (user_id : EntityId)
    : outcome (list LoanRecord.t) :=
  InMemoryPersistenceService.loadLoanRecordsByUserId (m_memory_store c) user_id.
Definition loadLoanRecordsByItemId (c : t) (item_id : EntityId)
    : outcome (list LoanRecord.t) :=
  InMemoryPersistenceService.loadLoanRecordsByItemId (m_memory_store c) item_id.
Definition loadAllLoanRecords (c : t) : outcome (list LoanRecord.t) :=
  InMemoryPersistenceService.loadAllLoanRecords (m_memory_store c).
Definition deleteLoanRecord (c : t) (record_id : EntityId) : outcome t :=
  on_memory c (InMemoryPersistenceService.deleteLoanRecord (m_memory_store c) record_id).
Definition updateLoanRecord (c : t) (record : LoanRecord.t) : outcome t :=
  on_memory c (InMemoryPersistenceService.updateLoanRecord (m_memory_store c) record).
End Cache.

#[global] Instance backend : IPersistenceService.t t := {|
  IPersistenceService.saveAuthor := saveAuthor;
  IPersistenceService.loadAuthor := loadAuthor;
  IPersistenceService.loadAllAuthors := loadAllAuthors;
  IPersistenceService.deleteAuthor := deleteAuthor;
  IPersistenceService.saveLibraryItem := saveLibraryItem;
  IPersistenceService.loadLibraryItem := loadLibraryItem;
  IPersistenceService.loadAllLibraryItems := loadAllLibraryItems;
  IPersistenceService.deleteLibraryItem := deleteLibraryItem;
  IPersistenceService.saveUser := saveUser;
  IPersistenceService.loadUser := loadUser;
  IPersistenceService.loadAllUsers := loadAllUsers;
  IPersistenceService.deleteUser := deleteUser;
  IPersistenceService.saveLoanRecord := saveLoanRecord;
  IPersistenceService.loadLoanRecord := loadLoanRecord;
  IPersistenceService.loadLoanRecordsByUserId := loadLoanRecordsByUserId;
  IPersistenceService.loadLoanRecordsByItemId := loadLoanRecordsByItemId;
  IPersistenceService.loadAllLoanRecords := loadAllLoanRecords;
  IPersistenceService.deleteLoanRecord := deleteLoanRecord;
  IPersistenceService.updateLoanRecord := updateLoanRecord
|}.
End CachingFilePersistenceService.

(** ** user_service and catalog_service

    Both services hold the persistence service they are given and keep no
    state of their own: their operations act on the state [S] of the
    backend. *)
Module UserService.
Section Service.
Context {S : Type} {P : IPersistenceService.t S}.

Definition findUserById (store : S) (user_id : EntityId) : outcome (option User.t) :=
  if empty user_id then Throw InvalidArgumentException
  else IPersistenceService.loadUser store user_id.

Definition addUser (store : S) (user_id : EntityId) (name : string) : outcome S :=
  if empty user_id then Throw InvalidArgumentException
  else if empty name then Throw InvalidArgumentException
  else
    existing <- IPersistenceService.loadUser store user_id ;;
    match existing with
    | Some _ => Throw OperationFailedException
    | None =>
        new_user <- User.new user_id name ;;
        IPersistenceService.saveUser store new_user
    end.

Definition findUsersByName (store : S) (name : string) : outcome (list User.t) :=
  if empty name then Throw InvalidArgumentException
  else
    all_users <- IPersistenceService.loadAllUsers store ;;
    Ok (filter (fun user => String.eqb (User.getName user) name) all_users).

Definition getAllUsers (store : S) : outcome (list User.t) :=
  IPersistenceService.loadAllUsers store.

Definition updateUser (store : S) (user_id : EntityId) (new_name : string) : outcome S :=
  if empty user_id then Throw InvalidArgumentException
  else if empty new_name then Throw InvalidArgumentException
  else
    user_opt <- IPersistenceService.loadUser store user_id ;;
    match user_opt with
    | None => Throw NotFoundException
    | Some user =>
        user_to_update <- User.setName user new_name ;;
        IPersistenceService.saveUser store user_to_update
    end.

(** The result with the state of the backend that the call leaves. *)
Definition removeUser (store : S) (user_id : EntityId) : outcome (bool * S) :=
  if empty user_id then Throw InvalidArgumentException
  else
    user_opt <- IPersistenceService.loadUser store user_id ;;
    match user_opt with
    | None => Ok (false, store)
    | Some _ =>
        store' <- IPersistenceService.deleteUser store user_id ;;
        Ok (true, store')
    end.
End Service.
End UserService.

Module CatalogService.
Section Service.
Context {S : Type} {P : IPersistenceService.t S}.

Definition findItemById (store : S) (item_id : EntityId) : outcome (option Book.t) :=
  if empty item_id then Throw InvalidArgumentException
  else IPersistenceService.loadLibraryItem store item_id.

Definition updateItemStatus (store : S) (item_id : EntityId)
    (new_status : AvailabilityStatus) : outcome S :=
  if empty item_id then Throw InvalidArgumentException
  else
    item_opt <- IPersistenceService.loadLibraryItem store item_id ;;
    match item_opt with
    | None => Throw NotFoundException
    | Some item_to_update =>
        IPersistenceService.saveLibraryItem store
          (Some (Book.setAvailabilityStatus item_to_update new_status))
    end.

(** The author with the state of the backend that the call leaves; the
    backend is written last, and only when the author was not there. *)
Definition getOrCreateAuthor (store : S) (author_id : EntityId) (author_name : string)
    : outcome (Author.t * S) :=
  author_opt <- IPersistenceService.loadAuthor store author_id ;;
  match author_opt with
  | Some author => Ok (author, store)
  | None =>
      if empty author_id || empty author_name then Throw InvalidArgumentException
      else
        new_author <- Author.new author_id author_name ;;
        store' <- IPersistenceService.saveAuthor store (Some new_author) ;;
        Ok (new_author, store')
  end.

(** [addBook] writes the backend twice, the author and then the book: it
    returns its outcome with the state it leaves, so that an exception
    raised after the author was saved keeps the author. *)
Definition addBook (store : S) (item_id : EntityId) (title : string)
    (author_id : EntityId) (author_name isbn : string) (publication_year : Z)
    : outcome unit * S :=
  if empty item_id || empty title || empty isbn || (publication_year <=? 0)
  then (Throw InvalidArgumentException, store)
  else
    match IPersistenceService.loadLibraryItem store item_id with
    | Throw e => (Throw e, store)
    | Fault => (Fault, store)
    | Ok (Some _) => (Throw OperationFailedException, store)
    | Ok None =>
        match getOrCreateAuthor store author_id author_name with
        | Throw e => (Throw e, store)
        | Fault => (Fault, store)
        | Ok (author, store1) =>
            match Book.new item_id title (Some author) isbn publication_year AVAILABLE with
            | Throw e => (Throw e, store1)
            | Fault => (Fault, store1)
            | Ok new_book =>
                match IPersistenceService.saveLibraryItem store1 (Some new_book) with
                | Throw e => (Throw e, store1)
                | Fault => (Fault, store1)
                | Ok store2 => (Ok tt, store2)
                end
            end
        end
    end.

Definition removeItem (store : S) (item_id : EntityId) : outcome (bool * S) :=
  if empty item_id then Throw InvalidArgumentException
  else
    item_opt <- IPersistenceService.loadLibraryItem store item_id ;;
    match item_opt with
    | None => Ok (false, store)
    | Some _ =>
        store' <- IPersistenceService.deleteLibraryItem store item_id ;;
        Ok (true, store')
    end.

Definition findItemsByTitle (store : S) (title : string) : outcome (list Book.t) :=
  if empty title then Throw InvalidArgumentException
  else
    all_items <- IPersistenceService.loadAllLibraryItems store ;;
    Ok (filter (fun item => String.eqb (Book.getTitle item) title) all_items).

Definition findItemsByAuthor (store : S) (author_id : EntityId) : outcome (list Book.t) :=
  if empty author_id then Throw InvalidArgumentException
  else
    all_items <- IPersistenceService.loadAllLibraryItems store ;;
    Ok (filter (fun item =>
                  match Book.getAuthor item with
                  | Some author => String.eqb (Author.getId author) author_id
                  | None => false
                  end) all_items).

Definition getAllItems (store : S) : outcome (list Book.t) :=
  IPersistenceService.loadAllLibraryItems store.
End Service.
End CatalogService.

(** ** loan_service/loan_service.cc

    The state of the service and of what it drives: the backend shared with
    the user and catalog services, the counter behind the loan ids, and the
    calls made to the notification service, oldest first.  An operation takes
    the reading of the clock at which it runs and returns its outcome with
    the state it leaves: an exception does not undo what was written before
    it was raised. *)
Module LoanService.
Section Service.
Context {S : Type} {P : IPersistenceService.t S}.
Variable tz : Z.

Record t : Type := mk {
  m_persistence_service : S;
  m_default_loan_duration_days : Z;
  m_next_loan_id_counter : Z;
  m_notifications : list (EntityId * string)
}.

(** The constructor, given services that are not null. *)
Definition new (store : S) (default_loan_duration_days : Z) : outcome t :=
  if default_loan_duration_days <=? 0 then Throw StdInvalidArgument
  else Ok (mk store default_loan_duration_days 0 []).

Definition with_store (sv : t) (store : S) : t :=
  mk store (m_default_loan_duration_days sv) (m_next_loan_id_counter sv)
     (m_notifications sv).

Definition with_counter (sv : t) (counter : Z) : t :=
  mk (m_persistence_service sv) (m_default_loan_duration_days sv) counter
     (m_notifications sv).

(** [INotificationService::sendNotification]. *)
Definition sendNotification (sv : t) (user_id : EntityId) (message : string) : t :=
  mk (m_persistence_service sv) (m_default_loan_duration_days sv)
     (m_next_loan_id_counter sv)
     (List.app (m_notifications sv) [(user_id, message)]).

Definition generateLoanRecordId (sv : t) : EntityId * t :=
  let counter := m_next_loan_id_counter sv + 1 in
  ("loan_" ++ Text.to_string counter, with_counter sv counter).

Definition getActiveLoansForUser (store : S) (user_id : EntityId)
    : outcome (list LoanRecord.t) :=
  if empty user_id then Throw InvalidArgumentException
  else
    user_history <- IPersistenceService.loadLoanRecordsByUserId store user_id ;;
    Ok (filter (fun record =>
                  match LoanRecord.getReturnDate record with
                  | None => true
                  | Some _ => false
                  end) user_history).

(** What is left of an operation once its state is [sv]: a step that reads
    the backend, and a step that writes it. *)
Definition reading {A B : Type} (sv : t) (r : outcome A) (k : A -> outcome B * t)
    : outcome B * t :=
  match r with
  | Ok a => k a
  | Throw e => (Throw e, sv)
  | Fault => (Fault, sv)
  end.

Definition writing {B : Type} (sv : t) (r : outcome S) (k : t -> outcome B * t)
    : outcome B * t :=
  match r with
  | Ok store => k (with_store sv store)
  | Throw e => (Throw e, sv)
  | Fault => (Fault, sv)
  end.

Definition borrowItem (now : Date) (user_id item_id : EntityId) (sv : t)
    : outcome LoanRecord.t * t :=
  if empty user_id || empty item_id then (Throw InvalidArgumentException, sv)
  else
    reading sv (UserService.findUserById (m_persistence_service sv) user_id) (fun user_opt =>
    match user_opt with
    | None => (Throw NotFoundException, sv)
    | Some _ =>
    reading sv (CatalogService.findItemById (m_persistence_service sv) item_id) (fun item_opt =>
    match item_opt with
    | None => (Throw NotFoundException, sv)
    | Some item =>
    if negb (is_available (Book.getAvailabilityStatus item))
    then (Throw OperationFailedException, sv)
    else
    reading sv (getActiveLoansForUser (m_persistence_service sv) user_id) (fun user_loans =>
    if existsb (fun lr => String.eqb (LoanRecord.getItemId lr) item_id) user_loans
    then (Throw OperationFailedException, sv)
    else
    let loan_date := now in
    let due_date := DateTimeUtils.addDays loan_date (m_default_loan_duration_days sv) in
    let '(loan_id, sv1) := generateLoanRecordId sv in
    reading sv1 (LoanRecord.new loan_id item_id user_id loan_date due_date) (fun new_loan =>
    writing sv1 (IPersistenceService.saveLoanRecord (m_persistence_service sv1) new_loan) (fun sv2 =>
    writing sv2 (CatalogService.updateItemStatus (m_persistence_service sv2) item_id BORROWED) (fun sv3 =>
    (Ok new_loan, sv3)))))
    end)
    end).

(** The loop of [returnItem]: the first loan of the user that has no return
    date. *)
Definition find_active_loan (user_id : EntityId) (all_item_loans : list LoanRecord.t)
    : option LoanRecord.t :=
  List.find (fun loan =>
               String.eqb (LoanRecord.getUserId loan) user_id &&
               match LoanRecord.getReturnDate loan with
               | None => true
               | Some _ => false
               end) all_item_loans.

Definition returnItem (now : Date) (user_id item_id : EntityId) (sv : t)
    : outcome unit * t :=
  if empty user_id || empty item_id then (Throw InvalidArgumentException, sv)
  else
    reading sv (IPersistenceService.loadLoanRecordsByItemId (m_persistence_service sv) item_id)
      (fun all_item_loans =>
    match find_active_loan user_id all_item_loans with
    | None => (Throw NotFoundException, sv)
    | Some active_loan =>
    reading sv (LoanRecord.setReturnDate active_loan now) (fun returned_loan =>
    writing sv (IPersistenceService.updateLoanRecord (m_persistence_service sv) returned_loan) (fun sv1 =>
    writing sv1 (CatalogService.updateItemStatus (m_persistence_service sv1) item_id AVAILABLE) (fun sv2 =>
    (Ok tt, sv2))))
    end).

Definition is_overdue (today : Date) (loan : LoanRecord.t) : bool :=
  match LoanRecord.getReturnDate loan with
  | None => LoanRecord.getDueDate loan <? today
  | Some _ => false
  end.

Definition overdue_message (user_name item_title : string) (loan : LoanRecord.t) : string :=
  "Dear " ++ user_name ++ ", the item '" ++ item_title ++ "' (Loan ID: "
    ++ LoanRecord.getRecordId loan ++ ") was due on "
    ++ DateTimeUtils.formatDate tz (LoanRecord.getDueDate loan) DateTimeUtils.date_format
    ++ ". Please return it as soon as possible.".

(** The body of the loop of [processOverdueItems]. *)
Definition process_loan (today : Date) (sv : t) (loan : LoanRecord.t) : outcome t :=
  if is_overdue today loan then
    user_opt <- UserService.findUserById (m_persistence_service sv) (LoanRecord.getUserId loan) ;;
    item_opt <- CatalogService.findItemById (m_persistence_service sv) (LoanRecord.getItemId loan) ;;
    let user_name :=
      match user_opt with
      | Some user => User.getName user
      | None => "Unknown User"
      end in
    let item_title :=
      match item_opt with
      | Some item => Book.getTitle item
      | None => "Unknown Item"
      end in
    Ok (sendNotification sv (LoanRecord.getUserId loan)
          (overdue_message user_name item_title loan))
  else Ok sv.

(** The loop, with the state reached when an iteration raises. *)
Fixpoint process_loans (today : Date) (loans : list LoanRecord.t) (sv : t)
    : outcome unit * t :=
  match loans with
  | [] => (Ok tt, sv)
  | loan :: rest =>
      match process_loan today sv loan with
      | Ok sv' => process_loans today rest sv'
      | Throw e => (Throw e, sv)
      | Fault => (Fault, sv)
      end
  end.

Definition processOverdueItems (now : Date) (sv : t) : outcome unit * t :=
  reading sv (IPersistenceService.loadAllLoanRecords (m_persistence_service sv))
    (fun all_loans => process_loans (DateTimeUtils.today tz now) all_loans sv).

Definition getLoanHistoryForUser (store : S) (user_id : EntityId)
    : outcome (list LoanRecord.t) :=
  if empty user_id then Throw InvalidArgumentException
  else IPersistenceService.loadLoanRecordsByUserId store user_id.

Definition getLoanHistoryForItem (store : S) (item_id : EntityId)
    : outcome (list LoanRecord.t) :=
  if empty item_id then Throw InvalidArgumentException
  else IPersistenceService.loadLoanRecordsByItemId store item_id.
End Service.
Arguments t : clear implicits.
End LoanService.

(** ** notification_service/console_notification_service.cc

    The console is the lines written to [std::cout] and to [std::cerr],
    oldest first. *)
Module ConsoleNotificationService.
Record console : Type := mk { cout : list string; cerr : list string }.

Definition sendNotification (out : console) (user_id : EntityId) (message : string)
    : console :=
  if empty user_id then
    mk (cout out)
       (List.app (cerr out) ["[ConsoleNotificationService ERROR] User ID cannot be empty."])
  else if empty message then
    mk (cout out)
       (List.app (cerr out)
          ["[ConsoleNotificationService ERROR] Notification message cannot be empty for user '"
             ++ user_id ++ "'."])
  else
    mk (List.app (cout out) ["[NOTIFICATION to User '" ++ user_id ++ "']: " ++ message])
       (cerr out).

(** The calls that a service made, delivered in order. *)
Definition deliver (notifications : list (EntityId * string)) (out : console) : console :=
  fold_left (fun o n => sendNotification o (fst n) (snd n)) notifications out.
End ConsoleNotificationService.

(** ** app/main.cc: the helpers of the command line *)
Module App.
Definition split (s : string) (delimiter : ascii) : list string :=
  Text.getline_all delimiter s.

(** The [switch] compares the value of the enumeration. *)
Definition availabilityStatusToString (status : AvailabilityStatus) : string :=
  let v := status_to_int status in
  if v =? 0 then "Available"
  else if v =? 1 then "Borrowed"
  else if v =? 2 then "Reserved"
  else if v =? 3 then "Maintenance"
  else "Unknown".

(** The loop of [readCommandArgs] over the characters that are left, with
    its three variables. *)
Fixpoint readCommandArgs_loop (line : string) (args : list string)
    (current_arg : string) (in_quotes : bool) : list string :=
  match line with
  | EmptyString =>
      if negb (empty current_arg) then List.app args [current_arg] else args
  | String ch rest =>
      if Ascii.eqb ch Text.quote then
        let in_quotes' := negb in_quotes in
        if negb in_quotes' && negb (empty current_arg)
        then readCommandArgs_loop rest (List.app args [current_arg]) EmptyString in_quotes'
        else readCommandArgs_loop rest args current_arg in_quotes'
      else if Ascii.eqb ch " " && negb in_quotes then
        if negb (empty current_arg)
        then readCommandArgs_loop rest (List.app args [current_arg]) EmptyString in_quotes
        else readCommandArgs_loop rest args current_arg in_quotes
      else
        readCommandArgs_loop rest args (current_arg ++ String ch EmptyString) in_quotes
  end.

Definition readCommandArgs (line : string) : list string :=
  readCommandArgs_loop line [] EmptyString false.
End App.

(** * Specification vocabulary *)

(** ** States of the in-memory backend that its own operations produce

    Every entry is filed under the id of its value, and every value is one
    that its constructor accepts. *)
Definition keyed_by {V : Type} (id : V -> string) (m : StdMap.t V) : Prop :=
  forall k v, In (k, v) m -> id v = k.

Definition all_values {V : Type} (good : V -> Prop) (m : StdMap.t V) : Prop :=
  forall k v, In (k, v) m -> good v.

Record memory_wf (s : InMemoryPersistenceService.t) : Prop := {
  wf_authors_keyed : keyed_by Author.m_id (InMemoryPersistenceService.m_authors s);
  wf_authors_valid : all_values Author.valid (InMemoryPersistenceService.m_authors s);
  wf_items_keyed : keyed_by Book.m_id (InMemoryPersistenceService.m_items s);
  wf_items_valid : all_values Book.valid (InMemoryPersistenceService.m_items s);
  wf_users_keyed : keyed_by User.m_user_id (InMemoryPersistenceService.m_users s);
  wf_users_valid : all_values User.valid (InMemoryPersistenceService.m_users s);
  wf_loans_keyed :
    keyed_by LoanRecord.m_record_id (InMemoryPersistenceService.m_loan_records s);
  wf_loans_valid :
    all_values (fun r => LoanRecord.ids_ok r /\ LoanRecord.dates_ok r)
      (InMemoryPersistenceService.m_loan_records s)
}.

(** The user holds no loan of the item that is still open. *)
Definition no_active_loan (user_id item_id : EntityId)
    (s : InMemoryPersistenceService.t) : Prop :=
  forall r,
    In r (StdMap.values (InMemoryPersistenceService.m_loan_records s)) ->
    LoanRecord.m_user_id r = user_id ->
    LoanRecord.m_item_id r = item_id ->
    LoanRecord.m_return_date r <> None.

(** The status of the item of that id, as stored. *)
Definition stored_status (s : InMemoryPersistenceService.t) (item_id : EntityId)
    : option AvailabilityStatus :=
  option_map Book.m_availability_status
    (StdMap.find item_id (InMemoryPersistenceService.m_items s)).


(** The state a successful borrow leaves in the in-memory backend. *)
Definition borrowed_loan (now : Date) (days counter : Z) (user_id item_id : EntityId)
    : LoanRecord.t :=
  LoanRecord.mk ("loan_" ++ Text.to_string (counter + 1)) item_id user_id now
    (DateTimeUtils.addDays now days) None.

Definition borrowed_state (mem : InMemoryPersistenceService.t) (item : Book.t)
    (loan : LoanRecord.t) : InMemoryPersistenceService.t :=
  InMemoryPersistenceService.mk
    (InMemoryPersistenceService.m_authors mem)
    (StdMap.set (LoanRecord.m_item_id loan) (Book.setAvailabilityStatus item BORROWED)
       (InMemoryPersistenceService.m_items mem))
    (InMemoryPersistenceService.m_users mem)
    (StdMap.set (LoanRecord.m_record_id loan) loan
       (InMemoryPersistenceService.m_loan_records mem)).

(** A loan record once returned at [now]. *)
Definition returned_loan (loan : LoanRecord.t) (now : Date) : LoanRecord.t :=
  LoanRecord.mk (LoanRecord.m_record_id loan) (LoanRecord.m_item_id loan)
    (LoanRecord.m_user_id loan) (LoanRecord.m_loan_date loan)
    (LoanRecord.m_due_date loan) (Some now).

(** The state a successful return leaves in the in-memory backend. *)
Definition returned_state (mem : InMemoryPersistenceService.t) (item : Book.t)
    (loan : LoanRecord.t) : InMemoryPersistenceService.t :=
  InMemoryPersistenceService.mk
    (InMemoryPersistenceService.m_authors mem)
    (StdMap.set (LoanRecord.m_item_id loan) (Book.setAvailabilityStatus item AVAILABLE)
       (InMemoryPersistenceService.m_items mem))
    (InMemoryPersistenceService.m_users mem)
    (StdMap.set (LoanRecord.m_record_id loan) loan
       (InMemoryPersistenceService.m_loan_records mem)).

(** [loan] is the one open loan of the item to the user. *)
Definition only_active_loan (loan : LoanRecord.t) (mem : InMemoryPersistenceService.t)
    : Prop :=
  In loan (StdMap.values (InMemoryPersistenceService.m_loan_records mem)) /\
  LoanRecord.m_return_date loan = None /\
  forall r,
    In r (StdMap.values (InMemoryPersistenceService.m_loan_records mem)) ->
    LoanRecord.m_user_id r = LoanRecord.m_user_id loan ->
    LoanRecord.m_item_id r = LoanRecord.m_item_id loan ->
    LoanRecord.m_return_date r = None ->
    r = loan.

(** ** The overdue scan over the in-memory backend *)

(** The notification the scan sends for a loan: to the user of the loan, with
    the names looked up in the store or their placeholders. *)
Definition overdue_notification (tz : Z) (mem : InMemoryPersistenceService.t)
    (loan : LoanRecord.t) : EntityId * string :=
  let user_name :=
    match StdMap.find (LoanRecord.m_user_id loan) (InMemoryPersistenceService.m_users mem) with
    | Some user => User.m_name user
    | None => "Unknown User"
    end in
  let item_title :=
    match StdMap.find (LoanRecord.m_item_id loan) (InMemoryPersistenceService.m_items mem) with
    | Some item => Book.m_title item
    | None => "Unknown Item"
    end in
  (LoanRecord.m_user_id loan, LoanService.overdue_message tz user_name item_title loan).

(** The text [message] has [id] somewhere inside. *)
Definition mentions (id message : string) : Prop :=
  exists before after, message = before ++ id ++ after.

(** Local midnight and local time of day as clock readings. *)
Definition local_time (tz : Z) (y m d hour minute second : Z) : Date :=
  DateTimeUtils.from_time_t
    (DateTimeUtils.days_from_civil y m d * 86400 + hour * 3600 + minute * 60
       + second - tz).

(** The store of the scenario: two open loans, due 2024-01-01 and 2024-01-10. *)
Definition overdue_scenario (tz : Z) : InMemoryPersistenceService.t :=
  InMemoryPersistenceService.mk
    [("a1", Author.mk "a1" "Ann")]
    [("b1", Book.mk "b1" "First" (Some (Author.mk "a1" "Ann")) "isbn-1" 2001 BORROWED);
     ("b2", Book.mk "b2" "Second" (Some (Author.mk "a1" "Ann")) "isbn-2" 2002 BORROWED)]
    [("u1", User.mk "u1" "Uma")]
    [("loan_1", LoanRecord.mk "loan_1" "b1" "u1"
                  (local_time tz 2023 12 18 17 45 0) (local_time tz 2024 1 1 17 45 0) None);
     ("loan_2", LoanRecord.mk "loan_2" "b2" "u1"
                  (local_time tz 2023 12 27 8 30 0) (local_time tz 2024 1 10 8 30 0) None)].

(** ** Records in the files of the file backend *)

(** A field that the escaping scheme carries through a write and a read:
    it has no line break and neither of the two placeholder characters. *)
Definition clean_field (f : string) : Prop :=
  Text.contains Text.newline f = false /\
  Text.contains FilePersistenceService.COMMA_PLACEHOLDER f = false /\
  Text.contains FilePersistenceService.QUOTE_PLACEHOLDER f = false.

Definition clean_record (r : list string) : Prop := Forall clean_field r.

(** A record as it reads back after having been written: an empty last
    field is gone. *)
Fixpoint norm_row (r : list string) : list string :=
  match r with
  | [] => []
  | [f] => if empty f then [] else [f]
  | f :: r' => f :: norm_row r'
  end.

(** The records read back from a file into which [data] was written. *)
Fixpoint reread (data : list (list string)) : list (list string) :=
  match data with
  | [] => []
  | r :: rest =>
      match norm_row r with
      | [] => reread rest
      | r' => r' :: reread rest
      end
  end.

(** A record whose last field is not empty reads back as it is. *)
Definition settled (r : list string) : Prop := norm_row r = r /\ r <> [].

(** With every line of a text ended by a line break. *)
Fixpoint text_lines (lines : list string) : string :=
  match lines with
  | [] => EmptyString
  | line :: rest => line ++ String Text.newline (text_lines rest)
  end.

(** The record of the items file that [loadLibraryItem] settles on for an
    id: the first one of seven fields that carries the id and the type
    [Book]. *)
Definition item_record (s : FilePersistenceService.t) (item_id : EntityId)
    : option (list string) :=
  List.find (fun fields =>
               (2 <=? List.length fields)%nat
               && String.eqb (FilePersistenceService.field 0 fields) item_id
               && String.eqb (FilePersistenceService.field 1 fields) "Book"
               && (List.length fields =? 7)%nat)
    (FilePersistenceService.readCsvFile (FilePersistenceService.items_csv s)).

(** A file backend whose items file has one book, by an author that the
    authors file does not have. *)
Definition orphan_item_files : FilePersistenceService.t :=
  FilePersistenceService.mk
    (text_lines ["a1,Ann"])
    EmptyString
    (text_lines ["b1,Book,Title,a9,isbn-1,2001,0"])
    EmptyString.

(** Files in which the record of an id has a single field. *)
Definition short_record_files : FilePersistenceService.t :=
  FilePersistenceService.mk (text_lines ["a1"]) (text_lines ["u1"]) EmptyString EmptyString.

(** An author whose name has a line break in it. *)
Definition two_line_author : Author.t :=
  Author.mk "a0" ("Ann" ++ String Text.newline "a1").

(** A loan taken on 2024-01-05 at 10:30:07 local time for 14 days, open, and
    the same loan returned on 2024-01-08 at 16:00:00. *)
Definition open_loan (tz : Z) : LoanRecord.t :=
  LoanRecord.mk "loan_1" "b1" "u1"
    (local_time tz 2024 1 5 10 30 7) (local_time tz 2024 1 19 10 30 7) None.

Definition closed_loan (tz : Z) : LoanRecord.t :=
  LoanRecord.mk "loan_1" "b1" "u1"
    (local_time tz 2024 1 5 10 30 7) (local_time tz 2024 1 19 10 30 7)
    (Some (local_time tz 2024 1 8 16 0 0)).

(** [row] starts with the fields [p]. *)
Definition begins_with (p row : list string) : Prop :=
  exists rest, row = List.app p rest.

(** The file holds a record that starts with [p]. *)
Definition holds (p : list string) (content : string) : Prop :=
  exists row, In row (FilePersistenceService.readCsvFile content) /\ begins_with p row.

(** The file holds the record of an entity: read back, one of its records
    is made of the fields of the entity (an empty last field is not read
    back). *)
Definition record_in_file (fields : list string) (content : string) : Prop :=
  In (norm_row fields) (FilePersistenceService.readCsvFile content).

(** What one save does to the records of a file: afterwards a record starts
    with the fields saved, and every record filed under another id is still
    there. *)
Definition upsert_step (id : string) (fields : list string)
    (data data' : list (list string)) : Prop :=
  (exists row, In row data' /\ begins_with fields row) /\
  (forall row, In row data -> FilePersistenceService.has_id id row = false -> In row data') /\
  (Forall clean_record data -> clean_record fields -> Forall clean_record data').

(** Fields that can be found again in the file after any number of writes:
    clean, filed under [id], and read back the same every time. *)
Definition storable (id : string) (fields : list string) : Prop :=
  clean_record fields /\ settled (norm_row fields) /\
  FilePersistenceService.has_id id (norm_row fields) = true.

(** ** The caching backend: memory against files *)

Definition author_fields (a : Author.t) : list string :=
  [Author.m_id a; Author.m_name a].

Definition user_fields (u : User.t) : list string :=
  [User.m_user_id u; User.m_name u].

(** Keys of a [std::map] are unique. *)
Record memory_unique (mem : InMemoryPersistenceService.t) : Prop := {
  unique_authors : NoDup (StdMap.keys (InMemoryPersistenceService.m_authors mem));
  unique_items : NoDup (StdMap.keys (InMemoryPersistenceService.m_items mem));
  unique_users : NoDup (StdMap.keys (InMemoryPersistenceService.m_users mem));
  unique_loans : NoDup (StdMap.keys (InMemoryPersistenceService.m_loan_records mem))
}.

(** The texts held in memory are free of line breaks and of the two
    placeholder characters of the file format. *)
Record memory_clean (mem : InMemoryPersistenceService.t) : Prop := {
  clean_authors :
    forall a, In a (StdMap.values (InMemoryPersistenceService.m_authors mem)) ->
      clean_record (author_fields a);
  clean_users :
    forall u, In u (StdMap.values (InMemoryPersistenceService.m_users mem)) ->
      clean_record (user_fields u);
  clean_items :
    forall b, In b (StdMap.values (InMemoryPersistenceService.m_items mem)) ->
      clean_field (Book.m_id b) /\ clean_field (Book.m_title b) /\
      clean_field (Book.m_isbn b) /\
      forall a, Book.m_author b = Some a -> clean_field (Author.m_id a);
  clean_loans :
    forall r, In r (StdMap.values (InMemoryPersistenceService.m_loan_records mem)) ->
      clean_field (LoanRecord.m_record_id r) /\ clean_field (LoanRecord.m_item_id r) /\
      clean_field (LoanRecord.m_user_id r)
}.

(** The records of a file that are filed under none of the given ids and
    read back as they are. *)
Definition foreign_record (ids : list string) (row : list string) : Prop :=
  settled row /\ forall id, In id ids -> FilePersistenceService.has_id id row = false.

(** The scenario of the cache: the files hold two authors, the cache is
    built from them, one author is deleted from the cache, and the cache is
    persisted. *)
Definition two_author_files : FilePersistenceService.t :=
  FilePersistenceService.mk (text_lines ["a1,Ann"; "a2,Bob"])
    EmptyString EmptyString EmptyString.

(** A record as [saveAuthor] and [saveUser] leave it: at least two fields,
    the last one not empty.  Files made of such records are the ones the
    backend writes for valid authors and users. *)
Definition regular_record (r : list string) : Prop :=
  settled r /\ (2 <= List.length r)%nat.

Definition regular_file (content : string) : Prop :=
  Forall regular_record (FilePersistenceService.readCsvFile content).

(** A cache whose memory holds one author, one book, one user and one open
    loan, over files that still hold a second author. *)
Definition sample_cache : CachingFilePersistenceService.t :=
  CachingFilePersistenceService.mk
    (InMemoryPersistenceService.mk
       [("a1", Author.mk "a1" "Ann")]
       [("b1", Book.mk "b1" "Title" (Some (Author.mk "a1" "Ann")) "isbn-1" 2001 BORROWED)]
       [("u1", User.mk "u1" "Uma")]
       [("loan_1", open_loan 0)])
    two_author_files.

(** The states of the in-memory backend that can arise: the empty store, and
    what the mutating operations of the contract make of a state that can
    arise, given objects that their constructors have accepted. *)
Inductive produced : InMemoryPersistenceService.t -> Prop :=
| produced_new : produced InMemoryPersistenceService.new
| produced_saveAuthor m a m' :
    produced m -> Author.valid a ->
    InMemoryPersistenceService.saveAuthor m (Some a) = Ok m' -> produced m'
| produced_deleteAuthor m id m' :
    produced m -> InMemoryPersistenceService.deleteAuthor m id = Ok m' -> produced m'
| produced_saveLibraryItem m b m' :
    produced m -> Book.valid b ->
    InMemoryPersistenceService.saveLibraryItem m (Some b) = Ok m' -> produced m'
| produced_deleteLibraryItem m id m' :
    produced m -> InMemoryPersistenceService.deleteLibraryItem m id = Ok m' -> produced m'
| produced_saveUser m u m' :
    produced m -> User.valid u ->
    InMemoryPersistenceService.saveUser m u = Ok m' -> produced m'
| produced_deleteUser m id m' :
    produced m -> InMemoryPersistenceService.deleteUser m id = Ok m' -> produced m'
| produced_saveLoanRecord m r m' :
    produced m -> LoanRecord.ids_ok r -> LoanRecord.dates_ok r ->
    InMemoryPersistenceService.saveLoanRecord m r = Ok m' -> produced m'
| produced_updateLoanRecord m r m' :
    produced m -> LoanRecord.ids_ok r -> LoanRecord.dates_ok r ->
    InMemoryPersistenceService.updateLoanRecord m r = Ok m' -> produced m'
| produced_deleteLoanRecord m id m' :
    produced m -> InMemoryPersistenceService.deleteLoanRecord m id = Ok m' -> produced m'.

(** ** Order of the keys of a [std::map] *)

Definition key_lt (a b : string) : Prop := String.ltb a b = true.

Record memory_sorted (mem : InMemoryPersistenceService.t) : Prop := {
  sorted_authors : Sorted key_lt (StdMap.keys (InMemoryPersistenceService.m_authors mem));
  sorted_items : Sorted key_lt (StdMap.keys (InMemoryPersistenceService.m_items mem));
  sorted_users : Sorted key_lt (StdMap.keys (InMemoryPersistenceService.m_users mem));
  sorted_loans : Sorted key_lt (StdMap.keys (InMemoryPersistenceService.m_loan_records mem))
}.

(** ** A store with two loans, for the examples *)

Definition sample_store : InMemoryPersistenceService.t :=
  InMemoryPersistenceService.mk
    [("a1", Author.mk "a1" "Ann")]
    [("b1", Book.mk "b1" "First" (Some (Author.mk "a1" "Ann")) "isbn-1" 2001 BORROWED);
     ("b2", Book.mk "b2" "Second" (Some (Author.mk "a1" "Ann")) "isbn-2" 2002 AVAILABLE)]
    [("u1", User.mk "u1" "Uma"); ("u2", User.mk "u2" "Vic")]
    [("loan_1", LoanRecord.mk "loan_1" "b2" "u2" 100 200 (Some 150));
     ("loan_2", LoanRecord.mk "loan_2" "b1" "u1" 300 400 None)].

(** ** Runs of the loan service *)

(** One call of an operation of the loan service, and any number of them. *)
Inductive service_step {S : Type} {P : IPersistenceService.t S} (tz : Z)
    : LoanService.t S -> LoanService.t S -> Prop :=
| step_borrowItem now user_id item_id sv :
    service_step tz sv (snd (LoanService.borrowItem now user_id item_id sv))
| step_returnItem now user_id item_id sv :
    service_step tz sv (snd (LoanService.returnItem now user_id item_id sv))
| step_processOverdueItems now sv :
    service_step tz sv (snd (LoanService.processOverdueItems tz now sv)).

Inductive later {S : Type} {P : IPersistenceService.t S} (tz : Z)
    : LoanService.t S -> LoanService.t S -> Prop :=
| later_now sv : later tz sv sv
| later_step sv sv' sv'' :
    later tz sv sv' -> service_step tz sv' sv'' -> later tz sv sv''.

(** The largest value of the counter of loan ids, a [long long]. *)
Definition LLONG_MAX : Z := 9223372036854775807.

(** ** The console *)

(** The line that the console service prints for a notification. *)
Definition printed_line (n : EntityId * string) : string :=
  "[NOTIFICATION to User '" ++ fst n ++ "']: " ++ snd n.

(** ** Local days *)

(** The time zone offset is a whole number of minutes. *)
Definition whole_minutes (tz : Z) : Prop := tz mod 60 = 0.

(** The local year of a time point is written with four digits. *)
Definition four_digit_year (tz : Z) (tp : Date) : Prop :=
  1000 <= DateTimeUtils.tm_year (DateTimeUtils.localtime tz (DateTimeUtils.to_time_t tp)) + 1900
       <= 9999.

(** The start of the local day of a reading of the clock, in seconds. *)
Definition local_midnight (tz : Z) (t : Z) : Z := (t + tz) / 86400 * 86400 - tz.

(** A reading of the system clock from 1970 on: a count of ticks that fits
    the 64 bits of a time point. *)
Definition clock_reading (now : Date) : Prop := 0 <= now <= LLONG_MAX.

(** The loan duration is positive and, for a loan made at [now], the due
    date is a time point: the sum stays within the 64 bits. *)
Definition due_date_fits (now days : Z) : Prop :=
  clock_reading now /\ 0 < days /\
  now + days * 86400 * DateTimeUtils.ticks_per_second <= LLONG_MAX.

(** A date that the file backend writes with a year of four digits. *)
Definition plain_date (tz : Z) (d : Date) : Prop :=
  clock_reading d /\ four_digit_year tz d.

(** The time point of a second that starts a local day. *)
Definition starts_a_day (tz : Z) (d : Date) : Prop :=
  exists t, local_midnight tz t = t /\ d = DateTimeUtils.from_time_t t.

(** ** Saves into a file of records *)

(** The records of a file after a save under [id]: the first record filed
    under the id is replaced, or the new record comes last. *)
Fixpoint upsert (id : string) (fields : list string) (data : list (list string))
    : list (list string) :=
  match data with
  | [] => [fields]
  | r :: rest =>
      if FilePersistenceService.has_id id r then fields :: rest
      else r :: upsert id fields rest
  end.

(** A record of two fields, the second not empty, as the backend writes
    them for authors and users. *)
Definition pair_record (r : list string) : Prop :=
  exists a b, r = [a; b] /\ b <> EmptyString.

Definition pair_file (content : string) : Prop :=
  Forall pair_record (FilePersistenceService.readCsvFile content).

(** ** The status of a stored book *)

(** One of the four enumerators. *)
Definition named_status (s : AvailabilityStatus) : Prop :=
  match s with
  | UNNAMED _ => False
  | _ => True
  end.

(** ** Loan records as the file backend returns them *)

(** What the file backend makes of the dates of a loan record: each one is
    moved to the start of its local day. *)
Definition to_the_day (tz : Z) (r : LoanRecord.t) : LoanRecord.t :=
  LoanRecord.mk (LoanRecord.m_record_id r) (LoanRecord.m_item_id r)
    (LoanRecord.m_user_id r)
    (DateTimeUtils.today tz (LoanRecord.m_loan_date r))
    (DateTimeUtils.today tz (LoanRecord.m_due_date r))
    (option_map (DateTimeUtils.today tz) (LoanRecord.m_return_date r)).

(** A loan record whose dates are all at the start of a local day. *)
Definition dates_at_midnight (tz : Z) (r : LoanRecord.t) : Prop :=
  starts_a_day tz (LoanRecord.m_loan_date r) /\
  starts_a_day tz (LoanRecord.m_due_date r) /\
  forall d, LoanRecord.m_return_date r = Some d -> starts_a_day tz d.

(** ** Runs of storage operations *)

(** The mutating operations of the storage contract, as data, and a run of
    them on a backend: the run stops at the first operation that raises. *)
Inductive store_op : Type :=
| OpSaveAuthor (author : option Author.t)
| OpDeleteAuthor (author_id : EntityId)
| OpSaveLibraryItem (item : option Book.t)
| OpDeleteLibraryItem (item_id : EntityId)
| OpSaveUser (user : User.t)
| OpDeleteUser (user_id : EntityId)
| OpSaveLoanRecord (record : LoanRecord.t)
| OpUpdateLoanRecord (record : LoanRecord.t)
| OpDeleteLoanRecord (record_id : EntityId).

Definition apply_op {S : Type} {P : IPersistenceService.t S} (s : S) (op : store_op)
    : outcome S :=
  match op with
  | OpSaveAuthor author => IPersistenceService.saveAuthor s author
  | OpDeleteAuthor author_id => IPersistenceService.deleteAuthor s author_id
  | OpSaveLibraryItem item => IPersistenceService.saveLibraryItem s item
  | OpDeleteLibraryItem item_id => IPersistenceService.deleteLibraryItem s item_id
  | OpSaveUser user => IPersistenceService.saveUser s user
  | OpDeleteUser user_id => IPersistenceService.deleteUser s user_id
  | OpSaveLoanRecord record => IPersistenceService.saveLoanRecord s record
  | OpUpdateLoanRecord record => IPersistenceService.updateLoanRecord s record
  | OpDeleteLoanRecord record_id => IPersistenceService.deleteLoanRecord s record_id
  end.

Definition apply_ops {S : Type} {P : IPersistenceService.t S} (ops : list store_op) (s : S)
    : outcome S :=
  for_each apply_op ops s.

(** The user of an id. *)
Definition is_user (user_id : EntityId) (u : User.t) : bool :=
  String.eqb (User.m_user_id u) user_id.

(** ** Command lines *)

(** An argument between double quotes, and a command line of such arguments
    with one space between them. *)
Definition quoted (a : string) : string :=
  String Text.quote (a ++ String Text.quote EmptyString).

Fixpoint command_line (args : list string) : string :=
  match args with
  | [] => EmptyString
  | a :: rest =>
      match rest with
      | [] => quoted a
      | _ :: _ => quoted a ++ String " " (command_line rest)
      end
  end.

Fixpoint quote_free (s : string) : bool :=
  match s with
  | EmptyString => true
  | String c r => negb (Ascii.eqb c Text.quote) && quote_free r
  end.

(** What the command reader hands over as one argument. *)
Definition argument (a : string) : Prop :=
  a <> EmptyString /\ quote_free a = true.

(** ** The loan service over files *)

(** The files of a library with one author, one user and two available
    books, and no loan. *)
Definition small_library_files : FilePersistenceService.t :=
  FilePersistenceService.mk
    (text_lines ["a1,Ann"]) (text_lines ["u1,Uma"])
    (text_lines ["b1,Book,First,a1,isbn-1,2001,0"; "b2,Book,Second,a1,isbn-2,2002,0"])
    EmptyString.

(** ** Case analysis on the scrutinee of a match in the goal *)

Ltac split_match :=
  match goal with
  | |- context [match ?x with _ => _ end] => destruct x eqn:?
  end.

(** * Properties *)

(** ** Strings and maps *)

Lemma empty_false (s : string) : empty s = false <-> s <> EmptyString.
Proof. destruct s; simpl; split; congruence. Qed.

Section MapFacts.
Context {V : Type}.
Implicit Types (m : StdMap.t V) (k : string) (v : V).

Lemma find_assign_same m k v v0 :
  StdMap.find k m = Some v0 -> StdMap.find k (StdMap.assign k v m) = Some v.
Proof.
  induction m as [|[k' v'] m IH]; simpl; [discriminate|].
  destruct (String.eqb k k') eqn:E; simpl; rewrite E; auto.
Qed.

Lemma find_emplace_same m k v :
  StdMap.find k m = None -> StdMap.find k (StdMap.emplace k v m) = Some v.
Proof.
  induction m as [|[k' v'] m IH]; simpl.
  - now rewrite String.eqb_refl.
  - destruct (String.eqb k k') eqn:E; [discriminate|].
    intros Hf. destruct (String.ltb k k'); simpl.
    + now rewrite String.eqb_refl.
    + rewrite E. auto.
Qed.

Lemma find_set_same m k v : StdMap.find k (StdMap.set k v m) = Some v.
Proof.
  unfold StdMap.set. destruct (StdMap.find k m) eqn:E.
  - eapply find_assign_same; eauto.
  - now apply find_emplace_same.
Qed.

Lemma find_assign_other m k k0 v :
  k0 <> k -> StdMap.find k0 (StdMap.assign k v m) = StdMap.find k0 m.
Proof.
  intros Hne. induction m as [|[k' v'] m IH]; simpl; [reflexivity|].
  destruct (String.eqb k k') eqn:E; simpl.
  - apply String.eqb_eq in E; subst k'.
    destruct (String.eqb k0 k) eqn:E0; [|reflexivity].
    apply String.eqb_eq in E0. contradiction.
  - now rewrite IH.
Qed.

Lemma find_emplace_other m k k0 v :
  k0 <> k -> StdMap.find k0 (StdMap.emplace k v m) = StdMap.find k0 m.
Proof.
  intros Hne. induction m as [|[k' v'] m IH]; simpl.
  - destruct (String.eqb k0 k) eqn:E0; [|reflexivity].
    apply String.eqb_eq in E0. contradiction.
  - destruct (String.eqb k k') eqn:E; [reflexivity|].
    destruct (String.ltb k k'); simpl.
    + destruct (String.eqb k0 k) eqn:E0; [|reflexivity].
      apply String.eqb_eq in E0. contradiction.
    + now rewrite IH.
Qed.

Lemma find_set_other m k k0 v :
  k0 <> k -> StdMap.find k0 (StdMap.set k v m) = StdMap.find k0 m.
Proof.
  intros Hne. unfold StdMap.set. destruct (StdMap.find k m).
  - now apply find_assign_other.
  - now apply find_emplace_other.
Qed.

Lemma find_In m k v : StdMap.find k m = Some v -> In v (StdMap.values m).
Proof.
  induction m as [|[k' v'] m IH]; simpl; [discriminate|].
  destruct (String.eqb k k'); [intros [= ->]; now left | auto].
Qed.

Lemma find_In_entry m k v : StdMap.find k m = Some v -> In (k, v) m.
Proof.
  induction m as [|[k' v'] m IH]; simpl; [discriminate|].
  destruct (String.eqb k k') eqn:E; [|auto].
  apply String.eqb_eq in E; subst. intros [= ->]. now left.
Qed.

Lemma In_assign m k v e :
  In e (StdMap.assign k v m) -> e = (k, v) \/ In e m.
Proof.
  induction m as [|[k' v'] m IH]; simpl; [tauto|].
  destruct (String.eqb k k') eqn:E; simpl.
  - apply String.eqb_eq in E; subst k'. intros [<-|?]; auto.
  - intros [<-|?]; auto. destruct (IH H); auto.
Qed.

Lemma In_emplace m k v e :
  In e (StdMap.emplace k v m) -> e = (k, v) \/ In e m.
Proof.
  induction m as [|[k' v'] m IH]; simpl.
  - intros [<-|[]]; auto.
  - destruct (String.eqb k k'); [simpl; auto|].
    destruct (String.ltb k k'); simpl.
    + intros [<-|?]; auto.
    + intros [<-|?]; auto. destruct (IH H); auto.
Qed.

Lemma In_set m k v e : In e (StdMap.set k v m) -> e = (k, v) \/ In e m.
Proof.
  unfold StdMap.set. destruct (StdMap.find k m).
  - apply In_assign.
  - apply In_emplace.
Qed.

Lemma In_values m v : In v (StdMap.values m) <-> exists k, In (k, v) m.
Proof.
  unfold StdMap.values. rewrite in_map_iff. split.
  - intros [[k v'] [E H]]; simpl in E; subst. eauto.
  - intros [k H]. exists (k, v); auto.
Qed.

End MapFacts.

(** ** The loan record and its date invariant *)

Lemma new_dates_ok rid iid uid loan due r :
  LoanRecord.new rid iid uid loan due = Ok r -> LoanRecord.dates_ok r.
Proof.
  unfold LoanRecord.new.
  destruct (empty rid), (empty iid), (empty uid); try discriminate.
  destruct (due <? loan) eqn:E; [discriminate|].
  intros [= <-]. apply Z.ltb_ge in E.
  split; simpl; [assumption | discriminate].
Qed.

Lemma after_call_dates_ok r c :
  LoanRecord.dates_ok r -> LoanRecord.dates_ok (LoanRecord.after_call r c).
Proof.
  intros [Hdue Hret]. unfold LoanRecord.after_call.
  destruct c as [d|d]; simpl.
  - unfold LoanRecord.setDueDate.
    destruct (d <? LoanRecord.m_loan_date r) eqn:E; [split; assumption|].
    apply Z.ltb_ge in E. split; simpl; assumption.
  - unfold LoanRecord.setReturnDate.
    destruct (d <? LoanRecord.m_loan_date r) eqn:E; [split; assumption|].
    apply Z.ltb_ge in E. split; simpl; [assumption|].
    intros d' [= <-]. assumption.
Qed.

Lemma after_calls_dates_ok cs : forall r,
  LoanRecord.dates_ok r -> LoanRecord.dates_ok (LoanRecord.after_calls r cs).
Proof.
  unfold LoanRecord.after_calls.
  induction cs as [|c cs IH]; simpl; intros r Hr; [assumption|].
  apply IH. now apply after_call_dates_ok.
Qed.

(** C8. A loan record that the constructor returns satisfies due date >= loan
    date and, when a return date is set, return date >= loan date, and keeps
    doing so after any run of [setDueDate] / [setReturnDate] calls; the
    constructor raises InvalidArgument on a due date before the loan date, and
    a setter given a date before the loan date raises InvalidArgument and
    leaves the record as it was. *)
Theorem loan_record_date_invariant :
  (forall rid iid uid loan due r cs,
      LoanRecord.new rid iid uid loan due = Ok r ->
      LoanRecord.dates_ok (LoanRecord.after_calls r cs)) /\
  (forall rid iid uid loan due,
      due < loan ->
      LoanRecord.new rid iid uid loan due = Throw InvalidArgumentException) /\
  (forall r d,
      d < LoanRecord.m_loan_date r ->
      LoanRecord.setDueDate r d = Throw InvalidArgumentException /\
      LoanRecord.setReturnDate r d = Throw InvalidArgumentException /\
      LoanRecord.after_call r (LoanRecord.CallSetDueDate d) = r /\
      LoanRecord.after_call r (LoanRecord.CallSetReturnDate d) = r).
Proof.
  split; [|split].
  - intros rid iid uid loan due r cs Hnew.
    apply after_calls_dates_ok. eapply new_dates_ok; eassumption.
  - intros rid iid uid loan due Hlt. unfold LoanRecord.new.
    destruct (empty rid), (empty iid), (empty uid); try reflexivity.
    apply Z.ltb_lt in Hlt. now rewrite Hlt.
  - intros r d Hlt. apply Z.ltb_lt in Hlt.
    unfold LoanRecord.after_call; simpl.
    unfold LoanRecord.setDueDate, LoanRecord.setReturnDate.
    rewrite Hlt. repeat split.
Qed.

Lemma loan_record_date_invariant_witness :
  LoanRecord.dates_ok
    (LoanRecord.after_calls
       (LoanRecord.mk "lr1" "item1" "user1" 100 200 None)
       [LoanRecord.CallSetDueDate 50; LoanRecord.CallSetReturnDate 150;
        LoanRecord.CallSetReturnDate 10; LoanRecord.CallSetDueDate 120]) /\
  LoanRecord.new "lr1" "item1" "user1" 100 99 = Throw InvalidArgumentException /\
  LoanRecord.setReturnDate (LoanRecord.mk "lr1" "item1" "user1" 100 200 None) 99
    = Throw InvalidArgumentException.
Proof.
  split; [|split].
  - apply (proj1 loan_record_date_invariant "lr1" "item1" "user1" 100 200).
    reflexivity.
  - apply (proj1 (proj2 loan_record_date_invariant)). lia.
  - apply (proj2 (proj2 loan_record_date_invariant)
             (LoanRecord.mk "lr1" "item1" "user1" 100 200 None) 99).
    simpl. lia.
Defined.

(** ** Borrowing *)

Lemma clone_valid (b : Book.t) : Book.valid b -> Book.clone b = Ok b.
Proof.
  destruct b as [id title author isbn year status].
  unfold Book.valid, Book.clone, Book.new; simpl.
  intros (Hid & Htitle & Hauthor & Hisbn & Hyear).
  apply empty_false in Hid, Htitle, Hisbn. rewrite Hid, Htitle, Hisbn.
  destruct author; [|congruence].
  destruct (year <=? 0) eqn:E; [apply Z.leb_le in E; lia | reflexivity].
Qed.

Lemma setAvailabilityStatus_valid b status :
  Book.valid b -> Book.valid (Book.setAvailabilityStatus b status).
Proof. unfold Book.valid; simpl; tauto. Qed.

(** C4. Borrowing an item whose status is not AVAILABLE, by an existing
    user, fails with OperationFailed and leaves the whole state as it was:
    no loan record is written, the item keeps its status, the id counter does
    not move.  This holds over every backend of the storage contract. *)
Theorem borrow_unavailable_item_fails {S : Type} {P : IPersistenceService.t S}
    (now : Date) (user_id item_id : EntityId) (sv : LoanService.t S)
    (user : User.t) (item : Book.t) :
  user_id <> EmptyString ->
  item_id <> EmptyString ->
  IPersistenceService.loadUser (LoanService.m_persistence_service sv) user_id
    = Ok (Some user) ->
  IPersistenceService.loadLibraryItem (LoanService.m_persistence_service sv) item_id
    = Ok (Some item) ->
  Book.getAvailabilityStatus item <> AVAILABLE ->
  LoanService.borrowItem now user_id item_id sv = (Throw OperationFailedException, sv).
Proof.
  intros Hu Hi Huser Hitem Hstatus.
  apply empty_false in Hu, Hi.
  unfold LoanService.borrowItem, UserService.findUserById, CatalogService.findItemById.
  rewrite Hu, Hi, Huser, Hitem. simpl.
  destruct (Book.getAvailabilityStatus item); simpl; congruence.
Qed.

Lemma borrow_unavailable_item_fails_witness :
  let store :=
    InMemoryPersistenceService.mk
      [("a1", Author.mk "a1" "Ann")]
      [("b1", Book.mk "b1" "Title" (Some (Author.mk "a1" "Ann")) "isbn-1" 2001 MAINTENANCE)]
      [("u1", User.mk "u1" "Uma")]
      [] in
  let sv := LoanService.mk store 14 0 [] in
  LoanService.borrowItem 1704450607000000000 "u1" "b1" sv
    = (Throw OperationFailedException, sv).
Proof.
  intros store sv.
  apply (borrow_unavailable_item_fails 1704450607000000000 "u1" "b1" sv
           (User.mk "u1" "Uma")
           (Book.mk "b1" "Title" (Some (Author.mk "a1" "Ann")) "isbn-1" 2001 MAINTENANCE)).
  - discriminate.
  - discriminate.
  - reflexivity.
  - reflexivity.
  - discriminate.
Defined.

(** Whoever asks: borrowing an item that is found with a status other than
    AVAILABLE raises and leaves the state as it was; the exception is the one
    of the first check that fails (the ids, the user, then the status). *)
Lemma borrow_unavailable_item_never_mutates {S : Type} {P : IPersistenceService.t S}
    (now : Date) (user_id item_id : EntityId) (sv : LoanService.t S) (item : Book.t) :
  IPersistenceService.loadLibraryItem (LoanService.m_persistence_service sv) item_id
    = Ok (Some item) ->
  Book.getAvailabilityStatus item <> AVAILABLE ->
  snd (LoanService.borrowItem now user_id item_id sv) = sv /\
  forall loan, fst (LoanService.borrowItem now user_id item_id sv) <> Ok loan.
Proof.
  intros Hitem Hstatus.
  unfold LoanService.borrowItem, UserService.findUserById, CatalogService.findItemById.
  destruct (empty user_id); [split; [reflexivity | discriminate]|].
  destruct (empty item_id); [split; [reflexivity | discriminate]|].
  cbn [orb].
  destruct (IPersistenceService.loadUser (LoanService.m_persistence_service sv) user_id)
    as [[user|]| |]; cbn [LoanService.reading];
    try (split; [reflexivity | discriminate]).
  rewrite Hitem. cbn [LoanService.reading].
  destruct (Book.getAvailabilityStatus item); try congruence;
    split; (reflexivity || discriminate).
Qed.

(** *** Borrowing from the in-memory backend *)

Lemma keyed_by_set {V : Type} (id : V -> string) (m : StdMap.t V) k v :
  keyed_by id m -> id v = k -> keyed_by id (StdMap.set k v m).
Proof.
  intros Hm Hv k' v' Hin. apply In_set in Hin as [[= -> ->]|Hin]; auto.
Qed.

Lemma all_values_set {V : Type} (good : V -> Prop) (m : StdMap.t V) k v :
  all_values good m -> good v -> all_values good (StdMap.set k v m).
Proof.
  intros Hm Hv k' v' Hin. apply In_set in Hin as [[= -> ->]|Hin]; eauto.
Qed.

Lemma wrap_int_small z :
  - 2147483648 <= z < 2147483648 -> DateTimeUtils.wrap_int z = z.
Proof.
  intros H. unfold DateTimeUtils.wrap_int. rewrite Z.mod_small; lia.
Qed.

Lemma addDays_small tp days :
  - 89478485 <= days <= 89478485 ->
  DateTimeUtils.addDays tp days = tp + days * 86400 * DateTimeUtils.ticks_per_second.
Proof.
  intros H. unfold DateTimeUtils.addDays. rewrite wrap_int_small by lia.
  unfold DateTimeUtils.ticks_per_second. lia.
Qed.

Lemma due_date_fits_days now days :
  due_date_fits now days -> 0 < days <= 89478485.
Proof.
  unfold due_date_fits, clock_reading, LLONG_MAX, DateTimeUtils.ticks_per_second.
  lia.
Qed.

Lemma loan_id_not_empty counter : empty ("loan_" ++ Text.to_string counter) = false.
Proof. reflexivity. Qed.

Lemma memory_user_id mem user_id user :
  memory_wf mem ->
  StdMap.find user_id (InMemoryPersistenceService.m_users mem) = Some user ->
  User.m_user_id user = user_id /\ user_id <> EmptyString.
Proof.
  intros Hwf Hfind. apply find_In_entry in Hfind.
  pose proof (wf_users_keyed _ Hwf _ _ Hfind) as Hk.
  pose proof (wf_users_valid _ Hwf _ _ Hfind) as [Hv _].
  split; congruence.
Qed.

Lemma memory_item_id mem item_id item :
  memory_wf mem ->
  StdMap.find item_id (InMemoryPersistenceService.m_items mem) = Some item ->
  Book.m_id item = item_id /\ item_id <> EmptyString /\ Book.valid item.
Proof.
  intros Hwf Hfind. apply find_In_entry in Hfind.
  pose proof (wf_items_keyed _ Hwf _ _ Hfind) as Hk.
  pose proof (wf_items_valid _ Hwf _ _ Hfind) as Hv.
  destruct Hv as [Hid Hrest].
  repeat split; try congruence; tauto.
Qed.

Lemma memory_loadLibraryItem mem item_id item :
  memory_wf mem ->
  StdMap.find item_id (InMemoryPersistenceService.m_items mem) = Some item ->
  InMemoryPersistenceService.loadLibraryItem mem item_id = Ok (Some item).
Proof.
  intros Hwf Hfind. unfold InMemoryPersistenceService.loadLibraryItem.
  rewrite Hfind. destruct (memory_item_id _ _ _ Hwf Hfind) as (_ & _ & Hv).
  now rewrite (clone_valid _ Hv).
Qed.

Lemma memory_updateItemStatus mem item_id item status :
  memory_wf mem ->
  StdMap.find item_id (InMemoryPersistenceService.m_items mem) = Some item ->
  CatalogService.updateItemStatus mem item_id status =
    Ok (InMemoryPersistenceService.mk
          (InMemoryPersistenceService.m_authors mem)
          (StdMap.set item_id (Book.setAvailabilityStatus item status)
             (InMemoryPersistenceService.m_items mem))
          (InMemoryPersistenceService.m_users mem)
          (InMemoryPersistenceService.m_loan_records mem)).
Proof.
  intros Hwf Hfind.
  destruct (memory_item_id _ _ _ Hwf Hfind) as (Hid & Hne & Hv).
  unfold CatalogService.updateItemStatus.
  apply empty_false in Hne. rewrite Hne. simpl.
  rewrite (memory_loadLibraryItem _ _ _ Hwf Hfind). simpl.
  unfold InMemoryPersistenceService.saveLibraryItem.
  rewrite (clone_valid _ (setAvailabilityStatus_valid _ status Hv)). simpl.
  unfold Book.getId. simpl. now rewrite Hid.
Qed.

Lemma no_active_loan_check mem user_id item_id :
  no_active_loan user_id item_id mem ->
  user_id <> EmptyString ->
  exists user_loans,
    LoanService.getActiveLoansForUser mem user_id = Ok user_loans /\
    existsb (fun lr => String.eqb (LoanRecord.getItemId lr) item_id) user_loans = false.
Proof.
  intros Hno Hne. unfold LoanService.getActiveLoansForUser.
  apply empty_false in Hne. rewrite Hne. simpl.
  eexists; split; [reflexivity|].
  apply not_true_is_false. intros Hex.
  apply existsb_exists in Hex as (r & Hin & Hitem).
  apply filter_In in Hin as (Hin & Hret).
  apply filter_In in Hin as (Hin & Huser).
  apply String.eqb_eq in Hitem, Huser.
  apply (Hno r Hin Huser Hitem).
  unfold LoanRecord.getReturnDate in Hret.
  destruct (LoanRecord.m_return_date r); [discriminate | reflexivity].
Qed.

Lemma memory_saveLoanRecord mem r :
  InMemoryPersistenceService.saveLoanRecord mem r =
    Ok (InMemoryPersistenceService.mk
          (InMemoryPersistenceService.m_authors mem)
          (InMemoryPersistenceService.m_items mem)
          (InMemoryPersistenceService.m_users mem)
          (StdMap.set (LoanRecord.m_record_id r) r
             (InMemoryPersistenceService.m_loan_records mem))).
Proof. reflexivity. Qed.

Lemma memory_updateLoanRecord mem r :
  InMemoryPersistenceService.updateLoanRecord mem r =
    Ok (InMemoryPersistenceService.mk
          (InMemoryPersistenceService.m_authors mem)
          (InMemoryPersistenceService.m_items mem)
          (InMemoryPersistenceService.m_users mem)
          (StdMap.set (LoanRecord.m_record_id r) r
             (InMemoryPersistenceService.m_loan_records mem))).
Proof. reflexivity. Qed.

Lemma memory_wf_set_loan mem r :
  memory_wf mem -> LoanRecord.ids_ok r -> LoanRecord.dates_ok r ->
  memory_wf (InMemoryPersistenceService.mk
               (InMemoryPersistenceService.m_authors mem)
               (InMemoryPersistenceService.m_items mem)
               (InMemoryPersistenceService.m_users mem)
               (StdMap.set (LoanRecord.m_record_id r) r
                  (InMemoryPersistenceService.m_loan_records mem))).
Proof.
  intros [] Hids Hdates. constructor; simpl; auto.
  - now apply keyed_by_set.
  - apply all_values_set; auto.
Qed.

Lemma memory_wf_set_item mem b :
  memory_wf mem -> Book.valid b ->
  memory_wf (InMemoryPersistenceService.mk
               (InMemoryPersistenceService.m_authors mem)
               (StdMap.set (Book.m_id b) b (InMemoryPersistenceService.m_items mem))
               (InMemoryPersistenceService.m_users mem)
               (InMemoryPersistenceService.m_loan_records mem)).
Proof.
  intros [] Hvalid. constructor; simpl; auto.
  - now apply keyed_by_set.
  - now apply all_values_set.
Qed.

Lemma borrowed_loan_ok now days counter user_id item_id :
  0 < days <= 89478485 -> user_id <> EmptyString -> item_id <> EmptyString ->
  LoanRecord.new ("loan_" ++ Text.to_string (counter + 1)) item_id user_id now
    (DateTimeUtils.addDays now days)
  = Ok (borrowed_loan now days counter user_id item_id) /\
  LoanRecord.ids_ok (borrowed_loan now days counter user_id item_id) /\
  LoanRecord.dates_ok (borrowed_loan now days counter user_id item_id).
Proof.
  intros Hdays Hu Hi.
  assert (Hnew : LoanRecord.new ("loan_" ++ Text.to_string (counter + 1)) item_id
                   user_id now (DateTimeUtils.addDays now days)
                 = Ok (borrowed_loan now days counter user_id item_id)).
  { unfold LoanRecord.new. rewrite loan_id_not_empty.
    apply empty_false in Hu, Hi. rewrite Hu, Hi.
    rewrite addDays_small by lia.
    replace (now + days * 86400 * DateTimeUtils.ticks_per_second <? now) with false
      by (symmetry; apply Z.ltb_ge; unfold DateTimeUtils.ticks_per_second; lia).
    unfold borrowed_loan. now rewrite addDays_small by lia. }
  split; [exact Hnew|]. split.
  - unfold LoanRecord.ids_ok, borrowed_loan; simpl. repeat split; auto. discriminate.
  - eapply new_dates_ok; exact Hnew.
Qed.

Lemma memory_borrowItem now days counter notes mem user_id item_id user item :
  memory_wf mem ->
  0 < days <= 89478485 ->
  StdMap.find user_id (InMemoryPersistenceService.m_users mem) = Some user ->
  StdMap.find item_id (InMemoryPersistenceService.m_items mem) = Some item ->
  Book.m_availability_status item = AVAILABLE ->
  no_active_loan user_id item_id mem ->
  LoanService.borrowItem now user_id item_id (LoanService.mk mem days counter notes)
  = (Ok (borrowed_loan now days counter user_id item_id),
     LoanService.mk
       (borrowed_state mem item (borrowed_loan now days counter user_id item_id))
       days (counter + 1) notes).
Proof.
  intros Hwf Hdays Huser Hitem Hstatus Hno.
  destruct (memory_user_id _ _ _ Hwf Huser) as (_ & Hune).
  destruct (memory_item_id _ _ _ Hwf Hitem) as (Hid & Hine & Hvalid).
  destruct (no_active_loan_check _ _ _ Hno Hune) as (user_loans & Hactive & Hnone).
  pose proof Hune as Hue. pose proof Hine as Hie.
  apply empty_false in Hue, Hie.
  unfold LoanService.borrowItem, UserService.findUserById, CatalogService.findItemById.
  rewrite Hue, Hie.
  cbn [orb LoanService.m_persistence_service IPersistenceService.loadUser
       IPersistenceService.loadLibraryItem InMemoryPersistenceService.backend].
  unfold InMemoryPersistenceService.loadUser. rewrite Huser.
  rewrite (memory_loadLibraryItem _ _ _ Hwf Hitem).
  cbn [LoanService.reading].
  unfold Book.getAvailabilityStatus. rewrite Hstatus.
  cbn [is_available negb]. rewrite Hactive.
  cbn [LoanService.reading]. rewrite Hnone.
  unfold LoanService.generateLoanRecordId.
  cbn [LoanService.m_next_loan_id_counter LoanService.m_default_loan_duration_days].
  destruct (borrowed_loan_ok now days counter user_id item_id Hdays Hune Hine)
    as (Hnew & Hids & Hdates).
  rewrite Hnew.
  cbn [LoanService.reading LoanService.writing LoanService.m_persistence_service
       LoanService.with_counter IPersistenceService.saveLoanRecord
       InMemoryPersistenceService.backend].
  rewrite memory_saveLoanRecord.
  cbn [LoanService.writing LoanService.with_store LoanService.m_persistence_service].
  rewrite (memory_updateItemStatus _ item_id item BORROWED
             (memory_wf_set_loan _ _ Hwf Hids Hdates) Hitem).
  reflexivity.
Qed.

(** *** Returning to the in-memory backend *)

Lemma find_unique {A : Type} (p : A -> bool) (l : list A) (v : A) :
  In v l -> p v = true -> (forall x, In x l -> p x = true -> x = v) ->
  List.find p l = Some v.
Proof.
  induction l as [|x l IH]; simpl; [tauto|].
  intros Hin Hv Huniq. destruct (p x) eqn:E.
  - f_equal. apply Huniq; auto.
  - destruct Hin as [->|Hin]; [congruence|]. apply IH; auto.
Qed.

Lemma memory_returnItem now days counter notes mem user_id item_id item loan :
  memory_wf mem ->
  StdMap.find item_id (InMemoryPersistenceService.m_items mem) = Some item ->
  only_active_loan loan mem ->
  LoanRecord.m_user_id loan = user_id ->
  LoanRecord.m_item_id loan = item_id ->
  LoanRecord.m_loan_date loan <= now ->
  LoanService.returnItem now user_id item_id (LoanService.mk mem days counter notes)
  = (Ok tt,
     LoanService.mk (returned_state mem item (returned_loan loan now))
       days counter notes).
Proof.
  intros Hwf Hitem (Hin & Hopen & Honly) Huser Hloan_item Hdate.
  destruct (memory_item_id _ _ _ Hwf Hitem) as (Hid & Hine & Hvalid).
  apply In_values in Hin as Hentry. destruct Hentry as (k & Hentry).
  destruct (wf_loans_valid _ Hwf _ _ Hentry) as ((_ & _ & Hune) & Hdates).
  rewrite Huser in Hune.
  pose proof Hune as Hue. pose proof Hine as Hie. apply empty_false in Hue, Hie.
  unfold LoanService.returnItem. rewrite Hue, Hie.
  cbn [orb LoanService.m_persistence_service IPersistenceService.loadLoanRecordsByItemId
       InMemoryPersistenceService.backend].
  unfold InMemoryPersistenceService.loadLoanRecordsByItemId.
  cbn [LoanService.reading].
  unfold LoanService.find_active_loan.
  rewrite (find_unique _ _ loan).
  - unfold LoanRecord.setReturnDate.
    replace (now <? LoanRecord.m_loan_date loan) with false
      by (symmetry; apply Z.ltb_ge; lia).
    cbn [LoanService.reading IPersistenceService.updateLoanRecord
         InMemoryPersistenceService.backend LoanService.m_persistence_service].
    rewrite memory_updateLoanRecord.
    cbn [LoanService.writing LoanService.with_store LoanService.m_persistence_service].
    fold (returned_loan loan now).
    assert (Hwf' : memory_wf
              (InMemoryPersistenceService.mk
                 (InMemoryPersistenceService.m_authors mem)
                 (InMemoryPersistenceService.m_items mem)
                 (InMemoryPersistenceService.m_users mem)
                 (StdMap.set (LoanRecord.m_record_id (returned_loan loan now))
                    (returned_loan loan now)
                    (InMemoryPersistenceService.m_loan_records mem)))).
    { apply memory_wf_set_loan; auto.
      - destruct (wf_loans_valid _ Hwf _ _ Hentry) as (Hids & _). exact Hids.
      - destruct Hdates as [Hdue _]. split; simpl; [exact Hdue|].
        intros d [= <-]. exact Hdate. }
    rewrite (memory_updateItemStatus _ item_id item AVAILABLE Hwf' Hitem).
    cbn [LoanService.writing LoanService.with_store].
    unfold returned_state. simpl. rewrite Hloan_item. reflexivity.
  - apply filter_In. split; [exact Hin|].
    unfold LoanRecord.getItemId. rewrite Hloan_item. apply String.eqb_refl.
  - unfold LoanRecord.getUserId, LoanRecord.getReturnDate.
    rewrite Huser, Hopen, String.eqb_refl. reflexivity.
  - intros r Hr Hp. apply filter_In in Hr as (Hr & Hritem).
    apply andb_true_iff in Hp as (Hruser & Hropen).
    apply String.eqb_eq in Hritem, Hruser.
    unfold LoanRecord.getItemId in Hritem. unfold LoanRecord.getUserId in Hruser.
    unfold LoanRecord.getReturnDate in Hropen.
    apply Honly; auto; try congruence.
    destruct (LoanRecord.m_return_date r); [discriminate | reflexivity].
Qed.

Lemma borrowed_state_wf mem item loan :
  memory_wf mem -> Book.valid item -> Book.m_id item = LoanRecord.m_item_id loan ->
  LoanRecord.ids_ok loan -> LoanRecord.dates_ok loan ->
  memory_wf (borrowed_state mem item loan).
Proof.
  intros Hwf Hvalid Hid Hids Hdates. unfold borrowed_state.
  pose proof (memory_wf_set_loan _ _ Hwf Hids Hdates) as Hwf1.
  pose proof (memory_wf_set_item _ _ Hwf1 (setAvailabilityStatus_valid _ BORROWED Hvalid))
    as Hwf2.
  simpl in Hwf2. rewrite Hid in Hwf2. exact Hwf2.
Qed.




(** On the in-memory backend the pair of operations does what is asked of
    it: for an existing user and an existing AVAILABLE item of which the user
    holds no open loan, a borrow at clock reading [now1] followed by a return
    at a reading [now2] that is not earlier both succeed, the item is stored as
    AVAILABLE again, and the stored loan record has loan date [now1] and
    return date [now2]. *)
Theorem borrow_then_return_restores_available (now1 now2 days counter : Z)
    (notes : list (EntityId * string)) (mem : InMemoryPersistenceService.t)
    (user_id item_id : EntityId) (user : User.t) (item : Book.t) :
  memory_wf mem ->
  due_date_fits now1 days ->
  StdMap.find user_id (InMemoryPersistenceService.m_users mem) = Some user ->
  StdMap.find item_id (InMemoryPersistenceService.m_items mem) = Some item ->
  Book.m_availability_status item = AVAILABLE ->
  no_active_loan user_id item_id mem ->
  now1 <= now2 ->
  exists loan sv1 sv2 returned,
    LoanService.borrowItem now1 user_id item_id (LoanService.mk mem days counter notes)
      = (Ok loan, sv1) /\
    LoanService.returnItem now2 user_id item_id sv1 = (Ok tt, sv2) /\
    stored_status (LoanService.m_persistence_service sv2) item_id = Some AVAILABLE /\
    IPersistenceService.loadLoanRecord (LoanService.m_persistence_service sv2)
      (LoanRecord.m_record_id loan) = Ok (Some returned) /\
    LoanRecord.m_return_date returned = Some now2 /\
    LoanRecord.m_loan_date returned = now1.
Proof.
  intros Hwf Hdays Huser Hitem Hstatus Hno Hclock.
  pose proof (due_date_fits_days _ _ Hdays) as Hfits. clear Hdays.
  rename Hfits into Hdays.
  destruct (memory_user_id _ _ _ Hwf Huser) as (_ & Hune).
  destruct (memory_item_id _ _ _ Hwf Hitem) as (Hid & Hine & Hvalid).
  destruct (borrowed_loan_ok now1 days counter user_id item_id Hdays Hune Hine)
    as (_ & Hids & Hdates).
  set (loan := borrowed_loan now1 days counter user_id item_id) in *.
  assert (Hwf1 : memory_wf (borrowed_state mem item loan))
    by (apply borrowed_state_wf; auto).
  assert (Hitem1 : StdMap.find item_id
                     (InMemoryPersistenceService.m_items (borrowed_state mem item loan))
                   = Some (Book.setAvailabilityStatus item BORROWED))
    by (unfold borrowed_state; simpl; apply find_set_same).
  assert (Honly : only_active_loan loan (borrowed_state mem item loan)).
  { unfold only_active_loan, borrowed_state.
    cbn [InMemoryPersistenceService.m_loan_records].
    split; [|split].
    - eapply find_In. apply find_set_same.
    - reflexivity.
    - intros r Hr Hru Hri Hropen. apply In_values in Hr as (k & Hr).
      apply In_set in Hr as [[= _ ->]|Hr]; [reflexivity|].
      exfalso. apply (Hno r); auto. apply In_values; eauto. }
  exists loan. eexists. eexists. exists (returned_loan loan now2).
  split; [|split].
  - apply (memory_borrowItem now1 days counter notes mem user_id item_id user item); auto.
  - apply (memory_returnItem now2 days (counter + 1) notes _ user_id item_id
             (Book.setAvailabilityStatus item BORROWED) loan); auto.
  - cbn [LoanService.m_persistence_service IPersistenceService.loadLoanRecord
         InMemoryPersistenceService.backend].
    unfold stored_status, InMemoryPersistenceService.loadLoanRecord, returned_state.
    cbn [InMemoryPersistenceService.m_items InMemoryPersistenceService.m_loan_records
         returned_loan LoanRecord.m_item_id LoanRecord.m_record_id
         LoanRecord.m_return_date LoanRecord.m_loan_date].
    rewrite !find_set_same.
    split; [reflexivity|]. split; [reflexivity|]. split; reflexivity.
Qed.

Lemma borrow_then_return_restores_available_witness :
  let mem :=
    InMemoryPersistenceService.mk
      [("a1", Author.mk "a1" "Ann")]
      [("b1", Book.mk "b1" "Title" (Some (Author.mk "a1" "Ann")) "isbn-1" 2001 AVAILABLE)]
      [("u1", User.mk "u1" "Uma")]
      [] in
  exists loan sv1 sv2 returned,
    LoanService.borrowItem 1704450607000000000 "u1" "b1" (LoanService.mk mem 14 0 [])
      = (Ok loan, sv1) /\
    LoanService.returnItem 1704537007000000000 "u1" "b1" sv1 = (Ok tt, sv2) /\
    stored_status (LoanService.m_persistence_service sv2) "b1" = Some AVAILABLE /\
    IPersistenceService.loadLoanRecord (LoanService.m_persistence_service sv2)
      (LoanRecord.m_record_id loan) = Ok (Some returned) /\
    LoanRecord.m_return_date returned = Some 1704537007000000000 /\
    LoanRecord.m_loan_date returned = 1704450607000000000.
Proof.
  intros mem.
  apply (borrow_then_return_restores_available 1704450607000000000
           1704537007000000000 14 0 [] mem "u1" "b1" (User.mk "u1" "Uma")
           (Book.mk "b1" "Title" (Some (Author.mk "a1" "Ann")) "isbn-1" 2001 AVAILABLE)).
  - constructor; intros k v Hin; simpl in Hin;
      repeat (destruct Hin as [Hin|Hin]; [inversion Hin; subst; clear Hin|]);
      try contradiction; simpl; repeat split; try discriminate; try lia.
  - unfold due_date_fits, clock_reading, LLONG_MAX, DateTimeUtils.ticks_per_second.
    lia.
  - reflexivity.
  - reflexivity.
  - reflexivity.
  - intros r Hin. simpl in Hin. contradiction.
  - lia.
Defined.

(** ** The states of the in-memory backend that can arise are well formed *)

Section MapInvariants.
Context {V : Type}.
Implicit Types (m : StdMap.t V) (k : string) (v : V).

Lemma keys_assign m k v : StdMap.keys (StdMap.assign k v m) = StdMap.keys m.
Proof.
  induction m as [|[k' v'] m IH]; simpl; [reflexivity|].
  destruct (String.eqb k k'); simpl; [reflexivity | now rewrite IH].
Qed.

Lemma find_None_keys m k : StdMap.find k m = None -> ~ In k (StdMap.keys m).
Proof.
  induction m as [|[k' v'] m IH]; simpl; [tauto|].
  destruct (String.eqb k k') eqn:E; [discriminate|].
  apply String.eqb_neq in E. intros Hf [H|H]; [congruence | now apply IH].
Qed.

Lemma In_keys_emplace m k v x :
  In x (StdMap.keys (StdMap.emplace k v m)) -> x = k \/ In x (StdMap.keys m).
Proof.
  induction m as [|[k' v'] m IH]; simpl.
  - intros [<-|[]]. now left.
  - destruct (String.eqb k k'); [simpl; tauto|].
    destruct (String.ltb k k'); simpl.
    + intros [<-|H]; tauto.
    + intros [<-|H]; [tauto|]. destruct (IH H); tauto.
Qed.

Lemma NoDup_emplace m k v :
  StdMap.find k m = None -> NoDup (StdMap.keys m) ->
  NoDup (StdMap.keys (StdMap.emplace k v m)).
Proof.
  induction m as [|[k' v'] m IH]; simpl; intros Hf Hnd.
  - constructor; [tauto | constructor].
  - destruct (String.eqb k k') eqn:E; [discriminate|].
    apply String.eqb_neq in E.
    inversion Hnd as [|? ? Hnotin Hnd']; subst.
    destruct (String.ltb k k'); simpl.
    + constructor; [|assumption].
      intros [H|H]; [congruence|]. now apply (find_None_keys _ _ Hf).
    + constructor; [|now apply IH].
      intros H. apply In_keys_emplace in H as [H|H]; [congruence | contradiction].
Qed.

Lemma NoDup_set m k v :
  NoDup (StdMap.keys m) -> NoDup (StdMap.keys (StdMap.set k v m)).
Proof.
  intros Hnd. unfold StdMap.set. destruct (StdMap.find k m) eqn:E.
  - now rewrite keys_assign.
  - now apply NoDup_emplace.
Qed.

Lemma In_erase m k e : In e (StdMap.erase k m) -> In e m.
Proof.
  induction m as [|[k' v'] m IH]; simpl; [tauto|].
  destruct (String.eqb k k'); simpl; [tauto|]. intros [<-|H]; auto.
Qed.

Lemma NoDup_erase m k :
  NoDup (StdMap.keys m) -> NoDup (StdMap.keys (StdMap.erase k m)).
Proof.
  induction m as [|[k' v'] m IH]; simpl; intros Hnd; [constructor|].
  inversion Hnd as [|? ? Hnotin Hnd']; subst.
  destruct (String.eqb k k'); simpl; [assumption|].
  constructor; [|now apply IH].
  intros H. apply Hnotin. unfold StdMap.keys in *.
  apply in_map_iff in H as ((k0 & v0) & Hk & H). simpl in Hk; subst k0.
  apply in_map_iff. exists (k', v0). split; [reflexivity|]. eapply In_erase; eassumption.
Qed.

Lemma keyed_by_erase (id : V -> string) m k :
  keyed_by id m -> keyed_by id (StdMap.erase k m).
Proof. intros H k' v' Hin. apply H. eapply In_erase; eassumption. Qed.

Lemma all_values_erase (good : V -> Prop) m k :
  all_values good m -> all_values good (StdMap.erase k m).
Proof. intros H k' v' Hin. eapply H. eapply In_erase; eassumption. Qed.
End MapInvariants.

Lemma produced_well_formed m : produced m -> memory_wf m /\ memory_unique m.
Proof.
  induction 1 as
    [ | m a m' _ [Hwf Hu] Ha Hop | m id m' _ [Hwf Hu] Hop
      | m b m' _ [Hwf Hu] Hb Hop | m id m' _ [Hwf Hu] Hop
      | m u m' _ [Hwf Hu] Hv Hop | m id m' _ [Hwf Hu] Hop
      | m r m' _ [Hwf Hu] Hids Hdates Hop | m r m' _ [Hwf Hu] Hids Hdates Hop
      | m id m' _ [Hwf Hu] Hop ].
  - split; constructor; simpl; try (intros k v []); constructor.
  - injection Hop as <-. destruct Hwf, Hu. unfold Author.getId.
    split; constructor; simpl; auto.
    + now apply keyed_by_set.
    + now apply all_values_set.
    + now apply NoDup_set.
  - injection Hop as <-. destruct Hwf, Hu.
    split; constructor; simpl; auto.
    + now apply keyed_by_erase.
    + now apply all_values_erase.
    + now apply NoDup_erase.
  - unfold InMemoryPersistenceService.saveLibraryItem in Hop.
    rewrite (clone_valid _ Hb) in Hop. injection Hop as <-.
    destruct Hwf, Hu. unfold Book.getId.
    split; constructor; simpl; auto.
    + now apply keyed_by_set.
    + now apply all_values_set.
    + now apply NoDup_set.
  - injection Hop as <-. destruct Hwf, Hu.
    split; constructor; simpl; auto.
    + now apply keyed_by_erase.
    + now apply all_values_erase.
    + now apply NoDup_erase.
  - injection Hop as <-. destruct Hwf, Hu. unfold User.getUserId.
    fold (StdMap.set (User.m_user_id u) u (InMemoryPersistenceService.m_users m)).
    split; constructor; simpl; auto.
    + now apply keyed_by_set.
    + now apply all_values_set.
    + now apply NoDup_set.
  - injection Hop as <-. destruct Hwf, Hu.
    split; constructor; simpl; auto.
    + now apply keyed_by_erase.
    + now apply all_values_erase.
    + now apply NoDup_erase.
  - rewrite memory_saveLoanRecord in Hop. injection Hop as <-.
    destruct Hwf, Hu.
    split; constructor; simpl; auto.
    + now apply keyed_by_set.
    + now apply all_values_set.
    + now apply NoDup_set.
  - rewrite memory_updateLoanRecord in Hop. injection Hop as <-.
    destruct Hwf, Hu.
    split; constructor; simpl; auto.
    + now apply keyed_by_set.
    + now apply all_values_set.
    + now apply NoDup_set.
  - injection Hop as <-. destruct Hwf, Hu.
    split; constructor; simpl; auto.
    + now apply keyed_by_erase.
    + now apply all_values_erase.
    + now apply NoDup_erase.
Qed.

(** ** The overdue scan *)

Lemma append_assoc (a b c : string) : (a ++ b) ++ c = a ++ b ++ c.
Proof. induction a as [|x a IH]; simpl; [reflexivity | now rewrite IH]. Qed.

Lemma overdue_message_mentions tz user_name item_title loan :
  mentions (LoanRecord.m_record_id loan)
    (LoanService.overdue_message tz user_name item_title loan).
Proof.
  unfold mentions, LoanService.overdue_message, LoanRecord.getRecordId.
  exists ("Dear " ++ user_name ++ ", the item '" ++ item_title ++ "' (Loan ID: ").
  eexists. rewrite !append_assoc. reflexivity.
Qed.

Lemma memory_process_loan tz today days counter notes mem loan :
  memory_wf mem -> LoanRecord.ids_ok loan ->
  LoanService.process_loan tz today (LoanService.mk mem days counter notes) loan
  = Ok (LoanService.mk mem days counter
          (if LoanService.is_overdue today loan
           then List.app notes [overdue_notification tz mem loan]
           else notes)).
Proof.
  intros Hwf (_ & Hi & Hu). unfold LoanService.process_loan.
  destruct (LoanService.is_overdue today loan); [|reflexivity].
  unfold UserService.findUserById, CatalogService.findItemById.
  unfold LoanRecord.getUserId, LoanRecord.getItemId.
  apply empty_false in Hi, Hu. rewrite Hi, Hu.
  cbn [LoanService.m_persistence_service IPersistenceService.loadUser
       IPersistenceService.loadLibraryItem InMemoryPersistenceService.backend].
  unfold InMemoryPersistenceService.loadUser. cbn [bind].
  unfold overdue_notification, LoanService.sendNotification.
  destruct (StdMap.find (LoanRecord.m_item_id loan)
              (InMemoryPersistenceService.m_items mem)) as [item|] eqn:Hitem.
  - rewrite (memory_loadLibraryItem _ _ _ Hwf Hitem). reflexivity.
  - unfold InMemoryPersistenceService.loadLibraryItem. rewrite Hitem. reflexivity.
Qed.

Lemma memory_process_loans tz today days counter mem loans : forall notes,
  memory_wf mem -> Forall LoanRecord.ids_ok loans ->
  LoanService.process_loans tz today loans (LoanService.mk mem days counter notes)
  = (Ok tt,
     LoanService.mk mem days counter
       (List.app notes
          (map (overdue_notification tz mem)
               (filter (LoanService.is_overdue today) loans)))).
Proof.
  induction loans as [|loan loans IH]; intros notes Hwf Hids; simpl.
  - now rewrite app_nil_r.
  - inversion Hids as [|? ? Hloan Hrest]; subst.
    rewrite (memory_process_loan _ _ _ _ _ _ _ Hwf Hloan).
    rewrite IH by assumption.
    destruct (LoanService.is_overdue today loan); simpl; [|reflexivity].
    now rewrite <- app_assoc.
Qed.

Lemma memory_loans_ids_ok mem :
  memory_wf mem ->
  Forall LoanRecord.ids_ok (StdMap.values (InMemoryPersistenceService.m_loan_records mem)).
Proof.
  intros Hwf. apply Forall_forall. intros r Hin.
  apply In_values in Hin as (k & Hin).
  now destruct (wf_loans_valid _ Hwf _ _ Hin).
Qed.

(** On the in-memory backend, the overdue scan succeeds, leaves the store
    as it was, and sends, in the order of the loan records, exactly the
    notifications of the records that have no return date and a due date
    strictly before the midnight that starts today: one each, every one
    naming the id of its record, and none for any other record.  In the
    scenario (loans due 2024-01-01 and 2024-01-10, neither returned, the scan
    run during 2024-01-05) exactly one notification is sent, to the user of
    the first loan and naming its id. *)
Theorem process_overdue_items_notifies_overdue_loans :
  (forall tz now days counter notes mem,
      memory_wf mem ->
      let today := DateTimeUtils.today tz now in
      let overdue :=
        filter (fun loan =>
                  match LoanRecord.m_return_date loan with
                  | None => LoanRecord.m_due_date loan <? today
                  | Some _ => false
                  end)
          (StdMap.values (InMemoryPersistenceService.m_loan_records mem)) in
      LoanService.processOverdueItems tz now (LoanService.mk mem days counter notes)
      = (Ok tt,
         LoanService.mk mem days counter
           (List.app notes (map (overdue_notification tz mem) overdue))) /\
      List.length (map (overdue_notification tz mem) overdue) = List.length overdue /\
      forall loan, In loan overdue ->
        fst (overdue_notification tz mem loan) = LoanRecord.m_user_id loan /\
        mentions (LoanRecord.m_record_id loan) (snd (overdue_notification tz mem loan))) /\
  (let tz := 3600 in
   let message :=
     "Dear Uma, the item 'First' (Loan ID: loan_1) was due on 2024-01-01. Please return it as soon as possible." in
   LoanService.processOverdueItems tz (local_time tz 2024 1 5 9 15 0)
     (LoanService.mk (overdue_scenario tz) 14 2 [])
   = (Ok tt, LoanService.mk (overdue_scenario tz) 14 2 [("u1", message)]) /\
   mentions "loan_1" message).
Proof.
  split.
  - intros tz now days counter notes mem Hwf today overdue.
    split; [|split].
    + unfold LoanService.processOverdueItems.
      cbn [LoanService.m_persistence_service IPersistenceService.loadAllLoanRecords
           InMemoryPersistenceService.backend].
      unfold InMemoryPersistenceService.loadAllLoanRecords.
      cbn [LoanService.reading].
      apply memory_process_loans; [assumption|].
      now apply memory_loans_ids_ok.
    + apply length_map.
    + intros loan _. split; [reflexivity|].
      apply overdue_message_mentions.
  - intros tz message. split.
    + vm_compute. reflexivity.
    + exists "Dear Uma, the item 'First' (Loan ID: ".
      exists ") was due on 2024-01-01. Please return it as soon as possible.".
      reflexivity.
Qed.

Lemma process_overdue_items_notifies_overdue_loans_witness :
  LoanService.processOverdueItems 0 (local_time 0 2024 1 5 12 0 0)
    (LoanService.mk (overdue_scenario 0) 14 2 [])
  = (Ok tt,
     LoanService.mk (overdue_scenario 0) 14 2
       (List.app []
          (map (overdue_notification 0 (overdue_scenario 0))
             (filter (fun loan =>
                        match LoanRecord.m_return_date loan with
                        | None =>
                            LoanRecord.m_due_date loan <?
                              DateTimeUtils.today 0 (local_time 0 2024 1 5 12 0 0)
                        | Some _ => false
                        end)
                (StdMap.values
                   (InMemoryPersistenceService.m_loan_records (overdue_scenario 0))))))).
Proof.
  apply (proj1 process_overdue_items_notifies_overdue_loans 0
           (local_time 0 2024 1 5 12 0 0) 14 2 [] (overdue_scenario 0)).
  constructor; intros k v Hin; simpl in Hin;
    repeat (destruct Hin as [Hin|Hin]; [inversion Hin; subst; clear Hin|]);
    try contradiction; simpl; repeat split; try discriminate; try lia;
    try (vm_compute; discriminate).
Defined.

(** ** The delimited files: writing and reading back *)

Lemma append_cons (a : string) (c : ascii) (b : string) :
  (a ++ String c EmptyString) ++ b = a ++ String c b.
Proof. induction a as [|x a IH]; simpl; [reflexivity | now rewrite IH]. Qed.

Lemma contains_app c a b :
  Text.contains c (a ++ b) = Text.contains c a || Text.contains c b.
Proof.
  induction a as [|x a IH]; simpl; [reflexivity|].
  rewrite IH. now rewrite orb_assoc.
Qed.

Lemma contains_cons c x s :
  Text.contains c (String x s) = Ascii.eqb x c || Text.contains c s.
Proof. reflexivity. Qed.

Lemma getline_all_field d f rest :
  Text.contains d f = false ->
  Text.getline_all d (f ++ String d rest) = f :: Text.getline_all d rest.
Proof.
  induction f as [|c f IH]; simpl; intros H.
  - now rewrite Ascii.eqb_refl.
  - apply orb_false_iff in H as [Hc Hf]. rewrite Hc, (IH Hf). reflexivity.
Qed.

Lemma getline_all_last d f :
  Text.contains d f = false ->
  Text.getline_all d f = if empty f then [] else [f].
Proof.
  induction f as [|c f IH]; simpl; intros H; [reflexivity|].
  apply orb_false_iff in H as [Hc Hf]. rewrite Hc, (IH Hf).
  destruct f; reflexivity.
Qed.

Lemma getline_all_no_delim d s :
  forall f, In f (Text.getline_all d s) -> Text.contains d f = false.
Proof.
  induction s as [|c s IH]; simpl; intros f Hin; [contradiction|].
  destruct (Ascii.eqb c d) eqn:E.
  - destruct Hin as [<-|Hin]; [reflexivity | auto].
  - destruct (Text.getline_all d s) as [|g gs] eqn:G.
    + destruct Hin as [<-|[]]. simpl. now rewrite E.
    + destruct Hin as [<-|Hin].
      * simpl. rewrite E. apply IH. now left.
      * apply IH. now right.
Qed.

Lemma getline_all_sub d c s :
  Text.contains c s = false ->
  forall f, In f (Text.getline_all d s) -> Text.contains c f = false.
Proof.
  induction s as [|x s IH]; simpl; intros H f Hin; [contradiction|].
  apply orb_false_iff in H as [Hx Hs].
  destruct (Ascii.eqb x d) eqn:E.
  - destruct Hin as [<-|Hin]; [reflexivity | auto].
  - destruct (Text.getline_all d s) as [|g gs] eqn:G.
    + destruct Hin as [<-|[]]. simpl. now rewrite Hx.
    + destruct Hin as [<-|Hin].
      * simpl. rewrite Hx. apply (IH Hs). now left.
      * apply (IH Hs). now right.
Qed.

Lemma contains_replace_gone c b s :
  b <> c -> Text.contains c (Text.replace c b s) = false.
Proof.
  intros Hb. induction s as [|x s IH]; simpl; [reflexivity|].
  rewrite IH, orb_false_r.
  destruct (Ascii.eqb x c) eqn:E.
  - now apply Ascii.eqb_neq.
  - exact E.
Qed.

Lemma contains_replace_other a b c s :
  a <> c -> b <> c ->
  Text.contains c (Text.replace a b s) = Text.contains c s.
Proof.
  intros Ha Hb. induction s as [|x s IH]; simpl; [reflexivity|].
  rewrite IH. f_equal.
  destruct (Ascii.eqb x a) eqn:E.
  - apply Ascii.eqb_eq in E; subst x.
    apply Ascii.eqb_neq in Ha, Hb. now rewrite Ha, Hb.
  - reflexivity.
Qed.

Lemma contains_replace_kept a b c s :
  b <> c -> Text.contains c s = false ->
  Text.contains c (Text.replace a b s) = false.
Proof.
  intros Hb. induction s as [|x s IH]; simpl; [reflexivity|].
  intros H. apply orb_false_iff in H as [Hx Hs]. rewrite (IH Hs), orb_false_r.
  destruct (Ascii.eqb x a); [now apply Ascii.eqb_neq | exact Hx].
Qed.

Lemma unescape_clean f :
  Text.contains Text.newline f = false ->
  clean_field (FilePersistenceService.unescapeCsvField f).
Proof.
  intros H. unfold clean_field, FilePersistenceService.unescapeCsvField.
  split; [|split].
  - apply contains_replace_kept; [discriminate|].
    apply contains_replace_kept; [discriminate | exact H].
  - apply contains_replace_gone. discriminate.
  - rewrite contains_replace_other by discriminate.
    apply contains_replace_gone. discriminate.
Qed.

Lemma unescape_escape f :
  clean_field f ->
  FilePersistenceService.unescapeCsvField (FilePersistenceService.escapeCsvField f) = f.
Proof.
  intros (_ & Hc & Hq).
  unfold FilePersistenceService.unescapeCsvField, FilePersistenceService.escapeCsvField.
  induction f as [|x f IH]; simpl; [reflexivity|].
  simpl in Hc, Hq.
  apply orb_false_iff in Hc as [Hxc Hfc]. apply orb_false_iff in Hq as [Hxq Hfq].
  rewrite (IH Hfc Hfq). f_equal.
  destruct (Ascii.eqb x Text.quote) eqn:E1.
  - apply Ascii.eqb_eq in E1; subst x. reflexivity.
  - destruct (Ascii.eqb x Text.comma) eqn:E2.
    + apply Ascii.eqb_eq in E2; subst x. reflexivity.
    + rewrite Hxq, Hxc. reflexivity.
Qed.

Lemma escape_no_comma f :
  Text.contains Text.comma (FilePersistenceService.escapeCsvField f) = false.
Proof.
  unfold FilePersistenceService.escapeCsvField.
  apply contains_replace_gone. discriminate.
Qed.

Lemma escape_no_newline f :
  clean_field f ->
  Text.contains Text.newline (FilePersistenceService.escapeCsvField f) = false.
Proof.
  intros (Hn & _). unfold FilePersistenceService.escapeCsvField.
  apply contains_replace_kept; [discriminate|].
  apply contains_replace_kept; [discriminate | exact Hn].
Qed.

Lemma escape_empty f : empty (FilePersistenceService.escapeCsvField f) = empty f.
Proof. destruct f; reflexivity. Qed.

Lemma write_fields_no_newline r :
  clean_record r ->
  Text.contains Text.newline (FilePersistenceService.write_fields r) = false.
Proof.
  induction r as [|f r IH]; intros Hr; [reflexivity|].
  inversion Hr as [|? ? Hf Hr']; subst.
  destruct r as [|g r]; [now apply escape_no_newline|].
  change (FilePersistenceService.write_fields (f :: g :: r))
    with (FilePersistenceService.escapeCsvField f
            ++ String Text.comma (FilePersistenceService.write_fields (g :: r))).
  rewrite contains_app, (escape_no_newline _ Hf), contains_cons, (IH Hr').
  reflexivity.
Qed.

Lemma read_write_fields r :
  clean_record r ->
  FilePersistenceService.read_record (FilePersistenceService.write_fields r) = norm_row r.
Proof.
  unfold FilePersistenceService.read_record.
  induction r as [|f r IH]; intros Hr; [reflexivity|].
  inversion Hr as [|? ? Hf Hr']; subst.
  destruct r as [|g r].
  - simpl FilePersistenceService.write_fields.
    rewrite getline_all_last by apply escape_no_comma.
    rewrite escape_empty. simpl norm_row.
    destruct (empty f); [reflexivity|]. simpl. now rewrite unescape_escape.
  - change (FilePersistenceService.write_fields (f :: g :: r))
      with (FilePersistenceService.escapeCsvField f
              ++ String Text.comma (FilePersistenceService.write_fields (g :: r))).
    rewrite getline_all_field by apply escape_no_comma.
    cbn [map]. rewrite (IH Hr'), unescape_escape by assumption. reflexivity.
Qed.

Lemma write_fields_empty r :
  empty (FilePersistenceService.write_fields r) = true <-> norm_row r = [].
Proof.
  destruct r as [|f [|g r]].
  - simpl. tauto.
  - simpl. rewrite escape_empty. destruct (empty f); split; congruence.
  - change (FilePersistenceService.write_fields (f :: g :: r))
      with (FilePersistenceService.escapeCsvField f
              ++ String Text.comma (FilePersistenceService.write_fields (g :: r))).
    simpl norm_row. split; [|discriminate].
    destruct (FilePersistenceService.escapeCsvField f); simpl; discriminate.
Qed.

(** Reading back what was written: every record has lost an empty last
    field, and the records left without fields are gone. *)
Lemma read_write_csv data :
  Forall clean_record data ->
  FilePersistenceService.readCsvFile (FilePersistenceService.writeCsvFile data)
  = reread data.
Proof.
  unfold FilePersistenceService.readCsvFile.
  induction data as [|r data IH]; intros Hdata; [reflexivity|].
  inversion Hdata as [|? ? Hr Hdata']; subst.
  simpl FilePersistenceService.writeCsvFile.
  unfold FilePersistenceService.write_record. rewrite append_cons.
  rewrite getline_all_field by now apply write_fields_no_newline.
  simpl FilePersistenceService.read_lines. simpl reread.
  rewrite (IH Hdata').
  destruct (empty (FilePersistenceService.write_fields r)) eqn:E.
  - apply write_fields_empty in E. now rewrite E.
  - rewrite (read_write_fields _ Hr).
    destruct (norm_row r) eqn:N; [|reflexivity].
    apply write_fields_empty in N. congruence.
Qed.

Lemma read_lines_clean lines :
  (forall l, In l lines -> Text.contains Text.newline l = false) ->
  Forall clean_record (FilePersistenceService.read_lines lines).
Proof.
  induction lines as [|l lines IH]; intros H; simpl; [constructor|].
  destruct (empty l); [apply IH; intros; apply H; now right|].
  constructor; [|apply IH; intros; apply H; now right].
  unfold clean_record, FilePersistenceService.read_record.
  apply Forall_forall. intros f Hin. apply in_map_iff in Hin as (g & <- & Hg).
  apply unescape_clean. eapply getline_all_sub; [|exact Hg]. apply H. now left.
Qed.

(** What is read from a file, whatever its content, is made of clean
    fields. *)
Lemma read_csv_clean content :
  Forall clean_record (FilePersistenceService.readCsvFile content).
Proof.
  apply read_lines_clean. apply getline_all_no_delim.
Qed.

(** ** The file backend: loading an item whose author is missing *)

Lemma book_new_without_author id title isbn year status :
  Book.new id title None isbn year status = Throw InvalidArgumentException.
Proof. unfold Book.new. destruct (empty id), (empty title); reflexivity. Qed.

Lemma loadLibraryItem_loop_find s item_id data :
  FilePersistenceService.loadLibraryItem_loop s item_id data =
  match List.find (fun fields =>
                     (2 <=? List.length fields)%nat
                     && String.eqb (FilePersistenceService.field 0 fields) item_id
                     && String.eqb (FilePersistenceService.field 1 fields) "Book"
                     && (List.length fields =? 7)%nat) data with
  | None => ([], Ok None)
  | Some fields =>
      match FilePersistenceService.book_of_fields s fields with
      | (log, Ok book) => (log, Ok (Some book))
      | (log, Throw _) =>
          (List.app log ["Error parsing book record for ID "
                           ++ FilePersistenceService.field 0 fields ++ ": "
                           ++ FilePersistenceService.book_error_what s fields], Ok None)
      | (log, Fault) => (log, Fault)
      end
  end.
Proof.
  induction data as [|fields data IH]; [reflexivity|].
  cbn [FilePersistenceService.loadLibraryItem_loop List.find].
  destruct ((2 <=? List.length fields)%nat
            && String.eqb (FilePersistenceService.field 0 fields) item_id
            && String.eqb (FilePersistenceService.field 1 fields) "Book"
            && (List.length fields =? 7)%nat); [reflexivity | exact IH].
Qed.

(** C3, as the code has it.  When the record of an item names an author id
    that the authors file does not have, [loadLibraryItem] raises nothing,
    logs the missing author, and returns no item: a [Book] cannot be built
    without an author, and the exception of its constructor is caught inside
    the loader. *)
Theorem load_item_with_missing_author_returns_nothing
    (s : FilePersistenceService.t) (item_id : EntityId) (fields : list string) :
  item_record s item_id = Some fields ->
  FilePersistenceService.field 3 fields <> EmptyString ->
  FilePersistenceService.loadAuthor s (FilePersistenceService.field 3 fields) = Ok None ->
  FilePersistenceService.loadLibraryItem s item_id = Ok None /\
  In ("Warning: Author ID '" ++ FilePersistenceService.field 3 fields
        ++ "' not found for book '" ++ FilePersistenceService.field 0 fields ++ "'.")
     (fst (FilePersistenceService.loadLibraryItem_logged s item_id)).
Proof.
  intros Hrec Hid Hauthor.
  unfold FilePersistenceService.loadLibraryItem,
    FilePersistenceService.loadLibraryItem_logged.
  rewrite loadLibraryItem_loop_find. unfold item_record in Hrec. rewrite Hrec.
  unfold FilePersistenceService.book_of_fields.
  apply empty_false in Hid. rewrite Hid, Hauthor.
  destruct (Text.stoi (FilePersistenceService.field 5 fields)) as [year|];
    [destruct (Text.stoi (FilePersistenceService.field 6 fields)) as [status|]|].
  - rewrite book_new_without_author. split; [reflexivity|]. simpl. now left.
  - split; [reflexivity|]. simpl. now left.
  - split; [reflexivity|]. simpl. now left.
Qed.

Lemma load_item_with_missing_author_returns_nothing_witness :
  FilePersistenceService.loadLibraryItem orphan_item_files "b1" = Ok None /\
  In ("Warning: Author ID 'a9' not found for book 'b1'.")
     (fst (FilePersistenceService.loadLibraryItem_logged orphan_item_files "b1")).
Proof.
  apply (load_item_with_missing_author_returns_nothing orphan_item_files "b1"
           ["b1"; "Book"; "Title"; "a9"; "isbn-1"; "2001"; "0"]).
  - vm_compute. reflexivity.
  - simpl. discriminate.
  - vm_compute. reflexivity.
Defined.

(** C3, as stated, fails: the item of the record is not returned without an
    author; nothing is returned. *)
Lemma load_item_with_missing_author_counterexample :
  item_record orphan_item_files "b1"
    = Some ["b1"; "Book"; "Title"; "a9"; "isbn-1"; "2001"; "0"] /\
  FilePersistenceService.loadAuthor orphan_item_files "a9" = Ok None /\
  FilePersistenceService.loadLibraryItem orphan_item_files "b1" = Ok None /\
  ~ (exists item,
       FilePersistenceService.loadLibraryItem orphan_item_files "b1" = Ok (Some item) /\
       Book.m_author item = None).
Proof.
  split; [vm_compute; reflexivity|].
  split; [vm_compute; reflexivity|].
  split; [vm_compute; reflexivity|].
  intros (item & Hload & _). vm_compute in Hload. discriminate.
Qed.

(** ** The file backend: records shorter than two fields *)

(** [saveAuthor] and [saveUser] write to the second field of the first
    record that carries the id, whatever the size of the record: when that
    record has the id as its only field the write is outside the vector. *)
Lemma assign_name_short_record id name before rest :
  (forall r, In r before -> FilePersistenceService.has_id id r = false) ->
  FilePersistenceService.assign_name id name (List.app before ([id] :: rest)) = Fault.
Proof.
  induction before as [|r before IH]; intros Hbefore; simpl.
  - now rewrite String.eqb_refl.
  - rewrite (Hbefore r) by now left.
    rewrite IH; [reflexivity|]. intros r' Hr'. apply Hbefore. now right.
Qed.

(** C10, at its failing inputs.  The reader yields a record of one field
    for a line without comma; saving the author or the user of that id then
    indexes the record out of bounds.  Such a line is also what the backend
    itself leaves behind for a name that contains a line break. *)
Theorem save_author_and_user_index_out_of_bounds :
  FilePersistenceService.readCsvFile
    (FilePersistenceService.authors_csv short_record_files) = [["a1"]] /\
  FilePersistenceService.saveAuthor short_record_files (Some (Author.mk "a1" "Ann")) = Fault /\
  FilePersistenceService.saveUser short_record_files (User.mk "u1" "Uma") = Fault /\
  Author.new "a0" ("Ann" ++ String Text.newline "a1") = Ok two_line_author /\
  exists s,
    FilePersistenceService.saveAuthor FilePersistenceService.new (Some two_line_author) = Ok s /\
    FilePersistenceService.readCsvFile (FilePersistenceService.authors_csv s)
      = [["a0"; "Ann"]; ["a1"]] /\
    FilePersistenceService.saveAuthor s (Some (Author.mk "a1" "Bob")) = Fault.
Proof.
  split; [vm_compute; reflexivity|].
  split; [vm_compute; reflexivity|].
  split; [vm_compute; reflexivity|].
  split; [vm_compute; reflexivity|].
  eexists. split; [vm_compute; reflexivity|].
  split; vm_compute; reflexivity.
Qed.

(** ** Save then load *)

Lemma memory_round_trip_author mem a :
  exists mem',
    InMemoryPersistenceService.saveAuthor mem (Some a) = Ok mem' /\
    InMemoryPersistenceService.loadAuthor mem' (Author.getId a) = Ok (Some a).
Proof.
  eexists. split; [reflexivity|].
  unfold InMemoryPersistenceService.loadAuthor; simpl. now rewrite find_set_same.
Qed.

Lemma memory_round_trip_user mem u :
  exists mem',
    InMemoryPersistenceService.saveUser mem u = Ok mem' /\
    InMemoryPersistenceService.loadUser mem' (User.getUserId u) = Ok (Some u).
Proof.
  eexists. split; [reflexivity|].
  unfold InMemoryPersistenceService.loadUser; simpl.
  fold (StdMap.set (User.getUserId u) u (InMemoryPersistenceService.m_users mem)).
  now rewrite find_set_same.
Qed.

Lemma memory_round_trip_item mem b :
  Book.valid b ->
  exists mem',
    InMemoryPersistenceService.saveLibraryItem mem (Some b) = Ok mem' /\
    InMemoryPersistenceService.loadLibraryItem mem' (Book.getId b) = Ok (Some b).
Proof.
  intros Hb. eexists. split.
  - unfold InMemoryPersistenceService.saveLibraryItem.
    rewrite (clone_valid _ Hb). reflexivity.
  - unfold InMemoryPersistenceService.loadLibraryItem; simpl.
    rewrite find_set_same. now rewrite (clone_valid _ Hb).
Qed.

Lemma memory_round_trip_loan mem r :
  exists mem',
    InMemoryPersistenceService.saveLoanRecord mem r = Ok mem' /\
    InMemoryPersistenceService.loadLoanRecord mem' (LoanRecord.getRecordId r) = Ok (Some r).
Proof.
  eexists. split; [apply memory_saveLoanRecord|].
  unfold InMemoryPersistenceService.loadLoanRecord; simpl. now rewrite find_set_same.
Qed.

(** [updateLoanRecord] on the in-memory backend and on the caching backend
    stores the record whether or not its id was there. *)
Lemma memory_update_is_upsert mem r :
  exists mem',
    InMemoryPersistenceService.updateLoanRecord mem r = Ok mem' /\
    InMemoryPersistenceService.loadLoanRecord mem' (LoanRecord.getRecordId r) = Ok (Some r).
Proof.
  eexists. split; [apply memory_updateLoanRecord|].
  unfold InMemoryPersistenceService.loadLoanRecord; simpl. now rewrite find_set_same.
Qed.

Lemma caching_update_is_upsert c r :
  exists c',
    CachingFilePersistenceService.updateLoanRecord c r = Ok c' /\
    CachingFilePersistenceService.loadLoanRecord c' (LoanRecord.getRecordId r) = Ok (Some r) /\
    CachingFilePersistenceService.m_file_store c' = CachingFilePersistenceService.m_file_store c.
Proof.
  eexists. split; [|split].
  - unfold CachingFilePersistenceService.updateLoanRecord.
    rewrite memory_updateLoanRecord. reflexivity.
  - unfold CachingFilePersistenceService.loadLoanRecord,
      InMemoryPersistenceService.loadLoanRecord; simpl.
    now rewrite find_set_same.
  - reflexivity.
Qed.

(** C1, at its failing inputs on the file backend (local time zone UTC).
    An open loan is written with an empty last field, which the reader
    drops; the record then has five fields and is not loaded at all.  A
    returned loan is loaded, with its three dates set back to the midnight
    that starts their day, because [parseDate] clears the time of day it has
    just parsed. *)
Theorem file_loan_round_trip_fails :
  (exists s,
     FilePersistenceService.saveLoanRecord 0 FilePersistenceService.new (open_loan 0) = Ok s /\
     FilePersistenceService.loans_csv s
       = text_lines ["loan_1,b1,u1,2024-01-05 10:30:07,2024-01-19 10:30:07,"] /\
     FilePersistenceService.readCsvFile (FilePersistenceService.loans_csv s)
       = [["loan_1"; "b1"; "u1"; "2024-01-05 10:30:07"; "2024-01-19 10:30:07"]] /\
     FilePersistenceService.loadLoanRecord 0 s "loan_1" = Ok None) /\
  (exists s,
     FilePersistenceService.saveLoanRecord 0 FilePersistenceService.new (closed_loan 0) = Ok s /\
     FilePersistenceService.loadLoanRecord 0 s "loan_1"
       = Ok (Some (LoanRecord.mk "loan_1" "b1" "u1"
                     (local_time 0 2024 1 5 0 0 0) (local_time 0 2024 1 19 0 0 0)
                     (Some (local_time 0 2024 1 8 0 0 0)))) /\
     FilePersistenceService.loadLoanRecord 0 s "loan_1" <> Ok (Some (closed_loan 0))) /\
  DateTimeUtils.parseDate 0 "2024-01-05 10:30:07" DateTimeUtils.date_time_format
    = Some (local_time 0 2024 1 5 0 0 0).
Proof.
  split; [|split].
  - eexists. split; [vm_compute; reflexivity|].
    split; [vm_compute; reflexivity|].
    split; vm_compute; reflexivity.
  - eexists. split; [vm_compute; reflexivity|].
    split; [vm_compute; reflexivity|].
    vm_compute. discriminate.
  - vm_compute. reflexivity.
Qed.

(** C9, at its failing input on the file backend: [updateLoanRecord] of an
    id that is not stored raises nothing and appends the record, but a
    [loadLoanRecord] of that id then finds nothing, for an open loan. *)
Theorem file_update_then_load_finds_nothing :
  FilePersistenceService.loadLoanRecord 0 FilePersistenceService.new "loan_1" = Ok None /\
  exists s,
    FilePersistenceService.updateLoanRecord 0 FilePersistenceService.new (open_loan 0) = Ok s /\
    FilePersistenceService.loans_csv s
      = text_lines ["loan_1,b1,u1,2024-01-05 10:30:07,2024-01-19 10:30:07,"] /\
    FilePersistenceService.loadLoanRecord 0 s "loan_1" = Ok None.
Proof.
  split; [vm_compute; reflexivity|].
  eexists. split; [vm_compute; reflexivity|].
  split; vm_compute; reflexivity.
Qed.

(** ** Records that stay in a file across saves *)

Lemma norm_row_cons f r : r <> [] -> norm_row (f :: r) = f :: norm_row r.
Proof. destruct r; [congruence | reflexivity]. Qed.

Lemma norm_row_app p rest :
  rest <> [] -> norm_row (List.app p rest) = List.app p (norm_row rest).
Proof.
  intros Hrest. induction p as [|f p IH]; [reflexivity|].
  simpl List.app. rewrite norm_row_cons, IH; [reflexivity|].
  destruct p; simpl; [assumption | discriminate].
Qed.

Lemma norm_row_prefix r : begins_with (norm_row r) r.
Proof.
  induction r as [|f r IH]; [now exists []|].
  destruct r as [|g r].
  - simpl. destruct (empty f); [now exists [f] | now exists []].
  - rewrite norm_row_cons by discriminate.
    destruct IH as [rest IH]. exists rest. cbn [List.app]. f_equal. exact IH.
Qed.

Lemma begins_with_norm fields row :
  begins_with fields row -> norm_row fields <> [] ->
  begins_with (norm_row fields) (norm_row row) /\ norm_row row <> [].
Proof.
  intros [rest ->] Hne. destruct rest as [|g rest].
  - rewrite app_nil_r. split; [exists []; now rewrite app_nil_r | assumption].
  - rewrite norm_row_app by discriminate.
    destruct (norm_row_prefix fields) as [tail Htail].
    split.
    + exists (List.app tail (norm_row (g :: rest))).
      rewrite app_assoc, <- Htail. reflexivity.
    + destruct fields; [now simpl in Hne | discriminate].
Qed.

Lemma begins_with_settled p row :
  settled p -> begins_with p row ->
  begins_with p (norm_row row) /\ norm_row row <> [].
Proof.
  intros [Hnorm Hne] Hrow.
  destruct (begins_with_norm p row Hrow) as [H1 H2]; [now rewrite Hnorm|].
  now rewrite Hnorm in H1.
Qed.

Lemma In_reread r data :
  In r data -> norm_row r <> [] -> In (norm_row r) (reread data).
Proof.
  induction data as [|r' data IH]; simpl; [tauto|].
  intros [->|Hin] Hne.
  - destruct (norm_row r); [congruence | now left].
  - destruct (norm_row r'); [auto | right; auto].
Qed.

Lemma has_id_begins_with id p row :
  p <> [] -> begins_with p row ->
  FilePersistenceService.has_id id row = FilePersistenceService.has_id id p.
Proof.
  intros Hne [rest ->]. destruct p; [congruence | reflexivity].
Qed.

(** After a save, the fields saved are in the file. *)
Lemma upsert_step_holds id fields content data' :
  upsert_step id fields (FilePersistenceService.readCsvFile content) data' ->
  clean_record fields -> norm_row fields <> [] ->
  holds (norm_row fields) (FilePersistenceService.writeCsvFile data').
Proof.
  intros ((row & Hin & Hrow) & _ & Hclean) Hfields Hne.
  unfold holds. rewrite read_write_csv by (apply Hclean; [apply read_csv_clean | assumption]).
  destruct (begins_with_norm _ _ Hrow Hne) as [Hb Hn].
  exists (norm_row row). split; [now apply In_reread | assumption].
Qed.

(** After a save under one id, what the file held under another id is still
    there. *)
Lemma upsert_step_keeps id fields content data' p :
  upsert_step id fields (FilePersistenceService.readCsvFile content) data' ->
  clean_record fields -> settled p ->
  FilePersistenceService.has_id id p = false ->
  holds p content ->
  holds p (FilePersistenceService.writeCsvFile data').
Proof.
  intros (_ & Hkeep & Hclean) Hfields Hp Hid (row & Hin & Hrow).
  unfold holds. rewrite read_write_csv by (apply Hclean; [apply read_csv_clean | assumption]).
  destruct (begins_with_settled _ _ Hp Hrow) as [Hb Hn].
  exists (norm_row row). split; [|assumption].
  apply In_reread; [|assumption]. apply Hkeep; [assumption|].
  rewrite (has_id_begins_with id p row); [assumption | apply Hp | assumption].
Qed.

Lemma assign_name_upsert id name data found data1 :
  FilePersistenceService.assign_name id name data = Ok (found, data1) ->
  upsert_step id [id; name] data
    (if found then data1 else List.app data1 [[id; name]]).
Proof.
  revert found data1. induction data as [|r data IH]; intros found data1; simpl.
  - intros [= <- <-]. split; [|split].
    + exists [id; name]. split; [now left | now exists []].
    + intros row [].
    + intros _ Hf. constructor; [assumption | constructor].
  - destruct (FilePersistenceService.has_id id r) eqn:Hr.
    + destruct r as [|f0 [|f1 tail]]; try discriminate.
      intros [= <- <-]. simpl in Hr. apply String.eqb_eq in Hr; subst f0.
      split; [|split].
      * exists (id :: name :: tail). split; [now left | now exists tail].
      * intros row [<-|Hin] Hrow; [simpl in Hrow; rewrite String.eqb_refl in Hrow; discriminate|].
        now right.
      * intros Hdata Hf. inversion Hdata as [|? ? Hr0 Hrest]; subst.
        constructor; [|assumption].
        inversion Hr0 as [|? ? _ Htail0]; subst.
        inversion Htail0 as [|? ? _ Htail]; subst.
        inversion Hf as [|? ? Hid Hname]; subst.
        inversion Hname as [|? ? Hname' _]; subst.
        apply Forall_cons; [exact Hid|]. apply Forall_cons; [exact Hname' | exact Htail].
    + destruct (FilePersistenceService.assign_name id name data) as [[found' rest']| |] eqn:E;
        try discriminate.
      simpl. intros [= <- <-].
      destruct (IH _ _ eq_refl) as ((row & Hin & Hrow) & Hkeep & Hclean).
      split; [|split].
      * exists row. split; [|assumption].
        destruct found'; [now right | now right].
      * intros row' [<-|Hin'] Hrow'.
        -- destruct found'; now left.
        -- specialize (Hkeep _ Hin' Hrow'). destruct found'; now right.
      * intros Hdata Hf. inversion Hdata as [|? ? Hr0 Hrest]; subst.
        specialize (Hclean Hrest Hf).
        destruct found'; constructor; assumption.
Qed.

Lemma assign_record_upsert id fields data :
  FilePersistenceService.has_id id fields = true ->
  upsert_step id fields data
    (let '(found, data1) := FilePersistenceService.assign_record id fields data in
     if found then data1 else List.app data1 [fields]).
Proof.
  intros Hid. induction data as [|r data IH]; simpl.
  - split; [|split].
    + exists fields. split; [now left | exists []; now rewrite app_nil_r].
    + intros row [].
    + intros _ Hf. constructor; [assumption | constructor].
  - destruct (FilePersistenceService.has_id id r) eqn:Hr.
    + split; [|split].
      * exists fields. split; [now left | exists []; now rewrite app_nil_r].
      * intros row [<-|Hin] Hrow; [congruence | now right].
      * intros Hdata Hf. inversion Hdata; subst. constructor; assumption.
    + destruct (FilePersistenceService.assign_record id fields data) as [found' rest'] eqn:E.
      destruct IH as ((row & Hin & Hrow) & Hkeep & Hclean).
      split; [|split].
      * exists row. split; [|assumption]. destruct found'; now right.
      * intros row' [<-|Hin'] Hrow'.
        -- destruct found'; now left.
        -- specialize (Hkeep _ Hin' Hrow'). destruct found'; now right.
      * intros Hdata Hf. inversion Hdata as [|? ? Hr0 Hrest]; subst.
        specialize (Hclean Hrest Hf). destruct found'; constructor; assumption.
Qed.

(** ** Numbers and dates as clean fields *)

Lemma clean_field_empty : clean_field EmptyString.
Proof. repeat split. Qed.

Lemma clean_field_cons c s :
  Ascii.eqb c Text.newline = false ->
  Ascii.eqb c FilePersistenceService.COMMA_PLACEHOLDER = false ->
  Ascii.eqb c FilePersistenceService.QUOTE_PLACEHOLDER = false ->
  clean_field s -> clean_field (String c s).
Proof.
  intros H1 H2 H3 (Hn & Hc & Hq). unfold clean_field.
  rewrite !contains_cons, H1, H2, H3, Hn, Hc, Hq. repeat split.
Qed.

Lemma clean_field_app a b : clean_field a -> clean_field b -> clean_field (a ++ b).
Proof.
  intros (Hn & Hc & Hq) (Hn' & Hc' & Hq'). unfold clean_field.
  rewrite !contains_app, Hn, Hc, Hq, Hn', Hc', Hq'. repeat split.
Qed.

Lemma digit_char_clean n s :
  clean_field s -> clean_field (String (Text.digit_char (n mod 10)) s).
Proof.
  intros Hs.
  assert (H : 0 <= n mod 10 < 10) by (apply Z.mod_pos_bound; lia).
  assert (Hd : n mod 10 = 0 \/ n mod 10 = 1 \/ n mod 10 = 2 \/ n mod 10 = 3 \/
               n mod 10 = 4 \/ n mod 10 = 5 \/ n mod 10 = 6 \/ n mod 10 = 7 \/
               n mod 10 = 8 \/ n mod 10 = 9) by lia.
  repeat (destruct Hd as [Hd|Hd]; [rewrite Hd; apply clean_field_cons; auto|]).
  rewrite Hd; apply clean_field_cons; auto.
Qed.

Lemma digits_of_clean fuel : forall n acc,
  clean_field acc -> clean_field (Text.digits_of fuel n acc).
Proof.
  induction fuel as [|fuel IH]; intros n acc Hacc; simpl; [assumption|].
  destruct (n <? 10); [now apply digit_char_clean|].
  apply IH. now apply digit_char_clean.
Qed.

Lemma digits_of_not_empty fuel n :
  Text.digits_of (S fuel) n EmptyString <> EmptyString.
Proof.
  assert (H : forall f m acc, acc <> EmptyString -> Text.digits_of f m acc <> EmptyString).
  { induction f as [|f IH]; intros m acc Hacc; simpl; [assumption|].
    destruct (m <? 10); [discriminate | apply IH; discriminate]. }
  simpl. destruct (n <? 10); [discriminate | apply H; discriminate].
Qed.

Lemma to_string_clean z : clean_field (Text.to_string z).
Proof.
  unfold Text.to_string. destruct (z <? 0).
  - apply clean_field_cons; try reflexivity. apply digits_of_clean, clean_field_empty.
  - apply digits_of_clean, clean_field_empty.
Qed.

Lemma to_string_not_empty z : Text.to_string z <> EmptyString.
Proof.
  unfold Text.to_string. destruct (z <? 0); [discriminate | apply digits_of_not_empty].
Qed.

Lemma pad2_clean n : clean_field (DateTimeUtils.pad2 n).
Proof.
  unfold DateTimeUtils.pad2. destruct ((0 <=? n) && (n <? 10)).
  - apply clean_field_cons; try reflexivity. apply to_string_clean.
  - apply to_string_clean.
Qed.

Lemma formatDateTime_clean tz d :
  clean_field (DateTimeUtils.formatDateTime tz d DateTimeUtils.date_time_format).
Proof.
  unfold DateTimeUtils.formatDateTime, DateTimeUtils.date_time_format.
  cbn [DateTimeUtils.put_time].
  unfold DateTimeUtils.put_conversion. cbn [Ascii.eqb Bool.eqb].
  repeat first
    [ apply clean_field_app
    | apply to_string_clean
    | apply pad2_clean
    | apply clean_field_empty
    | apply clean_field_cons; [reflexivity | reflexivity | reflexivity |] ].
Qed.

Lemma append_not_empty a b : a <> EmptyString -> a ++ b <> EmptyString.
Proof. destruct a; [congruence | discriminate]. Qed.

Lemma formatDateTime_not_empty tz d :
  DateTimeUtils.formatDateTime tz d DateTimeUtils.date_time_format <> EmptyString.
Proof.
  unfold DateTimeUtils.formatDateTime, DateTimeUtils.date_time_format.
  cbn [DateTimeUtils.put_time].
  unfold DateTimeUtils.put_conversion at 1. cbn [Ascii.eqb Bool.eqb].
  apply append_not_empty, to_string_not_empty.
Qed.

(** ** Persisting the cache *)

Lemma upsert_step_keeps_row id fields content data' row :
  upsert_step id fields (FilePersistenceService.readCsvFile content) data' ->
  clean_record fields -> settled row ->
  FilePersistenceService.has_id id row = false ->
  In row (FilePersistenceService.readCsvFile content) ->
  In row (FilePersistenceService.readCsvFile (FilePersistenceService.writeCsvFile data')).
Proof.
  intros (_ & Hkeep & Hclean) Hfields [Hnorm Hne] Hid Hin.
  rewrite read_write_csv by (apply Hclean; [apply read_csv_clean | assumption]).
  rewrite <- Hnorm. apply In_reread; [auto | now rewrite Hnorm].
Qed.

Lemma has_id_other id id' p :
  FilePersistenceService.has_id id p = true -> id <> id' ->
  FilePersistenceService.has_id id' p = false.
Proof.
  destruct p as [|f0 p]; simpl; [discriminate|].
  intros H Hne. apply String.eqb_eq in H; subst f0. now apply String.eqb_neq.
Qed.

Section ForEachSave.
Context {X : Type}.
Variable save : FilePersistenceService.t -> X -> outcome FilePersistenceService.t.
Variable col : FilePersistenceService.t -> string.
Variable id_of : X -> string.
Variable fields_of : X -> list string.

Hypothesis save_step :
  forall f x f', save f x = Ok f' ->
    exists data',
      col f' = FilePersistenceService.writeCsvFile data' /\
      upsert_step (id_of x) (fields_of x)
        (FilePersistenceService.readCsvFile (col f)) data'.

Lemma for_each_save_holds : forall L f f',
  for_each save L f = Ok f' ->
  (forall x, In x L -> storable (id_of x) (fields_of x)) ->
  NoDup (map id_of L) ->
  (forall x, In x L -> holds (norm_row (fields_of x)) (col f')) /\
  (forall p, settled p ->
     (forall x, In x L -> FilePersistenceService.has_id (id_of x) p = false) ->
     holds p (col f) -> holds p (col f')) /\
  (forall row, settled row ->
     (forall x, In x L -> FilePersistenceService.has_id (id_of x) row = false) ->
     In row (FilePersistenceService.readCsvFile (col f)) ->
     In row (FilePersistenceService.readCsvFile (col f'))).
Proof.
  induction L as [|x L IH]; intros f f' Hrun Hstor Hnodup.
  - simpl in Hrun. injection Hrun as <-. repeat split; auto. intros x [].
  - simpl in Hrun. destruct (save f x) as [f1| |] eqn:Hsave; try discriminate.
    simpl in Hrun.
    destruct (save_step _ _ _ Hsave) as (data' & Hcol & Hstep).
    inversion Hnodup as [|? ? Hnotin Hnodup']; subst.
    destruct (IH _ _ Hrun (fun y Hy => Hstor y (or_intror Hy)) Hnodup')
      as (Hall & Hkeep & Hrows).
    destruct (Hstor x (or_introl eq_refl)) as (Hclean & Hsettled & Hid).
    split; [|split].
    + intros y [<-|Hy]; [|now apply Hall].
      apply Hkeep; [assumption| |].
      * intros y Hy. apply (has_id_other (id_of x)); [assumption|].
        intros Heq. apply Hnotin. rewrite Heq. now apply in_map.
      * rewrite Hcol. apply (upsert_step_holds _ _ _ _ Hstep Hclean).
        apply Hsettled.
    + intros p Hp Hnone Hheld.
      apply Hkeep; [assumption | intros y Hy; apply Hnone; now right |].
      rewrite Hcol. apply (upsert_step_keeps _ _ _ _ _ Hstep Hclean Hp); [|assumption].
      apply Hnone. now left.
    + intros row Hrow Hnone Hin.
      apply Hrows; [assumption | intros y Hy; apply Hnone; now right |].
      rewrite Hcol.
      apply (upsert_step_keeps_row _ _ _ _ _ Hstep Hclean Hrow); [|assumption].
      apply Hnone. now left.
Qed.
End ForEachSave.

Lemma for_each_frame {X : Type}
    (save : FilePersistenceService.t -> X -> outcome FilePersistenceService.t)
    (g : FilePersistenceService.t -> string) :
  (forall f x f', save f x = Ok f' -> g f' = g f) ->
  forall L f f', for_each save L f = Ok f' -> g f' = g f.
Proof.
  intros Hframe. induction L as [|x L IH]; intros f f' Hrun; simpl in Hrun.
  - now injection Hrun as <-.
  - destruct (save f x) as [f1| |] eqn:Hsave; try discriminate. simpl in Hrun.
    rewrite (IH _ _ Hrun). eapply Hframe; eassumption.
Qed.

Lemma saveAuthor_step f a f' :
  FilePersistenceService.saveAuthor f (Some a) = Ok f' ->
  (exists data',
     FilePersistenceService.authors_csv f' = FilePersistenceService.writeCsvFile data' /\
     upsert_step (Author.m_id a) (author_fields a)
       (FilePersistenceService.readCsvFile (FilePersistenceService.authors_csv f)) data') /\
  FilePersistenceService.users_csv f' = FilePersistenceService.users_csv f /\
  FilePersistenceService.items_csv f' = FilePersistenceService.items_csv f /\
  FilePersistenceService.loans_csv f' = FilePersistenceService.loans_csv f.
Proof.
  unfold FilePersistenceService.saveAuthor, Author.getId, Author.getName.
  destruct (FilePersistenceService.assign_name (Author.m_id a) (Author.m_name a)
              (FilePersistenceService.readCsvFile (FilePersistenceService.authors_csv f)))
    as [[found data1]| |] eqn:E; try discriminate.
  simpl. intros [= <-]. simpl. repeat split.
  eexists. split; [reflexivity|]. now apply assign_name_upsert.
Qed.

Lemma saveUser_step f u f' :
  FilePersistenceService.saveUser f u = Ok f' ->
  (exists data',
     FilePersistenceService.users_csv f' = FilePersistenceService.writeCsvFile data' /\
     upsert_step (User.m_user_id u) (user_fields u)
       (FilePersistenceService.readCsvFile (FilePersistenceService.users_csv f)) data') /\
  FilePersistenceService.authors_csv f' = FilePersistenceService.authors_csv f /\
  FilePersistenceService.items_csv f' = FilePersistenceService.items_csv f /\
  FilePersistenceService.loans_csv f' = FilePersistenceService.loans_csv f.
Proof.
  unfold FilePersistenceService.saveUser, User.getUserId, User.getName.
  destruct (FilePersistenceService.assign_name (User.m_user_id u) (User.m_name u)
              (FilePersistenceService.readCsvFile (FilePersistenceService.users_csv f)))
    as [[found data1]| |] eqn:E; try discriminate.
  simpl. intros [= <-]. simpl. repeat split.
  eexists. split; [reflexivity|]. now apply assign_name_upsert.
Qed.

Lemma saveLibraryItem_step f b f' :
  FilePersistenceService.saveLibraryItem f (Some b) = Ok f' ->
  (exists data',
     FilePersistenceService.items_csv f' = FilePersistenceService.writeCsvFile data' /\
     upsert_step (Book.m_id b) (FilePersistenceService.book_fields b)
       (FilePersistenceService.readCsvFile (FilePersistenceService.items_csv f)) data') /\
  FilePersistenceService.authors_csv f' = FilePersistenceService.authors_csv f /\
  FilePersistenceService.users_csv f' = FilePersistenceService.users_csv f /\
  FilePersistenceService.loans_csv f' = FilePersistenceService.loans_csv f.
Proof.
  unfold FilePersistenceService.saveLibraryItem, Book.getId.
  pose proof (assign_record_upsert (Book.m_id b) (FilePersistenceService.book_fields b)
                (FilePersistenceService.readCsvFile (FilePersistenceService.items_csv f))) as H.
  destruct (FilePersistenceService.assign_record (Book.m_id b)
              (FilePersistenceService.book_fields b)
              (FilePersistenceService.readCsvFile (FilePersistenceService.items_csv f)))
    as [found data1].
  intros [= <-]. simpl. repeat split.
  eexists. split; [reflexivity|]. apply H. simpl. apply String.eqb_refl.
Qed.

Lemma saveLoanRecord_step tz f r f' :
  FilePersistenceService.saveLoanRecord tz f r = Ok f' ->
  (exists data',
     FilePersistenceService.loans_csv f' = FilePersistenceService.writeCsvFile data' /\
     upsert_step (LoanRecord.m_record_id r) (FilePersistenceService.loan_fields tz r)
       (FilePersistenceService.readCsvFile (FilePersistenceService.loans_csv f)) data') /\
  FilePersistenceService.authors_csv f' = FilePersistenceService.authors_csv f /\
  FilePersistenceService.users_csv f' = FilePersistenceService.users_csv f /\
  FilePersistenceService.items_csv f' = FilePersistenceService.items_csv f.
Proof.
  unfold FilePersistenceService.saveLoanRecord, FilePersistenceService.updateLoanRecord,
    LoanRecord.getRecordId.
  pose proof (assign_record_upsert (LoanRecord.m_record_id r)
                (FilePersistenceService.loan_fields tz r)
                (FilePersistenceService.readCsvFile (FilePersistenceService.loans_csv f))) as H.
  destruct (FilePersistenceService.assign_record (LoanRecord.m_record_id r)
              (FilePersistenceService.loan_fields tz r)
              (FilePersistenceService.readCsvFile (FilePersistenceService.loans_csv f)))
    as [found data1].
  intros [= <-]. simpl. repeat split.
  eexists. split; [reflexivity|]. apply H. simpl. apply String.eqb_refl.
Qed.

Lemma reread_settled data :
  Forall settled data -> reread data = data.
Proof.
  induction data as [|r data IH]; intros H; [reflexivity|].
  inversion H as [|? ? [Hnorm Hne] Hrest]; subst. simpl.
  rewrite Hnorm, (IH Hrest). destruct r; [congruence | reflexivity].
Qed.

Lemma settled_replace_second f0 f1 name tail :
  settled (f0 :: f1 :: tail) -> name <> EmptyString -> settled (f0 :: name :: tail).
Proof.
  intros [Hnorm _] Hname. split; [|discriminate].
  rewrite norm_row_cons in Hnorm by discriminate.
  rewrite norm_row_cons by discriminate. f_equal.
  injection Hnorm as Hnorm.
  destruct tail as [|g tail].
  - simpl. apply empty_false in Hname. now rewrite Hname.
  - rewrite norm_row_cons by discriminate. f_equal. now injection Hnorm.
Qed.

Lemma settled_pair id name : name <> EmptyString -> settled [id; name].
Proof.
  intros Hname. split; [|discriminate].
  simpl. apply empty_false in Hname. now rewrite Hname.
Qed.

(** On regular records the loop of [saveAuthor] / [saveUser] stays inside
    every record, and leaves regular records. *)
Lemma assign_name_regular id name data :
  Forall regular_record data -> name <> EmptyString ->
  exists found data1,
    FilePersistenceService.assign_name id name data = Ok (found, data1) /\
    Forall regular_record (if found then data1 else List.app data1 [[id; name]]).
Proof.
  intros Hdata Hname. induction data as [|r data IH]; simpl.
  - exists false, []. split; [reflexivity|]. constructor; [|constructor].
    split; [now apply settled_pair | simpl; lia].
  - inversion Hdata as [|? ? [Hsettled Hlen] Hrest]; subst.
    destruct (FilePersistenceService.has_id id r) eqn:Hr.
    + destruct r as [|f0 [|f1 tail]]; simpl in Hlen; try lia.
      exists true, ((f0 :: name :: tail) :: data). split; [reflexivity|].
      constructor; [|assumption].
      split; [eapply settled_replace_second; eassumption | simpl; lia].
    + destruct (IH Hrest) as (found & data1 & Hrun & Hreg). rewrite Hrun. simpl.
      exists found, (r :: data1). split; [reflexivity|].
      destruct found; simpl; (constructor; [split; assumption | assumption]).
Qed.

Lemma regular_settled data : Forall regular_record data -> Forall settled data.
Proof. intros H. eapply Forall_impl; [|exact H]. now intros r [Hs _]. Qed.

Lemma saveAuthor_regular f a :
  regular_file (FilePersistenceService.authors_csv f) ->
  Author.m_name a <> EmptyString -> clean_record (author_fields a) ->
  exists f',
    FilePersistenceService.saveAuthor f (Some a) = Ok f' /\
    regular_file (FilePersistenceService.authors_csv f').
Proof.
  intros Hreg Hname Hclean.
  destruct (assign_name_regular (Author.m_id a) (Author.m_name a) _ Hreg Hname)
    as (found & data1 & Hrun & Hreg').
  pose proof (assign_name_upsert _ _ _ _ _ Hrun) as (_ & _ & Hcl).
  unfold FilePersistenceService.saveAuthor, Author.getId, Author.getName.
  rewrite Hrun. simpl. eexists. split; [reflexivity|].
  unfold regular_file. simpl.
  rewrite read_write_csv by (apply Hcl; [apply read_csv_clean | assumption]).
  rewrite reread_settled by now apply regular_settled. assumption.
Qed.

Lemma saveUser_regular f u :
  regular_file (FilePersistenceService.users_csv f) ->
  User.m_name u <> EmptyString -> clean_record (user_fields u) ->
  exists f',
    FilePersistenceService.saveUser f u = Ok f' /\
    regular_file (FilePersistenceService.users_csv f').
Proof.
  intros Hreg Hname Hclean.
  destruct (assign_name_regular (User.m_user_id u) (User.m_name u) _ Hreg Hname)
    as (found & data1 & Hrun & Hreg').
  pose proof (assign_name_upsert _ _ _ _ _ Hrun) as (_ & _ & Hcl).
  unfold FilePersistenceService.saveUser, User.getUserId, User.getName.
  rewrite Hrun. simpl. eexists. split; [reflexivity|].
  unfold regular_file. simpl.
  rewrite read_write_csv by (apply Hcl; [apply read_csv_clean | assumption]).
  rewrite reread_settled by now apply regular_settled. assumption.
Qed.

(** A loop of saves that each succeed while an invariant holds. *)
Lemma for_each_succeeds {X : Type}
    (save : FilePersistenceService.t -> X -> outcome FilePersistenceService.t)
    (inv : FilePersistenceService.t -> Prop) (good : X -> Prop) :
  (forall f x, inv f -> good x -> exists f', save f x = Ok f' /\ inv f') ->
  forall L f, inv f -> (forall x, In x L -> good x) ->
  exists f', for_each save L f = Ok f' /\ inv f'.
Proof.
  intros Hstep. induction L as [|x L IH]; intros f Hinv Hgood; simpl.
  - now exists f.
  - destruct (Hstep f x Hinv (Hgood x (or_introl eq_refl))) as (f1 & Hsave & Hinv1).
    rewrite Hsave. simpl. apply IH; [assumption|]. intros y Hy. apply Hgood. now right.
Qed.

Lemma map_outcome_clone books :
  (forall b, In b books -> Book.valid b) ->
  map_outcome Book.clone books = Ok books.
Proof.
  induction books as [|b books IH]; intros H; simpl; [reflexivity|].
  rewrite (clone_valid b) by (apply H; now left). simpl.
  rewrite IH by (intros; apply H; now right). reflexivity.
Qed.

Lemma keyed_ids {V : Type} (id : V -> string) (m : StdMap.t V) :
  keyed_by id m -> map id (StdMap.values m) = StdMap.keys m.
Proof.
  intros Hk. unfold StdMap.values, StdMap.keys. rewrite map_map.
  apply map_ext_in. intros [k v] Hin. simpl. now apply Hk.
Qed.

(** *** The fields of the entities in memory can be found again *)

Lemma author_storable a :
  Author.valid a -> clean_record (author_fields a) ->
  storable (Author.m_id a) (author_fields a).
Proof.
  intros [_ Hname] Hclean. unfold storable, author_fields, settled.
  apply empty_false in Hname. cbn [norm_row]. rewrite Hname. cbn [norm_row].
  rewrite Hname. repeat split; auto; try discriminate. simpl. apply String.eqb_refl.
Qed.

Lemma user_storable u :
  User.valid u -> clean_record (user_fields u) ->
  storable (User.m_user_id u) (user_fields u).
Proof.
  intros [_ Hname] Hclean. unfold storable, user_fields, settled.
  apply empty_false in Hname. cbn [norm_row]. rewrite Hname. cbn [norm_row].
  rewrite Hname. repeat split; auto; try discriminate. simpl. apply String.eqb_refl.
Qed.

Lemma book_fields_norm b :
  norm_row (FilePersistenceService.book_fields b) = FilePersistenceService.book_fields b.
Proof.
  unfold FilePersistenceService.book_fields. cbn [norm_row].
  pose proof (to_string_not_empty
                (status_to_int (Book.getAvailabilityStatus b))) as H.
  apply empty_false in H. now rewrite H.
Qed.

Lemma book_storable b :
  clean_field (Book.m_id b) -> clean_field (Book.m_title b) ->
  clean_field (Book.m_isbn b) ->
  (forall a, Book.m_author b = Some a -> clean_field (Author.m_id a)) ->
  storable (Book.m_id b) (FilePersistenceService.book_fields b).
Proof.
  intros Hid Htitle Hisbn Hauthor. unfold storable. rewrite book_fields_norm.
  split; [|split].
  - unfold FilePersistenceService.book_fields, clean_record,
      Book.getId, Book.getTitle, Book.getIsbn, Book.getAuthor.
    repeat (apply Forall_cons); try assumption; try apply to_string_clean;
      try apply Forall_nil.
    + repeat split.
    + destruct (Book.m_author b) as [a|]; [now apply Hauthor | apply clean_field_empty].
  - split; [rewrite book_fields_norm; reflexivity | discriminate].
  - simpl. apply String.eqb_refl.
Qed.

Lemma loan_storable tz r :
  clean_field (LoanRecord.m_record_id r) -> clean_field (LoanRecord.m_item_id r) ->
  clean_field (LoanRecord.m_user_id r) ->
  storable (LoanRecord.m_record_id r) (FilePersistenceService.loan_fields tz r).
Proof.
  intros Hid Hitem Huser. unfold storable.
  pose proof (formatDateTime_not_empty tz (LoanRecord.getDueDate r)) as Hdue.
  apply empty_false in Hdue.
  split; [|split].
  - unfold FilePersistenceService.loan_fields, clean_record,
      LoanRecord.getRecordId, LoanRecord.getItemId, LoanRecord.getUserId.
    repeat (apply Forall_cons); try assumption; try apply formatDateTime_clean;
      try apply Forall_nil.
    destruct (LoanRecord.getReturnDate r);
      [apply formatDateTime_clean | apply clean_field_empty].
  - unfold FilePersistenceService.loan_fields. cbn [norm_row].
    destruct (LoanRecord.getReturnDate r) as [d|].
    + pose proof (formatDateTime_not_empty tz d) as Hret.
      apply empty_false in Hret. rewrite Hret. split; [|discriminate].
      cbn [norm_row]. now rewrite Hret.
    + cbn [empty]. split; [|discriminate]. cbn [norm_row]. now rewrite Hdue.
  - unfold FilePersistenceService.loan_fields. cbn [norm_row].
    destruct (empty match LoanRecord.getReturnDate r with
                    | Some d => _
                    | None => EmptyString
                    end); simpl; apply String.eqb_refl.
Qed.

Lemma saveLibraryItem_total f b :
  exists f', FilePersistenceService.saveLibraryItem f (Some b) = Ok f' /\ True.
Proof.
  unfold FilePersistenceService.saveLibraryItem.
  destruct (FilePersistenceService.assign_record _ _ _) as [found data].
  eexists. split; [reflexivity | exact I].
Qed.

Lemma saveLoanRecord_total tz f r :
  exists f', FilePersistenceService.saveLoanRecord tz f r = Ok f' /\ True.
Proof.
  unfold FilePersistenceService.saveLoanRecord, FilePersistenceService.updateLoanRecord.
  destruct (FilePersistenceService.assign_record _ _ _) as [found data].
  eexists. split; [reflexivity | exact I].
Qed.

(** C2, as stated, fails: an author deleted from the cache since the files
    were loaded is still in the authors file after persist-all, and the file
    backend still loads it. *)
Lemma persist_all_keeps_deleted_author_counterexample :
  exists c0 c1 c2,
    CachingFilePersistenceService.new 0 two_author_files = Ok c0 /\
    CachingFilePersistenceService.loadAuthor c0 "a2" = Ok (Some (Author.mk "a2" "Bob")) /\
    CachingFilePersistenceService.deleteAuthor c0 "a2" = Ok c1 /\
    CachingFilePersistenceService.persistAllToFile 0 c1 = Ok c2 /\
    CachingFilePersistenceService.loadAuthor c2 "a2" = Ok None /\
    CachingFilePersistenceService.loadAllAuthors c2 = Ok [Author.mk "a1" "Ann"] /\
    FilePersistenceService.authors_csv (CachingFilePersistenceService.m_file_store c2)
      = text_lines ["a1,Ann"; "a2,Bob"] /\
    FilePersistenceService.loadAuthor (CachingFilePersistenceService.m_file_store c2) "a2"
      = Ok (Some (Author.mk "a2" "Bob")).
Proof.
  eexists. eexists. eexists.
  split; [vm_compute; reflexivity|].
  split; [vm_compute; reflexivity|].
  split; [vm_compute; reflexivity|].
  split; [vm_compute; reflexivity|].
  split; [vm_compute; reflexivity|].
  split; [vm_compute; reflexivity|].
  split; vm_compute; reflexivity.
Qed.

(** ** The file backend and open loans *)

(** On every zone and for every open loan with clean ids: saved into empty
    files, the loan is written as a record of six fields and read back as
    one of five, which [loadLoanRecord] passes over. *)
Lemma file_open_loan_is_not_loaded tz r :
  clean_field (LoanRecord.m_record_id r) -> clean_field (LoanRecord.m_item_id r) ->
  clean_field (LoanRecord.m_user_id r) ->
  LoanRecord.m_return_date r = None ->
  exists s,
    FilePersistenceService.saveLoanRecord tz FilePersistenceService.new r = Ok s /\
    FilePersistenceService.readCsvFile (FilePersistenceService.loans_csv s)
      = [firstn 5 (FilePersistenceService.loan_fields tz r)] /\
    FilePersistenceService.loadLoanRecord tz s (LoanRecord.m_record_id r) = Ok None.
Proof.
  intros Hid Hitem Huser Hopen.
  destruct (loan_storable tz r Hid Hitem Huser) as (Hclean & _ & _).
  assert (Hread :
    FilePersistenceService.readCsvFile
      (FilePersistenceService.writeCsvFile [FilePersistenceService.loan_fields tz r])
    = [firstn 5 (FilePersistenceService.loan_fields tz r)]).
  { rewrite read_write_csv by (constructor; [assumption | constructor]).
    unfold FilePersistenceService.loan_fields, LoanRecord.getReturnDate.
    rewrite Hopen. reflexivity. }
  eexists. split; [reflexivity|].
  cbn [FilePersistenceService.loans_csv FilePersistenceService.new
       FilePersistenceService.readCsvFile Text.getline_all
       FilePersistenceService.read_lines FilePersistenceService.assign_record
       List.app].
  split; [exact Hread|].
  unfold FilePersistenceService.loadLoanRecord.
  cbn [FilePersistenceService.loans_csv]. rewrite Hread. reflexivity.
Qed.

(** ** The maps of the in-memory backend stay sorted *)

Lemma ascii_compare_lt_trans a b c :
  Ascii.compare a b = Lt -> Ascii.compare b c = Lt -> Ascii.compare a c = Lt.
Proof.
  unfold Ascii.compare. rewrite !N.compare_lt_iff. apply N.lt_trans.
Qed.

Lemma ascii_compare_refl a : Ascii.compare a a = Eq.
Proof. unfold Ascii.compare. apply N.compare_refl. Qed.

Lemma string_compare_lt_trans : forall a b c,
  String.compare a b = Lt -> String.compare b c = Lt -> String.compare a c = Lt.
Proof.
  induction a as [|x a IH]; intros [|y b] [|z c]; simpl; try congruence.
  destruct (Ascii.compare x y) eqn:Exy; try discriminate.
  - apply Ascii.compare_eq_iff in Exy. subst y.
    destruct (Ascii.compare x z); try congruence. apply IH.
  - intros _. destruct (Ascii.compare y z) eqn:Eyz; try discriminate.
    + apply Ascii.compare_eq_iff in Eyz. subst z. now rewrite Exy.
    + now rewrite (ascii_compare_lt_trans _ _ _ Exy Eyz).
Qed.

Lemma key_lt_trans a b c : key_lt a b -> key_lt b c -> key_lt a c.
Proof.
  unfold key_lt, String.ltb. intros Hab Hbc.
  destruct (String.compare a b) eqn:Eab; try discriminate.
  destruct (String.compare b c) eqn:Ebc; try discriminate.
  now rewrite (string_compare_lt_trans _ _ _ Eab Ebc).
Qed.

Lemma key_lt_total a b : String.eqb a b = false -> String.ltb a b = false -> key_lt b a.
Proof.
  unfold key_lt, String.ltb. intros Hne Hnlt. rewrite String.compare_antisym.
  destruct (String.compare a b) eqn:E; simpl; try congruence.
  apply String.compare_eq_iff in E. apply String.eqb_neq in Hne. contradiction.
Qed.

Lemma key_lt_irrefl a : ~ key_lt a a.
Proof.
  unfold key_lt, String.ltb. 
  assert (String.compare a a = Eq) as ->; [|discriminate].
  induction a as [|x a IH]; simpl; [reflexivity|]. now rewrite ascii_compare_refl.
Qed.

Section MapLaws.
Context {V : Type}.
Implicit Types (m : StdMap.t V) (k : string) (v : V).

Lemma erase_absent m k : StdMap.find k m = None -> StdMap.erase k m = m.
Proof.
  induction m as [|[k' v'] m IH]; simpl; [reflexivity|].
  destruct (String.eqb k k'); [discriminate|]. intros H. now rewrite IH.
Qed.

Lemma find_erase_other m k k0 :
  k0 <> k -> StdMap.find k0 (StdMap.erase k m) = StdMap.find k0 m.
Proof.
  intros Hne. induction m as [|[k' v'] m IH]; simpl; [reflexivity|].
  destruct (String.eqb k k') eqn:E; simpl.
  - apply String.eqb_eq in E. subst k'.
    apply String.eqb_neq in Hne. now rewrite Hne.
  - now rewrite IH.
Qed.

Lemma keys_find_None m k : ~ In k (StdMap.keys m) -> StdMap.find k m = None.
Proof.
  induction m as [|[k' v'] m IH]; simpl; [reflexivity|]. intros H.
  destruct (String.eqb k k') eqn:E.
  - apply String.eqb_eq in E. subst k'. tauto.
  - apply IH. tauto.
Qed.

Lemma find_erase_same m k :
  NoDup (StdMap.keys m) -> StdMap.find k (StdMap.erase k m) = None.
Proof.
  induction m as [|[k' v'] m IH]; simpl; intros Hnd; [reflexivity|].
  inversion Hnd as [|? ? Hnotin Hnd']; subst.
  destruct (String.eqb k k') eqn:E; simpl.
  - apply String.eqb_eq in E. subst k'. now apply keys_find_None.
  - rewrite E. now apply IH.
Qed.

Lemma values_find (id : V -> string) m v :
  keyed_by id m -> NoDup (StdMap.keys m) ->
  (In v (StdMap.values m) <-> StdMap.find (id v) m = Some v).
Proof.
  intros Hk Hnd. split; [|apply find_In].
  induction m as [|[k' v'] m IH]; simpl; [tauto|].
  inversion Hnd as [|? ? Hnotin Hnd']; subst.
  assert (Hk' : keyed_by id m) by (intros k0 v0 H0; apply Hk; now right).
  intros [<-|Hin].
  - rewrite (Hk k' v' (or_introl eq_refl)). now rewrite String.eqb_refl.
  - destruct (String.eqb (id v) k') eqn:E; [|now apply IH].
    apply String.eqb_eq in E. exfalso. apply Hnotin.
    apply In_values in Hin as (k0 & Hin). rewrite <- E, (Hk' _ _ Hin).
    unfold StdMap.keys. apply in_map_iff. now exists (k0, v).
Qed.

Lemma HdRel_emplace a m k v :
  HdRel key_lt a (StdMap.keys m) -> key_lt a k ->
  HdRel key_lt a (StdMap.keys (StdMap.emplace k v m)).
Proof.
  destruct m as [|[k' v'] m]; simpl; intros Hhd Hak; [now constructor|].
  destruct (String.eqb k k'); [assumption|].
  destruct (String.ltb k k'); simpl; [now constructor|].
  inversion Hhd; subst. now constructor.
Qed.

Lemma Sorted_emplace m k v :
  Sorted key_lt (StdMap.keys m) -> Sorted key_lt (StdMap.keys (StdMap.emplace k v m)).
Proof.
  induction m as [|[k' v'] m IH]; simpl; intros Hs.
  - repeat constructor.
  - destruct (String.eqb k k') eqn:E; [assumption|].
    destruct (String.ltb k k') eqn:L; simpl.
    + constructor; [assumption | now constructor].
    + inversion Hs as [|? ? Hs' Hhd]; subst.
      constructor; [now apply IH|].
      apply HdRel_emplace; [assumption | now apply key_lt_total].
Qed.

Lemma Sorted_set m k v :
  Sorted key_lt (StdMap.keys m) -> Sorted key_lt (StdMap.keys (StdMap.set k v m)).
Proof.
  intros Hs. unfold StdMap.set. destruct (StdMap.find k m).
  - now rewrite keys_assign.
  - now apply Sorted_emplace.
Qed.

Lemma Sorted_erase m k :
  Sorted key_lt (StdMap.keys m) -> Sorted key_lt (StdMap.keys (StdMap.erase k m)).
Proof.
  intros Hs. apply StronglySorted_Sorted.
  apply Sorted_StronglySorted in Hs; [|exact key_lt_trans].
  induction m as [|[k' v'] m IH]; simpl in *; [constructor|].
  inversion Hs as [|? ? Hs' Hall]; subst.
  destruct (String.eqb k k'); simpl; [assumption|].
  constructor; [now apply IH|].
  apply Forall_forall. intros x Hx. rewrite Forall_forall in Hall. apply Hall.
  unfold StdMap.keys in *. apply in_map_iff in Hx as ((k0 & v0) & Hk0 & Hx).
  apply in_map_iff. exists (k0, v0). split; [assumption|]. eapply In_erase; eassumption.
Qed.
End MapLaws.

Lemma produced_sorted m : produced m -> memory_sorted m.
Proof.
  induction 1 as
    [ | m a m' _ Hs Ha Hop | m id m' _ Hs Hop
      | m b m' _ Hs Hb Hop | m id m' _ Hs Hop
      | m u m' _ Hs Hv Hop | m id m' _ Hs Hop
      | m r m' _ Hs Hids Hdates Hop | m r m' _ Hs Hids Hdates Hop
      | m id m' _ Hs Hop ].
  - constructor; simpl; constructor.
  - injection Hop as <-. destruct Hs. constructor; simpl; auto using Sorted_set.
  - injection Hop as <-. destruct Hs. constructor; simpl; auto using Sorted_erase.
  - unfold InMemoryPersistenceService.saveLibraryItem in Hop.
    rewrite (clone_valid _ Hb) in Hop. injection Hop as <-.
    destruct Hs. constructor; simpl; auto using Sorted_set.
  - injection Hop as <-. destruct Hs. constructor; simpl; auto using Sorted_erase.
  - injection Hop as <-. destruct Hs. unfold User.getUserId.
    fold (StdMap.set (User.m_user_id u) u (InMemoryPersistenceService.m_users m)).
    constructor; simpl; auto using Sorted_set.
  - injection Hop as <-. destruct Hs. constructor; simpl; auto using Sorted_erase.
  - rewrite memory_saveLoanRecord in Hop. injection Hop as <-.
    destruct Hs. constructor; simpl; auto using Sorted_set.
  - rewrite memory_updateLoanRecord in Hop. injection Hop as <-.
    destruct Hs. constructor; simpl; auto using Sorted_set.
  - injection Hop as <-. destruct Hs. constructor; simpl; auto using Sorted_erase.
Qed.

(** ** The in-memory backend: deleting *)

Lemma sample_store_produced : produced sample_store.
Proof.
  assert (H1 : produced
                 (InMemoryPersistenceService.mk [("a1", Author.mk "a1" "Ann")] [] [] [])).
  { eapply produced_saveAuthor with (a := Author.mk "a1" "Ann");
      [exact produced_new | split; discriminate | vm_compute; reflexivity]. }
  assert (H2 : produced
                 (InMemoryPersistenceService.mk
                    [("a1", Author.mk "a1" "Ann")]
                    [("b1", Book.mk "b1" "First" (Some (Author.mk "a1" "Ann")) "isbn-1" 2001 BORROWED)]
                    [] [])).
  { eapply produced_saveLibraryItem
      with (b := Book.mk "b1" "First" (Some (Author.mk "a1" "Ann")) "isbn-1" 2001 BORROWED);
      [exact H1 | | vm_compute; reflexivity].
    repeat split; simpl; try discriminate; lia. }
  assert (H3 : produced
                 (InMemoryPersistenceService.mk
                    (InMemoryPersistenceService.m_authors sample_store)
                    (InMemoryPersistenceService.m_items sample_store) [] [])).
  { eapply produced_saveLibraryItem
      with (b := Book.mk "b2" "Second" (Some (Author.mk "a1" "Ann")) "isbn-2" 2002 AVAILABLE);
      [exact H2 | | vm_compute; reflexivity].
    repeat split; simpl; try discriminate; lia. }
  assert (H4 : produced
                 (InMemoryPersistenceService.mk
                    (InMemoryPersistenceService.m_authors sample_store)
                    (InMemoryPersistenceService.m_items sample_store)
                    [("u2", User.mk "u2" "Vic")] [])).
  { eapply produced_saveUser with (u := User.mk "u2" "Vic");
      [exact H3 | | vm_compute; reflexivity]. split; discriminate. }
  assert (H5 : produced
                 (InMemoryPersistenceService.mk
                    (InMemoryPersistenceService.m_authors sample_store)
                    (InMemoryPersistenceService.m_items sample_store)
                    (InMemoryPersistenceService.m_users sample_store) [])).
  { eapply produced_saveUser with (u := User.mk "u1" "Uma");
      [exact H4 | | vm_compute; reflexivity]. split; discriminate. }
  assert (H6 : produced
                 (InMemoryPersistenceService.mk
                    (InMemoryPersistenceService.m_authors sample_store)
                    (InMemoryPersistenceService.m_items sample_store)
                    (InMemoryPersistenceService.m_users sample_store)
                    [("loan_2", LoanRecord.mk "loan_2" "b1" "u1" 300 400 None)])).
  { eapply produced_saveLoanRecord
      with (r := LoanRecord.mk "loan_2" "b1" "u1" 300 400 None);
      [exact H5 | | | vm_compute; reflexivity].
    - repeat split; discriminate.
    - split; simpl; [lia | discriminate]. }
  eapply produced_saveLoanRecord
    with (r := LoanRecord.mk "loan_1" "b2" "u2" 100 200 (Some 150));
    [exact H6 | | | vm_compute; reflexivity].
  - repeat split; discriminate.
  - split; simpl; [lia | intros d [= <-]; lia].
Qed.

(** X1. On the in-memory backend, deleting an author, item, user or loan record by id
    always succeeds: afterwards a load of that id finds nothing, every other id
    loads as before, and deleting an id that is not stored changes nothing. *)
Theorem memory_delete_removes_exactly_that_id
    (m : InMemoryPersistenceService.t) (id : EntityId) :
  produced m ->
  (exists m',
     InMemoryPersistenceService.deleteAuthor m id = Ok m' /\ produced m' /\
     InMemoryPersistenceService.loadAuthor m' id = Ok None /\
     (forall id', id' <> id ->
        InMemoryPersistenceService.loadAuthor m' id'
          = InMemoryPersistenceService.loadAuthor m id') /\
     (InMemoryPersistenceService.loadAuthor m id = Ok None -> m' = m)) /\
  (exists m',
     InMemoryPersistenceService.deleteLibraryItem m id = Ok m' /\ produced m' /\
     InMemoryPersistenceService.loadLibraryItem m' id = Ok None /\
     (forall id', id' <> id ->
        InMemoryPersistenceService.loadLibraryItem m' id'
          = InMemoryPersistenceService.loadLibraryItem m id') /\
     (InMemoryPersistenceService.loadLibraryItem m id = Ok None -> m' = m)) /\
  (exists m',
     InMemoryPersistenceService.deleteUser m id = Ok m' /\ produced m' /\
     InMemoryPersistenceService.loadUser m' id = Ok None /\
     (forall id', id' <> id ->
        InMemoryPersistenceService.loadUser m' id'
          = InMemoryPersistenceService.loadUser m id') /\
     (InMemoryPersistenceService.loadUser m id = Ok None -> m' = m)) /\
  (exists m',
     InMemoryPersistenceService.deleteLoanRecord m id = Ok m' /\ produced m' /\
     InMemoryPersistenceService.loadLoanRecord m' id = Ok None /\
     (forall id', id' <> id ->
        InMemoryPersistenceService.loadLoanRecord m' id'
          = InMemoryPersistenceService.loadLoanRecord m id') /\
     (InMemoryPersistenceService.loadLoanRecord m id = Ok None -> m' = m)).
Proof.
  intros Hp. destruct (produced_well_formed m Hp) as [Hwf Hu]. destruct Hu.
  split; [|split; [|split]]; eexists; (split; [reflexivity|]).
  - split; [eapply produced_deleteAuthor; [exact Hp | reflexivity]|].
    unfold InMemoryPersistenceService.loadAuthor; simpl.
    split; [now rewrite find_erase_same|].
    split; [intros id' Hne; now rewrite find_erase_other|].
    intros [= H]. destruct m; simpl in *. now rewrite erase_absent.
  - split; [eapply produced_deleteLibraryItem; [exact Hp | reflexivity]|].
    unfold InMemoryPersistenceService.loadLibraryItem; simpl.
    split; [now rewrite find_erase_same|].
    split; [intros id' Hne; now rewrite find_erase_other|].
    intros H. destruct (StdMap.find id (InMemoryPersistenceService.m_items m)) eqn:E.
    + destruct (Book.clone t); discriminate.
    + destruct m; simpl in *. now rewrite erase_absent.
  - split; [eapply produced_deleteUser; [exact Hp | reflexivity]|].
    unfold InMemoryPersistenceService.loadUser; simpl.
    split; [now rewrite find_erase_same|].
    split; [intros id' Hne; now rewrite find_erase_other|].
    intros [= H]. destruct m; simpl in *. now rewrite erase_absent.
  - split; [eapply produced_deleteLoanRecord; [exact Hp | reflexivity]|].
    unfold InMemoryPersistenceService.loadLoanRecord; simpl.
    split; [now rewrite find_erase_same|].
    split; [intros id' Hne; now rewrite find_erase_other|].
    intros [= H]. destruct m; simpl in *. now rewrite erase_absent.
Qed.

Lemma memory_delete_removes_exactly_that_id_witness :
  exists m',
    InMemoryPersistenceService.deleteUser sample_store "u1" = Ok m' /\ produced m' /\
    InMemoryPersistenceService.loadUser m' "u1" = Ok None /\
    (forall id', id' <> "u1" ->
       InMemoryPersistenceService.loadUser m' id'
         = InMemoryPersistenceService.loadUser sample_store id') /\
    (InMemoryPersistenceService.loadUser sample_store "u1" = Ok None -> m' = sample_store).
Proof.
  exact (proj1 (proj2 (proj2
    (memory_delete_removes_exactly_that_id sample_store "u1" sample_store_produced)))).
Defined.

Lemma length_assign {V : Type} (m : StdMap.t V) k v :
  List.length (StdMap.assign k v m) = List.length m.
Proof.
  induction m as [|[k' v'] m IH]; simpl; [reflexivity|].
  destruct (String.eqb k k'); simpl; congruence.
Qed.

Lemma length_emplace {V : Type} (m : StdMap.t V) k v :
  StdMap.find k m = None -> List.length (StdMap.emplace k v m) = S (List.length m).
Proof.
  induction m as [|[k' v'] m IH]; simpl; [reflexivity|].
  destruct (String.eqb k k'); [discriminate|]. intros H.
  destruct (String.ltb k k'); simpl; [reflexivity|]. now rewrite IH.
Qed.

(** Saving a user replaces the user of that id and keeps the others. *)
Lemma memory_save_user_replaces_and_keeps_others
    (m : InMemoryPersistenceService.t) (u : User.t) :
  exists m' users users',
    InMemoryPersistenceService.saveUser m u = Ok m' /\
    InMemoryPersistenceService.loadUser m' (User.getUserId u) = Ok (Some u) /\
    (forall id', id' <> User.getUserId u ->
       InMemoryPersistenceService.loadUser m' id'
         = InMemoryPersistenceService.loadUser m id') /\
    InMemoryPersistenceService.loadAllUsers m = Ok users /\
    InMemoryPersistenceService.loadAllUsers m' = Ok users' /\
    List.length users' =
      match StdMap.find (User.getUserId u) (InMemoryPersistenceService.m_users m) with
      | Some _ => List.length users
      | None => S (List.length users)
      end /\
    InMemoryPersistenceService.m_authors m' = InMemoryPersistenceService.m_authors m /\
    InMemoryPersistenceService.m_items m' = InMemoryPersistenceService.m_items m /\
    InMemoryPersistenceService.m_loan_records m'
      = InMemoryPersistenceService.m_loan_records m.
Proof.
  eexists _, _, _. split; [reflexivity|].
  unfold InMemoryPersistenceService.loadUser, InMemoryPersistenceService.loadAllUsers; simpl.
  fold (StdMap.set (User.getUserId u) u (InMemoryPersistenceService.m_users m)).
  split; [now rewrite find_set_same|].
  split; [intros id' Hne; now rewrite find_set_other|].
  split; [reflexivity|]. split; [reflexivity|].
  split; [|auto].
  unfold StdMap.values, StdMap.set. rewrite !length_map.
  destruct (StdMap.find (User.getUserId u) (InMemoryPersistenceService.m_users m)) eqn:E.
  - apply length_assign.
  - now apply length_emplace.
Qed.

(** ** The in-memory backend: listings *)

Lemma Sorted_map_filter {A : Type} (f : A -> string) (p : A -> bool) (l : list A) :
  Sorted key_lt (map f l) -> Sorted key_lt (map f (filter p l)).
Proof.
  intros Hs. apply StronglySorted_Sorted.
  apply Sorted_StronglySorted in Hs; [|exact key_lt_trans].
  induction l as [|x l IH]; simpl in *; [constructor|].
  inversion Hs as [|? ? Hs' Hall]; subst.
  destruct (p x); simpl; [|now apply IH].
  constructor; [now apply IH|].
  apply Forall_forall. intros y Hy. rewrite Forall_forall in Hall. apply Hall.
  apply in_map_iff in Hy as (z & <- & Hz). apply filter_In in Hz as [Hz _].
  now apply in_map.
Qed.

(** X2. On the in-memory backend each of the four listings (authors, items, users,
    loan records) returns exactly the stored entities, each once, in ascending
    order of their ids: an entity is listed if and only if a load of its id
    returns it. *)
Theorem memory_load_all_lists_the_store_in_id_order (m : InMemoryPersistenceService.t) :
  produced m ->
  (exists authors,
     InMemoryPersistenceService.loadAllAuthors m = Ok authors /\
     Sorted key_lt (map Author.m_id authors) /\
     forall a, In a authors <->
       InMemoryPersistenceService.loadAuthor m (Author.m_id a) = Ok (Some a)) /\
  (exists items,
     InMemoryPersistenceService.loadAllLibraryItems m = Ok items /\
     Sorted key_lt (map Book.m_id items) /\
     forall b, In b items <->
       InMemoryPersistenceService.loadLibraryItem m (Book.m_id b) = Ok (Some b)) /\
  (exists users,
     InMemoryPersistenceService.loadAllUsers m = Ok users /\
     Sorted key_lt (map User.m_user_id users) /\
     forall u, In u users <->
       InMemoryPersistenceService.loadUser m (User.m_user_id u) = Ok (Some u)) /\
  (exists loans,
     InMemoryPersistenceService.loadAllLoanRecords m = Ok loans /\
     Sorted key_lt (map LoanRecord.m_record_id loans) /\
     forall r, In r loans <->
       InMemoryPersistenceService.loadLoanRecord m (LoanRecord.m_record_id r) = Ok (Some r)).
Proof.
  intros Hp. destruct (produced_well_formed m Hp) as [Hwf Hu].
  destruct (produced_sorted m Hp) as [Sa Si Su Sl]. destruct Hwf, Hu.
  split; [|split; [|split]].
  - eexists. split; [reflexivity|]. split.
    + now rewrite keyed_ids.
    + intros a. unfold InMemoryPersistenceService.loadAuthor.
      rewrite (values_find Author.m_id) by assumption.
      split; [now intros -> | now intros [= ->]].
  - exists (StdMap.values (InMemoryPersistenceService.m_items m)).
    assert (Hvalid : forall b, In b (StdMap.values (InMemoryPersistenceService.m_items m)) ->
                               Book.valid b).
    { intros b Hb. apply In_values in Hb as (k & Hb). eauto. }
    split; [now apply map_outcome_clone|]. split.
    + now rewrite keyed_ids.
    + intros b. rewrite (values_find Book.m_id) by assumption.
      unfold InMemoryPersistenceService.loadLibraryItem. split.
      * intros Hf. rewrite Hf. rewrite clone_valid; [reflexivity|].
        apply Hvalid. eapply find_In; eassumption.
      * destruct (StdMap.find (Book.m_id b) (InMemoryPersistenceService.m_items m)) as [b0|] eqn:E;
          [|discriminate].
        rewrite clone_valid by (apply Hvalid; eapply find_In; eassumption).
        simpl. now intros [= ->].
  - eexists. split; [reflexivity|]. split.
    + now rewrite keyed_ids.
    + intros u. unfold InMemoryPersistenceService.loadUser.
      rewrite (values_find User.m_user_id) by assumption.
      split; [now intros -> | now intros [= ->]].
  - eexists. split; [reflexivity|]. split.
    + now rewrite keyed_ids.
    + intros r. unfold InMemoryPersistenceService.loadLoanRecord.
      rewrite (values_find LoanRecord.m_record_id) by assumption.
      split; [now intros -> | now intros [= ->]].
Qed.

Lemma memory_load_all_lists_the_store_in_id_order_witness :
  exists users,
    InMemoryPersistenceService.loadAllUsers sample_store = Ok users /\
    Sorted key_lt (map User.m_user_id users) /\
    forall u, In u users <->
      InMemoryPersistenceService.loadUser sample_store (User.m_user_id u) = Ok (Some u).
Proof.
  exact (proj1 (proj2 (proj2
    (memory_load_all_lists_the_store_in_id_order sample_store sample_store_produced)))).
Defined.

(** X3. On the in-memory backend the loan records of a user, and those of an item,
    are exactly the stored loan records with that user id, or that item id, in
    ascending order of the record ids. *)
Theorem memory_loans_by_user_and_by_item_agree_with_load
    (m : InMemoryPersistenceService.t) (id : EntityId) :
  produced m ->
  (exists loans,
     InMemoryPersistenceService.loadLoanRecordsByUserId m id = Ok loans /\
     Sorted key_lt (map LoanRecord.m_record_id loans) /\
     forall r, In r loans <->
       InMemoryPersistenceService.loadLoanRecord m (LoanRecord.m_record_id r) = Ok (Some r)
       /\ LoanRecord.m_user_id r = id) /\
  (exists loans,
     InMemoryPersistenceService.loadLoanRecordsByItemId m id = Ok loans /\
     Sorted key_lt (map LoanRecord.m_record_id loans) /\
     forall r, In r loans <->
       InMemoryPersistenceService.loadLoanRecord m (LoanRecord.m_record_id r) = Ok (Some r)
       /\ LoanRecord.m_item_id r = id).
Proof.
  intros Hp. destruct (produced_well_formed m Hp) as [Hwf Hu].
  destruct (produced_sorted m Hp) as [Sa Si Su Sl]. destruct Hwf, Hu.
  split; eexists; (split; [reflexivity|]); split.
  - apply Sorted_map_filter. now rewrite keyed_ids.
  - intros r. rewrite filter_In. unfold InMemoryPersistenceService.loadLoanRecord.
    rewrite (values_find LoanRecord.m_record_id) by assumption.
    unfold LoanRecord.getUserId. rewrite String.eqb_eq.
    split; [intros [-> ->]; auto | intros [[= ->] ->]; auto].
  - apply Sorted_map_filter. now rewrite keyed_ids.
  - intros r. rewrite filter_In. unfold InMemoryPersistenceService.loadLoanRecord.
    rewrite (values_find LoanRecord.m_record_id) by assumption.
    unfold LoanRecord.getItemId. rewrite String.eqb_eq.
    split; [intros [-> ->]; auto | intros [[= ->] ->]; auto].
Qed.

Lemma memory_loans_by_user_and_by_item_agree_with_load_witness :
  exists loans,
    InMemoryPersistenceService.loadLoanRecordsByUserId sample_store "u1" = Ok loans /\
    Sorted key_lt (map LoanRecord.m_record_id loans) /\
    forall r, In r loans <->
      InMemoryPersistenceService.loadLoanRecord sample_store (LoanRecord.m_record_id r)
        = Ok (Some r)
      /\ LoanRecord.m_user_id r = "u1".
Proof.
  exact (proj1
    (memory_loans_by_user_and_by_item_agree_with_load sample_store "u1" sample_store_produced)).
Defined.

(** ** The user service *)

Lemma memory_findUserById (m : InMemoryPersistenceService.t) user_id :
  user_id <> EmptyString ->
  UserService.findUserById m user_id
    = Ok (StdMap.find user_id (InMemoryPersistenceService.m_users m)).
Proof.
  intros Hne. unfold UserService.findUserById.
  apply empty_false in Hne. now rewrite Hne.
Qed.

Lemma memory_loadLibraryItem_find (m : InMemoryPersistenceService.t) item_id :
  memory_wf m ->
  InMemoryPersistenceService.loadLibraryItem m item_id
    = Ok (StdMap.find item_id (InMemoryPersistenceService.m_items m)).
Proof.
  intros Hwf. destruct (StdMap.find item_id (InMemoryPersistenceService.m_items m)) eqn:E.
  - now apply memory_loadLibraryItem.
  - unfold InMemoryPersistenceService.loadLibraryItem. now rewrite E.
Qed.

Lemma memory_findItemById (m : InMemoryPersistenceService.t) item_id :
  memory_wf m -> item_id <> EmptyString ->
  CatalogService.findItemById m item_id
    = Ok (StdMap.find item_id (InMemoryPersistenceService.m_items m)).
Proof.
  intros Hwf Hne. unfold CatalogService.findItemById.
  apply empty_false in Hne. rewrite Hne. now apply memory_loadLibraryItem_find.
Qed.

Lemma findUserById_congr (m m' : InMemoryPersistenceService.t) id' :
  StdMap.find id' (InMemoryPersistenceService.m_users m')
    = StdMap.find id' (InMemoryPersistenceService.m_users m) ->
  UserService.findUserById m' id' = UserService.findUserById m id'.
Proof.
  intros H. unfold UserService.findUserById. destruct (empty id'); [reflexivity|].
  simpl. unfold InMemoryPersistenceService.loadUser. now rewrite H.
Qed.

(** X4. Over the in-memory backend, adding a user with a non-empty id and name
    that is not yet stored succeeds: the user is then found under the id with
    that name, every other id is found as before, and adding the same id again
    fails with OperationFailed. *)
Theorem add_user_registers_the_user_once
    (m : InMemoryPersistenceService.t) (user_id : EntityId) (name : string) :
  produced m ->
  user_id <> EmptyString -> name <> EmptyString ->
  UserService.findUserById m user_id = Ok None ->
  exists m',
    UserService.addUser m user_id name = Ok m' /\ produced m' /\
    UserService.findUserById m' user_id = Ok (Some (User.mk user_id name)) /\
    (forall id', id' <> user_id ->
       UserService.findUserById m' id' = UserService.findUserById m id') /\
    (forall name', name' <> EmptyString ->
       UserService.addUser m' user_id name' = Throw OperationFailedException).
Proof.
  intros Hp Hid Hname Hnone. rewrite memory_findUserById in Hnone by assumption.
  injection Hnone as Hnone.
  pose proof Hid as Hide. pose proof Hname as Hnamee. apply empty_false in Hide, Hnamee.
  assert (Hadd : UserService.addUser m user_id name
                 = InMemoryPersistenceService.saveUser m (User.mk user_id name)).
  { unfold UserService.addUser. rewrite Hide, Hnamee. simpl.
    unfold InMemoryPersistenceService.loadUser. rewrite Hnone. simpl.
    unfold User.new. now rewrite Hide, Hnamee. }
  eexists. split; [rewrite Hadd; reflexivity|].
  split; [eapply produced_saveUser with (u := User.mk user_id name);
            [exact Hp | split; assumption | reflexivity]|].
  unfold User.getUserId. simpl User.m_user_id.
  fold (StdMap.set user_id (User.mk user_id name) (InMemoryPersistenceService.m_users m)).
  split; [|split].
  - rewrite memory_findUserById by assumption. simpl. now rewrite find_set_same.
  - intros id' Hne. apply findUserById_congr. simpl. now apply find_set_other.
  - intros name' Hname'. apply empty_false in Hname'.
    unfold UserService.addUser. rewrite Hide, Hname'. simpl.
    unfold InMemoryPersistenceService.loadUser. simpl. now rewrite find_set_same.
Qed.

Lemma add_user_registers_the_user_once_witness :
  exists m',
    UserService.addUser sample_store "u3" "Wes" = Ok m' /\ produced m' /\
    UserService.findUserById m' "u3" = Ok (Some (User.mk "u3" "Wes")) /\
    (forall id', id' <> "u3" ->
       UserService.findUserById m' id' = UserService.findUserById sample_store id') /\
    (forall name', name' <> EmptyString ->
       UserService.addUser m' "u3" name' = Throw OperationFailedException).
Proof.
  apply (add_user_registers_the_user_once sample_store "u3" "Wes" sample_store_produced);
    [discriminate | discriminate | reflexivity].
Defined.

(** X5. Over the in-memory backend, updating a stored user replaces the name and
    nothing else: the other users and all loan records stay as they were.
    Updating an id that is not stored fails with NotFound. *)
Theorem update_user_changes_only_the_name
    (m : InMemoryPersistenceService.t) (user_id : EntityId) (new_name : string) :
  produced m ->
  user_id <> EmptyString -> new_name <> EmptyString ->
  (forall user,
     UserService.findUserById m user_id = Ok (Some user) ->
     exists m',
       UserService.updateUser m user_id new_name = Ok m' /\ produced m' /\
       UserService.findUserById m' user_id = Ok (Some (User.mk user_id new_name)) /\
       (forall id', id' <> user_id ->
          UserService.findUserById m' id' = UserService.findUserById m id') /\
       InMemoryPersistenceService.m_loan_records m'
         = InMemoryPersistenceService.m_loan_records m) /\
  (UserService.findUserById m user_id = Ok None ->
   UserService.updateUser m user_id new_name = Throw NotFoundException).
Proof.
  intros Hp Hid Hname. destruct (produced_well_formed m Hp) as [Hwf Hu].
  pose proof Hid as Hide. pose proof Hname as Hnamee. apply empty_false in Hide, Hnamee.
  rewrite memory_findUserById by assumption. split.
  - intros user [= Hfind].
    destruct (memory_user_id _ _ _ Hwf Hfind) as (Huid & _).
    assert (Hupd : UserService.updateUser m user_id new_name
                   = InMemoryPersistenceService.saveUser m (User.mk user_id new_name)).
    { unfold UserService.updateUser. rewrite Hide, Hnamee. simpl.
      unfold InMemoryPersistenceService.loadUser. rewrite Hfind. simpl.
      unfold User.setName. rewrite Hnamee. simpl. now rewrite Huid. }
    eexists. split; [rewrite Hupd; reflexivity|].
    split; [eapply produced_saveUser with (u := User.mk user_id new_name);
              [exact Hp | split; assumption | reflexivity]|].
    unfold User.getUserId. simpl User.m_user_id.
    fold (StdMap.set user_id (User.mk user_id new_name)
            (InMemoryPersistenceService.m_users m)).
    split; [|split; [|reflexivity]].
    + rewrite memory_findUserById by assumption. simpl. now rewrite find_set_same.
    + intros id' Hne. apply findUserById_congr. simpl. now apply find_set_other.
  - intros [= Hfind]. unfold UserService.updateUser. rewrite Hide, Hnamee. simpl.
    unfold InMemoryPersistenceService.loadUser. now rewrite Hfind.
Qed.

Lemma update_user_changes_only_the_name_witness :
  exists m',
    UserService.updateUser sample_store "u1" "Una" = Ok m' /\ produced m' /\
    UserService.findUserById m' "u1" = Ok (Some (User.mk "u1" "Una")) /\
    (forall id', id' <> "u1" ->
       UserService.findUserById m' id' = UserService.findUserById sample_store id') /\
    InMemoryPersistenceService.m_loan_records m'
      = InMemoryPersistenceService.m_loan_records sample_store.
Proof.
  apply (proj1 (update_user_changes_only_the_name sample_store "u1" "Una"
                  sample_store_produced ltac:(discriminate) ltac:(discriminate))
           (User.mk "u1" "Uma")).
  reflexivity.
Defined.

(** X6. Over the in-memory backend, removing a user returns false and changes
    nothing when the id is not stored; otherwise it returns true, the user is
    no longer found, the other users stay, and the loan records of the removed
    user are all kept. *)
Theorem remove_user_reports_whether_the_user_was_there
    (m : InMemoryPersistenceService.t) (user_id : EntityId) :
  produced m ->
  user_id <> EmptyString ->
  (UserService.findUserById m user_id = Ok None ->
   UserService.removeUser m user_id = Ok (false, m)) /\
  (forall user,
     UserService.findUserById m user_id = Ok (Some user) ->
     exists m',
       UserService.removeUser m user_id = Ok (true, m') /\ produced m' /\
       UserService.findUserById m' user_id = Ok None /\
       (forall id', id' <> user_id ->
          UserService.findUserById m' id' = UserService.findUserById m id') /\
       InMemoryPersistenceService.m_loan_records m'
         = InMemoryPersistenceService.m_loan_records m).
Proof.
  intros Hp Hid. destruct (produced_well_formed m Hp) as [Hwf Hu]. destruct Hu.
  pose proof Hid as Hide. apply empty_false in Hide.
  rewrite memory_findUserById by assumption. split.
  - intros [= Hfind]. unfold UserService.removeUser. rewrite Hide. simpl.
    unfold InMemoryPersistenceService.loadUser. now rewrite Hfind.
  - intros user [= Hfind]. eexists. split.
    + unfold UserService.removeUser. rewrite Hide. simpl.
      unfold InMemoryPersistenceService.loadUser. rewrite Hfind. reflexivity.
    + split; [eapply produced_deleteUser; [exact Hp | reflexivity]|].
      split; [|split; [|reflexivity]].
      * rewrite memory_findUserById by assumption. simpl. now rewrite find_erase_same.
      * intros id' Hne. apply findUserById_congr. simpl. now apply find_erase_other.
Qed.

Lemma remove_user_reports_whether_the_user_was_there_witness :
  UserService.removeUser sample_store "u9" = Ok (false, sample_store) /\
  exists m',
    UserService.removeUser sample_store "u1" = Ok (true, m') /\ produced m' /\
    UserService.findUserById m' "u1" = Ok None /\
    (forall id', id' <> "u1" ->
       UserService.findUserById m' id' = UserService.findUserById sample_store id') /\
    InMemoryPersistenceService.m_loan_records m'
      = InMemoryPersistenceService.m_loan_records sample_store.
Proof.
  split.
  - apply (proj1 (remove_user_reports_whether_the_user_was_there sample_store "u9"
                    sample_store_produced ltac:(discriminate))).
    reflexivity.
  - apply (proj2 (remove_user_reports_whether_the_user_was_there sample_store "u1"
                    sample_store_produced ltac:(discriminate))
             (User.mk "u1" "Uma")).
    reflexivity.
Defined.

(** ** The catalog service: adding a book *)

Lemma findItemById_congr (m m' : InMemoryPersistenceService.t) id' :
  memory_wf m -> memory_wf m' ->
  StdMap.find id' (InMemoryPersistenceService.m_items m')
    = StdMap.find id' (InMemoryPersistenceService.m_items m) ->
  CatalogService.findItemById m' id' = CatalogService.findItemById m id'.
Proof.
  intros Hwf Hwf' H. unfold CatalogService.findItemById. destruct (empty id'); [reflexivity|].
  simpl. rewrite !memory_loadLibraryItem_find by assumption. now rewrite H.
Qed.

Lemma memory_saveLibraryItem_valid (m : InMemoryPersistenceService.t) b :
  Book.valid b ->
  InMemoryPersistenceService.saveLibraryItem m (Some b)
    = Ok (InMemoryPersistenceService.mk
            (InMemoryPersistenceService.m_authors m)
            (StdMap.set (Book.m_id b) b (InMemoryPersistenceService.m_items m))
            (InMemoryPersistenceService.m_users m)
            (InMemoryPersistenceService.m_loan_records m)).
Proof.
  intros Hv. unfold InMemoryPersistenceService.saveLibraryItem.
  now rewrite (clone_valid _ Hv).
Qed.

(** X7. Over the in-memory backend, adding a book with valid fields: an id that
    is already stored fails with OperationFailed and changes nothing; with a
    stored author id the book is stored AVAILABLE with the stored author and
    the given author name is ignored; with an unknown author id the author is
    created first; with an unknown author id and an empty author id or name it
    fails with InvalidArgument and changes nothing. *)
Theorem add_book_stores_an_available_book
    (m : InMemoryPersistenceService.t) (item_id : EntityId) (title : string)
    (author_id : EntityId) (author_name isbn : string) (year : Z) :
  produced m ->
  item_id <> EmptyString -> title <> EmptyString -> isbn <> EmptyString -> 0 < year ->
  (forall existing,
     CatalogService.findItemById m item_id = Ok (Some existing) ->
     CatalogService.addBook m item_id title author_id author_name isbn year
       = (Throw OperationFailedException, m)) /\
  (forall author,
     CatalogService.findItemById m item_id = Ok None ->
     InMemoryPersistenceService.loadAuthor m author_id = Ok (Some author) ->
     exists m',
       CatalogService.addBook m item_id title author_id author_name isbn year = (Ok tt, m') /\
       produced m' /\
       CatalogService.findItemById m' item_id
         = Ok (Some (Book.mk item_id title (Some author) isbn year AVAILABLE)) /\
       InMemoryPersistenceService.m_authors m' = InMemoryPersistenceService.m_authors m) /\
  (CatalogService.findItemById m item_id = Ok None ->
   InMemoryPersistenceService.loadAuthor m author_id = Ok None ->
   author_id <> EmptyString -> author_name <> EmptyString ->
   exists m',
     CatalogService.addBook m item_id title author_id author_name isbn year = (Ok tt, m') /\
     produced m' /\
     CatalogService.findItemById m' item_id
       = Ok (Some (Book.mk item_id title (Some (Author.mk author_id author_name)) isbn year
                     AVAILABLE)) /\
     InMemoryPersistenceService.loadAuthor m' author_id
       = Ok (Some (Author.mk author_id author_name))) /\
  (CatalogService.findItemById m item_id = Ok None ->
   InMemoryPersistenceService.loadAuthor m author_id = Ok None ->
   author_id = EmptyString \/ author_name = EmptyString ->
   CatalogService.addBook m item_id title author_id author_name isbn year
     = (Throw InvalidArgumentException, m)).
Proof.
  intros Hp Hid Htitle Hisbn Hyear.
  destruct (produced_well_formed m Hp) as [Hwf Hu].
  rewrite memory_findItemById by assumption.
  pose proof Hid as Hide. pose proof Htitle as Htitlee. pose proof Hisbn as Hisbne.
  apply empty_false in Hide, Htitlee, Hisbne.
  assert (Hy : (year <=? 0) = false) by (apply Z.leb_gt; lia).
  assert (Hstart : forall found,
            StdMap.find item_id (InMemoryPersistenceService.m_items m) = found ->
            CatalogService.addBook m item_id title author_id author_name isbn year =
            match found with
            | Some _ => (Throw OperationFailedException, m)
            | None =>
                match CatalogService.getOrCreateAuthor m author_id author_name with
                | Throw e => (Throw e, m)
                | Fault => (Fault, m)
                | Ok (author, store1) =>
                    match Book.new item_id title (Some author) isbn year AVAILABLE with
                    | Throw e => (Throw e, store1)
                    | Fault => (Fault, store1)
                    | Ok new_book =>
                        match InMemoryPersistenceService.saveLibraryItem store1 (Some new_book) with
                        | Throw e => (Throw e, store1)
                        | Fault => (Fault, store1)
                        | Ok store2 => (Ok tt, store2)
                        end
                    end
                end
            end).
  { intros found Hf. unfold CatalogService.addBook.
    rewrite Hide, Htitlee, Hisbne, Hy.
    cbn [orb IPersistenceService.loadLibraryItem InMemoryPersistenceService.backend].
    rewrite memory_loadLibraryItem_find by assumption. rewrite Hf.
    destruct found; reflexivity. }
  assert (Hnew : forall a,
            Book.new item_id title (Some a) isbn year AVAILABLE
              = Ok (Book.mk item_id title (Some a) isbn year AVAILABLE)).
  { intros a. unfold Book.new. now rewrite Hide, Htitlee, Hisbne, Hy. }
  assert (Hvalid : forall a, Book.valid (Book.mk item_id title (Some a) isbn year AVAILABLE)).
  { intros a. repeat split; simpl; try assumption. discriminate. }
  split; [|split; [|split]].
  - intros existing [= Hf]. now rewrite (Hstart _ Hf).
  - intros author [= Hf] [= Ha]. rewrite (Hstart _ Hf).
    unfold CatalogService.getOrCreateAuthor.
    cbn [IPersistenceService.loadAuthor InMemoryPersistenceService.backend].
    unfold InMemoryPersistenceService.loadAuthor. rewrite Ha.
    cbn [bind]. rewrite Hnew, (memory_saveLibraryItem_valid _ _ (Hvalid author)).
    eexists. split; [reflexivity|].
    assert (Hp' : produced
                    (InMemoryPersistenceService.mk
                       (InMemoryPersistenceService.m_authors m)
                       (StdMap.set item_id (Book.mk item_id title (Some author) isbn year AVAILABLE)
                          (InMemoryPersistenceService.m_items m))
                       (InMemoryPersistenceService.m_users m)
                       (InMemoryPersistenceService.m_loan_records m))).
    { eapply produced_saveLibraryItem
        with (b := Book.mk item_id title (Some author) isbn year AVAILABLE);
        [exact Hp | apply Hvalid | rewrite memory_saveLibraryItem_valid by apply Hvalid; reflexivity]. }
    split; [exact Hp'|]. split; [|reflexivity].
    rewrite memory_findItemById by (try assumption; apply produced_well_formed, Hp').
    simpl. now rewrite find_set_same.
  - intros [= Hf] [= Ha] Haid Haname.
    pose proof Haid as Haide. pose proof Haname as Hanamee.
    apply empty_false in Haide, Hanamee.
    rewrite (Hstart _ Hf). unfold CatalogService.getOrCreateAuthor.
    cbn [IPersistenceService.loadAuthor IPersistenceService.saveAuthor
         InMemoryPersistenceService.backend].
    unfold InMemoryPersistenceService.loadAuthor. rewrite Ha.
    cbn [bind]. rewrite Haide, Hanamee. cbn [orb].
    unfold Author.new. rewrite Haide, Hanamee.
    cbn [bind InMemoryPersistenceService.saveAuthor].
    rewrite Hnew, (memory_saveLibraryItem_valid _ _ (Hvalid _)).
    eexists. split; [reflexivity|].
    cbn [InMemoryPersistenceService.m_authors InMemoryPersistenceService.m_items
         InMemoryPersistenceService.m_users InMemoryPersistenceService.m_loan_records
         Book.m_id Author.getId Author.m_id].
    assert (Hp1 : produced
                    (InMemoryPersistenceService.mk
                       (StdMap.set author_id (Author.mk author_id author_name)
                          (InMemoryPersistenceService.m_authors m))
                       (InMemoryPersistenceService.m_items m)
                       (InMemoryPersistenceService.m_users m)
                       (InMemoryPersistenceService.m_loan_records m))).
    { eapply produced_saveAuthor with (a := Author.mk author_id author_name);
        [exact Hp | split; assumption | reflexivity]. }
    assert (Hp' : produced
                    (InMemoryPersistenceService.mk
                       (StdMap.set author_id (Author.mk author_id author_name)
                          (InMemoryPersistenceService.m_authors m))
                       (StdMap.set item_id
                          (Book.mk item_id title (Some (Author.mk author_id author_name)) isbn
                             year AVAILABLE)
                          (InMemoryPersistenceService.m_items m))
                       (InMemoryPersistenceService.m_users m)
                       (InMemoryPersistenceService.m_loan_records m))).
    { eapply produced_saveLibraryItem
        with (b := Book.mk item_id title (Some (Author.mk author_id author_name)) isbn year
                     AVAILABLE);
        [exact Hp1 | apply Hvalid | rewrite memory_saveLibraryItem_valid by apply Hvalid; reflexivity]. }
    split; [exact Hp'|]. split.
    + rewrite memory_findItemById by (try assumption; apply produced_well_formed, Hp').
      simpl. now rewrite find_set_same.
    + unfold InMemoryPersistenceService.loadAuthor. simpl. now rewrite find_set_same.
  - intros [= Hf] [= Ha] Hempty.
    rewrite (Hstart _ Hf). unfold CatalogService.getOrCreateAuthor.
    cbn [IPersistenceService.loadAuthor InMemoryPersistenceService.backend].
    unfold InMemoryPersistenceService.loadAuthor. rewrite Ha. cbn [bind].
    destruct Hempty as [-> | ->]; [reflexivity|].
    cbn [empty]. now rewrite orb_true_r.
Qed.

Lemma add_book_stores_an_available_book_witness :
  (exists m',
     CatalogService.addBook sample_store "b3" "Third" "a1" "Someone Else" "isbn-3" 2003
       = (Ok tt, m') /\
     produced m' /\
     CatalogService.findItemById m' "b3"
       = Ok (Some (Book.mk "b3" "Third" (Some (Author.mk "a1" "Ann")) "isbn-3" 2003 AVAILABLE)) /\
     InMemoryPersistenceService.m_authors m'
       = InMemoryPersistenceService.m_authors sample_store) /\
  (exists m',
     CatalogService.addBook sample_store "b3" "Third" "a2" "Bob" "isbn-3" 2003 = (Ok tt, m') /\
     produced m' /\
     CatalogService.findItemById m' "b3"
       = Ok (Some (Book.mk "b3" "Third" (Some (Author.mk "a2" "Bob")) "isbn-3" 2003 AVAILABLE)) /\
     InMemoryPersistenceService.loadAuthor m' "a2" = Ok (Some (Author.mk "a2" "Bob"))).
Proof.
  split.
  - apply (proj1 (proj2 (add_book_stores_an_available_book sample_store "b3" "Third" "a1"
                           "Someone Else" "isbn-3" 2003 sample_store_produced
                           ltac:(discriminate) ltac:(discriminate) ltac:(discriminate)
                           ltac:(lia)))
             (Author.mk "a1" "Ann")); reflexivity.
  - apply (proj1 (proj2 (proj2 (add_book_stores_an_available_book sample_store "b3" "Third"
                                  "a2" "Bob" "isbn-3" 2003 sample_store_produced
                                  ltac:(discriminate) ltac:(discriminate) ltac:(discriminate)
                                  ltac:(lia)))));
      [reflexivity | reflexivity | discriminate | discriminate].
Defined.

(** ** The catalog service: removing, updating and searching *)

(** X8. Over the in-memory backend, removing an item returns false and changes
    nothing when the id is not stored; otherwise it returns true, the item is
    no longer found, the other items stay, and all loan records are kept, also
    those of the removed item. *)
Theorem remove_item_deletes_the_item_and_keeps_its_loans
    (m : InMemoryPersistenceService.t) (item_id : EntityId) :
  produced m ->
  item_id <> EmptyString ->
  (CatalogService.findItemById m item_id = Ok None ->
   CatalogService.removeItem m item_id = Ok (false, m)) /\
  (forall item,
     CatalogService.findItemById m item_id = Ok (Some item) ->
     exists m',
       CatalogService.removeItem m item_id = Ok (true, m') /\ produced m' /\
       CatalogService.findItemById m' item_id = Ok None /\
       (forall id', id' <> item_id ->
          CatalogService.findItemById m' id' = CatalogService.findItemById m id') /\
       InMemoryPersistenceService.m_loan_records m'
         = InMemoryPersistenceService.m_loan_records m).
Proof.
  intros Hp Hid. destruct (produced_well_formed m Hp) as [Hwf Hu].
  pose proof Hid as Hide. apply empty_false in Hide.
  rewrite memory_findItemById by assumption.
  assert (Hrm : CatalogService.removeItem m item_id =
                match StdMap.find item_id (InMemoryPersistenceService.m_items m) with
                | None => Ok (false, m)
                | Some _ =>
                    store' <- InMemoryPersistenceService.deleteLibraryItem m item_id ;;
                    Ok (true, store')
                end).
  { unfold CatalogService.removeItem. rewrite Hide.
    cbn [IPersistenceService.loadLibraryItem InMemoryPersistenceService.backend].
    rewrite memory_loadLibraryItem_find by assumption. reflexivity. }
  split.
  - intros [= Hf]. now rewrite Hrm, Hf.
  - intros item [= Hf]. rewrite Hrm, Hf.
    assert (Hp' : produced
                    (InMemoryPersistenceService.mk
                       (InMemoryPersistenceService.m_authors m)
                       (StdMap.erase item_id (InMemoryPersistenceService.m_items m))
                       (InMemoryPersistenceService.m_users m)
                       (InMemoryPersistenceService.m_loan_records m))).
    { eapply produced_deleteLibraryItem; [exact Hp | reflexivity]. }
    destruct (produced_well_formed _ Hp') as [Hwf' _].
    eexists. split; [reflexivity|]. split; [exact Hp'|].
    split; [|split; [|reflexivity]].
    + rewrite memory_findItemById by assumption. simpl.
      rewrite find_erase_same; [reflexivity | apply Hu].
    + intros id' Hne. apply findItemById_congr; try assumption.
      simpl. now apply find_erase_other.
Qed.

Lemma remove_item_deletes_the_item_and_keeps_its_loans_witness :
  exists m',
    CatalogService.removeItem sample_store "b1" = Ok (true, m') /\ produced m' /\
    CatalogService.findItemById m' "b1" = Ok None /\
    (forall id', id' <> "b1" ->
       CatalogService.findItemById m' id' = CatalogService.findItemById sample_store id') /\
    InMemoryPersistenceService.m_loan_records m'
      = InMemoryPersistenceService.m_loan_records sample_store.
Proof.
  apply (proj2 (remove_item_deletes_the_item_and_keeps_its_loans sample_store "b1"
                  sample_store_produced ltac:(discriminate))
           (Book.mk "b1" "First" (Some (Author.mk "a1" "Ann")) "isbn-1" 2001 BORROWED)).
  reflexivity.
Defined.

(** X9. Over the in-memory backend, updating the status of a stored item changes
    the status and nothing else: the other fields of the item, the other
    items, the authors, users and loan records stay as they were.  For an id
    that is not stored it fails with NotFound. *)
Theorem update_item_status_changes_only_the_status
    (m : InMemoryPersistenceService.t) (item_id : EntityId) (status : AvailabilityStatus) :
  produced m ->
  item_id <> EmptyString ->
  (forall item,
     CatalogService.findItemById m item_id = Ok (Some item) ->
     exists m',
       CatalogService.updateItemStatus m item_id status = Ok m' /\ produced m' /\
       CatalogService.findItemById m' item_id
         = Ok (Some (Book.mk (Book.m_id item) (Book.m_title item) (Book.m_author item)
                       (Book.m_isbn item) (Book.m_publication_year item) status)) /\
       (forall id', id' <> item_id ->
          CatalogService.findItemById m' id' = CatalogService.findItemById m id') /\
       InMemoryPersistenceService.m_authors m' = InMemoryPersistenceService.m_authors m /\
       InMemoryPersistenceService.m_users m' = InMemoryPersistenceService.m_users m /\
       InMemoryPersistenceService.m_loan_records m'
         = InMemoryPersistenceService.m_loan_records m) /\
  (CatalogService.findItemById m item_id = Ok None ->
   CatalogService.updateItemStatus m item_id status = Throw NotFoundException).
Proof.
  intros Hp Hid. destruct (produced_well_formed m Hp) as [Hwf Hu].
  pose proof Hid as Hide. apply empty_false in Hide.
  rewrite memory_findItemById by assumption. split.
  - intros item [= Hf].
    destruct (memory_item_id _ _ _ Hwf Hf) as (Hiid & _ & Hv).
    rewrite (memory_updateItemStatus _ _ _ status Hwf Hf).
    assert (Hp' : produced
                    (InMemoryPersistenceService.mk
                       (InMemoryPersistenceService.m_authors m)
                       (StdMap.set item_id (Book.setAvailabilityStatus item status)
                          (InMemoryPersistenceService.m_items m))
                       (InMemoryPersistenceService.m_users m)
                       (InMemoryPersistenceService.m_loan_records m))).
    { eapply produced_saveLibraryItem with (b := Book.setAvailabilityStatus item status);
        [exact Hp | now apply setAvailabilityStatus_valid|].
      rewrite memory_saveLibraryItem_valid by now apply setAvailabilityStatus_valid.
      simpl. now rewrite Hiid. }
    destruct (produced_well_formed _ Hp') as [Hwf' _].
    eexists. split; [reflexivity|]. split; [exact Hp'|].
    split; [|split; [|auto]].
    + rewrite memory_findItemById by assumption. simpl. now rewrite find_set_same.
    + intros id' Hne. apply findItemById_congr; try assumption.
      simpl. now apply find_set_other.
  - intros [= Hf]. unfold CatalogService.updateItemStatus. rewrite Hide.
    cbn [IPersistenceService.loadLibraryItem InMemoryPersistenceService.backend].
    rewrite memory_loadLibraryItem_find by assumption. now rewrite Hf.
Qed.

Lemma update_item_status_changes_only_the_status_witness :
  exists m',
    CatalogService.updateItemStatus sample_store "b2" MAINTENANCE = Ok m' /\ produced m' /\
    CatalogService.findItemById m' "b2"
      = Ok (Some (Book.mk "b2" "Second" (Some (Author.mk "a1" "Ann")) "isbn-2" 2002
                    MAINTENANCE)) /\
    (forall id', id' <> "b2" ->
       CatalogService.findItemById m' id' = CatalogService.findItemById sample_store id') /\
    InMemoryPersistenceService.m_authors m'
      = InMemoryPersistenceService.m_authors sample_store /\
    InMemoryPersistenceService.m_users m' = InMemoryPersistenceService.m_users sample_store /\
    InMemoryPersistenceService.m_loan_records m'
      = InMemoryPersistenceService.m_loan_records sample_store.
Proof.
  apply (proj1 (update_item_status_changes_only_the_status sample_store "b2" MAINTENANCE
                  sample_store_produced ltac:(discriminate))
           (Book.mk "b2" "Second" (Some (Author.mk "a1" "Ann")) "isbn-2" 2002 AVAILABLE)).
  reflexivity.
Defined.

(** X10. Over the in-memory backend, the searches by user name, by title and by
    author id return exactly the stored entities that match, in ascending
    order of their ids (the order of the maps of that backend); with an empty
    search key each of them fails with InvalidArgument. *)
Theorem searches_return_the_stored_entities_that_match (m : InMemoryPersistenceService.t) :
  produced m ->
  (forall name, name <> EmptyString ->
     exists users,
       UserService.findUsersByName m name = Ok users /\
       Sorted key_lt (map User.m_user_id users) /\
       forall u, In u users <->
         UserService.findUserById m (User.m_user_id u) = Ok (Some u) /\ User.m_name u = name) /\
  (forall title, title <> EmptyString ->
     exists items,
       CatalogService.findItemsByTitle m title = Ok items /\
       Sorted key_lt (map Book.m_id items) /\
       forall b, In b items <->
         CatalogService.findItemById m (Book.m_id b) = Ok (Some b) /\ Book.m_title b = title) /\
  (forall author_id, author_id <> EmptyString ->
     exists items,
       CatalogService.findItemsByAuthor m author_id = Ok items /\
       Sorted key_lt (map Book.m_id items) /\
       forall b, In b items <->
         CatalogService.findItemById m (Book.m_id b) = Ok (Some b) /\
         exists a, Book.m_author b = Some a /\ Author.m_id a = author_id) /\
  UserService.findUsersByName m EmptyString = Throw InvalidArgumentException /\
  CatalogService.findItemsByTitle m EmptyString = Throw InvalidArgumentException /\
  CatalogService.findItemsByAuthor m EmptyString = Throw InvalidArgumentException.
Proof.
  intros Hp. destruct (produced_well_formed m Hp) as [Hwf Hu].
  destruct (produced_sorted m Hp) as [Sa Si Su Sl].
  assert (Hvalid : forall b, In b (StdMap.values (InMemoryPersistenceService.m_items m)) ->
                             Book.valid b).
  { intros b Hb. apply In_values in Hb as (k & Hb). eapply (wf_items_valid _ Hwf); eauto. }
  assert (Hall : InMemoryPersistenceService.loadAllLibraryItems m
                 = Ok (StdMap.values (InMemoryPersistenceService.m_items m))).
  { now apply map_outcome_clone. }
  assert (Hitem : forall b,
            In b (StdMap.values (InMemoryPersistenceService.m_items m)) <->
            CatalogService.findItemById m (Book.m_id b) = Ok (Some b)).
  { intros b. rewrite (values_find Book.m_id) by (apply Hwf || apply Hu). split.
    - intros Hf. destruct (memory_item_id _ _ _ Hwf Hf) as (_ & Hne & _).
      rewrite memory_findItemById by assumption. now rewrite Hf.
    - intros Hf. unfold CatalogService.findItemById in Hf.
      destruct (empty (Book.m_id b)); [discriminate|].
      cbn [IPersistenceService.loadLibraryItem InMemoryPersistenceService.backend] in Hf.
      rewrite memory_loadLibraryItem_find in Hf by assumption. now injection Hf. }
  assert (Huser : forall u,
            In u (StdMap.values (InMemoryPersistenceService.m_users m)) <->
            UserService.findUserById m (User.m_user_id u) = Ok (Some u)).
  { intros u. rewrite (values_find User.m_user_id) by (apply Hwf || apply Hu). split.
    - intros Hf. destruct (memory_user_id _ _ _ Hwf Hf) as (_ & Hne).
      rewrite memory_findUserById by assumption. now rewrite Hf.
    - intros Hf. unfold UserService.findUserById in Hf.
      destruct (empty (User.m_user_id u)); [discriminate|].
      now injection Hf. }
  split; [|split; [|split; [|repeat split]]].
  - intros name Hne. apply empty_false in Hne. unfold UserService.findUsersByName.
    rewrite Hne. eexists. split; [reflexivity|]. split.
    + apply Sorted_map_filter. rewrite keyed_ids; [assumption | apply Hwf].
    + intros u. rewrite filter_In, Huser. unfold User.getName. now rewrite String.eqb_eq.
  - intros title Hne. apply empty_false in Hne. unfold CatalogService.findItemsByTitle.
    rewrite Hne.
    cbn [IPersistenceService.loadAllLibraryItems InMemoryPersistenceService.backend].
    rewrite Hall. eexists. split; [reflexivity|]. split.
    + apply Sorted_map_filter. rewrite keyed_ids; [assumption | apply Hwf].
    + intros b. rewrite filter_In, Hitem. unfold Book.getTitle. now rewrite String.eqb_eq.
  - intros author_id Hne. apply empty_false in Hne. unfold CatalogService.findItemsByAuthor.
    rewrite Hne.
    cbn [IPersistenceService.loadAllLibraryItems InMemoryPersistenceService.backend].
    rewrite Hall. eexists. split; [reflexivity|]. split.
    + apply Sorted_map_filter. rewrite keyed_ids; [assumption | apply Hwf].
    + intros b. rewrite filter_In, Hitem. unfold Book.getAuthor, Author.getId.
      split; intros [H1 H2]; (split; [exact H1|]).
      * destruct (Book.m_author b) as [a|]; [|discriminate].
        exists a. split; [reflexivity | now apply String.eqb_eq].
      * destruct H2 as (a & -> & <-). apply String.eqb_refl.
Qed.

Lemma searches_return_the_stored_entities_that_match_witness :
  exists items,
    CatalogService.findItemsByAuthor sample_store "a1" = Ok items /\
    Sorted key_lt (map Book.m_id items) /\
    forall b, In b items <->
      CatalogService.findItemById sample_store (Book.m_id b) = Ok (Some b) /\
      exists a, Book.m_author b = Some a /\ Author.m_id a = "a1".
Proof.
  apply (proj1 (proj2 (proj2
    (searches_return_the_stored_entities_that_match sample_store sample_store_produced)))).
  discriminate.
Defined.

(** ** Decimal numerals read back *)

Lemma small_digit d : 0 <= d < 10 ->
  d = 0 \/ d = 1 \/ d = 2 \/ d = 3 \/ d = 4 \/ d = 5 \/ d = 6 \/ d = 7 \/ d = 8 \/ d = 9.
Proof. lia. Qed.

Lemma digit_char_facts d : 0 <= d < 10 ->
  Text.is_digit (Text.digit_char d) = true /\
  Text.digit_value (Text.digit_char d) = d /\
  Text.is_space (Text.digit_char d) = false /\
  Text.digit_char d <> "-"%char /\ Text.digit_char d <> "+"%char.
Proof.
  intros H. apply small_digit in H.
  repeat destruct H as [-> | H]; try subst d; vm_compute; repeat split; congruence.
Qed.

Lemma read_digits_of : forall fuel n acc a c,
  0 <= n < 10 ^ Z.of_nat fuel ->
  exists k : nat,
    Text.read_digits (Text.digits_of fuel n acc) a c
      = Text.read_digits acc (a * 10 ^ Z.of_nat k + n) (c + k)%nat.
Proof.
  induction fuel as [|fuel IH]; intros n acc a c Hn.
  - exists O. simpl in *. replace n with 0 by lia.
    replace (a * 1 + 0) with a by lia. replace (c + 0)%nat with c by lia. reflexivity.
  - cbn [Text.digits_of].
    assert (Hd : 0 <= n mod 10 < 10) by (apply Z.mod_pos_bound; lia).
    destruct (digit_char_facts _ Hd) as (Hdig & Hval & _).
    destruct (n <? 10) eqn:E.
    + apply Z.ltb_lt in E. exists 1%nat. cbn [Text.read_digits]. rewrite Hdig, Hval.
      rewrite Z.mod_small by lia.
      replace (a * 10 ^ Z.of_nat 1 + n) with (a * 10 + n)
        by (change (Z.of_nat 1) with 1; lia).
      replace (c + 1)%nat with (S c) by lia. reflexivity.
    + apply Z.ltb_ge in E.
      assert (Hq : 0 <= n / 10 < 10 ^ Z.of_nat fuel).
      { split; [apply Z.div_pos; lia|].
        apply Z.div_lt_upper_bound; [lia|].
        rewrite Nat2Z.inj_succ, Z.pow_succ_r in Hn by lia. lia. }
      destruct (IH (n / 10) (String (Text.digit_char (n mod 10)) acc) a c Hq) as (k & Hk).
      exists (S k). rewrite Hk. cbn [Text.read_digits]. rewrite Hdig, Hval.
      replace ((a * 10 ^ Z.of_nat k + n / 10) * 10 + n mod 10)
        with (a * 10 ^ Z.of_nat (S k) + n).
      * replace (S (c + k)) with (c + S k)%nat by lia. reflexivity.
      * rewrite Nat2Z.inj_succ, Z.pow_succ_r by lia.
        pose proof (Z.div_mod n 10 ltac:(lia)). lia.
Qed.

Lemma digits_fuel n : 0 <= n -> n < 10 ^ Z.of_nat (S (Z.to_nat (Z.log2 n))).
Proof.
  intros Hn. rewrite Nat2Z.inj_succ, Z2Nat.id by apply Z.log2_nonneg.
  destruct (Z.eq_dec n 0) as [-> | Hne]; [reflexivity|].
  pose proof (Z.log2_spec n ltac:(lia)) as [_ Hlt].
  eapply Z.lt_le_trans; [exact Hlt|].
  apply Z.pow_le_mono_l. pose proof (Z.log2_nonneg n). lia.
Qed.

Lemma digits_of_head : forall fuel n acc,
  0 <= n ->
  exists d rest, 0 <= d < 10 /\
    Text.digits_of (S fuel) n acc = String (Text.digit_char d) rest.
Proof.
  induction fuel as [|fuel IH]; intros n acc Hn.
  - exists (n mod 10), acc. split; [apply Z.mod_pos_bound; lia|].
    cbn [Text.digits_of]. now destruct (n <? 10).
  - cbn [Text.digits_of]. destruct (n <? 10) eqn:E.
    + exists (n mod 10), acc. split; [apply Z.mod_pos_bound; lia | reflexivity].
    + apply (IH (n / 10)). apply Z.div_pos; lia.
Qed.

Lemma to_string_value n :
  0 <= n -> fst (fst (Text.read_digits (Text.to_string n) 0 O)) = n.
Proof.
  intros Hn. unfold Text.to_string.
  replace (n <? 0) with false by (symmetry; apply Z.ltb_ge; lia).
  destruct (read_digits_of _ n EmptyString 0 O (conj Hn (digits_fuel n Hn))) as (k & ->).
  reflexivity.
Qed.

Lemma to_string_injective a b :
  0 <= a -> 0 <= b -> Text.to_string a = Text.to_string b -> a = b.
Proof.
  intros Ha Hb H. rewrite <- (to_string_value a Ha), <- (to_string_value b Hb).
  now rewrite H.
Qed.

Lemma read_digits_count : forall s a c,
  (c <= snd (fst (Text.read_digits s a c)))%nat.
Proof.
  induction s as [|x s IH]; intros a c; simpl; [lia|].
  destruct (Text.is_digit x); simpl; [|lia].
  specialize (IH (a * 10 + Text.digit_value x) (S c)). lia.
Qed.

(** [std::stoi] reads back what [std::to_string] wrote of an [int]. *)
Lemma stoi_to_string z :
  Text.INT_MIN <= z <= Text.INT_MAX -> Text.stoi (Text.to_string z) = Some z.
Proof.
  intros Hz. unfold Text.stoi, Text.to_string.
  destruct (z <? 0) eqn:E.
  - apply Z.ltb_lt in E.
    cbn [Text.skip_space]. change (Text.is_space "-") with false. cbv iota.
    assert (Hn : 0 <= - z) by lia.
    destruct (read_digits_of _ (- z) EmptyString 0 O (conj Hn (digits_fuel _ Hn))) as (k & Hk).
    destruct (digits_of_head (Z.to_nat (Z.log2 (- z))) (- z) EmptyString Hn)
      as (d & rest & Hd & Hhead).
    rewrite Hk. cbn [Text.read_digits].
    pose proof (read_digits_count (Text.digits_of (S (Z.to_nat (Z.log2 (- z)))) (- z) EmptyString) 0 O)
      as Hc.
    rewrite Hhead in Hc, Hk. cbn [Text.read_digits] in Hc, Hk.
    destruct (digit_char_facts _ Hd) as (Hdig & _). rewrite Hdig in Hc, Hk.
    pose proof (read_digits_count rest (0 * 10 + Text.digit_value (Text.digit_char d)) 1) as Hc'.
    rewrite Hk in Hc'. cbn [fst snd] in Hc'.
    destruct (0 + k)%nat as [|k'] eqn:Ek; [lia|].
    replace (0 * 10 ^ Z.of_nat k + - z) with (- z) by lia.
    rewrite Z.opp_involutive.
    replace ((Text.INT_MIN <=? z) && (z <=? Text.INT_MAX)) with true; [reflexivity|].
    symmetry. apply andb_true_iff. split; apply Z.leb_le; lia.
  - apply Z.ltb_ge in E.
    destruct (digits_of_head (Z.to_nat (Z.log2 z)) z EmptyString E)
      as (d & rest & Hd & Hhead).
    destruct (digit_char_facts _ Hd) as (Hdig & _ & Hsp & Hminus & Hplus).
    destruct (read_digits_of _ z EmptyString 0 O (conj E (digits_fuel _ E))) as (k & Hk).
    pose proof (read_digits_count rest (0 * 10 + Text.digit_value (Text.digit_char d)) 1) as Hc'.
    rewrite Hhead in *. cbn [Text.skip_space]. rewrite Hsp.
    assert (Hsign :
      match String (Text.digit_char d) rest with
      | String "-" r => (true, r)
      | String "+" r => (false, r)
      | _ => (false, String (Text.digit_char d) rest)
      end = (false, String (Text.digit_char d) rest)).
    { destruct (Text.digit_char d) as [[] [] [] [] [] [] [] []]; try reflexivity;
        congruence. }
    rewrite Hsign, Hk. cbn [Text.read_digits] in Hk |- *.
    cbn [Text.read_digits] in Hk. rewrite Hdig in Hk. rewrite Hk in Hc'. cbn [fst snd] in Hc'.
    destruct (0 + k)%nat as [|k'] eqn:Ek; [lia|].
    replace (0 * 10 ^ Z.of_nat k + z) with z by lia.
    replace ((Text.INT_MIN <=? z) && (z <=? Text.INT_MAX)) with true; [reflexivity|].
    symmetry. apply andb_true_iff. split; apply Z.leb_le; lia.
Qed.

(** ** The ids of loan records *)

Section Counter.
Context {S : Type} {P : IPersistenceService.t S}.

Lemma new_record_id rid iid uid loan due r :
  LoanRecord.new rid iid uid loan due = Ok r -> LoanRecord.m_record_id r = rid.
Proof.
  unfold LoanRecord.new. repeat split_match; try discriminate. now intros [= <-].
Qed.

Lemma borrowItem_counter now user_id item_id (sv : LoanService.t S) :
  LoanService.m_next_loan_id_counter sv
    <= LoanService.m_next_loan_id_counter (snd (LoanService.borrowItem now user_id item_id sv)) /\
  forall loan sv',
    LoanService.borrowItem now user_id item_id sv = (Ok loan, sv') ->
    LoanRecord.m_record_id loan
      = "loan_" ++ Text.to_string (LoanService.m_next_loan_id_counter sv + 1) /\
    LoanService.m_next_loan_id_counter sv' = LoanService.m_next_loan_id_counter sv + 1.
Proof.
  unfold LoanService.borrowItem, LoanService.reading, LoanService.writing,
    LoanService.generateLoanRecordId.
  repeat split_match; simpl; (split; [lia|]); intros loan' sv' [= <- <-]; try discriminate.
  split; [|reflexivity].
  match goal with H : LoanRecord.new _ _ _ _ _ = Ok _ |- _ => apply new_record_id in H end.
  assumption.
Qed.

Lemma returnItem_counter now user_id item_id (sv : LoanService.t S) :
  LoanService.m_next_loan_id_counter (snd (LoanService.returnItem now user_id item_id sv))
    = LoanService.m_next_loan_id_counter sv.
Proof.
  unfold LoanService.returnItem, LoanService.reading, LoanService.writing.
  repeat split_match; reflexivity.
Qed.

Lemma process_loans_counter tz today loans : forall (sv : LoanService.t S),
  LoanService.m_next_loan_id_counter (snd (LoanService.process_loans tz today loans sv))
    = LoanService.m_next_loan_id_counter sv.
Proof.
  induction loans as [|loan loans IH]; intros sv; simpl; [reflexivity|].
  destruct (LoanService.process_loan tz today sv loan) as [sv'| |] eqn:E; try reflexivity.
  rewrite IH. unfold LoanService.process_loan in E.
  destruct (LoanService.is_overdue today loan); [|now injection E as <-].
  destruct (UserService.findUserById _ _); try discriminate.
  destruct (CatalogService.findItemById _ _); try discriminate.
  simpl in E. now injection E as <-.
Qed.

Lemma processOverdueItems_counter tz now (sv : LoanService.t S) :
  LoanService.m_next_loan_id_counter (snd (LoanService.processOverdueItems tz now sv))
    = LoanService.m_next_loan_id_counter sv.
Proof.
  unfold LoanService.processOverdueItems, LoanService.reading.
  destruct (IPersistenceService.loadAllLoanRecords _); try reflexivity.
  apply process_loans_counter.
Qed.

Lemma later_counter tz (sv sv' : LoanService.t S) :
  later tz sv sv' ->
  LoanService.m_next_loan_id_counter sv <= LoanService.m_next_loan_id_counter sv'.
Proof.
  induction 1 as [|sv sv' sv'' _ IH Hstep]; [lia|].
  destruct Hstep.
  - pose proof (proj1 (borrowItem_counter now user_id item_id sv0)). lia.
  - rewrite returnItem_counter. exact IH.
  - rewrite processOverdueItems_counter. exact IH.
Qed.
End Counter.

Lemma loan_id_injective a b :
  0 <= a -> 0 <= b -> "loan_" ++ Text.to_string a = "loan_" ++ Text.to_string b -> a = b.
Proof.
  intros Ha Hb H. simpl in H. injection H as H. now apply to_string_injective.
Qed.

(** X11. Two successful borrows through the same loan service, with any number of
    borrows, returns and overdue scans between them, get different loan record
    ids, as long as the counter of the service stays below the largest
    [long long].  This holds over every backend of the storage contract. *)
Theorem loan_ids_of_a_service_never_repeat {S : Type} {P : IPersistenceService.t S}
    (tz : Z) (now1 now2 : Date) (user1 item1 user2 item2 : EntityId)
    (sv1 sv1' sv2 sv2' : LoanService.t S) (loan1 loan2 : LoanRecord.t) :
  0 <= LoanService.m_next_loan_id_counter sv1 ->
  LoanService.borrowItem now1 user1 item1 sv1 = (Ok loan1, sv1') ->
  later tz sv1' sv2 ->
  LoanService.m_next_loan_id_counter sv2 < LLONG_MAX ->
  LoanService.borrowItem now2 user2 item2 sv2 = (Ok loan2, sv2') ->
  LoanRecord.m_record_id loan1 <> LoanRecord.m_record_id loan2.
Proof.
  intros H0 Hb1 Hlater Hmax Hb2 Heq.
  destruct (proj2 (borrowItem_counter now1 user1 item1 sv1) _ _ Hb1) as (Hid1 & Hc1).
  destruct (proj2 (borrowItem_counter now2 user2 item2 sv2) _ _ Hb2) as (Hid2 & Hc2).
  apply later_counter in Hlater.
  rewrite Hid1, Hid2 in Heq. apply loan_id_injective in Heq; lia.
Qed.

(** ** Rejected borrows and returns *)

Lemma loan_ids_of_a_service_never_repeat_witness :
  exists loan1 sv1' loan2 sv2',
    LoanService.borrowItem 1000 "u1" "b2" (LoanService.mk sample_store 14 2 [])
      = (Ok loan1, sv1') /\
    LoanService.borrowItem 3000 "u2" "b2" (snd (LoanService.returnItem 2000 "u1" "b2" sv1'))
      = (Ok loan2, sv2') /\
    LoanRecord.m_record_id loan1 <> LoanRecord.m_record_id loan2.
Proof.
  eexists _, _, _, _.
  split; [vm_compute; reflexivity|].
  split; [vm_compute; reflexivity|].
  eapply (loan_ids_of_a_service_never_repeat 0 1000 3000 "u1" "b2" "u2" "b2"
            (LoanService.mk sample_store 14 2 [])).
  - simpl. lia.
  - vm_compute. reflexivity.
  - exact (later_step 0 _ _ _ (later_now 0 _) (step_returnItem 0 2000 "u1" "b2" _)).
  - vm_compute. reflexivity.
  - vm_compute. reflexivity.
Defined.

(** X12. A borrow that is rejected leaves the service and its store as they were:
    an empty id (InvalidArgument), an unknown user or item (NotFound), and an
    available item that the store still lists as on loan to the same user
    (OperationFailed).  This holds over every backend of the storage
    contract. *)
Theorem borrow_rejections_change_nothing {S : Type} {P : IPersistenceService.t S}
    (now : Date) (user_id item_id : EntityId) (sv : LoanService.t S) :
  let store := LoanService.m_persistence_service sv in
  (user_id = EmptyString \/ item_id = EmptyString ->
   LoanService.borrowItem now user_id item_id sv = (Throw InvalidArgumentException, sv)) /\
  (user_id <> EmptyString -> item_id <> EmptyString ->
   IPersistenceService.loadUser store user_id = Ok None ->
   LoanService.borrowItem now user_id item_id sv = (Throw NotFoundException, sv)) /\
  (user_id <> EmptyString -> item_id <> EmptyString ->
   forall user,
     IPersistenceService.loadUser store user_id = Ok (Some user) ->
     IPersistenceService.loadLibraryItem store item_id = Ok None ->
     LoanService.borrowItem now user_id item_id sv = (Throw NotFoundException, sv)) /\
  (user_id <> EmptyString -> item_id <> EmptyString ->
   forall user item loans loan,
     IPersistenceService.loadUser store user_id = Ok (Some user) ->
     IPersistenceService.loadLibraryItem store item_id = Ok (Some item) ->
     Book.getAvailabilityStatus item = AVAILABLE ->
     IPersistenceService.loadLoanRecordsByUserId store user_id = Ok loans ->
     In loan loans ->
     LoanRecord.getItemId loan = item_id ->
     LoanRecord.getReturnDate loan = None ->
     LoanService.borrowItem now user_id item_id sv = (Throw OperationFailedException, sv)).
Proof.
  intros store. subst store. unfold LoanService.borrowItem.
  split; [|split; [|split]].
  - intros [-> | ->]; [reflexivity|]. cbn [empty]. now rewrite orb_true_r.
  - intros Hu Hi Hload. apply empty_false in Hu, Hi. rewrite Hu, Hi. cbn [orb].
    unfold UserService.findUserById. rewrite Hu, Hload. reflexivity.
  - intros Hu Hi user Hload Hitem. apply empty_false in Hu, Hi. rewrite Hu, Hi. cbn [orb].
    unfold UserService.findUserById, CatalogService.findItemById.
    rewrite Hu, Hi, Hload, Hitem. reflexivity.
  - intros Hu Hi user item loans loan Hload Hitem Hstatus Hloans Hin Hlitem Hopen.
    apply empty_false in Hu, Hi. rewrite Hu, Hi. cbn [orb].
    unfold UserService.findUserById, CatalogService.findItemById,
      LoanService.getActiveLoansForUser.
    rewrite Hu, Hi, Hload, Hitem, Hloans. cbn [LoanService.reading bind].
    rewrite Hstatus. cbn [is_available negb].
    assert (Hex : existsb (fun lr => String.eqb (LoanRecord.getItemId lr) item_id)
                    (filter (fun record =>
                               match LoanRecord.getReturnDate record with
                               | None => true
                               | Some _ => false
                               end) loans) = true).
    { apply existsb_exists. exists loan. split.
      - apply filter_In. split; [exact Hin | now rewrite Hopen].
      - rewrite Hlitem. apply String.eqb_refl. }
    now rewrite Hex.
Qed.

Lemma borrow_rejections_change_nothing_witness :
  let sv := LoanService.mk sample_store 14 2 [] in
  LoanService.borrowItem 1000 "u9" "b2" sv = (Throw NotFoundException, sv) /\
  LoanService.borrowItem 1000 "u1" "b9" sv = (Throw NotFoundException, sv).
Proof.
  intros sv. split.
  - apply (proj1 (proj2 (borrow_rejections_change_nothing 1000 "u9" "b2" sv)));
      [discriminate | discriminate | reflexivity].
  - apply (proj1 (proj2 (proj2 (borrow_rejections_change_nothing 1000 "u1" "b9" sv)))
             ltac:(discriminate) ltac:(discriminate) (User.mk "u1" "Uma"));
      reflexivity.
Defined.

(** X13. A return that is rejected leaves the service and its store as they were:
    an empty id (InvalidArgument), no open loan of the item by the user
    (NotFound), and a clock reading before the loan date of the open loan
    (InvalidArgument).  This holds over every backend of the storage
    contract. *)
Theorem return_rejections_change_nothing {S : Type} {P : IPersistenceService.t S}
    (now : Date) (user_id item_id : EntityId) (sv : LoanService.t S) :
  let store := LoanService.m_persistence_service sv in
  (user_id = EmptyString \/ item_id = EmptyString ->
   LoanService.returnItem now user_id item_id sv = (Throw InvalidArgumentException, sv)) /\
  (user_id <> EmptyString -> item_id <> EmptyString ->
   forall loans,
     IPersistenceService.loadLoanRecordsByItemId store item_id = Ok loans ->
     (forall loan, In loan loans -> LoanRecord.getUserId loan = user_id ->
                   LoanRecord.getReturnDate loan <> None) ->
     LoanService.returnItem now user_id item_id sv = (Throw NotFoundException, sv)) /\
  (user_id <> EmptyString -> item_id <> EmptyString ->
   forall loans loan,
     IPersistenceService.loadLoanRecordsByItemId store item_id = Ok loans ->
     LoanService.find_active_loan user_id loans = Some loan ->
     now < LoanRecord.getLoanDate loan ->
     LoanService.returnItem now user_id item_id sv = (Throw InvalidArgumentException, sv)).
Proof.
  intros store. subst store. unfold LoanService.returnItem.
  split; [|split].
  - intros [-> | ->]; [reflexivity|]. cbn [empty]. now rewrite orb_true_r.
  - intros Hu Hi loans Hload Hnone. apply empty_false in Hu, Hi. rewrite Hu, Hi. cbn [orb].
    rewrite Hload. cbn [LoanService.reading].
    destruct (LoanService.find_active_loan user_id loans) as [loan|] eqn:E; [|reflexivity].
    exfalso. unfold LoanService.find_active_loan in E. apply find_some in E as (Hin & Hp).
    apply andb_true_iff in Hp as (Huser & Hopen). apply String.eqb_eq in Huser.
    apply (Hnone loan Hin Huser). now destruct (LoanRecord.getReturnDate loan).
  - intros Hu Hi loans loan Hload Hfind Hlt. apply empty_false in Hu, Hi.
    rewrite Hu, Hi. cbn [orb]. rewrite Hload. cbn [LoanService.reading]. rewrite Hfind.
    unfold LoanRecord.setReturnDate, LoanRecord.getLoanDate in *.
    replace (now <? LoanRecord.m_loan_date loan) with true
      by (symmetry; now apply Z.ltb_lt).
    reflexivity.
Qed.

Lemma return_rejections_change_nothing_witness :
  let sv := LoanService.mk sample_store 14 2 [] in
  LoanService.returnItem 1000 "u2" "b2" sv = (Throw NotFoundException, sv) /\
  LoanService.returnItem 250 "u1" "b1" sv = (Throw InvalidArgumentException, sv).
Proof.
  intros sv. split.
  - apply (proj1 (proj2 (return_rejections_change_nothing 1000 "u2" "b2" sv))
             ltac:(discriminate) ltac:(discriminate)
             [LoanRecord.mk "loan_1" "b2" "u2" 100 200 (Some 150)]);
      [reflexivity|].
    intros loan [<- | []] _. discriminate.
  - apply (proj2 (proj2 (return_rejections_change_nothing 250 "u1" "b1" sv))
             ltac:(discriminate) ltac:(discriminate)
             [LoanRecord.mk "loan_2" "b1" "u1" 300 400 None]
             (LoanRecord.mk "loan_2" "b1" "u1" 300 400 None));
      [reflexivity | reflexivity | simpl; lia].
Defined.

(** ** Returning an item that has left the catalog *)

(** X14. Over the in-memory backend, returning an item that has been removed from
    the catalog while on loan fails with NotFound, yet the loan record has
    already been stored with its return date: the return is not undone. *)
Theorem return_of_a_removed_item_closes_the_loan_and_fails
    (now days counter : Z) (notes : list (EntityId * string))
    (mem : InMemoryPersistenceService.t) (user_id item_id : EntityId)
    (loan : LoanRecord.t) :
  memory_wf mem ->
  only_active_loan loan mem ->
  LoanRecord.m_user_id loan = user_id ->
  LoanRecord.m_item_id loan = item_id ->
  LoanRecord.m_loan_date loan <= now ->
  StdMap.find item_id (InMemoryPersistenceService.m_items mem) = None ->
  exists sv',
    LoanService.returnItem now user_id item_id (LoanService.mk mem days counter notes)
      = (Throw NotFoundException, sv') /\
    IPersistenceService.loadLoanRecord (LoanService.m_persistence_service sv')
      (LoanRecord.m_record_id loan) = Ok (Some (returned_loan loan now)).
Proof.
  intros Hwf (Hin & Hopen & Honly) Huser Hloan_item Hdate Hitem.
  apply In_values in Hin as Hentry. destruct Hentry as (k & Hentry).
  destruct (wf_loans_valid _ Hwf _ _ Hentry) as ((Hrne & Hine & Hune) & Hdates).
  pose proof (wf_loans_keyed _ Hwf _ _ Hentry) as Hkey. simpl in Hkey.
  rewrite Huser in Hune. rewrite Hloan_item in Hine.
  pose proof Hune as Hue. pose proof Hine as Hie. apply empty_false in Hue, Hie.
  assert (Hfirst :
    LoanService.returnItem now user_id item_id (LoanService.mk mem days counter notes)
    = (Throw NotFoundException,
       LoanService.mk
         (InMemoryPersistenceService.mk
            (InMemoryPersistenceService.m_authors mem)
            (InMemoryPersistenceService.m_items mem)
            (InMemoryPersistenceService.m_users mem)
            (StdMap.set (LoanRecord.m_record_id loan) (returned_loan loan now)
               (InMemoryPersistenceService.m_loan_records mem)))
         days counter notes)).
  { unfold LoanService.returnItem. rewrite Hue, Hie.
    cbn [orb LoanService.m_persistence_service IPersistenceService.loadLoanRecordsByItemId
         InMemoryPersistenceService.backend].
    unfold InMemoryPersistenceService.loadLoanRecordsByItemId.
    cbn [LoanService.reading].
    unfold LoanService.find_active_loan.
    rewrite (find_unique _ _ loan).
    - unfold LoanRecord.setReturnDate.
      replace (now <? LoanRecord.m_loan_date loan) with false
        by (symmetry; apply Z.ltb_ge; lia).
      cbn [LoanService.reading IPersistenceService.updateLoanRecord
           InMemoryPersistenceService.backend LoanService.m_persistence_service].
      rewrite memory_updateLoanRecord.
      cbn [LoanService.writing LoanService.with_store LoanService.m_persistence_service].
      unfold CatalogService.updateItemStatus. rewrite Hie.
      cbn [IPersistenceService.loadLibraryItem InMemoryPersistenceService.backend].
      unfold InMemoryPersistenceService.loadLibraryItem.
      cbn [InMemoryPersistenceService.m_items]. rewrite Hitem.
      reflexivity.
    - apply filter_In. split; [exact Hin|].
      unfold LoanRecord.getItemId. rewrite Hloan_item. apply String.eqb_refl.
    - unfold LoanRecord.getUserId, LoanRecord.getReturnDate.
      rewrite Huser, Hopen, String.eqb_refl. reflexivity.
    - intros r Hr Hp. apply filter_In in Hr as (Hr & Hritem).
      apply andb_true_iff in Hp as (Hruser & Hropen).
      apply String.eqb_eq in Hritem, Hruser.
      unfold LoanRecord.getItemId in Hritem. unfold LoanRecord.getUserId in Hruser.
      unfold LoanRecord.getReturnDate in Hropen.
      apply Honly; auto; try congruence.
      destruct (LoanRecord.m_return_date r); [discriminate | reflexivity]. }
  eexists. split; [exact Hfirst|].
  cbn [LoanService.m_persistence_service IPersistenceService.loadLoanRecord
       InMemoryPersistenceService.backend].
  unfold InMemoryPersistenceService.loadLoanRecord.
  cbn [InMemoryPersistenceService.m_loan_records]. now rewrite find_set_same.
Qed.

Lemma return_of_a_removed_item_closes_the_loan_and_fails_witness :
  let mem :=
    InMemoryPersistenceService.mk [] [] [("u1", User.mk "u1" "Uma")]
      [("loan_2", LoanRecord.mk "loan_2" "b1" "u1" 300 400 None)] in
  exists sv',
    LoanService.returnItem 350 "u1" "b1" (LoanService.mk mem 14 2 [])
      = (Throw NotFoundException, sv') /\
    IPersistenceService.loadLoanRecord (LoanService.m_persistence_service sv') "loan_2"
      = Ok (Some (LoanRecord.mk "loan_2" "b1" "u1" 300 400 (Some 350))).
Proof.
  intros mem.
  apply (return_of_a_removed_item_closes_the_loan_and_fails 350 14 2 [] mem "u1" "b1"
           (LoanRecord.mk "loan_2" "b1" "u1" 300 400 None)).
  - constructor; simpl; intros k v H; try contradiction;
      destruct H as [[= <- <-] | []]; simpl;
      repeat split; try discriminate; try lia.
  - split; [simpl; auto|]. split; [reflexivity|].
    intros r [<- | []] _ _ _. reflexivity.
  - reflexivity.
  - reflexivity.
  - simpl. lia.
  - reflexivity.
Defined.

(** ** A borrowed item, a second service, the console *)

(** X15. Over the in-memory backend, for a positive loan duration and a clock
    reading from 1970 on whose due date still fits the 64 bits of a time
    point: the borrow of an available item by a stored user who holds no open
    loan of it succeeds, the new loan is among the active loans of the user
    and in the loan history of the item, and every further borrow of the item,
    by any user at any time, is rejected and changes nothing. *)
Theorem borrowed_item_is_listed_and_cannot_be_borrowed_again
    (now days counter : Z) (notes : list (EntityId * string))
    (mem : InMemoryPersistenceService.t) (user_id item_id : EntityId)
    (user : User.t) (item : Book.t) :
  memory_wf mem ->
  due_date_fits now days ->
  StdMap.find user_id (InMemoryPersistenceService.m_users mem) = Some user ->
  StdMap.find item_id (InMemoryPersistenceService.m_items mem) = Some item ->
  Book.m_availability_status item = AVAILABLE ->
  no_active_loan user_id item_id mem ->
  exists loan sv1,
    LoanService.borrowItem now user_id item_id (LoanService.mk mem days counter notes)
      = (Ok loan, sv1) /\
    (exists active,
       LoanService.getActiveLoansForUser (LoanService.m_persistence_service sv1) user_id
         = Ok active /\ In loan active) /\
    (exists history,
       LoanService.getLoanHistoryForItem (LoanService.m_persistence_service sv1) item_id
         = Ok history /\ In loan history) /\
    forall now2 user2,
      exists e, LoanService.borrowItem now2 user2 item_id sv1 = (Throw e, sv1).
Proof.
  intros Hwf Hdays Huser Hitem Hstatus Hno.
  pose proof (due_date_fits_days _ _ Hdays) as Hfits. clear Hdays.
  rename Hfits into Hdays.
  destruct (memory_user_id _ _ _ Hwf Huser) as (_ & Hune).
  destruct (memory_item_id _ _ _ Hwf Hitem) as (Hid & Hine & Hvalid).
  destruct (borrowed_loan_ok now days counter user_id item_id Hdays Hune Hine)
    as (_ & Hids & Hdates).
  pose proof Hune as Hue. pose proof Hine as Hie. apply empty_false in Hue, Hie.
  set (loan := borrowed_loan now days counter user_id item_id) in *.
  assert (Hwf1 : memory_wf (borrowed_state mem item loan))
    by (apply borrowed_state_wf; auto).
  assert (Hin : In loan (StdMap.values
                           (InMemoryPersistenceService.m_loan_records
                              (borrowed_state mem item loan)))).
  { apply (find_In _ (LoanRecord.m_record_id loan)). simpl. apply find_set_same. }
  exists loan, (LoanService.mk (borrowed_state mem item loan) days (counter + 1) notes).
  split; [now apply memory_borrowItem with (user := user)|].
  cbn [LoanService.m_persistence_service].
  split; [|split].
  - unfold LoanService.getActiveLoansForUser. rewrite Hue.
    cbn [IPersistenceService.loadLoanRecordsByUserId InMemoryPersistenceService.backend
         InMemoryPersistenceService.loadLoanRecordsByUserId bind].
    eexists. split; [reflexivity|].
    apply filter_In. split; [|reflexivity].
    apply filter_In. split; [exact Hin|]. apply String.eqb_refl.
  - unfold LoanService.getLoanHistoryForItem. rewrite Hie.
    cbn [IPersistenceService.loadLoanRecordsByItemId InMemoryPersistenceService.backend
         InMemoryPersistenceService.loadLoanRecordsByItemId].
    eexists. split; [reflexivity|].
    apply filter_In. split; [exact Hin|]. apply String.eqb_refl.
  - intros now2 user2.
    assert (Hitem1 : InMemoryPersistenceService.loadLibraryItem
                       (borrowed_state mem item loan) item_id
                     = Ok (Some (Book.setAvailabilityStatus item BORROWED))).
    { apply memory_loadLibraryItem; [exact Hwf1|]. simpl. apply find_set_same. }
    unfold LoanService.borrowItem.
    destruct (empty user2) eqn:Eu; [now exists InvalidArgumentException|].
    rewrite Hie. cbn [orb LoanService.m_persistence_service].
    unfold UserService.findUserById, CatalogService.findItemById. rewrite Eu, Hie.
    cbn [IPersistenceService.loadUser IPersistenceService.loadLibraryItem
         InMemoryPersistenceService.backend].
    unfold InMemoryPersistenceService.loadUser.
    destruct (StdMap.find user2 _); cbn [LoanService.reading];
      [|now exists NotFoundException].
    rewrite Hitem1. cbn [LoanService.reading].
    now exists OperationFailedException.
Qed.

Lemma borrowed_item_is_listed_and_cannot_be_borrowed_again_witness :
  exists loan sv1,
    LoanService.borrowItem 1000 "u1" "b2" (LoanService.mk sample_store 14 2 [])
      = (Ok loan, sv1) /\
    (exists active,
       LoanService.getActiveLoansForUser (LoanService.m_persistence_service sv1) "u1"
         = Ok active /\ In loan active) /\
    (exists history,
       LoanService.getLoanHistoryForItem (LoanService.m_persistence_service sv1) "b2"
         = Ok history /\ In loan history) /\
    forall now2 user2,
      exists e, LoanService.borrowItem now2 user2 "b2" sv1 = (Throw e, sv1).
Proof.
  apply (borrowed_item_is_listed_and_cannot_be_borrowed_again 1000 14 2 [] sample_store
           "u1" "b2" (User.mk "u1" "Uma")
           (Book.mk "b2" "Second" (Some (Author.mk "a1" "Ann")) "isbn-2" 2002 AVAILABLE)).
  - apply produced_well_formed, sample_store_produced.
  - unfold due_date_fits, clock_reading, LLONG_MAX, DateTimeUtils.ticks_per_second.
    lia.
  - reflexivity.
  - reflexivity.
  - reflexivity.
  - intros r Hin Hu Hi. simpl in Hin.
    destruct Hin as [<- | [<- | []]]; simpl in *; discriminate.
Defined.

(** X16. Over the in-memory backend, a newly constructed loan service starts its
    counter at zero although the store already holds a record loan_1: its
    first borrow (positive duration, clock reading from 1970 on, due date
    within the 64 bits of a time point) is filed as loan_1 again and replaces
    the stored record, so the number of loan records does not grow. *)
Theorem fresh_service_reissues_the_first_loan_id
    (now days : Z) (mem : InMemoryPersistenceService.t) (user_id item_id : EntityId)
    (user : User.t) (item : Book.t) (old : LoanRecord.t) :
  memory_wf mem ->
  due_date_fits now days ->
  StdMap.find user_id (InMemoryPersistenceService.m_users mem) = Some user ->
  StdMap.find item_id (InMemoryPersistenceService.m_items mem) = Some item ->
  Book.m_availability_status item = AVAILABLE ->
  no_active_loan user_id item_id mem ->
  StdMap.find "loan_1" (InMemoryPersistenceService.m_loan_records mem) = Some old ->
  exists sv0 loan sv1,
    LoanService.new mem days = Ok sv0 /\
    LoanService.borrowItem now user_id item_id sv0 = (Ok loan, sv1) /\
    LoanRecord.m_record_id loan = "loan_1" /\
    loan <> old /\
    IPersistenceService.loadLoanRecord (LoanService.m_persistence_service sv1) "loan_1"
      = Ok (Some loan) /\
    List.length (InMemoryPersistenceService.m_loan_records
                   (LoanService.m_persistence_service sv1))
      = List.length (InMemoryPersistenceService.m_loan_records mem).
Proof.
  intros Hwf Hdays Huser Hitem Hstatus Hno Hold.
  pose proof (due_date_fits_days _ _ Hdays) as Hfits. clear Hdays.
  rename Hfits into Hdays.
  exists (LoanService.mk mem days 0 []), (borrowed_loan now days 0 user_id item_id),
    (LoanService.mk (borrowed_state mem item (borrowed_loan now days 0 user_id item_id))
       days (0 + 1) []).
  split.
  { unfold LoanService.new. replace (days <=? 0) with false; [reflexivity|].
    symmetry. apply Z.leb_gt. lia. }
  split; [now apply memory_borrowItem with (user := user)|].
  split; [reflexivity|]. split; [|split].
  - intros Heq. rewrite <- Heq in Hold.
    apply (Hno (borrowed_loan now days 0 user_id item_id)); try reflexivity.
    eapply find_In; eassumption.
  - cbn [LoanService.m_persistence_service IPersistenceService.loadLoanRecord
         InMemoryPersistenceService.backend].
    unfold InMemoryPersistenceService.loadLoanRecord. simpl.
    change (String "l" (String "o" (String "a" (String "n" (String "_" (Text.to_string (0 + 1)))))))
      with "loan_1".
    now rewrite find_set_same.
  - cbn [LoanService.m_persistence_service borrowed_state
         InMemoryPersistenceService.m_loan_records].
    change (LoanRecord.m_record_id (borrowed_loan now days 0 user_id item_id)) with "loan_1".
    unfold StdMap.set. rewrite Hold. apply length_assign.
Qed.

Lemma fresh_service_reissues_the_first_loan_id_witness :
  exists sv0 loan sv1,
    LoanService.new sample_store 14 = Ok sv0 /\
    LoanService.borrowItem 1000 "u1" "b2" sv0 = (Ok loan, sv1) /\
    LoanRecord.m_record_id loan = "loan_1" /\
    loan <> LoanRecord.mk "loan_1" "b2" "u2" 100 200 (Some 150) /\
    IPersistenceService.loadLoanRecord (LoanService.m_persistence_service sv1) "loan_1"
      = Ok (Some loan) /\
    List.length (InMemoryPersistenceService.m_loan_records
                   (LoanService.m_persistence_service sv1))
      = List.length (InMemoryPersistenceService.m_loan_records sample_store).
Proof.
  apply (fresh_service_reissues_the_first_loan_id 1000 14 sample_store "u1" "b2"
           (User.mk "u1" "Uma")
           (Book.mk "b2" "Second" (Some (Author.mk "a1" "Ann")) "isbn-2" 2002 AVAILABLE)).
  - apply produced_well_formed, sample_store_produced.
  - unfold due_date_fits, clock_reading, LLONG_MAX, DateTimeUtils.ticks_per_second.
    lia.
  - reflexivity.
  - reflexivity.
  - reflexivity.
  - intros r Hin Hu Hi. simpl in Hin.
    destruct Hin as [<- | [<- | []]]; simpl in *; discriminate.
  - reflexivity.
Defined.

(** ** The console notifier *)

Lemma deliver_app (notes : list (EntityId * string)) : forall out,
  (forall n : EntityId * string,
     In n notes -> fst n <> EmptyString /\ snd n <> EmptyString) ->
  ConsoleNotificationService.deliver notes out
  = ConsoleNotificationService.mk
      (List.app (ConsoleNotificationService.cout out) (map printed_line notes))
      (ConsoleNotificationService.cerr out).
Proof.
  induction notes as [|n notes IH]; intros out Hall.
  - simpl. rewrite app_nil_r. now destruct out.
  - unfold ConsoleNotificationService.deliver in *. cbn [fold_left].
    rewrite IH by (intros n' Hn'; apply Hall; now right).
    destruct (Hall n (or_introl eq_refl)) as [Hu Hm]. apply empty_false in Hu, Hm.
    unfold ConsoleNotificationService.sendNotification. rewrite Hu, Hm.
    cbn [ConsoleNotificationService.cout ConsoleNotificationService.cerr map].
    now rewrite <- app_assoc.
Qed.

(** X17. Over the in-memory backend, when the notifications of an overdue scan
    over a well-formed store are handed to the console service, each overdue
    loan gives one line on the standard output, in the order of the scan, and
    nothing is written to the error output. *)
Theorem overdue_notifications_are_all_printed
    (tz now days counter : Z) (mem : InMemoryPersistenceService.t)
    (out : ConsoleNotificationService.console) :
  memory_wf mem ->
  exists sv',
    LoanService.processOverdueItems tz now (LoanService.mk mem days counter [])
      = (Ok tt, sv') /\
    let overdue :=
      filter (LoanService.is_overdue (DateTimeUtils.today tz now))
        (StdMap.values (InMemoryPersistenceService.m_loan_records mem)) in
    let out' := ConsoleNotificationService.deliver (LoanService.m_notifications sv') out in
    ConsoleNotificationService.cerr out' = ConsoleNotificationService.cerr out /\
    ConsoleNotificationService.cout out'
      = List.app (ConsoleNotificationService.cout out)
          (map (fun loan => printed_line (overdue_notification tz mem loan)) overdue).
Proof.
  intros Hwf. eexists. split.
  - unfold LoanService.processOverdueItems.
    cbn [LoanService.m_persistence_service IPersistenceService.loadAllLoanRecords
         InMemoryPersistenceService.backend InMemoryPersistenceService.loadAllLoanRecords
         LoanService.reading].
    apply memory_process_loans; [exact Hwf | now apply memory_loans_ids_ok].
  - cbv zeta. cbn [LoanService.m_notifications app].
    rewrite deliver_app.
    + cbn [ConsoleNotificationService.cout ConsoleNotificationService.cerr].
      split; [reflexivity|]. now rewrite map_map.
    + intros n Hn. apply in_map_iff in Hn as (loan & <- & Hloan).
      apply filter_In in Hloan as (Hloan & _).
      pose proof (memory_loans_ids_ok mem Hwf) as Hids. rewrite Forall_forall in Hids.
      destruct (Hids loan Hloan) as (_ & _ & Hu).
      split; [exact Hu | discriminate].
Qed.

Lemma overdue_notifications_are_all_printed_witness :
  exists sv',
    LoanService.processOverdueItems 0 (local_time 0 2024 1 5 12 0 0)
      (LoanService.mk (overdue_scenario 0) 14 2 []) = (Ok tt, sv') /\
    let overdue :=
      filter (LoanService.is_overdue
                (DateTimeUtils.today 0 (local_time 0 2024 1 5 12 0 0)))
        (StdMap.values (InMemoryPersistenceService.m_loan_records (overdue_scenario 0))) in
    let out' :=
      ConsoleNotificationService.deliver (LoanService.m_notifications sv')
        (ConsoleNotificationService.mk [] []) in
    ConsoleNotificationService.cerr out' = [] /\
    ConsoleNotificationService.cout out'
      = List.app []
          (map (fun loan => printed_line (overdue_notification 0 (overdue_scenario 0) loan))
             overdue).
Proof.
  apply (overdue_notifications_are_all_printed 0 (local_time 0 2024 1 5 12 0 0) 14 2
           (overdue_scenario 0) (ConsoleNotificationService.mk [] [])).
  constructor; simpl; intros k v H;
    repeat (destruct H as [[= <- <-] | H]); try contradiction; simpl;
    repeat split; try discriminate; try (vm_compute; congruence).
Defined.

(** ** The calendar *)

Lemma civil_from_days_spec z :
  exists y m d,
    DateTimeUtils.civil_from_days z = (y, m, d) /\
    1 <= m <= 12 /\ 1 <= d <= 31 /\
    DateTimeUtils.days_from_civil y m d = z.
Proof.
  unfold DateTimeUtils.civil_from_days. cbv zeta.
  set (z' := z + 719468).
  set (era := z' / 146097).
  set (doe := z' - era * 146097).
  set (yoe := (doe - doe / 1460 + doe / 36524 - doe / 146096) / 365).
  set (doy := doe - (365 * yoe + yoe / 4 - yoe / 100)).
  set (mp := (5 * doy + 2) / 153).
  assert (Hdoe : 0 <= doe < 146097) by (subst doe era; Z.div_mod_to_equations; lia).
  assert (Hyoe : 0 <= yoe <= 399) by (subst yoe; Z.div_mod_to_equations; lia).
  assert (Hdoy : 0 <= doy <= 365) by (subst doy yoe; Z.div_mod_to_equations; lia).
  assert (Hmp : 0 <= mp <= 11) by (subst mp; Z.div_mod_to_equations; lia).
  assert (Hd : 1 <= doy - (153 * mp + 2) / 5 + 1 <= 31)
    by (subst mp; Z.div_mod_to_equations; lia).
  eexists _, _, _. split; [reflexivity|].
  split; [destruct (mp <? 10) eqn:E; [apply Z.ltb_lt in E | apply Z.ltb_ge in E]; lia|].
  split; [exact Hd|].
  unfold DateTimeUtils.days_from_civil. cbv zeta.
  destruct (mp <? 10) eqn:E; [apply Z.ltb_lt in E | apply Z.ltb_ge in E].
  - replace (mp + 3 <=? 2) with false by (symmetry; apply Z.leb_gt; lia).
    replace (2 <? mp + 3) with true by (symmetry; apply Z.ltb_lt; lia).
    replace (mp + 3 - 3) with mp by lia.
    replace ((yoe + era * 400) / 400) with era by (Z.div_mod_to_equations; lia).
    replace (yoe + era * 400 - era * 400) with yoe by lia.
    subst doy doe z'. lia.
  - replace (mp - 9 <=? 2) with true by (symmetry; apply Z.leb_le; lia).
    replace (2 <? mp - 9) with false by (symmetry; apply Z.ltb_ge; lia).
    replace (mp - 9 + 9) with mp by lia.
    replace (yoe + era * 400 + 1 - 1) with (yoe + era * 400) by lia.
    replace ((yoe + era * 400) / 400) with era by (Z.div_mod_to_equations; lia).
    replace (yoe + era * 400 - era * 400) with yoe by lia.
    subst doy doe z'. lia.
Qed.

(** ** The start of the local day *)

Lemma days_from_civil_day y m d :
  DateTimeUtils.days_from_civil y m d = DateTimeUtils.days_from_civil y m 1 + (d - 1).
Proof. unfold DateTimeUtils.days_from_civil. cbv zeta. lia. Qed.

Lemma localtime_fields tz t :
  exists y m d,
    DateTimeUtils.civil_from_days ((t + tz) / 86400) = (y, m, d) /\
    1 <= m <= 12 /\ 1 <= d <= 31 /\
    DateTimeUtils.days_from_civil y m d = (t + tz) / 86400 /\
    DateTimeUtils.localtime tz t
      = DateTimeUtils.mk_tm (y - 1900) (m - 1) d
          ((t + tz) mod 86400 / 3600) ((t + tz) mod 86400 / 60 mod 60)
          ((t + tz) mod 86400 mod 60).
Proof.
  destruct (civil_from_days_spec ((t + tz) / 86400)) as (y & m & d & Hc & Hm & Hd & Hr).
  exists y, m, d. repeat split; try assumption; try lia.
  unfold DateTimeUtils.localtime. cbv zeta. now rewrite Hc.
Qed.

Lemma mktime_date tz y m d h mi s :
  1 <= m <= 12 ->
  DateTimeUtils.mktime tz (DateTimeUtils.mk_tm (y - 1900) (m - 1) d h mi s)
    = DateTimeUtils.days_from_civil y m d * 86400 + h * 3600 + mi * 60 + s - tz.
Proof.
  intros Hm. unfold DateTimeUtils.mktime. cbv zeta.
  cbn [DateTimeUtils.tm_year DateTimeUtils.tm_mon DateTimeUtils.tm_mday
       DateTimeUtils.tm_hour DateTimeUtils.tm_min DateTimeUtils.tm_sec].
  replace (((y - 1900 + 1900) * 12 + (m - 1)) / 12) with y
    by (Z.div_mod_to_equations; lia).
  replace (((y - 1900 + 1900) * 12 + (m - 1)) mod 12 + 1) with m
    by (Z.div_mod_to_equations; lia).
  rewrite (days_from_civil_day y m d). lia.
Qed.

Lemma today_local_midnight tz now :
  DateTimeUtils.today tz now
    = DateTimeUtils.from_time_t (local_midnight tz (DateTimeUtils.to_time_t now)).
Proof.
  unfold DateTimeUtils.today. cbv zeta.
  destruct (localtime_fields tz (DateTimeUtils.to_time_t now))
    as (y & m & d & _ & Hm & _ & Hr & ->).
  cbn [DateTimeUtils.tm_year DateTimeUtils.tm_mon DateTimeUtils.tm_mday].
  rewrite mktime_date by assumption. rewrite Hr. unfold local_midnight. f_equal. lia.
Qed.

Lemma wrap_int64_small z :
  - 9223372036854775808 <= z <= LLONG_MAX -> DateTimeUtils.wrap_int64 z = z.
Proof.
  unfold LLONG_MAX. intros H. unfold DateTimeUtils.wrap_int64.
  rewrite Z.mod_small; lia.
Qed.

Lemma to_time_t_from_time_t t :
  - 9223372036854775808 <= t * DateTimeUtils.ticks_per_second <= LLONG_MAX ->
  DateTimeUtils.to_time_t (DateTimeUtils.from_time_t t) = t.
Proof.
  intros H. unfold DateTimeUtils.to_time_t, DateTimeUtils.from_time_t.
  rewrite wrap_int64_small by exact H.
  apply Z.quot_mul. discriminate.
Qed.

(** The start of the local day of a clock reading from 1970 on is a time
    point: no wrap-around arises. *)
Lemma local_midnight_fits tz now :
  clock_reading now ->
  - 9223372036854775808
    <= local_midnight tz (DateTimeUtils.to_time_t now) * DateTimeUtils.ticks_per_second
    <= now.
Proof.
  unfold clock_reading, LLONG_MAX. intros H.
  unfold local_midnight, DateTimeUtils.to_time_t, DateTimeUtils.ticks_per_second.
  rewrite Z.quot_div_nonneg by lia.
  Z.div_mod_to_equations. lia.
Qed.

Lemma today_clock_reading tz now :
  clock_reading now ->
  DateTimeUtils.today tz now
    = local_midnight tz (DateTimeUtils.to_time_t now) * DateTimeUtils.ticks_per_second.
Proof.
  intros H. rewrite today_local_midnight. unfold DateTimeUtils.from_time_t.
  apply wrap_int64_small. pose proof (local_midnight_fits tz now H) as Hf.
  unfold clock_reading in H. lia.
Qed.

Lemma local_midnight_idempotent tz t :
  local_midnight tz (local_midnight tz t) = local_midnight tz t.
Proof. unfold local_midnight. Z.div_mod_to_equations. lia. Qed.

Lemma to_time_t_monotone a b :
  a <= b -> DateTimeUtils.to_time_t a <= DateTimeUtils.to_time_t b.
Proof.
  intros H. unfold DateTimeUtils.to_time_t, DateTimeUtils.ticks_per_second.
  Z.quot_rem_to_equations. lia.
Qed.

Lemma local_midnight_monotone tz a b :
  a <= b -> local_midnight tz a <= local_midnight tz b.
Proof. intros H. unfold local_midnight. Z.div_mod_to_equations. lia. Qed.

Lemma today_monotone tz a b :
  clock_reading a -> clock_reading b ->
  a <= b -> DateTimeUtils.today tz a <= DateTimeUtils.today tz b.
Proof.
  intros Ha Hb H. rewrite !today_clock_reading by assumption.
  pose proof (local_midnight_monotone tz _ _ (to_time_t_monotone _ _ H)).
  unfold DateTimeUtils.ticks_per_second. lia.
Qed.

(** The test of the overdue scan, at a clock reading from 1970 on: the loan
    is open and was due before the second that starts the local day, whatever
    the time of day of the scan. *)
Lemma scan_selects_loans_due_before_local_midnight tz now loan :
  clock_reading now ->
  LoanService.is_overdue (DateTimeUtils.today tz now) loan = true
  <-> LoanRecord.m_return_date loan = None /\
      LoanRecord.m_due_date loan
        < local_midnight tz (DateTimeUtils.to_time_t now) * DateTimeUtils.ticks_per_second.
Proof.
  intros Hnow. rewrite today_clock_reading by assumption.
  unfold LoanService.is_overdue, LoanRecord.getReturnDate, LoanRecord.getDueDate.
  destruct (LoanRecord.m_return_date loan) as [d|].
  - split; [discriminate | intros [H _]; discriminate].
  - rewrite Z.ltb_lt. tauto.
Qed.

(** A loan due in the morning of the day of the scan is not overdue yet. *)
Lemma loan_due_today_is_not_overdue :
  LoanService.is_overdue
    (DateTimeUtils.today 0 (local_time 0 2024 1 5 9 15 0))
    (LoanRecord.mk "loan_3" "b1" "u1" (local_time 0 2023 12 22 8 0 0)
       (local_time 0 2024 1 5 8 0 0) None) = false /\
  LoanService.is_overdue
    (DateTimeUtils.today 0 (local_time 0 2024 1 5 9 15 0))
    (LoanRecord.mk "loan_4" "b1" "u1" (local_time 0 2023 12 21 23 59 59)
       (local_time 0 2024 1 4 23 59 59) None) = true.
Proof. split; vm_compute; reflexivity. Qed.

(** X18. In a time zone of fixed offset, and for a clock reading from 1970
    on, [today] is the start of the local day of the reading: it has the same
    local date with the time 00:00:00, applying it twice changes nothing, it is
    monotone in the clock, and the reading is not before it and less than one
    day after it. *)
Theorem today_is_the_local_midnight_of_the_day (tz now : Z) :
  clock_reading now ->
  let v := DateTimeUtils.localtime tz (DateTimeUtils.to_time_t now) in
  DateTimeUtils.localtime tz (DateTimeUtils.to_time_t (DateTimeUtils.today tz now))
    = DateTimeUtils.mk_tm (DateTimeUtils.tm_year v) (DateTimeUtils.tm_mon v)
        (DateTimeUtils.tm_mday v) 0 0 0 /\
  DateTimeUtils.today tz (DateTimeUtils.today tz now) = DateTimeUtils.today tz now /\
  (forall later, clock_reading later -> now <= later ->
     DateTimeUtils.today tz now <= DateTimeUtils.today tz later) /\
  DateTimeUtils.today tz now <= now
    < DateTimeUtils.today tz now + 86400 * DateTimeUtils.ticks_per_second.
Proof.
  intros Hnow. cbv zeta.
  pose proof (local_midnight_fits tz now Hnow) as Hfit.
  assert (Hback : DateTimeUtils.to_time_t (DateTimeUtils.today tz now)
                  = local_midnight tz (DateTimeUtils.to_time_t now)).
  { rewrite today_local_midnight. apply to_time_t_from_time_t.
    unfold clock_reading in Hnow. lia. }
  split; [|split; [|split]].
  - rewrite Hback.
    unfold DateTimeUtils.localtime, local_midnight. cbv zeta.
    set (t := DateTimeUtils.to_time_t now).
    replace (((t + tz) / 86400 * 86400 - tz + tz) / 86400) with ((t + tz) / 86400)
      by (Z.div_mod_to_equations; lia).
    replace (((t + tz) / 86400 * 86400 - tz + tz) mod 86400) with 0
      by (Z.div_mod_to_equations; lia).
    destruct (DateTimeUtils.civil_from_days ((t + tz) / 86400)) as [[y m] d].
    reflexivity.
  - rewrite (today_local_midnight tz (DateTimeUtils.today tz now)), Hback.
    rewrite local_midnight_idempotent. symmetry. apply today_local_midnight.
  - intros later Hlater. now apply today_monotone.
  - rewrite today_clock_reading by assumption.
    unfold clock_reading, LLONG_MAX in Hnow.
    unfold local_midnight, DateTimeUtils.to_time_t, DateTimeUtils.ticks_per_second.
    rewrite Z.quot_div_nonneg by lia.
    Z.div_mod_to_equations. lia.
Qed.

Lemma today_is_the_local_midnight_of_the_day_witness :
  let now := local_time 3600 2024 1 5 10 30 7 in
  DateTimeUtils.localtime 3600 (DateTimeUtils.to_time_t (DateTimeUtils.today 3600 now))
    = DateTimeUtils.mk_tm 124 0 5 0 0 0 /\
  DateTimeUtils.today 3600 now = local_time 3600 2024 1 5 0 0 0.
Proof.
  intros now.
  destruct (today_is_the_local_midnight_of_the_day 3600 now) as (H1 & _).
  - unfold clock_reading. vm_compute. split; discriminate.
  - split; [exact H1 | vm_compute; reflexivity].
Defined.

(** ** Reading the digits of a formatted date *)

Lemma digits_of_small fuel n acc :
  0 <= n < 10 ->
  Text.digits_of (S fuel) n acc = String (Text.digit_char n) acc.
Proof.
  intros H. cbn [Text.digits_of].
  replace (n <? 10) with true by (symmetry; apply Z.ltb_lt; lia).
  now rewrite Z.mod_small by lia.
Qed.

Lemma digits_of_step fuel n acc :
  10 <= n ->
  Text.digits_of (S fuel) n acc
    = Text.digits_of fuel (n / 10) (String (Text.digit_char (n mod 10)) acc).
Proof.
  intros H. cbn [Text.digits_of].
  now replace (n <? 10) with false by (symmetry; apply Z.ltb_ge; lia).
Qed.

Lemma to_string_one_digit n :
  0 <= n < 10 -> Text.to_string n = String (Text.digit_char n) EmptyString.
Proof.
  intros H. unfold Text.to_string.
  replace (n <? 0) with false by (symmetry; apply Z.ltb_ge; lia).
  now apply digits_of_small.
Qed.

Lemma to_string_two_digits n :
  10 <= n <= 99 ->
  Text.to_string n
    = String (Text.digit_char (n / 10)) (String (Text.digit_char (n mod 10)) EmptyString).
Proof.
  intros H. unfold Text.to_string.
  replace (n <? 0) with false by (symmetry; apply Z.ltb_ge; lia).
  assert (Hlog : 3 <= Z.log2 n) by (change 3 with (Z.log2 8); apply Z.log2_le_mono; lia).
  replace (Z.to_nat (Z.log2 n)) with (S (Z.to_nat (Z.log2 n - 1))) by lia.
  rewrite digits_of_step by lia. apply digits_of_small.
  Z.div_mod_to_equations. lia.
Qed.

Lemma to_string_four_digits n :
  1000 <= n <= 9999 ->
  Text.to_string n
    = String (Text.digit_char (n / 1000))
        (String (Text.digit_char (n / 100 mod 10))
           (String (Text.digit_char (n / 10 mod 10))
              (String (Text.digit_char (n mod 10)) EmptyString))).
Proof.
  intros H. unfold Text.to_string.
  replace (n <? 0) with false by (symmetry; apply Z.ltb_ge; lia).
  assert (Hlog : 9 <= Z.log2 n) by (change 9 with (Z.log2 512); apply Z.log2_le_mono; lia).
  replace (Z.to_nat (Z.log2 n)) with (S (S (S (Z.to_nat (Z.log2 n - 3))))) by lia.
  rewrite digits_of_step by lia.
  rewrite digits_of_step by (Z.div_mod_to_equations; lia).
  rewrite digits_of_step by (Z.div_mod_to_equations; lia).
  rewrite digits_of_small by (Z.div_mod_to_equations; lia).
  replace (n / 10 / 10 / 10) with (n / 1000) by (Z.div_mod_to_equations; lia).
  replace (n / 10 / 10 mod 10) with (n / 100 mod 10) by (Z.div_mod_to_equations; lia).
  reflexivity.
Qed.

Lemma pad2_two_digits n :
  0 <= n <= 99 ->
  DateTimeUtils.pad2 n
    = String (Text.digit_char (n / 10)) (String (Text.digit_char (n mod 10)) EmptyString).
Proof.
  intros H. unfold DateTimeUtils.pad2.
  destruct (n <? 10) eqn:E; [apply Z.ltb_lt in E | apply Z.ltb_ge in E].
  - replace (0 <=? n) with true by (symmetry; apply Z.leb_le; lia). cbn [andb].
    rewrite to_string_one_digit by lia.
    rewrite Z.div_small, Z.mod_small by lia. reflexivity.
  - rewrite andb_false_r. apply to_string_two_digits. lia.
Qed.

Lemma substring_all s : substring 0 (String.length s) s = s.
Proof. induction s as [|c s IH]; simpl; [reflexivity | now rewrite IH]. Qed.

Lemma substring_0_0 s : substring 0 0 s = EmptyString.
Proof. now destruct s. Qed.

Lemma get_num_two lo hi a b rest :
  0 <= a < 10 -> 0 <= b < 10 -> lo <= a * 10 + b <= hi ->
  DateTimeUtils.get_num 2 lo hi (String (Text.digit_char a) (String (Text.digit_char b) rest))
    = Some (a * 10 + b, rest).
Proof.
  intros Ha Hb Hr. unfold DateTimeUtils.get_num.
  set (s := String (Text.digit_char a) (String (Text.digit_char b) rest)).
  replace (substring 0 2 s)
    with (String (Text.digit_char a) (String (Text.digit_char b) EmptyString))
    by (subst s; simpl; now rewrite substring_0_0).
  cbn [Text.read_digits].
  destruct (digit_char_facts _ Ha) as (Hda & Hva & _).
  destruct (digit_char_facts _ Hb) as (Hdb & Hvb & _).
  rewrite Hda, Hva, Hdb, Hvb.
  replace ((0 * 10 + a) * 10 + b) with (a * 10 + b) by lia.
  replace ((lo <=? a * 10 + b) && (a * 10 + b <=? hi)) with true
    by (symmetry; apply andb_true_iff; split; apply Z.leb_le; lia).
  replace (substring 2 (String.length s - 2) s) with (substring 0 (String.length rest) rest)
    by (subst s; simpl; now rewrite Nat.sub_0_r).
  now rewrite substring_all.
Qed.

Lemma get_num_four lo hi a b c d rest :
  0 <= a < 10 -> 0 <= b < 10 -> 0 <= c < 10 -> 0 <= d < 10 ->
  lo <= a * 1000 + b * 100 + c * 10 + d <= hi ->
  DateTimeUtils.get_num 4 lo hi
    (String (Text.digit_char a) (String (Text.digit_char b)
       (String (Text.digit_char c) (String (Text.digit_char d) rest))))
    = Some (a * 1000 + b * 100 + c * 10 + d, rest).
Proof.
  intros Ha Hb Hc Hd Hr. unfold DateTimeUtils.get_num.
  set (s := String (Text.digit_char a) (String (Text.digit_char b)
              (String (Text.digit_char c) (String (Text.digit_char d) rest)))).
  replace (substring 0 4 s)
    with (String (Text.digit_char a) (String (Text.digit_char b)
            (String (Text.digit_char c) (String (Text.digit_char d) EmptyString))))
    by (subst s; simpl; now rewrite substring_0_0).
  cbn [Text.read_digits].
  destruct (digit_char_facts _ Ha) as (Hda & Hva & _).
  destruct (digit_char_facts _ Hb) as (Hdb & Hvb & _).
  destruct (digit_char_facts _ Hc) as (Hdc & Hvc & _).
  destruct (digit_char_facts _ Hd) as (Hdd & Hvd & _).
  rewrite Hda, Hva, Hdb, Hvb, Hdc, Hvc, Hdd, Hvd.
  replace ((((0 * 10 + a) * 10 + b) * 10 + c) * 10 + d)
    with (a * 1000 + b * 100 + c * 10 + d) by lia.
  replace ((lo <=? a * 1000 + b * 100 + c * 10 + d)
           && (a * 1000 + b * 100 + c * 10 + d <=? hi)) with true
    by (symmetry; apply andb_true_iff; split; apply Z.leb_le; lia).
  replace (substring 4 (String.length s - 4) s) with (substring 0 (String.length rest) rest)
    by (subst s; simpl; now rewrite Nat.sub_0_r).
  now rewrite substring_all.
Qed.

Lemma skip_one_space_digit a rest :
  0 <= a < 10 ->
  DateTimeUtils.skip_one_space (String (Text.digit_char a) rest)
    = String (Text.digit_char a) rest.
Proof.
  intros Ha. unfold DateTimeUtils.skip_one_space.
  destruct (digit_char_facts _ Ha) as (_ & _ & Hsp & _). now rewrite Hsp.
Qed.

Lemma parse_date_prefix y m d v s :
  1000 <= y <= 9999 -> 1 <= m <= 12 -> 1 <= d <= 31 ->
  forall fmt,
  DateTimeUtils.get_time_loop (DateTimeUtils.date_format ++ fmt) false v
    (Text.to_string y ++ String "-" (DateTimeUtils.pad2 m ++ String "-"
       (DateTimeUtils.pad2 d ++ s)))
  = match s with
    | EmptyString =>
        Some (DateTimeUtils.mk_tm (y - 1900) (m - 1) d (DateTimeUtils.tm_hour v)
                (DateTimeUtils.tm_min v) (DateTimeUtils.tm_sec v))
    | String _ _ =>
        DateTimeUtils.get_time_loop fmt false
          (DateTimeUtils.mk_tm (y - 1900) (m - 1) d (DateTimeUtils.tm_hour v)
             (DateTimeUtils.tm_min v) (DateTimeUtils.tm_sec v)) s
    end.
Proof.
  intros Hy Hm Hd fmt.
  rewrite to_string_four_digits, !pad2_two_digits by lia.
  assert (0 <= y / 1000 < 10) by (Z.div_mod_to_equations; lia).
  assert (0 <= y / 100 mod 10 < 10) by (Z.div_mod_to_equations; lia).
  assert (0 <= y / 10 mod 10 < 10) by (Z.div_mod_to_equations; lia).
  assert (0 <= y mod 10 < 10) by (Z.div_mod_to_equations; lia).
  assert (0 <= m / 10 < 10) by (Z.div_mod_to_equations; lia).
  assert (0 <= m mod 10 < 10) by (Z.div_mod_to_equations; lia).
  assert (0 <= d / 10 < 10) by (Z.div_mod_to_equations; lia).
  assert (0 <= d mod 10 < 10) by (Z.div_mod_to_equations; lia).
  cbn [DateTimeUtils.date_format append DateTimeUtils.get_time_loop andb].
  change (Ascii.eqb "%" "%") with true. cbv iota.
  change (DateTimeUtils.get_conversion "Y") with
    (fun v s => match DateTimeUtils.get_num 4 0 9999 s with
                | Some (n, r) =>
                    Some (DateTimeUtils.mk_tm (n - 1900) (DateTimeUtils.tm_mon v)
                            (DateTimeUtils.tm_mday v) (DateTimeUtils.tm_hour v)
                            (DateTimeUtils.tm_min v) (DateTimeUtils.tm_sec v), r)
                | None => None
                end).
  cbv beta.
  rewrite get_num_four by (try assumption; Z.div_mod_to_equations; lia).
  replace (y / 1000 * 1000 + y / 100 mod 10 * 100 + y / 10 mod 10 * 10 + y mod 10) with y
    by (Z.div_mod_to_equations; lia).
  change (Ascii.eqb "-" "%") with false. cbv iota.
  change (Text.is_space "-") with false. cbv iota.
  change (DateTimeUtils.same_letter "-" "-") with true. cbv iota.
  change (DateTimeUtils.get_conversion "m") with
    (fun v s => match DateTimeUtils.get_num 2 1 12 s with
                | Some (n, r) =>
                    Some (DateTimeUtils.mk_tm (DateTimeUtils.tm_year v) (n - 1)
                            (DateTimeUtils.tm_mday v) (DateTimeUtils.tm_hour v)
                            (DateTimeUtils.tm_min v) (DateTimeUtils.tm_sec v), r)
                | None => None
                end).
  cbv beta.
  rewrite get_num_two by (try assumption; Z.div_mod_to_equations; lia).
  replace (m / 10 * 10 + m mod 10) with m by (Z.div_mod_to_equations; lia).
  cbv iota.
  change (DateTimeUtils.same_letter "-" "-") with true. cbv iota.
  change (DateTimeUtils.get_conversion "d") with
    (fun v s => match DateTimeUtils.get_num 2 1 31 (DateTimeUtils.skip_one_space s) with
                | Some (n, r) =>
                    Some (DateTimeUtils.mk_tm (DateTimeUtils.tm_year v)
                            (DateTimeUtils.tm_mon v) n (DateTimeUtils.tm_hour v)
                            (DateTimeUtils.tm_min v) (DateTimeUtils.tm_sec v), r)
                | None => None
                end).
  cbv beta.
  rewrite skip_one_space_digit by assumption.
  rewrite get_num_two by (try assumption; Z.div_mod_to_equations; lia).
  replace (d / 10 * 10 + d mod 10) with d by (Z.div_mod_to_equations; lia).
  cbn [DateTimeUtils.tm_year DateTimeUtils.tm_mon DateTimeUtils.tm_mday
       DateTimeUtils.tm_hour DateTimeUtils.tm_min DateTimeUtils.tm_sec].
  destruct s; reflexivity.
Qed.

(** ** Parsing what was formatted *)

Lemma parse_time_suffix h mi s v :
  0 <= h <= 23 -> 0 <= mi <= 59 -> 0 <= s <= 59 ->
  DateTimeUtils.get_time_loop " %H:%M:%S" false v
    (String " " (DateTimeUtils.pad2 h ++ String ":" (DateTimeUtils.pad2 mi ++ String ":"
       (DateTimeUtils.pad2 s))))
  = Some (DateTimeUtils.mk_tm (DateTimeUtils.tm_year v) (DateTimeUtils.tm_mon v)
            (DateTimeUtils.tm_mday v) h mi s).
Proof.
  intros Hh Hm Hs. rewrite !pad2_two_digits by lia.
  assert (0 <= h / 10 < 10) by (Z.div_mod_to_equations; lia).
  assert (0 <= h mod 10 < 10) by (Z.div_mod_to_equations; lia).
  assert (0 <= mi / 10 < 10) by (Z.div_mod_to_equations; lia).
  assert (0 <= mi mod 10 < 10) by (Z.div_mod_to_equations; lia).
  assert (0 <= s / 10 < 10) by (Z.div_mod_to_equations; lia).
  assert (0 <= s mod 10 < 10) by (Z.div_mod_to_equations; lia).
  cbn [append DateTimeUtils.get_time_loop andb].
  change (Ascii.eqb " " "%") with false. cbv iota.
  change (Text.is_space " ") with true. cbv iota.
  cbn [Text.skip_space].
  change (Text.is_space " ") with true. cbv iota.
  destruct (digit_char_facts (h / 10) ltac:(assumption)) as (_ & _ & Hsp & _).
  rewrite Hsp.
  change (Text.is_space "%") with false. cbn [andb]. cbv iota.
  change (Ascii.eqb "%" "%") with true. cbv iota.
  change (DateTimeUtils.get_conversion "H") with
    (fun v s => match DateTimeUtils.get_num 2 0 23 s with
                | Some (n, r) =>
                    Some (DateTimeUtils.mk_tm (DateTimeUtils.tm_year v)
                            (DateTimeUtils.tm_mon v) (DateTimeUtils.tm_mday v) n
                            (DateTimeUtils.tm_min v) (DateTimeUtils.tm_sec v), r)
                | None => None
                end).
  cbv beta.
  rewrite get_num_two by (try assumption; Z.div_mod_to_equations; lia).
  replace (h / 10 * 10 + h mod 10) with h by (Z.div_mod_to_equations; lia).
  cbv iota.
  change (Ascii.eqb ":" "%") with false. cbv iota.
  change (Text.is_space ":") with false. cbv iota.
  change (DateTimeUtils.same_letter ":" ":") with true. cbv iota.
  change (DateTimeUtils.get_conversion "M") with
    (fun v s => match DateTimeUtils.get_num 2 0 59 s with
                | Some (n, r) =>
                    Some (DateTimeUtils.mk_tm (DateTimeUtils.tm_year v)
                            (DateTimeUtils.tm_mon v) (DateTimeUtils.tm_mday v)
                            (DateTimeUtils.tm_hour v) n (DateTimeUtils.tm_sec v), r)
                | None => None
                end).
  cbv beta.
  rewrite get_num_two by (try assumption; Z.div_mod_to_equations; lia).
  replace (mi / 10 * 10 + mi mod 10) with mi by (Z.div_mod_to_equations; lia).
  cbv iota.
  change (DateTimeUtils.same_letter ":" ":") with true. cbv iota.
  change (DateTimeUtils.get_conversion "S") with
    (fun v s => match DateTimeUtils.get_num 2 0 60 s with
                | Some (n, r) =>
                    Some (DateTimeUtils.mk_tm (DateTimeUtils.tm_year v)
                            (DateTimeUtils.tm_mon v) (DateTimeUtils.tm_mday v)
                            (DateTimeUtils.tm_hour v) (DateTimeUtils.tm_min v) n, r)
                | None => None
                end).
  cbv beta.
  rewrite get_num_two by (try assumption; Z.div_mod_to_equations; lia).
  replace (s / 10 * 10 + s mod 10) with s by (Z.div_mod_to_equations; lia).
  reflexivity.
Qed.

Lemma skip_space_numeral y rest :
  1000 <= y <= 9999 ->
  exists c r,
    Text.to_string y ++ rest = String c r /\
    Text.skip_space (Text.to_string y ++ rest) = String c r.
Proof.
  intros Hy. rewrite to_string_four_digits by assumption. cbn [append Text.skip_space].
  assert (Hd : 0 <= y / 1000 < 10) by (Z.div_mod_to_equations; lia).
  destruct (digit_char_facts _ Hd) as (_ & _ & Hsp & _). rewrite Hsp.
  eexists _, _. split; reflexivity.
Qed.

Lemma whole_minutes_midnight tz t :
  whole_minutes tz -> (local_midnight tz t =? -1) = false.
Proof.
  unfold whole_minutes, local_midnight. intros H. apply Z.eqb_neq.
  Z.div_mod_to_equations. lia.
Qed.

Lemma append_empty_r s : s ++ EmptyString = s.
Proof. induction s as [|c s IH]; simpl; [reflexivity | now rewrite IH]. Qed.

(** The two texts that the program writes for a time point. *)
Lemma formatDateTime_text tz tp :
  exists y m d h mi s,
    1 <= m <= 12 /\ 1 <= d <= 31 /\ 0 <= h <= 23 /\ 0 <= mi <= 59 /\ 0 <= s <= 59 /\
    DateTimeUtils.localtime tz (DateTimeUtils.to_time_t tp)
      = DateTimeUtils.mk_tm (y - 1900) (m - 1) d h mi s /\
    DateTimeUtils.days_from_civil y m d * 86400 - tz
      = local_midnight tz (DateTimeUtils.to_time_t tp) /\
    DateTimeUtils.formatDateTime tz tp DateTimeUtils.date_time_format
      = Text.to_string y ++ String "-" (DateTimeUtils.pad2 m ++ String "-"
          (DateTimeUtils.pad2 d ++
             String " " (DateTimeUtils.pad2 h ++ String ":" (DateTimeUtils.pad2 mi ++
               String ":" (DateTimeUtils.pad2 s))))) /\
    DateTimeUtils.formatDate tz tp DateTimeUtils.date_format
      = Text.to_string y ++ String "-" (DateTimeUtils.pad2 m ++ String "-"
          (DateTimeUtils.pad2 d ++ EmptyString)).
Proof.
  destruct (localtime_fields tz (DateTimeUtils.to_time_t tp))
    as (y & m & d & _ & Hm & Hd & Hr & Hl).
  set (l := DateTimeUtils.to_time_t tp + tz) in *.
  exists y, m, d, (l mod 86400 / 3600), (l mod 86400 / 60 mod 60), (l mod 86400 mod 60).
  split; [assumption|]. split; [assumption|].
  split; [Z.div_mod_to_equations; lia|].
  split; [Z.div_mod_to_equations; lia|].
  split; [Z.div_mod_to_equations; lia|].
  split; [exact Hl|].
  split; [unfold local_midnight; fold l; lia|].
  unfold DateTimeUtils.formatDate, DateTimeUtils.formatDateTime. rewrite Hl.
  unfold DateTimeUtils.date_time_format, DateTimeUtils.date_format.
  cbn [DateTimeUtils.put_time].
  change (DateTimeUtils.put_conversion ?v "Y")
    with (Text.to_string (DateTimeUtils.tm_year v + 1900)).
  change (DateTimeUtils.put_conversion ?v "m")
    with (DateTimeUtils.pad2 (DateTimeUtils.tm_mon v + 1)).
  change (DateTimeUtils.put_conversion ?v "d") with (DateTimeUtils.pad2 (DateTimeUtils.tm_mday v)).
  change (DateTimeUtils.put_conversion ?v "H") with (DateTimeUtils.pad2 (DateTimeUtils.tm_hour v)).
  change (DateTimeUtils.put_conversion ?v "M") with (DateTimeUtils.pad2 (DateTimeUtils.tm_min v)).
  change (DateTimeUtils.put_conversion ?v "S") with (DateTimeUtils.pad2 (DateTimeUtils.tm_sec v)).
  cbn [DateTimeUtils.tm_year DateTimeUtils.tm_mon DateTimeUtils.tm_mday
       DateTimeUtils.tm_hour DateTimeUtils.tm_min DateTimeUtils.tm_sec].
  replace (y - 1900 + 1900) with y by lia. replace (m - 1 + 1) with m by lia.
  split; [|reflexivity].
  now rewrite (append_empty_r (DateTimeUtils.pad2 (l mod 86400 mod 60))).
Qed.

Lemma parseDate_after_format (tz : Z) (tp : Date) :
  whole_minutes tz ->
  four_digit_year tz tp ->
  DateTimeUtils.parseDate tz
    (DateTimeUtils.formatDateTime tz tp DateTimeUtils.date_time_format)
    DateTimeUtils.date_time_format = Some (DateTimeUtils.today tz tp) /\
  DateTimeUtils.parseDate tz
    (DateTimeUtils.formatDate tz tp DateTimeUtils.date_format)
    DateTimeUtils.date_format = Some (DateTimeUtils.today tz tp).
Proof.
  intros Htz Hyear. unfold four_digit_year in Hyear.
  destruct (formatDateTime_text tz tp)
    as (y & m & d & h & mi & s & Hm & Hd & Hh & Hmi & Hs & Hl & Hmid & Hfull & Hdate).
  rewrite Hl in Hyear. cbn [DateTimeUtils.tm_year] in Hyear.
  assert (Hy : 1000 <= y <= 9999) by lia.
  rewrite Hfull, Hdate, today_local_midnight. unfold DateTimeUtils.parseDate.
  destruct (skip_space_numeral y
              (String "-" (DateTimeUtils.pad2 m ++ String "-" (DateTimeUtils.pad2 d ++
                 String " " (DateTimeUtils.pad2 h ++ String ":" (DateTimeUtils.pad2 mi ++
                   String ":" (DateTimeUtils.pad2 s)))))) Hy) as (c1 & r1 & Hs1 & ->).
  destruct (skip_space_numeral y
              (String "-" (DateTimeUtils.pad2 m ++ String "-" (DateTimeUtils.pad2 d ++
                 EmptyString))) Hy) as (c2 & r2 & Hs2 & ->).
  rewrite <- Hs1, <- Hs2. unfold DateTimeUtils.get_time.
  change DateTimeUtils.date_time_format with (DateTimeUtils.date_format ++ " %H:%M:%S").
  replace DateTimeUtils.date_format with (DateTimeUtils.date_format ++ EmptyString) at 2
    by reflexivity.
  rewrite !parse_date_prefix by assumption.
  rewrite parse_time_suffix by assumption.
  cbn [DateTimeUtils.tm_year DateTimeUtils.tm_mon DateTimeUtils.tm_mday].
  rewrite !mktime_date by assumption.
  replace (DateTimeUtils.days_from_civil y m d * 86400 + 0 * 3600 + 0 * 60 + 0 - tz)
    with (local_midnight tz (DateTimeUtils.to_time_t tp)) by lia.
  rewrite whole_minutes_midnight by assumption. split; reflexivity.
Qed.

(** X19. Parsing the text that [formatDateTime] or [formatDate] wrote for a time
    point gives the start of the local day of that time point, not the time
    point: the time of day is lost.  The year has four digits and the zone
    offset is a whole number of minutes. *)
Theorem parse_date_reads_back_the_day_of_a_formatted_time (tz : Z) (tp : Date) :
  whole_minutes tz ->
  four_digit_year tz tp ->
  DateTimeUtils.parseDate tz
    (DateTimeUtils.formatDateTime tz tp DateTimeUtils.date_time_format)
    DateTimeUtils.date_time_format = Some (DateTimeUtils.today tz tp) /\
  DateTimeUtils.parseDate tz
    (DateTimeUtils.formatDate tz tp DateTimeUtils.date_format)
    DateTimeUtils.date_format = Some (DateTimeUtils.today tz tp).
Proof. apply parseDate_after_format. Qed.

Lemma parse_date_reads_back_the_day_of_a_formatted_time_witness :
  DateTimeUtils.parseDate 3600
    (DateTimeUtils.formatDateTime 3600 (local_time 3600 2024 1 5 10 30 7)
       DateTimeUtils.date_time_format)
    DateTimeUtils.date_time_format
    = Some (DateTimeUtils.today 3600 (local_time 3600 2024 1 5 10 30 7)) /\
  DateTimeUtils.parseDate 3600
    (DateTimeUtils.formatDate 3600 (local_time 3600 2024 1 5 10 30 7)
       DateTimeUtils.date_format)
    DateTimeUtils.date_format
    = Some (DateTimeUtils.today 3600 (local_time 3600 2024 1 5 10 30 7)).
Proof.
  apply (parse_date_reads_back_the_day_of_a_formatted_time 3600
           (local_time 3600 2024 1 5 10 30 7)).
  - reflexivity.
  - unfold four_digit_year. vm_compute. split; discriminate.
Defined.

(** ** Escaping, and the delimited files read back *)

Lemma escape_char_round_trip (c : ascii) :
  (if Ascii.eqb
        (if Ascii.eqb
              (if Ascii.eqb (if Ascii.eqb c Text.quote
                             then FilePersistenceService.QUOTE_PLACEHOLDER else c)
                            Text.comma
               then FilePersistenceService.COMMA_PLACEHOLDER
               else (if Ascii.eqb c Text.quote
                     then FilePersistenceService.QUOTE_PLACEHOLDER else c))
              FilePersistenceService.QUOTE_PLACEHOLDER
         then Text.quote
         else (if Ascii.eqb (if Ascii.eqb c Text.quote
                             then FilePersistenceService.QUOTE_PLACEHOLDER else c)
                            Text.comma
               then FilePersistenceService.COMMA_PLACEHOLDER
               else (if Ascii.eqb c Text.quote
                     then FilePersistenceService.QUOTE_PLACEHOLDER else c)))
        FilePersistenceService.COMMA_PLACEHOLDER
   then Text.comma
   else (if Ascii.eqb
              (if Ascii.eqb (if Ascii.eqb c Text.quote
                             then FilePersistenceService.QUOTE_PLACEHOLDER else c)
                            Text.comma
               then FilePersistenceService.COMMA_PLACEHOLDER
               else (if Ascii.eqb c Text.quote
                     then FilePersistenceService.QUOTE_PLACEHOLDER else c))
              FilePersistenceService.QUOTE_PLACEHOLDER
         then Text.quote
         else (if Ascii.eqb (if Ascii.eqb c Text.quote
                             then FilePersistenceService.QUOTE_PLACEHOLDER else c)
                            Text.comma
               then FilePersistenceService.COMMA_PLACEHOLDER
               else (if Ascii.eqb c Text.quote
                     then FilePersistenceService.QUOTE_PLACEHOLDER else c)))) = c
  <-> Ascii.eqb c FilePersistenceService.COMMA_PLACEHOLDER = false /\
      Ascii.eqb c FilePersistenceService.QUOTE_PLACEHOLDER = false.
Proof.
  destruct (Ascii.eqb_spec c Text.quote) as [-> | Hq]; [vm_compute; intuition congruence|].
  destruct (Ascii.eqb_spec c Text.comma) as [-> | Hc]; [vm_compute; intuition congruence|].
  destruct (Ascii.eqb_spec c FilePersistenceService.QUOTE_PLACEHOLDER) as [-> | Hqp];
    [vm_compute; intuition congruence|].
  destruct (Ascii.eqb_spec c FilePersistenceService.COMMA_PLACEHOLDER) as [-> | Hcp];
    [vm_compute; intuition congruence|].
  tauto.
Qed.

Lemma unescape_escape_iff f :
  FilePersistenceService.unescapeCsvField (FilePersistenceService.escapeCsvField f) = f
  <-> Text.contains FilePersistenceService.COMMA_PLACEHOLDER f = false /\
      Text.contains FilePersistenceService.QUOTE_PLACEHOLDER f = false.
Proof.
  unfold FilePersistenceService.unescapeCsvField, FilePersistenceService.escapeCsvField.
  induction f as [|c f IH]; [simpl; tauto|].
  cbn [Text.replace Text.contains]. rewrite !orb_false_iff.
  pose proof (escape_char_round_trip c) as Hc.
  split.
  - intros [= H1 H2]. apply Hc in H1. apply IH in H2. tauto.
  - intros [[H1 H2] [H3 H4]]. f_equal; [apply Hc | apply IH]; tauto.
Qed.

Lemma escape_no_quote f :
  Text.contains Text.quote (FilePersistenceService.escapeCsvField f) = false.
Proof.
  unfold FilePersistenceService.escapeCsvField.
  apply contains_replace_kept; [discriminate|].
  apply contains_replace_gone. discriminate.
Qed.

(** X20. Unescaping an escaped field gives the field back exactly when the field
    contains neither of the two placeholder texts; an escaped field never
    contains a comma or a double quote. *)
Theorem csv_escaping_is_undone_unless_a_placeholder_is_used (field : string) :
  (FilePersistenceService.unescapeCsvField (FilePersistenceService.escapeCsvField field)
     = field
   <-> Text.contains FilePersistenceService.COMMA_PLACEHOLDER field = false /\
       Text.contains FilePersistenceService.QUOTE_PLACEHOLDER field = false) /\
  Text.contains Text.comma (FilePersistenceService.escapeCsvField field) = false /\
  Text.contains Text.quote (FilePersistenceService.escapeCsvField field) = false.
Proof.
  split; [apply unescape_escape_iff|]. split; [apply escape_no_comma | apply escape_no_quote].
Qed.

Lemma settled_norm r : settled r -> norm_row r = r.
Proof. now intros [H _]. Qed.

(** X21. Reading a file that was written from records without line breaks and
    placeholder texts gives the records back without their empty last field,
    and without the records that this leaves empty; records whose last field is
    not empty are read back unchanged. *)
Theorem csv_file_reads_back_what_was_written (data : list (list string)) :
  Forall clean_record data ->
  FilePersistenceService.readCsvFile (FilePersistenceService.writeCsvFile data)
    = reread data /\
  (Forall settled data ->
   FilePersistenceService.readCsvFile (FilePersistenceService.writeCsvFile data) = data).
Proof.
  intros Hclean. rewrite read_write_csv by assumption.
  split; [reflexivity | apply reread_settled].
Qed.

Lemma csv_file_reads_back_what_was_written_witness :
  FilePersistenceService.readCsvFile
    (FilePersistenceService.writeCsvFile
       [["a1"; "Ann, the first"]; ["u1"; "Uma"; "x"]])
    = reread [["a1"; "Ann, the first"]; ["u1"; "Uma"; "x"]] /\
  (Forall settled [["a1"; "Ann, the first"]; ["u1"; "Uma"; "x"]] ->
   FilePersistenceService.readCsvFile
     (FilePersistenceService.writeCsvFile
        [["a1"; "Ann, the first"]; ["u1"; "Uma"; "x"]])
     = [["a1"; "Ann, the first"]; ["u1"; "Uma"; "x"]]).
Proof.
  apply (csv_file_reads_back_what_was_written
           [["a1"; "Ann, the first"]; ["u1"; "Uma"; "x"]]).
  repeat constructor.
Defined.

(** ** The file backend: deleting *)

Lemma Forall_filter_keep {A : Type} (P : A -> Prop) (p : A -> bool) (l : list A) :
  Forall P l -> Forall P (filter p l).
Proof.
  intros H. apply Forall_forall. intros x Hx. apply filter_In in Hx as [Hx _].
  rewrite Forall_forall in H. now apply H.
Qed.

Lemma In_reread_inv r' data :
  In r' (reread data) -> exists r, In r data /\ r' = norm_row r /\ r' <> [].
Proof.
  induction data as [|r data IH]; simpl; [tauto|].
  destruct (norm_row r) as [|x xs] eqn:E.
  - intros H. destruct (IH H) as (r0 & Hin & Heq). exists r0. tauto.
  - intros [<- | H].
    + exists r. rewrite E. split; [now left | split; [reflexivity | discriminate]].
    + destruct (IH H) as (r0 & Hin & Heq). exists r0. tauto.
Qed.

Lemma has_id_norm id r :
  norm_row r <> [] ->
  FilePersistenceService.has_id id (norm_row r) = FilePersistenceService.has_id id r.
Proof.
  intros Hne. symmetry. apply has_id_begins_with; [assumption | apply norm_row_prefix].
Qed.

Lemma removed_rows_lack_id id content :
  forall r,
    In r (FilePersistenceService.readCsvFile
            (FilePersistenceService.writeCsvFile
               (FilePersistenceService.remove_id id
                  (FilePersistenceService.readCsvFile content)))) ->
    FilePersistenceService.has_id id r = false.
Proof.
  intros r Hr. rewrite read_write_csv in Hr
    by (apply Forall_filter_keep, read_csv_clean).
  apply In_reread_inv in Hr as (r0 & Hin & -> & Hne).
  rewrite has_id_norm by assumption.
  apply filter_In in Hin as [_ Hin]. now apply negb_true_iff in Hin.
Qed.

Lemma has_id_false_field id r :
  FilePersistenceService.has_id id r = false ->
  r = [] \/ String.eqb (FilePersistenceService.field 0 r) id = false.
Proof. destruct r as [|x r]; simpl; auto. Qed.

Lemma loadAuthor_loop_absent id data :
  (forall r, In r data -> FilePersistenceService.has_id id r = false) ->
  FilePersistenceService.loadAuthor_loop id data = Ok None.
Proof.
  induction data as [|r data IH]; intros H; simpl; [reflexivity|].
  destruct (has_id_false_field id r (H r (or_introl eq_refl))) as [-> | ->].
  - simpl. apply IH. intros r Hr. apply H. now right.
  - rewrite andb_false_r. apply IH. intros r0 Hr. apply H. now right.
Qed.

Lemma loadUser_loop_absent id data :
  (forall r, In r data -> FilePersistenceService.has_id id r = false) ->
  FilePersistenceService.loadUser_loop id data = None.
Proof.
  induction data as [|r data IH]; intros H; simpl; [reflexivity|].
  destruct (has_id_false_field id r (H r (or_introl eq_refl))) as [-> | ->].
  - simpl. apply IH. intros r Hr. apply H. now right.
  - rewrite andb_false_r. apply IH. intros r0 Hr. apply H. now right.
Qed.

Lemma loadLibraryItem_loop_absent s id data :
  (forall r, In r data -> FilePersistenceService.has_id id r = false) ->
  FilePersistenceService.loadLibraryItem_loop s id data = ([], Ok None).
Proof.
  induction data as [|r data IH]; intros H; [reflexivity|].
  cbn [FilePersistenceService.loadLibraryItem_loop].
  destruct (has_id_false_field id r (H r (or_introl eq_refl))) as [-> | ->].
  - simpl. apply IH. intros r Hr. apply H. now right.
  - rewrite andb_false_r. cbn [andb]. apply IH. intros r0 Hr. apply H. now right.
Qed.

Lemma loadLoanRecord_loop_absent tz id data :
  (forall r, In r data -> FilePersistenceService.has_id id r = false) ->
  FilePersistenceService.loadLoanRecord_loop tz id data = None.
Proof.
  induction data as [|r data IH]; intros H; [reflexivity|].
  cbn [FilePersistenceService.loadLoanRecord_loop].
  destruct (has_id_false_field id r (H r (or_introl eq_refl))) as [-> | ->].
  - simpl. apply IH. intros r Hr. apply H. now right.
  - rewrite andb_false_r. apply IH. intros r0 Hr. apply H. now right.
Qed.

(** X22. On the file backend, deleting an author, item, user or loan record by id
    always succeeds, and a load of that id from the files that result finds
    nothing, whatever the files held. *)
Theorem file_delete_then_load_finds_nothing
    (tz : Z) (f : FilePersistenceService.t) (id : EntityId) :
  (exists f',
     FilePersistenceService.deleteAuthor f id = Ok f' /\
     FilePersistenceService.loadAuthor f' id = Ok None) /\
  (exists f',
     FilePersistenceService.deleteLibraryItem f id = Ok f' /\
     FilePersistenceService.loadLibraryItem f' id = Ok None) /\
  (exists f',
     FilePersistenceService.deleteUser f id = Ok f' /\
     FilePersistenceService.loadUser f' id = Ok None) /\
  (exists f',
     FilePersistenceService.deleteLoanRecord f id = Ok f' /\
     FilePersistenceService.loadLoanRecord tz f' id = Ok None).
Proof.
  split; [|split; [|split]]; eexists; (split; [reflexivity|]).
  - unfold FilePersistenceService.loadAuthor. simpl.
    apply loadAuthor_loop_absent, removed_rows_lack_id.
  - unfold FilePersistenceService.loadLibraryItem, FilePersistenceService.loadLibraryItem_logged.
    cbn [FilePersistenceService.items_csv].
    now rewrite loadLibraryItem_loop_absent by apply removed_rows_lack_id.
  - unfold FilePersistenceService.loadUser. simpl. f_equal.
    apply loadUser_loop_absent, removed_rows_lack_id.
  - unfold FilePersistenceService.loadLoanRecord. simpl. f_equal.
    apply loadLoanRecord_loop_absent, removed_rows_lack_id.
Qed.

(** ** The file backend: authors and users *)

Lemma pair_record_settled r : pair_record r -> settled r.
Proof.
  intros (a & b & -> & Hb). split; [|discriminate].
  simpl. destruct b; [contradiction | reflexivity].
Qed.

Lemma assign_name_pairs id name data :
  Forall pair_record data ->
  exists found data1,
    FilePersistenceService.assign_name id name data = Ok (found, data1) /\
    (if found then data1 else List.app data1 [[id; name]]) = upsert id [id; name] data.
Proof.
  induction 1 as [|r data Hr _ IH]; [now exists false, []|].
  cbn [FilePersistenceService.assign_name upsert].
  destruct (FilePersistenceService.has_id id r) eqn:E.
  - destruct Hr as (a & b & -> & _). simpl in E. apply String.eqb_eq in E. subst a.
    now exists true, ([id; name] :: data).
  - destruct IH as (found & data1 & -> & Heq).
    exists found, (r :: data1). split; [reflexivity|].
    destruct found; simpl; now rewrite <- Heq.
Qed.

Lemma assign_record_upsert_eq id fields data :
  (let '(found, data1) := FilePersistenceService.assign_record id fields data in
   if found then data1 else List.app data1 [fields]) = upsert id fields data.
Proof.
  induction data as [|r data IH]; [reflexivity|].
  cbn [FilePersistenceService.assign_record upsert].
  destruct (FilePersistenceService.has_id id r); [reflexivity|].
  destruct (FilePersistenceService.assign_record id fields data) as [found data1].
  destruct found; simpl; now rewrite <- IH.
Qed.

Lemma upsert_Forall (P : list string -> Prop) id fields data :
  Forall P data -> P fields -> Forall P (upsert id fields data).
Proof.
  induction 1 as [|r data Hr Hd IH]; intros Hf; simpl.
  - now repeat constructor.
  - destruct (FilePersistenceService.has_id id r); constructor; auto.
Qed.

Lemma loadAuthor_loop_upsert id name data :
  id <> EmptyString -> name <> EmptyString ->
  FilePersistenceService.loadAuthor_loop id (upsert id [id; name] data)
    = Ok (Some (Author.mk id name)).
Proof.
  intros Hid Hname. apply empty_false in Hid, Hname.
  assert (Hhit : forall rest,
            FilePersistenceService.loadAuthor_loop id ([id; name] :: rest)
              = Ok (Some (Author.mk id name))).
  { intros rest. cbn [FilePersistenceService.loadAuthor_loop List.length Nat.eqb].
    unfold FilePersistenceService.field. cbn [nth].
    rewrite String.eqb_refl. cbn [andb]. unfold Author.new.
    now rewrite Hid, Hname. }
  induction data as [|r data IH]; cbn [upsert]; [apply Hhit|].
  destruct (FilePersistenceService.has_id id r) eqn:E; [apply Hhit|].
  cbn [FilePersistenceService.loadAuthor_loop].
  destruct (has_id_false_field id r E) as [-> | ->]; [exact IH|].
  now rewrite andb_false_r.
Qed.

Lemma loadAuthor_loop_upsert_other id name id' data :
  id' <> id ->
  FilePersistenceService.loadAuthor_loop id' (upsert id [id; name] data)
    = FilePersistenceService.loadAuthor_loop id' data.
Proof.
  intros Hne. apply String.eqb_neq in Hne. rewrite String.eqb_sym in Hne.
  induction data as [|r data IH]; cbn [upsert].
  - cbn [FilePersistenceService.loadAuthor_loop]. unfold FilePersistenceService.field. cbn [nth].
    now rewrite Hne, andb_false_r.
  - destruct (FilePersistenceService.has_id id r) eqn:E.
    + destruct r as [|x r]; [discriminate|]. simpl in E. apply String.eqb_eq in E. subst x.
      cbn [FilePersistenceService.loadAuthor_loop]. unfold FilePersistenceService.field. cbn [nth].
      now rewrite Hne, !andb_false_r.
    + cbn [FilePersistenceService.loadAuthor_loop]. now rewrite IH.
Qed.

Lemma loadUser_loop_upsert id name data :
  id <> EmptyString -> name <> EmptyString ->
  FilePersistenceService.loadUser_loop id (upsert id [id; name] data)
    = Some (User.mk id name).
Proof.
  intros Hid Hname. apply empty_false in Hid, Hname.
  assert (Hhit : forall rest,
            FilePersistenceService.loadUser_loop id ([id; name] :: rest)
              = Some (User.mk id name)).
  { intros rest. cbn [FilePersistenceService.loadUser_loop List.length Nat.eqb].
    unfold FilePersistenceService.field. cbn [nth].
    rewrite String.eqb_refl. cbn [andb]. unfold User.new.
    now rewrite Hid, Hname. }
  induction data as [|r data IH]; cbn [upsert]; [apply Hhit|].
  destruct (FilePersistenceService.has_id id r) eqn:E; [apply Hhit|].
  cbn [FilePersistenceService.loadUser_loop].
  destruct (has_id_false_field id r E) as [-> | ->]; [exact IH|].
  now rewrite andb_false_r.
Qed.

Lemma loadUser_loop_upsert_other id name id' data :
  id' <> id ->
  FilePersistenceService.loadUser_loop id' (upsert id [id; name] data)
    = FilePersistenceService.loadUser_loop id' data.
Proof.
  intros Hne. apply String.eqb_neq in Hne. rewrite String.eqb_sym in Hne.
  induction data as [|r data IH]; cbn [upsert].
  - cbn [FilePersistenceService.loadUser_loop]. unfold FilePersistenceService.field. cbn [nth].
    now rewrite Hne, andb_false_r.
  - destruct (FilePersistenceService.has_id id r) eqn:E.
    + destruct r as [|x r]; [discriminate|]. simpl in E. apply String.eqb_eq in E. subst x.
      cbn [FilePersistenceService.loadUser_loop]. unfold FilePersistenceService.field. cbn [nth].
      now rewrite Hne, !andb_false_r.
    + cbn [FilePersistenceService.loadUser_loop]. now rewrite IH.
Qed.

Lemma read_written_pairs id name content :
  pair_file content -> name <> EmptyString -> clean_record [id; name] ->
  FilePersistenceService.readCsvFile
    (FilePersistenceService.writeCsvFile
       (upsert id [id; name] (FilePersistenceService.readCsvFile content)))
  = upsert id [id; name] (FilePersistenceService.readCsvFile content) /\
  pair_file
    (FilePersistenceService.writeCsvFile
       (upsert id [id; name] (FilePersistenceService.readCsvFile content))).
Proof.
  intros Hpairs Hname Hclean.
  assert (Hp : Forall pair_record
                 (upsert id [id; name] (FilePersistenceService.readCsvFile content))).
  { apply upsert_Forall; [exact Hpairs | now exists id, name]. }
  assert (Heq : FilePersistenceService.readCsvFile
                  (FilePersistenceService.writeCsvFile
                     (upsert id [id; name] (FilePersistenceService.readCsvFile content)))
                = upsert id [id; name] (FilePersistenceService.readCsvFile content)).
  { rewrite read_write_csv
      by (apply upsert_Forall; [apply read_csv_clean | exact Hclean]).
    apply reread_settled. eapply Forall_impl; [|exact Hp].
    intros r. apply pair_record_settled. }
  split; [exact Heq|]. unfold pair_file. now rewrite Heq.
Qed.

(** One save of an author, or of a user, into a file of two-field
    records. *)
Lemma saveAuthor_pairs f a :
  Author.valid a -> clean_record (author_fields a) ->
  pair_file (FilePersistenceService.authors_csv f) ->
  exists f',
    FilePersistenceService.saveAuthor f (Some a) = Ok f' /\
    pair_file (FilePersistenceService.authors_csv f') /\
    FilePersistenceService.loadAuthor f' (Author.m_id a) = Ok (Some a) /\
    (forall id', id' <> Author.m_id a ->
       FilePersistenceService.loadAuthor f' id' = FilePersistenceService.loadAuthor f id').
Proof.
  destruct a as [id name]. intros [Hid Hname] Hclean Hpairs. simpl in Hid, Hname.
    unfold author_fields in Hclean. simpl in Hclean. unfold EntityId in *.
    destruct (assign_name_pairs id name _ Hpairs) as (found & data1 & Hassign & Heq).
    destruct (read_written_pairs id name _ Hpairs Hname Hclean) as (Hread & Hpairs').
    exists (FilePersistenceService.mk
              (FilePersistenceService.writeCsvFile
                 (upsert id [id; name]
                    (FilePersistenceService.readCsvFile (FilePersistenceService.authors_csv f))))
              (FilePersistenceService.users_csv f) (FilePersistenceService.items_csv f)
              (FilePersistenceService.loans_csv f)).
    split.
    { unfold FilePersistenceService.saveAuthor, Author.getId, Author.getName.
      cbn [Author.m_id Author.m_name]. rewrite Hassign. cbn [bind].
      do 3 f_equal. exact Heq. }
    cbn [FilePersistenceService.authors_csv]. split; [exact Hpairs'|].
    unfold FilePersistenceService.loadAuthor. cbn [FilePersistenceService.authors_csv Author.m_id].
    rewrite Hread. split.
    + now apply loadAuthor_loop_upsert.
    + intros id' Hne. now apply loadAuthor_loop_upsert_other.
Qed.

Lemma saveUser_pairs f u :
  User.valid u -> clean_record (user_fields u) ->
  pair_file (FilePersistenceService.users_csv f) ->
  exists f',
    FilePersistenceService.saveUser f u = Ok f' /\
    pair_file (FilePersistenceService.users_csv f') /\
    FilePersistenceService.loadUser f' (User.m_user_id u) = Ok (Some u) /\
    (forall id', id' <> User.m_user_id u ->
       FilePersistenceService.loadUser f' id' = FilePersistenceService.loadUser f id').
Proof.
  destruct u as [id name]. intros [Hid Hname] Hclean Hpairs. simpl in Hid, Hname.
    unfold user_fields in Hclean. simpl in Hclean. unfold EntityId in *.
    destruct (assign_name_pairs id name _ Hpairs) as (found & data1 & Hassign & Heq).
    destruct (read_written_pairs id name _ Hpairs Hname Hclean) as (Hread & Hpairs').
    exists (FilePersistenceService.mk
              (FilePersistenceService.authors_csv f)
              (FilePersistenceService.writeCsvFile
                 (upsert id [id; name]
                    (FilePersistenceService.readCsvFile (FilePersistenceService.users_csv f))))
              (FilePersistenceService.items_csv f) (FilePersistenceService.loans_csv f)).
    split.
    { unfold FilePersistenceService.saveUser, User.getUserId, User.getName.
      cbn [User.m_user_id User.m_name]. rewrite Hassign. cbn [bind].
      do 3 f_equal. exact Heq. }
    cbn [FilePersistenceService.users_csv]. split; [exact Hpairs'|].
    unfold FilePersistenceService.loadUser. cbn [FilePersistenceService.users_csv User.m_user_id].
    rewrite Hread. split.
    + now rewrite loadUser_loop_upsert.
    + intros id' Hne. now rewrite loadUser_loop_upsert_other.
Qed.

(** X23. On the file backend, over a file of well-formed two-field records, saving
    a valid author (or user) whose fields have no line break or placeholder
    text succeeds, a load of its id returns it, every other id loads as before,
    and the file keeps its form. *)
Theorem file_author_and_user_survive_the_round_trip (f : FilePersistenceService.t) :
  (forall a,
     Author.valid a -> clean_record (author_fields a) ->
     pair_file (FilePersistenceService.authors_csv f) ->
     exists f',
       FilePersistenceService.saveAuthor f (Some a) = Ok f' /\
       pair_file (FilePersistenceService.authors_csv f') /\
       FilePersistenceService.loadAuthor f' (Author.m_id a) = Ok (Some a) /\
       (forall id', id' <> Author.m_id a ->
          FilePersistenceService.loadAuthor f' id' = FilePersistenceService.loadAuthor f id')) /\
  (forall u,
     User.valid u -> clean_record (user_fields u) ->
     pair_file (FilePersistenceService.users_csv f) ->
     exists f',
       FilePersistenceService.saveUser f u = Ok f' /\
       pair_file (FilePersistenceService.users_csv f') /\
       FilePersistenceService.loadUser f' (User.m_user_id u) = Ok (Some u) /\
       (forall id', id' <> User.m_user_id u ->
          FilePersistenceService.loadUser f' id' = FilePersistenceService.loadUser f id')).
Proof.
  split.
  - intros a Hv Hc Hp. now apply saveAuthor_pairs.
  - intros u Hv Hc Hp. now apply saveUser_pairs.
Qed.

Lemma file_author_and_user_survive_the_round_trip_witness :
  exists f',
    FilePersistenceService.saveAuthor two_author_files (Some (Author.mk "a2" "Rob, jr.")) = Ok f' /\
    pair_file (FilePersistenceService.authors_csv f') /\
    FilePersistenceService.loadAuthor f' "a2" = Ok (Some (Author.mk "a2" "Rob, jr.")) /\
    (forall id', id' <> "a2" ->
       FilePersistenceService.loadAuthor f' id'
         = FilePersistenceService.loadAuthor two_author_files id').
Proof.
  apply (proj1 (file_author_and_user_survive_the_round_trip two_author_files)
           (Author.mk "a2" "Rob, jr.")).
  - split; discriminate.
  - repeat constructor.
  - unfold pair_file. vm_compute FilePersistenceService.readCsvFile.
    repeat constructor; eexists _, _; (split; [reflexivity | discriminate]).
Defined.

(** ** The file backend: books *)

Lemma find_reread_upsert (p : list string -> bool) id fields data :
  (forall r, p r = true -> FilePersistenceService.has_id id r = true) ->
  p fields = true -> norm_row fields = fields -> fields <> [] ->
  List.find p (reread (upsert id fields data)) = Some fields.
Proof.
  intros Hp Hf Hnorm Hne.
  assert (Hhit : forall rest, List.find p (reread (fields :: rest)) = Some fields).
  { intros rest. cbn [reread]. rewrite Hnorm.
    destruct fields as [|x xs]; [contradiction|]. cbn [List.find]. now rewrite Hf. }
  induction data as [|r data IH]; cbn [upsert]; [apply Hhit|].
  destruct (FilePersistenceService.has_id id r) eqn:E; [apply Hhit|].
  cbn [reread]. destruct (norm_row r) as [|x xs] eqn:En; [exact IH|].
  cbn [List.find].
  destruct (p (x :: xs)) eqn:Ep; [|exact IH].
  apply Hp in Ep. rewrite <- En, has_id_norm in Ep by (rewrite En; discriminate).
  congruence.
Qed.

Lemma loadAuthor_loop_found id data a :
  FilePersistenceService.loadAuthor_loop id data = Ok (Some a) ->
  id <> EmptyString /\ Author.m_id a = id.
Proof.
  induction data as [|r data IH]; [discriminate|].
  cbn [FilePersistenceService.loadAuthor_loop].
  destruct ((List.length r =? 2)%nat
            && String.eqb (FilePersistenceService.field 0 r) id) eqn:E; [|exact IH].
  apply andb_true_iff in E as [_ E]. apply String.eqb_eq in E. rewrite E.
  unfold Author.new. destruct (empty id) eqn:Eid; [discriminate|].
  destruct (empty (FilePersistenceService.field 1 r)); [discriminate|].
  cbn [bind]. intros [= <-]. split; [now apply empty_false | reflexivity].
Qed.

Lemma named_status_round_trip s :
  named_status s ->
  Text.stoi (Text.to_string (status_to_int s)) = Some (status_to_int s) /\
  status_of_int (status_to_int s) = s.
Proof. destruct s; simpl; intros H; try contradiction; split; reflexivity. Qed.

(** X24. On the file backend, saving a valid book whose author is in the authors
    file and then loading it by id returns the same book, without a warning,
    when its text fields have no line break or placeholder text, its year fits
    an [int] and its status is one of the four enumerators. *)
Theorem file_book_survives_the_round_trip
    (f : FilePersistenceService.t) (b : Book.t) (author : Author.t) :
  Book.valid b ->
  Book.m_author b = Some author ->
  clean_field (Book.m_id b) -> clean_field (Book.m_title b) ->
  clean_field (Book.m_isbn b) -> clean_field (Author.m_id author) ->
  Book.m_publication_year b <= Text.INT_MAX ->
  named_status (Book.m_availability_status b) ->
  FilePersistenceService.loadAuthor f (Author.m_id author) = Ok (Some author) ->
  exists f',
    FilePersistenceService.saveLibraryItem f (Some b) = Ok f' /\
    FilePersistenceService.loadLibraryItem_logged f' (Book.m_id b) = ([], Ok (Some b)) /\
    FilePersistenceService.loadLibraryItem f' (Book.m_id b) = Ok (Some b).
Proof.
  intros Hvalid Hauthor Hcid Hctitle Hcisbn Hcaid Hyear Hstatus Hload.
  destruct Hvalid as (Hid & Htitle & _ & Hisbn & Hpos).
  destruct (book_storable b Hcid Hctitle Hcisbn) as (Hclean & _ & _).
  { intros a Ha. rewrite Hauthor in Ha. now injection Ha as <-. }
  set (fields := FilePersistenceService.book_fields b) in *.
  set (data := FilePersistenceService.readCsvFile (FilePersistenceService.items_csv f)).
  exists (FilePersistenceService.mk
            (FilePersistenceService.authors_csv f) (FilePersistenceService.users_csv f)
            (FilePersistenceService.writeCsvFile (upsert (Book.m_id b) fields data))
            (FilePersistenceService.loans_csv f)).
  assert (Hlogged :
    FilePersistenceService.loadLibraryItem_logged
      (FilePersistenceService.mk
         (FilePersistenceService.authors_csv f) (FilePersistenceService.users_csv f)
         (FilePersistenceService.writeCsvFile (upsert (Book.m_id b) fields data))
         (FilePersistenceService.loans_csv f)) (Book.m_id b) = ([], Ok (Some b))).
  { unfold FilePersistenceService.loadLibraryItem_logged.
    cbn [FilePersistenceService.items_csv].
    rewrite read_write_csv
      by (apply upsert_Forall; [apply read_csv_clean | exact Hclean]).
    rewrite loadLibraryItem_loop_find.
    rewrite (find_reread_upsert _ (Book.m_id b) fields data).
    - unfold FilePersistenceService.book_of_fields.
      change (FilePersistenceService.field 3 fields)
        with (match Book.getAuthor b with
              | Some a => Author.getId a
              | None => EmptyString
              end).
      unfold Book.getAuthor. rewrite Hauthor. unfold Author.getId.
      unfold FilePersistenceService.loadAuthor in *.
      cbn [FilePersistenceService.authors_csv].
      destruct (loadAuthor_loop_found _ _ _ Hload) as (Haid & _).
      apply empty_false in Haid. rewrite Haid, Hload.
      change (FilePersistenceService.field 5 fields)
        with (Text.to_string (Book.getPublicationYear b)).
      change (FilePersistenceService.field 6 fields)
        with (Text.to_string (status_to_int (Book.getAvailabilityStatus b))).
      unfold Book.getPublicationYear, Book.getAvailabilityStatus.
      rewrite stoi_to_string by (unfold Text.INT_MIN; lia).
      destruct (named_status_round_trip _ Hstatus) as (-> & ->).
      change (FilePersistenceService.field 0 fields) with (Book.m_id b).
      change (FilePersistenceService.field 2 fields) with (Book.m_title b).
      change (FilePersistenceService.field 4 fields) with (Book.m_isbn b).
      unfold Book.new.
      apply empty_false in Hid, Htitle, Hisbn. rewrite Hid, Htitle, Hisbn.
      replace (Book.m_publication_year b <=? 0) with false
        by (symmetry; apply Z.leb_gt; lia).
      destruct b; simpl in *. now rewrite Hauthor.
    - intros r Hr. repeat (apply andb_true_iff in Hr as [Hr ?]).
      destruct r as [|x r]; [discriminate|]. simpl. assumption.
    - subst fields. cbn [FilePersistenceService.book_fields List.length Nat.leb Nat.eqb
                         FilePersistenceService.field nth andb].
      unfold Book.getId. now rewrite String.eqb_refl.
    - apply book_fields_norm.
    - discriminate. }
  split; [|split; [exact Hlogged|]].
  - unfold FilePersistenceService.saveLibraryItem.
    pose proof (assign_record_upsert_eq (Book.getId b) fields data) as Hup.
    fold data. fold fields.
    destruct (FilePersistenceService.assign_record (Book.getId b) fields data)
      as [found data1].
    unfold Book.getId in Hup. now rewrite Hup.
  - unfold FilePersistenceService.loadLibraryItem. now rewrite Hlogged.
Qed.

Lemma file_book_survives_the_round_trip_witness :
  exists f',
    FilePersistenceService.saveLibraryItem two_author_files
      (Some (Book.mk "b7" "Seventh, a tale" (Some (Author.mk "a2" "Bob")) "isbn-7" 1987
               RESERVED)) = Ok f' /\
    FilePersistenceService.loadLibraryItem_logged f' "b7"
      = ([], Ok (Some (Book.mk "b7" "Seventh, a tale" (Some (Author.mk "a2" "Bob")) "isbn-7"
                         1987 RESERVED))) /\
    FilePersistenceService.loadLibraryItem f' "b7"
      = Ok (Some (Book.mk "b7" "Seventh, a tale" (Some (Author.mk "a2" "Bob")) "isbn-7" 1987
                    RESERVED)).
Proof.
  apply (file_book_survives_the_round_trip two_author_files
           (Book.mk "b7" "Seventh, a tale" (Some (Author.mk "a2" "Bob")) "isbn-7" 1987 RESERVED)
           (Author.mk "a2" "Bob")).
  - repeat split; simpl; try discriminate; lia.
  - reflexivity.
  - repeat split.
  - repeat split.
  - repeat split.
  - repeat split.
  - unfold Text.INT_MAX. simpl. lia.
  - exact I.
  - vm_compute. reflexivity.
Defined.

(** ** The file backend: loan records *)

Lemma loadLoanRecord_loop_reread_upsert tz id fields data loan :
  id = FilePersistenceService.field 0 fields ->
  List.length fields = 6%nat ->
  norm_row fields = fields ->
  FilePersistenceService.loan_of_fields tz fields = Some loan ->
  FilePersistenceService.loadLoanRecord_loop tz id (reread (upsert id fields data))
    = Some loan.
Proof.
  intros Hid Hlen Hnorm Hloan.
  assert (Hne : fields <> []) by (intros ->; discriminate).
  assert (Hhit : forall rest,
            FilePersistenceService.loadLoanRecord_loop tz id (reread (fields :: rest))
              = Some loan).
  { intros rest. cbn [reread]. rewrite Hnorm.
    destruct fields as [|x xs] eqn:Ef; [contradiction|]. rewrite <- Ef in *.
    cbn [FilePersistenceService.loadLoanRecord_loop].
    rewrite Hlen, <- Hid, String.eqb_refl. cbn [Nat.eqb andb]. now rewrite Hloan. }
  induction data as [|r data IH]; cbn [upsert]; [apply Hhit|].
  destruct (FilePersistenceService.has_id id r) eqn:E; [apply Hhit|].
  cbn [reread]. destruct (norm_row r) as [|x xs] eqn:En; [exact IH|].
  cbn [FilePersistenceService.loadLoanRecord_loop].
  assert (Hx : FilePersistenceService.has_id id (x :: xs) = false).
  { rewrite <- En, has_id_norm by (rewrite En; discriminate). exact E. }
  destruct (has_id_false_field _ _ Hx) as [Hnil | ->]; [discriminate|].
  now rewrite andb_false_r.
Qed.

(** X25. On the file backend, in a time zone whose fixed offset is a whole
    number of minutes: saving a loan record that has a return date and then
    loading it by id returns the record with each of its three dates moved to
    the start of its local day.  This is for ids without line break or
    placeholder text and for dates from 1970 on whose local year has four
    digits. *)
Theorem file_returned_loan_survives_the_round_trip_to_the_day
    (tz : Z) (f : FilePersistenceService.t) (r : LoanRecord.t) (returned : Date) :
  whole_minutes tz ->
  LoanRecord.ids_ok r -> LoanRecord.dates_ok r ->
  LoanRecord.m_return_date r = Some returned ->
  clean_field (LoanRecord.m_record_id r) -> clean_field (LoanRecord.m_item_id r) ->
  clean_field (LoanRecord.m_user_id r) ->
  plain_date tz (LoanRecord.m_loan_date r) ->
  plain_date tz (LoanRecord.m_due_date r) ->
  plain_date tz returned ->
  exists f',
    FilePersistenceService.saveLoanRecord tz f r = Ok f' /\
    FilePersistenceService.loadLoanRecord tz f' (LoanRecord.m_record_id r)
      = Ok (Some (to_the_day tz r)).
Proof.
  intros Htz (Hrid & Hiid & Huid) (Hdue & Hret) Hreturned Hc1 Hc2 Hc3
    (Hr1 & Hy1) (Hr2 & Hy2) (Hr3 & Hy3).
  specialize (Hret _ Hreturned).
  destruct (loan_storable tz r Hc1 Hc2 Hc3) as (Hclean & (Hnorm & _) & _).
  set (fields := FilePersistenceService.loan_fields tz r) in *.
  set (data := FilePersistenceService.readCsvFile (FilePersistenceService.loans_csv f)).
  assert (Hfields : fields =
            [ LoanRecord.m_record_id r; LoanRecord.m_item_id r; LoanRecord.m_user_id r;
              DateTimeUtils.formatDateTime tz (LoanRecord.m_loan_date r)
                DateTimeUtils.date_time_format;
              DateTimeUtils.formatDateTime tz (LoanRecord.m_due_date r)
                DateTimeUtils.date_time_format;
              DateTimeUtils.formatDateTime tz returned DateTimeUtils.date_time_format ]).
  { subst fields. unfold FilePersistenceService.loan_fields, LoanRecord.getReturnDate.
    now rewrite Hreturned. }
  assert (Hsettled : norm_row fields = fields).
  { rewrite Hfields. cbn [norm_row].
    pose proof (formatDateTime_not_empty tz returned) as Hne.
    apply empty_false in Hne. now rewrite Hne. }
  exists (FilePersistenceService.mk
            (FilePersistenceService.authors_csv f) (FilePersistenceService.users_csv f)
            (FilePersistenceService.items_csv f)
            (FilePersistenceService.writeCsvFile
               (upsert (LoanRecord.m_record_id r) fields data))).
  split.
  - unfold FilePersistenceService.saveLoanRecord, FilePersistenceService.updateLoanRecord.
    pose proof (assign_record_upsert_eq (LoanRecord.getRecordId r) fields data) as Hup.
    fold data. fold fields.
    destruct (FilePersistenceService.assign_record (LoanRecord.getRecordId r) fields data)
      as [found data1].
    unfold LoanRecord.getRecordId in Hup. now rewrite Hup.
  - unfold FilePersistenceService.loadLoanRecord. cbn [FilePersistenceService.loans_csv].
    rewrite read_write_csv
      by (apply upsert_Forall; [apply read_csv_clean | exact Hclean]).
    f_equal. apply loadLoanRecord_loop_reread_upsert.
    + now rewrite Hfields.
    + now rewrite Hfields.
    + exact Hsettled.
    + rewrite Hfields. unfold FilePersistenceService.loan_of_fields.
      unfold FilePersistenceService.field. cbn [nth].
      rewrite (proj1 (parseDate_after_format tz _ Htz Hy1)),
        (proj1 (parseDate_after_format tz _ Htz Hy2)),
        (proj1 (parseDate_after_format tz _ Htz Hy3)).
      unfold LoanRecord.new.
      apply empty_false in Hrid, Hiid, Huid. rewrite Hrid, Hiid, Huid.
      replace (DateTimeUtils.today tz (LoanRecord.m_due_date r)
                 <? DateTimeUtils.today tz (LoanRecord.m_loan_date r)) with false
        by (symmetry; apply Z.ltb_ge; now apply today_monotone).
      pose proof (formatDateTime_not_empty tz returned) as Hne.
      apply empty_false in Hne. rewrite Hne.
      unfold LoanRecord.setReturnDate. cbn [LoanRecord.m_loan_date].
      replace (DateTimeUtils.today tz returned
                 <? DateTimeUtils.today tz (LoanRecord.m_loan_date r)) with false
        by (symmetry; apply Z.ltb_ge; now apply today_monotone).
      unfold to_the_day. now rewrite Hreturned.
Qed.

Lemma file_returned_loan_survives_the_round_trip_to_the_day_witness :
  exists f',
    FilePersistenceService.saveLoanRecord 3600 FilePersistenceService.new (closed_loan 3600)
      = Ok f' /\
    FilePersistenceService.loadLoanRecord 3600 f' "loan_1"
      = Ok (Some (to_the_day 3600 (closed_loan 3600))).
Proof.
  apply (file_returned_loan_survives_the_round_trip_to_the_day 3600
           FilePersistenceService.new (closed_loan 3600) (local_time 3600 2024 1 8 16 0 0)).
  - reflexivity.
  - repeat split; discriminate.
  - split; [vm_compute; discriminate|]. intros d [= <-]. vm_compute. discriminate.
  - reflexivity.
  - repeat split.
  - repeat split.
  - repeat split.
  - unfold plain_date, clock_reading, four_digit_year. vm_compute.
    repeat split; discriminate.
  - unfold plain_date, clock_reading, four_digit_year. vm_compute.
    repeat split; discriminate.
  - unfold plain_date, clock_reading, four_digit_year. vm_compute.
    repeat split; discriminate.
Defined.

Lemma parseDate_midnight tz s fmt d :
  DateTimeUtils.parseDate tz s fmt = Some d -> starts_a_day tz d.
Proof.
  unfold DateTimeUtils.parseDate.
  destruct (Text.skip_space s) as [|c s']; [discriminate|].
  destruct (DateTimeUtils.get_time fmt _ _) as [v|]; [|discriminate].
  destruct (_ =? -1); [discriminate|]. intros [= <-].
  eexists. split; [|reflexivity].
  unfold DateTimeUtils.mktime, local_midnight. cbv zeta.
  cbn [DateTimeUtils.tm_year DateTimeUtils.tm_mon DateTimeUtils.tm_mday
       DateTimeUtils.tm_hour DateTimeUtils.tm_min DateTimeUtils.tm_sec].
  Z.div_mod_to_equations. lia.
Qed.

Lemma loan_of_fields_sound tz fields r :
  FilePersistenceService.loan_of_fields tz fields = Some r ->
  LoanRecord.ids_ok r /\ LoanRecord.dates_ok r /\ dates_at_midnight tz r /\
  LoanRecord.m_record_id r = FilePersistenceService.field 0 fields.
Proof.
  unfold FilePersistenceService.loan_of_fields.
  destruct (DateTimeUtils.parseDate tz (FilePersistenceService.field 3 fields) _)
    as [loan_date|] eqn:E1; [|discriminate].
  destruct (DateTimeUtils.parseDate tz (FilePersistenceService.field 4 fields) _)
    as [due_date|] eqn:E2; [|discriminate].
  apply parseDate_midnight in E1, E2.
  unfold LoanRecord.new.
  destruct (empty (FilePersistenceService.field 0 fields)) eqn:H0; [discriminate|].
  destruct (empty (FilePersistenceService.field 1 fields)) eqn:H1; [discriminate|].
  destruct (empty (FilePersistenceService.field 2 fields)) eqn:H2; [discriminate|].
  destruct (due_date <? loan_date) eqn:Hd; [discriminate|].
  apply empty_false in H0, H1, H2. apply Z.ltb_ge in Hd.
  assert (Hopen :
    let loan := LoanRecord.mk (FilePersistenceService.field 0 fields)
                  (FilePersistenceService.field 1 fields)
                  (FilePersistenceService.field 2 fields) loan_date due_date None in
    LoanRecord.ids_ok loan /\ LoanRecord.dates_ok loan /\ dates_at_midnight tz loan /\
    LoanRecord.m_record_id loan = FilePersistenceService.field 0 fields).
  { repeat split; simpl; try assumption; discriminate. }
  destruct (empty (FilePersistenceService.field 5 fields)); [now intros [= <-]|].
  destruct (DateTimeUtils.parseDate tz (FilePersistenceService.field 5 fields) _)
    as [return_date|] eqn:E3; [|now intros [= <-]].
  apply parseDate_midnight in E3.
  unfold LoanRecord.setReturnDate. cbn [LoanRecord.m_loan_date].
  destruct (return_date <? loan_date) eqn:Hr; [discriminate|].
  apply Z.ltb_ge in Hr. intros [= <-].
  repeat split; simpl; try assumption; intros d [= <-]; assumption.
Qed.


(** ** The caching backend: operations and construction *)

(** X27. Any sequence of saves, updates and deletes on the caching backend has the
    outcome of the same sequence on its in-memory store and leaves its files
    untouched: nothing reaches the files before [persistAllToFile]. *)
Theorem cache_operations_act_on_memory_only
    (ops : list store_op) (c : CachingFilePersistenceService.t) :
  apply_ops ops c
  = (m <- apply_ops ops (CachingFilePersistenceService.m_memory_store c) ;;
     Ok (CachingFilePersistenceService.mk m (CachingFilePersistenceService.m_file_store c))).
Proof.
  unfold apply_ops. revert c.
  induction ops as [|op ops IH]; intros [mem file]; [reflexivity|].
  cbn [for_each CachingFilePersistenceService.m_memory_store
       CachingFilePersistenceService.m_file_store].
  assert (Hop : apply_op (CachingFilePersistenceService.mk mem file) op
                = (m <- apply_op mem op ;; Ok (CachingFilePersistenceService.mk m file)))
    by (destruct op; reflexivity).
  rewrite Hop. destruct (apply_op mem op) as [mem'| |]; cbn [bind]; try reflexivity.
  apply IH.
Qed.

Section Filling.

Lemma fill_authors : forall authors m,
  produced m -> (forall a, In a authors -> Author.valid a) ->
  exists m',
    for_each (fun m author => InMemoryPersistenceService.saveAuthor m (Some author)) authors m
      = Ok m' /\ produced m' /\
    InMemoryPersistenceService.m_users m' = InMemoryPersistenceService.m_users m.
Proof.
  induction authors as [|a authors IH]; intros m Hp Hv; [now exists m|].
  cbn [for_each InMemoryPersistenceService.saveAuthor bind].
  edestruct IH as (m' & -> & Hp' & Hu).
  - eapply produced_saveAuthor with (a := a); [exact Hp | apply Hv; now left | reflexivity].
  - intros a' Ha'. apply Hv. now right.
  - now exists m'.
Qed.

Lemma fill_users : forall users m,
  produced m -> (forall u, In u users -> User.valid u) ->
  exists m',
    for_each InMemoryPersistenceService.saveUser users m = Ok m' /\ produced m' /\
    InMemoryPersistenceService.m_users m'
      = fold_left (fun mp u => StdMap.set (User.m_user_id u) u mp) users
          (InMemoryPersistenceService.m_users m).
Proof.
  induction users as [|u users IH]; intros m Hp Hv; [now exists m|].
  cbn [for_each fold_left].
  change (InMemoryPersistenceService.saveUser m u)
    with (Ok (InMemoryPersistenceService.mk
                (InMemoryPersistenceService.m_authors m)
                (InMemoryPersistenceService.m_items m)
                (StdMap.set (User.m_user_id u) u (InMemoryPersistenceService.m_users m))
                (InMemoryPersistenceService.m_loan_records m))).
  cbn [bind].
  edestruct IH as (m' & -> & Hp' & Hu).
  - eapply produced_saveUser with (u := u); [exact Hp | apply Hv; now left | reflexivity].
  - intros u' Hu'. apply Hv. now right.
  - now exists m'.
Qed.

Lemma fill_items : forall items m,
  produced m -> (forall b, In b items -> Book.valid b) ->
  exists m',
    for_each (fun m item => InMemoryPersistenceService.saveLibraryItem m (Some item)) items m
      = Ok m' /\ produced m' /\
    InMemoryPersistenceService.m_users m' = InMemoryPersistenceService.m_users m.
Proof.
  induction items as [|b items IH]; intros m Hp Hv; [now exists m|].
  cbn [for_each].
  rewrite memory_saveLibraryItem_valid by (apply Hv; now left). cbn [bind].
  edestruct IH as (m' & -> & Hp' & Hu).
  - eapply produced_saveLibraryItem with (b := b);
      [exact Hp | apply Hv; now left | apply memory_saveLibraryItem_valid, Hv; now left].
  - intros b' Hb'. apply Hv. now right.
  - now exists m'.
Qed.

Lemma fill_loans : forall loans m,
  produced m ->
  (forall r, In r loans -> LoanRecord.ids_ok r /\ LoanRecord.dates_ok r) ->
  exists m',
    for_each InMemoryPersistenceService.saveLoanRecord loans m = Ok m' /\ produced m' /\
    InMemoryPersistenceService.m_users m' = InMemoryPersistenceService.m_users m.
Proof.
  induction loans as [|r loans IH]; intros m Hp Hv; [now exists m|].
  cbn [for_each]. rewrite memory_saveLoanRecord. cbn [bind].
  edestruct IH as (m' & -> & Hp' & Hu).
  - eapply produced_saveLoanRecord with (r := r);
      [exact Hp | apply Hv; now left | apply Hv; now left | apply memory_saveLoanRecord].
  - intros r' Hr'. apply Hv. now right.
  - now exists m'.
Qed.
End Filling.

Lemma loadAllAuthors_loop_valid data :
  forall a, In a (FilePersistenceService.loadAllAuthors_loop data) -> Author.valid a.
Proof.
  induction data as [|fields data IH]; intros a; [contradiction|].
  cbn [FilePersistenceService.loadAllAuthors_loop].
  destruct (List.length fields =? 2)%nat; [|apply IH].
  unfold Author.new.
  destruct (empty (FilePersistenceService.field 0 fields)) eqn:E0; [apply IH|].
  destruct (empty (FilePersistenceService.field 1 fields)) eqn:E1; [apply IH|].
  intros [<- | H]; [|now apply IH].
  split; now apply empty_false.
Qed.

Lemma loadAllUsers_loop_valid data :
  forall u, In u (FilePersistenceService.loadAllUsers_loop data) -> User.valid u.
Proof.
  induction data as [|fields data IH]; intros u; [contradiction|].
  cbn [FilePersistenceService.loadAllUsers_loop].
  destruct (List.length fields =? 2)%nat; [|apply IH].
  unfold User.new.
  destruct (empty (FilePersistenceService.field 0 fields)) eqn:E0; [apply IH|].
  destruct (empty (FilePersistenceService.field 1 fields)) eqn:E1; [apply IH|].
  intros [<- | H]; [|now apply IH].
  split; now apply empty_false.
Qed.

Lemma book_new_valid id title author isbn year status b :
  Book.new id title author isbn year status = Ok b -> Book.valid b.
Proof.
  unfold Book.new.
  destruct (empty id) eqn:E1; [discriminate|].
  destruct (empty title) eqn:E2; [discriminate|].
  destruct author as [a|]; [|discriminate].
  destruct (empty isbn) eqn:E3; [discriminate|].
  destruct (year <=? 0) eqn:E4; [discriminate|].
  intros [= <-]. apply empty_false in E1, E2, E3. apply Z.leb_gt in E4.
  repeat split; simpl; try assumption. discriminate.
Qed.

Lemma book_new_no_fault id title author isbn year status :
  Book.new id title author isbn year status <> Fault.
Proof.
  unfold Book.new. repeat split_match; discriminate.
Qed.

Lemma loadAuthor_loop_no_fault id data :
  FilePersistenceService.loadAuthor_loop id data <> Fault.
Proof.
  induction data as [|fields data IH]; [discriminate|].
  cbn [FilePersistenceService.loadAuthor_loop].
  destruct (_ && _); [|exact IH].
  unfold Author.new. repeat split_match; discriminate.
Qed.

Lemma book_of_fields_outcome s fields :
  match snd (FilePersistenceService.book_of_fields s fields) with
  | Ok b => Book.valid b
  | Throw _ => True
  | Fault => False
  end.
Proof.
  unfold FilePersistenceService.book_of_fields.
  destruct (empty (FilePersistenceService.field 3 fields)).
  - destruct (Text.stoi _); [destruct (Text.stoi _)|]; cbn [snd]; try exact I.
    destruct (Book.new _ _ _ _ _ _) eqn:E; try exact I.
    + eapply book_new_valid; eassumption.
    + now apply book_new_no_fault in E.
  - pose proof (loadAuthor_loop_no_fault (FilePersistenceService.field 3 fields)
                  (FilePersistenceService.readCsvFile (FilePersistenceService.authors_csv s)))
      as Hnf.
    unfold FilePersistenceService.loadAuthor.
    destruct (FilePersistenceService.loadAuthor_loop _ _) as [author| |];
      [|exact I|contradiction].
    destruct (Text.stoi _); [destruct (Text.stoi _)|]; cbn [snd]; try exact I.
    destruct (Book.new _ _ _ _ _ _) eqn:E; try exact I.
    + eapply book_new_valid; eassumption.
    + now apply book_new_no_fault in E.
Qed.

Lemma loadAllLibraryItems_loop_valid s data :
  exists items,
    FilePersistenceService.loadAllLibraryItems_loop s data = Ok items /\
    forall b, In b items -> Book.valid b.
Proof.
  induction data as [|fields data (items & IH & Hv)]; [now exists []|].
  cbn [FilePersistenceService.loadAllLibraryItems_loop].
  destruct (_ && _); [|now exists items].
  pose proof (book_of_fields_outcome s fields) as Hb.
  destruct (snd (FilePersistenceService.book_of_fields s fields)) as [b| |];
    [|now exists items|contradiction].
  rewrite IH. cbn [bind]. exists (b :: items). split; [reflexivity|].
  intros b' [<- | H]; auto.
Qed.

Lemma loadAllLoanRecords_loop_valid tz data :
  forall r, In r (FilePersistenceService.loadAllLoanRecords_loop tz data) ->
            LoanRecord.ids_ok r /\ LoanRecord.dates_ok r.
Proof.
  induction data as [|fields data IH]; intros r; [contradiction|].
  cbn [FilePersistenceService.loadAllLoanRecords_loop].
  destruct (List.length fields =? 6)%nat; [|apply IH].
  destruct (FilePersistenceService.loan_of_fields tz fields) as [loan|] eqn:E; [|apply IH].
  intros [<- | H]; [|now apply IH].
  destruct (loan_of_fields_sound _ _ _ E) as (H1 & H2 & _). now split.
Qed.

Lemma find_snoc {A : Type} (p : A -> bool) (l : list A) (x : A) :
  List.find p (List.app l [x])
  = match List.find p l with
    | Some y => Some y
    | None => if p x then Some x else None
    end.
Proof.
  induction l as [|y l IH]; [reflexivity|].
  simpl. destruct (p y); [reflexivity | exact IH].
Qed.

Lemma find_fold_set users : forall (m0 : StdMap.t User.t) id,
  StdMap.find id
    (fold_left (fun mp u => StdMap.set (User.m_user_id u) u mp) users m0)
  = match List.find (is_user id) (rev users) with
    | Some u => Some u
    | None => StdMap.find id m0
    end.
Proof.
  induction users as [|u users IH]; intros m0 id; [reflexivity|].
  cbn [fold_left rev]. rewrite IH.
  rewrite find_snoc. destruct (List.find (is_user id) (rev users)); [reflexivity|].
  unfold is_user. destruct (String.eqb (User.m_user_id u) id) eqn:E.
  - apply String.eqb_eq in E. subst id. apply find_set_same.
  - apply String.eqb_neq in E. apply find_set_other. congruence.
Qed.

Lemma loadUser_loop_find id data :
  FilePersistenceService.loadUser_loop id data
  = List.find (is_user id) (FilePersistenceService.loadAllUsers_loop data).
Proof.
  induction data as [|fields data IH]; [reflexivity|].
  cbn [FilePersistenceService.loadUser_loop FilePersistenceService.loadAllUsers_loop].
  destruct (List.length fields =? 2)%nat; cbn [andb]; [|exact IH].
  unfold User.new.
  destruct (empty (FilePersistenceService.field 0 fields)) eqn:E0.
  { destruct (String.eqb _ id); exact IH. }
  destruct (empty (FilePersistenceService.field 1 fields)) eqn:E1.
  { destruct (String.eqb _ id); exact IH. }
  cbn [List.find]. unfold is_user at 1. cbn [User.m_user_id].
  destruct (String.eqb (FilePersistenceService.field 0 fields) id); [reflexivity | exact IH].
Qed.

(** X28. Constructing the caching backend over any files succeeds and leaves the
    files as they are.  When a user id occurs in several records of the users
    file, the cache holds the last of them, while the file backend loads the
    first. *)
Theorem cache_is_built_from_the_files_and_keeps_the_last_record_of_a_user
    (tz : Z) (f : FilePersistenceService.t) :
  exists c users,
    CachingFilePersistenceService.new tz f = Ok c /\
    CachingFilePersistenceService.m_file_store c = f /\
    produced (CachingFilePersistenceService.m_memory_store c) /\
    FilePersistenceService.loadAllUsers f = Ok users /\
    forall user_id,
      CachingFilePersistenceService.loadUser c user_id
        = Ok (List.find (is_user user_id) (rev users)) /\
      FilePersistenceService.loadUser f user_id = Ok (List.find (is_user user_id) users).
Proof.
  unfold CachingFilePersistenceService.new, CachingFilePersistenceService.loadAllFromFileToMemory.
  unfold FilePersistenceService.loadAllAuthors, FilePersistenceService.loadAllUsers,
    FilePersistenceService.loadAllLibraryItems, FilePersistenceService.loadAllLoanRecords.
  cbn [bind].
  destruct (fill_authors _ _ produced_new
              (loadAllAuthors_loop_valid
                 (FilePersistenceService.readCsvFile (FilePersistenceService.authors_csv f))))
    as (m1 & -> & Hp1 & Hu1).
  cbn [bind].
  destruct (fill_users _ _ Hp1
              (loadAllUsers_loop_valid
                 (FilePersistenceService.readCsvFile (FilePersistenceService.users_csv f))))
    as (m2 & -> & Hp2 & Hu2).
  cbn [bind].
  destruct (loadAllLibraryItems_loop_valid f
              (FilePersistenceService.readCsvFile (FilePersistenceService.items_csv f)))
    as (items & -> & Hitems).
  cbn [bind].
  destruct (fill_items _ _ Hp2 Hitems) as (m3 & -> & Hp3 & Hu3).
  cbn [bind].
  destruct (fill_loans _ _ Hp3
              (loadAllLoanRecords_loop_valid tz
                 (FilePersistenceService.readCsvFile (FilePersistenceService.loans_csv f))))
    as (m4 & -> & Hp4 & Hu4).
  cbn [bind].
  eexists _, _. split; [reflexivity|]. split; [reflexivity|]. split; [exact Hp4|].
  split; [reflexivity|]. intros user_id. split.
  - unfold CachingFilePersistenceService.loadUser, InMemoryPersistenceService.loadUser.
    cbn [CachingFilePersistenceService.m_memory_store].
    rewrite Hu4, Hu3, Hu2, Hu1, find_fold_set. cbn [InMemoryPersistenceService.new
      InMemoryPersistenceService.m_users StdMap.find].
    now destruct (List.find _ _).
  - unfold FilePersistenceService.loadUser. now rewrite loadUser_loop_find.
Qed.

(** ** The command line, and the setters of a book *)

Lemma quote_free_app a b :
  quote_free (a ++ b) = quote_free a && quote_free b.
Proof.
  induction a as [|c a IH]; [reflexivity|].
  simpl. rewrite IH. now rewrite andb_assoc.
Qed.

Lemma empty_append_char cur ch : empty (cur ++ String ch EmptyString) = false.
Proof. now destruct cur. Qed.

Lemma readCommandArgs_loop_arguments line : forall args current_arg in_quotes,
  Forall argument args -> quote_free current_arg = true ->
  Forall argument (App.readCommandArgs_loop line args current_arg in_quotes).
Proof.
  assert (Hpush : forall args cur, Forall argument args -> quote_free cur = true ->
                    empty cur = false -> Forall argument (List.app args [cur])).
  { intros args cur Ha Hq He. apply Forall_app. split; [exact Ha|].
    constructor; [|constructor]. split; [|exact Hq]. now apply empty_false. }
  induction line as [|ch rest IH]; intros args cur q Ha Hq;
    cbn [App.readCommandArgs_loop].
  - destruct (empty cur) eqn:E; cbn [negb]; auto.
  - destruct (Ascii.eqb ch Text.quote) eqn:Eq.
    + destruct (empty cur) eqn:E, q; cbn [negb andb]; auto.
    + destruct (Ascii.eqb ch " " && negb q).
      * destruct (empty cur) eqn:E; cbn [negb]; auto.
      * apply IH; [exact Ha|]. rewrite quote_free_app. cbn [quote_free].
        now rewrite Hq, Eq.
Qed.

Lemma readCommandArgs_loop_in_quotes a : forall rest args cur,
  quote_free a = true -> empty (cur ++ a) = false ->
  App.readCommandArgs_loop (a ++ String Text.quote rest) args cur true
  = App.readCommandArgs_loop rest (List.app args [cur ++ a]) EmptyString false.
Proof.
  induction a as [|c a IH]; intros rest args cur Hq He.
  - rewrite append_empty_r in *. cbn [append App.readCommandArgs_loop].
    rewrite Ascii.eqb_refl, He. reflexivity.
  - cbn [quote_free] in Hq. apply andb_true_iff in Hq as [Hc Hq].
    apply negb_true_iff in Hc.
    cbn [append App.readCommandArgs_loop]. rewrite Hc, andb_false_r.
    replace (cur ++ String c a) with ((cur ++ String c EmptyString) ++ a)
      by (now rewrite append_assoc).
    apply IH; [exact Hq|]. rewrite append_assoc. cbn [append]. exact He.
Qed.

Lemma readCommandArgs_loop_quoted a rest args :
  argument a ->
  App.readCommandArgs_loop (quoted a ++ rest) args EmptyString false
  = App.readCommandArgs_loop rest (List.app args [a]) EmptyString false.
Proof.
  intros [Hne Hq]. unfold quoted. cbn [append App.readCommandArgs_loop].
  rewrite Ascii.eqb_refl. cbn [negb andb]. rewrite append_assoc. cbn [append].
  rewrite readCommandArgs_loop_in_quotes; [reflexivity | exact Hq |].
  cbn [append]. destruct a; [contradiction | reflexivity].
Qed.

Lemma readCommandArgs_loop_command_line args : forall acc,
  Forall argument args ->
  App.readCommandArgs_loop (command_line args) acc EmptyString false
  = List.app acc args.
Proof.
  induction args as [|a rest IH]; intros acc Hall.
  - cbn. now rewrite app_nil_r.
  - inversion Hall as [|? ? Ha Hrest]; subst. cbn [command_line].
    destruct rest as [|a' rest'].
    + rewrite <- (append_empty_r (quoted a)).
      rewrite readCommandArgs_loop_quoted by exact Ha. reflexivity.
    + rewrite readCommandArgs_loop_quoted by exact Ha.
      cbn [App.readCommandArgs_loop].
      change (Ascii.eqb " " Text.quote) with false. cbn [Ascii.eqb andb negb empty].
      change (Ascii.eqb " " " ") with true. cbn [andb negb empty].
      rewrite IH by exact Hrest. now rewrite <- app_assoc.
Qed.

(** X29. The arguments that [readCommandArgs] returns are never empty and never
    contain a double quote; and for every list of such arguments, the line
    that writes each one between double quotes, one space apart, is read back
    as that list. *)
Theorem read_command_args_yields_exactly_the_quoted_arguments :
  (forall line, Forall argument (App.readCommandArgs line)) /\
  (forall args, Forall argument args -> App.readCommandArgs (command_line args) = args).
Proof.
  split.
  - intros line. now apply readCommandArgs_loop_arguments.
  - intros args Hall. unfold App.readCommandArgs.
    now rewrite readCommandArgs_loop_command_line.
Qed.

Lemma read_command_args_yields_exactly_the_quoted_arguments_witness :
  Forall argument (App.readCommandArgs ("addBook b1 " ++ quoted "The Hobbit")) /\
  App.readCommandArgs (command_line ["addBook"; "The Hobbit"]) = ["addBook"; "The Hobbit"].
Proof.
  split.
  - apply (proj1 read_command_args_yields_exactly_the_quoted_arguments).
  - apply (proj2 read_command_args_yields_exactly_the_quoted_arguments).
    repeat constructor; discriminate.
Defined.

Lemma after_call_valid b c : Book.valid b -> Book.valid (Book.after_call b c).
Proof.
  intros (H1 & H2 & H3 & H4 & H5). unfold Book.after_call, Book.valid.
  destruct c as [title|author|year|isbn|status]; cbn [Book.apply_call].
  - unfold Book.setTitle. destruct (empty title) eqn:E; cbn; repeat split; auto.
    now apply empty_false.
  - unfold Book.setAuthor. destruct author; cbn; repeat split; auto. discriminate.
  - unfold Book.setPublicationYear. destruct (year <=? 0) eqn:E; cbn; repeat split; auto.
    now apply Z.leb_gt.
  - unfold Book.setIsbn. destruct (empty isbn) eqn:E; cbn; repeat split; auto.
    now apply empty_false.
  - cbn. repeat split; auto.
Qed.

Lemma after_call_id b c : Book.m_id (Book.after_call b c) = Book.m_id b.
Proof.
  unfold Book.after_call.
  destruct c as [title|author|year|isbn|status]; cbn [Book.apply_call].
  - unfold Book.setTitle. now destruct (empty title).
  - unfold Book.setAuthor. now destruct author.
  - unfold Book.setPublicationYear. now destruct (year <=? 0).
  - unfold Book.setIsbn. now destruct (empty isbn).
  - reflexivity.
Qed.

(** X30. A book made by the constructor still satisfies the checks of the
    constructor after any sequence of setter calls, those that raise included;
    its id never changes and it can always be cloned. *)
Theorem book_setters_keep_what_the_constructor_checked
    (id title : string) (author : option Author.t) (isbn : string) (year : Z)
    (status : AvailabilityStatus) (b : Book.t) (cs : list Book.call) :
  Book.new id title author isbn year status = Ok b ->
  Book.valid (Book.after_calls b cs) /\
  Book.m_id (Book.after_calls b cs) = id /\
  Book.clone (Book.after_calls b cs) = Ok (Book.after_calls b cs).
Proof.
  intros Hnew. pose proof (book_new_valid _ _ _ _ _ _ _ Hnew) as Hv.
  assert (Hid : Book.m_id b = id).
  { unfold Book.new in Hnew.
    destruct (empty id); [discriminate|]. destruct (empty title); [discriminate|].
    destruct author; [|discriminate]. destruct (empty isbn); [discriminate|].
    destruct (year <=? 0); [discriminate|]. now injection Hnew as <-. }
  clear Hnew. revert b Hv Hid. unfold Book.after_calls.
  induction cs as [|c cs IH]; intros b Hv Hid; cbn [fold_left].
  - split; [exact Hv|]. split; [exact Hid | now apply clone_valid].
  - apply IH; [now apply after_call_valid | now rewrite after_call_id].
Qed.

Lemma book_setters_keep_what_the_constructor_checked_witness :
  let b := Book.mk "b1" "First" (Some (Author.mk "a1" "Ann")) "isbn-1" 1999 AVAILABLE in
  let cs := [Book.CallSetTitle EmptyString; Book.CallSetPublicationYear (-5);
             Book.CallSetAuthor None; Book.CallSetIsbn "isbn-2";
             Book.CallSetAvailabilityStatus BORROWED] in
  Book.valid (Book.after_calls b cs) /\
  Book.m_id (Book.after_calls b cs) = "b1" /\
  Book.clone (Book.after_calls b cs) = Ok (Book.after_calls b cs).
Proof.
  intros b cs.
  apply (book_setters_keep_what_the_constructor_checked
           "b1" "First" (Some (Author.mk "a1" "Ann")) "isbn-1" 1999 AVAILABLE b cs).
  reflexivity.
Defined.

(** ** Persisting the cache, record by record *)

Lemma In_upsert_new id fields data : In fields (upsert id fields data).
Proof.
  induction data as [|r data IH]; cbn [upsert]; [now left|].
  destruct (FilePersistenceService.has_id id r); [now left | now right].
Qed.

Lemma In_upsert_other id fields data row :
  In row data -> FilePersistenceService.has_id id row = false ->
  In row (upsert id fields data).
Proof.
  induction data as [|r data IH]; cbn [upsert]; [contradiction|].
  intros [-> | Hin] Hrow.
  - rewrite Hrow. now left.
  - destruct (FilePersistenceService.has_id id r); right; auto.
Qed.

(** A loop of saves, each of which makes its own id load and leaves the
    other ids as they load. *)
Section ForEachLoad.
Context {X R : Type}.
Variable save : FilePersistenceService.t -> X -> outcome FilePersistenceService.t.
Variable load : FilePersistenceService.t -> string -> R.
Variable hit : X -> R.
Variable id_of : X -> string.
Variable inv : FilePersistenceService.t -> Prop.
Variable good : X -> Prop.

Hypothesis save_loads :
  forall f x, inv f -> good x ->
  exists f',
    save f x = Ok f' /\ inv f' /\ load f' (id_of x) = hit x /\
    forall id', id' <> id_of x -> load f' id' = load f id'.

Lemma for_each_loads : forall L f,
  inv f -> (forall x, In x L -> good x) -> NoDup (map id_of L) ->
  exists f',
    for_each save L f = Ok f' /\ inv f' /\
    (forall x, In x L -> load f' (id_of x) = hit x) /\
    (forall id', ~ In id' (map id_of L) -> load f' id' = load f id').
Proof.
  induction L as [|x L IH]; intros f Hinv Hgood Hnd; cbn [for_each map].
  - exists f. repeat split; [assumption | contradiction].
  - inversion Hnd as [|? ? Hfresh Hnd']; subst.
    destruct (save_loads f x Hinv (Hgood x (or_introl eq_refl)))
      as (f1 & -> & Hinv1 & Hhit & Hother).
    destruct (IH f1 Hinv1 (fun y Hy => Hgood y (or_intror Hy)) Hnd')
      as (f' & Hrun & Hinv' & Hall & Hrest).
    cbn [bind]. exists f'. split; [exact Hrun|]. split; [exact Hinv'|]. split.
    + intros y [<- | Hy]; [|now apply Hall].
      rewrite (Hrest _ Hfresh). exact Hhit.
    + intros id' Hid'. rewrite Hrest by (intros H; apply Hid'; now right).
      apply Hother. intros ->. apply Hid'. now left.
Qed.
End ForEachLoad.

(** A loop of saves, each of which replaces or appends one whole record. *)
Section ForEachRows.
Context {X : Type}.
Variable save : FilePersistenceService.t -> X -> outcome FilePersistenceService.t.
Variable col : FilePersistenceService.t -> string.
Variable id_of : X -> string.
Variable fields_of : X -> list string.

Hypothesis save_rows :
  forall f x f', clean_record (fields_of x) -> save f x = Ok f' ->
  FilePersistenceService.readCsvFile (col f')
    = reread (upsert (id_of x) (fields_of x) (FilePersistenceService.readCsvFile (col f))).

Lemma for_each_rows : forall L f f',
  (forall x, In x L -> storable (id_of x) (fields_of x)) ->
  NoDup (map id_of L) ->
  for_each save L f = Ok f' ->
  (forall x, In x L -> record_in_file (fields_of x) (col f')) /\
  (forall row,
     settled row ->
     (forall x, In x L -> FilePersistenceService.has_id (id_of x) row = false) ->
     In row (FilePersistenceService.readCsvFile (col f)) ->
     In row (FilePersistenceService.readCsvFile (col f'))).
Proof.
  induction L as [|x L IH]; intros f f' Hst Hnd Hrun; cbn [for_each] in Hrun.
  - injection Hrun as <-. split; [contradiction | auto].
  - destruct (save f x) as [f1| |] eqn:Hsave; try discriminate. cbn [bind] in Hrun.
    inversion Hnd as [|? ? Hfresh Hnd']; subst.
    destruct (Hst x (or_introl eq_refl)) as (Hclean & Hsettled & Hid).
    pose proof (save_rows f x f1 Hclean Hsave) as Hrows.
    destruct (IH f1 f' (fun y Hy => Hst y (or_intror Hy)) Hnd' Hrun) as (Hall & Hkeep).
    assert (Hstep : forall row,
              settled row -> FilePersistenceService.has_id (id_of x) row = false ->
              In row (FilePersistenceService.readCsvFile (col f)) ->
              In row (FilePersistenceService.readCsvFile (col f1))).
    { intros row [Hnorm Hne] Hrow Hin. rewrite Hrows, <- Hnorm.
      apply In_reread; [now apply In_upsert_other | now rewrite Hnorm]. }
    split.
    + intros y [<- | Hy]; [|now apply Hall].
      unfold record_in_file. apply Hkeep.
      * exact Hsettled.
      * intros y Hy. apply (has_id_other (id_of x)); [exact Hid|].
        intros Heq. apply Hfresh. rewrite Heq. now apply in_map.
      * rewrite Hrows. apply In_reread; [apply In_upsert_new|].
        destruct Hsettled as [_ Hne]. exact Hne.
    + intros row Hs Hnone Hin. apply Hkeep; [exact Hs | |].
      * intros y Hy. apply Hnone. now right.
      * apply Hstep; [exact Hs | apply Hnone; now left | exact Hin].
Qed.
End ForEachRows.

Lemma saveLibraryItem_rows f b f' :
  clean_record (FilePersistenceService.book_fields b) ->
  FilePersistenceService.saveLibraryItem f (Some b) = Ok f' ->
  FilePersistenceService.readCsvFile (FilePersistenceService.items_csv f')
    = reread (upsert (Book.m_id b) (FilePersistenceService.book_fields b)
                (FilePersistenceService.readCsvFile (FilePersistenceService.items_csv f))).
Proof.
  intros Hclean. unfold FilePersistenceService.saveLibraryItem, Book.getId.
  pose proof (assign_record_upsert_eq (Book.m_id b) (FilePersistenceService.book_fields b)
                (FilePersistenceService.readCsvFile (FilePersistenceService.items_csv f)))
    as Hup.
  destruct (FilePersistenceService.assign_record _ _ _) as [found data1].
  intros [= <-]. cbn [FilePersistenceService.items_csv]. rewrite Hup.
  apply read_write_csv. apply upsert_Forall; [apply read_csv_clean | exact Hclean].
Qed.

Lemma saveLoanRecord_rows tz f r f' :
  clean_record (FilePersistenceService.loan_fields tz r) ->
  FilePersistenceService.saveLoanRecord tz f r = Ok f' ->
  FilePersistenceService.readCsvFile (FilePersistenceService.loans_csv f')
    = reread (upsert (LoanRecord.m_record_id r) (FilePersistenceService.loan_fields tz r)
                (FilePersistenceService.readCsvFile (FilePersistenceService.loans_csv f))).
Proof.
  intros Hclean.
  unfold FilePersistenceService.saveLoanRecord, FilePersistenceService.updateLoanRecord,
    LoanRecord.getRecordId.
  pose proof (assign_record_upsert_eq (LoanRecord.m_record_id r)
                (FilePersistenceService.loan_fields tz r)
                (FilePersistenceService.readCsvFile (FilePersistenceService.loans_csv f)))
    as Hup.
  destruct (FilePersistenceService.assign_record _ _ _) as [found data1].
  intros [= <-]. cbn [FilePersistenceService.loans_csv]. rewrite Hup.
  apply read_write_csv. apply upsert_Forall; [apply read_csv_clean | exact Hclean].
Qed.

Lemma loadAuthor_same_file f f' id :
  FilePersistenceService.authors_csv f' = FilePersistenceService.authors_csv f ->
  FilePersistenceService.loadAuthor f' id = FilePersistenceService.loadAuthor f id.
Proof. intros H. unfold FilePersistenceService.loadAuthor. now rewrite H. Qed.

Lemma loadUser_same_file f f' id :
  FilePersistenceService.users_csv f' = FilePersistenceService.users_csv f ->
  FilePersistenceService.loadUser f' id = FilePersistenceService.loadUser f id.
Proof. intros H. unfold FilePersistenceService.loadUser. now rewrite H. Qed.

(** C2, as the code has it.  From files whose author and user records have
    two fields, [persistAllToFile] completes and leaves the memory store as it
    was.  Afterwards the file backend loads every author and user held in
    memory, and loads an author or user id that memory does not hold exactly
    as it did before; every item and loan record held in memory has its
    record in the file of its kind, and the records that these files held
    under ids that memory does not hold, with a last field that is not empty,
    are all still there: the files are upserted into, record by record, not
    overwritten. *)
Theorem persist_all_upserts_memory_into_files (tz : Z)
    (c : CachingFilePersistenceService.t) :
  let mem := CachingFilePersistenceService.m_memory_store c in
  let file := CachingFilePersistenceService.m_file_store c in
  memory_wf mem -> memory_unique mem -> memory_clean mem ->
  pair_file (FilePersistenceService.authors_csv file) ->
  pair_file (FilePersistenceService.users_csv file) ->
  exists c',
    CachingFilePersistenceService.persistAllToFile tz c = Ok c' /\
    CachingFilePersistenceService.m_memory_store c' = mem /\
    let file' := CachingFilePersistenceService.m_file_store c' in
    (forall a, In a (StdMap.values (InMemoryPersistenceService.m_authors mem)) ->
       FilePersistenceService.loadAuthor file' (Author.m_id a) = Ok (Some a)) /\
    (forall id, ~ In id (StdMap.keys (InMemoryPersistenceService.m_authors mem)) ->
       FilePersistenceService.loadAuthor file' id = FilePersistenceService.loadAuthor file id) /\
    (forall u, In u (StdMap.values (InMemoryPersistenceService.m_users mem)) ->
       FilePersistenceService.loadUser file' (User.m_user_id u) = Ok (Some u)) /\
    (forall id, ~ In id (StdMap.keys (InMemoryPersistenceService.m_users mem)) ->
       FilePersistenceService.loadUser file' id = FilePersistenceService.loadUser file id) /\
    (forall b, In b (StdMap.values (InMemoryPersistenceService.m_items mem)) ->
       record_in_file (FilePersistenceService.book_fields b)
         (FilePersistenceService.items_csv file')) /\
    (forall r, In r (StdMap.values (InMemoryPersistenceService.m_loan_records mem)) ->
       record_in_file (FilePersistenceService.loan_fields tz r)
         (FilePersistenceService.loans_csv file')) /\
    (forall row,
       foreign_record (StdMap.keys (InMemoryPersistenceService.m_items mem)) row ->
       In row (FilePersistenceService.readCsvFile (FilePersistenceService.items_csv file)) ->
       In row (FilePersistenceService.readCsvFile (FilePersistenceService.items_csv file'))) /\
    (forall row,
       foreign_record (StdMap.keys (InMemoryPersistenceService.m_loan_records mem)) row ->
       In row (FilePersistenceService.readCsvFile (FilePersistenceService.loans_csv file)) ->
       In row (FilePersistenceService.readCsvFile (FilePersistenceService.loans_csv file'))).
Proof.
  intros mem file Hwf Huniq Hclean Hpair_a Hpair_u.
  (* authors *)
  destruct (for_each_loads
              (fun f author => FilePersistenceService.saveAuthor f (Some author))
              FilePersistenceService.loadAuthor (fun a => Ok (Some a)) Author.m_id
              (fun f => pair_file (FilePersistenceService.authors_csv f))
              (fun a => Author.valid a /\ clean_record (author_fields a))
              (fun f a Hf Ha => saveAuthor_pairs f a (proj1 Ha) (proj2 Ha) Hf)
              (StdMap.values (InMemoryPersistenceService.m_authors mem)) file Hpair_a)
    as (file1 & Hrun1 & _ & Hall1 & Hrest1).
  { intros a Ha. split; [|now apply (clean_authors _ Hclean)].
    apply In_values in Ha as (k & Ha). apply (wf_authors_valid _ Hwf _ _ Ha). }
  { rewrite (keyed_ids _ _ (wf_authors_keyed _ Hwf)). apply (unique_authors _ Huniq). }
  rewrite (keyed_ids _ _ (wf_authors_keyed _ Hwf)) in Hrest1.
  pose proof (for_each_frame _ FilePersistenceService.users_csv
                (fun f x f' H => proj1 (proj2 (saveAuthor_step f x f' H))) _ _ _ Hrun1) as Hu1.
  pose proof (for_each_frame _ FilePersistenceService.items_csv
                (fun f x f' H => proj1 (proj2 (proj2 (saveAuthor_step f x f' H)))) _ _ _ Hrun1)
    as Hi1.
  pose proof (for_each_frame _ FilePersistenceService.loans_csv
                (fun f x f' H => proj2 (proj2 (proj2 (saveAuthor_step f x f' H)))) _ _ _ Hrun1)
    as Hl1.
  (* users *)
  rewrite <- Hu1 in Hpair_u.
  destruct (for_each_loads FilePersistenceService.saveUser
              FilePersistenceService.loadUser (fun u => Ok (Some u)) User.m_user_id
              (fun f => pair_file (FilePersistenceService.users_csv f))
              (fun u => User.valid u /\ clean_record (user_fields u))
              (fun f u Hf Hu => saveUser_pairs f u (proj1 Hu) (proj2 Hu) Hf)
              (StdMap.values (InMemoryPersistenceService.m_users mem)) file1 Hpair_u)
    as (file2 & Hrun2 & _ & Hall2 & Hrest2).
  { intros u Hu. split; [|now apply (clean_users _ Hclean)].
    apply In_values in Hu as (k & Hu). apply (wf_users_valid _ Hwf _ _ Hu). }
  { rewrite (keyed_ids _ _ (wf_users_keyed _ Hwf)). apply (unique_users _ Huniq). }
  rewrite (keyed_ids _ _ (wf_users_keyed _ Hwf)) in Hrest2.
  pose proof (for_each_frame _ FilePersistenceService.authors_csv
                (fun f x f' H => proj1 (proj2 (saveUser_step f x f' H))) _ _ _ Hrun2) as Ha2.
  pose proof (for_each_frame _ FilePersistenceService.items_csv
                (fun f x f' H => proj1 (proj2 (proj2 (saveUser_step f x f' H)))) _ _ _ Hrun2)
    as Hi2.
  pose proof (for_each_frame _ FilePersistenceService.loans_csv
                (fun f x f' H => proj2 (proj2 (proj2 (saveUser_step f x f' H)))) _ _ _ Hrun2)
    as Hl2.
  (* items *)
  destruct (for_each_succeeds
              (fun f item => FilePersistenceService.saveLibraryItem f (Some item))
              (fun _ => True) (fun _ => True)
              (fun f b _ _ => saveLibraryItem_total f b)
              (StdMap.values (InMemoryPersistenceService.m_items mem)) file2 I
              (fun _ _ => I))
    as (file3 & Hrun3 & _).
  destruct (for_each_rows
              (fun f item => FilePersistenceService.saveLibraryItem f (Some item))
              FilePersistenceService.items_csv Book.m_id FilePersistenceService.book_fields
              saveLibraryItem_rows _ _ _
              (fun b Hb =>
                 match clean_items _ Hclean b Hb with
                 | conj H1 (conj H2 (conj H3 H4)) => book_storable b H1 H2 H3 H4
                 end)
              ltac:(rewrite (keyed_ids _ _ (wf_items_keyed _ Hwf));
                    apply (unique_items _ Huniq))
              Hrun3)
    as (Hin3 & Hkeep3).
  pose proof (for_each_frame _ FilePersistenceService.authors_csv
                (fun f x f' H => proj1 (proj2 (saveLibraryItem_step f x f' H))) _ _ _ Hrun3)
    as Ha3.
  pose proof (for_each_frame _ FilePersistenceService.users_csv
                (fun f x f' H => proj1 (proj2 (proj2 (saveLibraryItem_step f x f' H)))) _ _ _ Hrun3)
    as Hu3.
  pose proof (for_each_frame _ FilePersistenceService.loans_csv
                (fun f x f' H => proj2 (proj2 (proj2 (saveLibraryItem_step f x f' H)))) _ _ _ Hrun3)
    as Hl3.
  (* loans *)
  destruct (for_each_succeeds (FilePersistenceService.saveLoanRecord tz)
              (fun _ => True) (fun _ => True)
              (fun f r _ _ => saveLoanRecord_total tz f r)
              (StdMap.values (InMemoryPersistenceService.m_loan_records mem)) file3 I
              (fun _ _ => I))
    as (file4 & Hrun4 & _).
  destruct (for_each_rows (FilePersistenceService.saveLoanRecord tz)
              FilePersistenceService.loans_csv LoanRecord.m_record_id
              (FilePersistenceService.loan_fields tz)
              (saveLoanRecord_rows tz) _ _ _
              (fun r Hr =>
                 match clean_loans _ Hclean r Hr with
                 | conj H1 (conj H2 H3) => loan_storable tz r H1 H2 H3
                 end)
              ltac:(rewrite (keyed_ids _ _ (wf_loans_keyed _ Hwf));
                    apply (unique_loans _ Huniq))
              Hrun4)
    as (Hin4 & Hkeep4).
  pose proof (for_each_frame _ FilePersistenceService.authors_csv
                (fun f x f' H => proj1 (proj2 (saveLoanRecord_step tz f x f' H))) _ _ _ Hrun4)
    as Ha4.
  pose proof (for_each_frame _ FilePersistenceService.users_csv
                (fun f x f' H => proj1 (proj2 (proj2 (saveLoanRecord_step tz f x f' H)))) _ _ _ Hrun4)
    as Hu4.
  pose proof (for_each_frame _ FilePersistenceService.items_csv
                (fun f x f' H => proj2 (proj2 (proj2 (saveLoanRecord_step tz f x f' H)))) _ _ _ Hrun4)
    as Hi4.
  (* the whole run *)
  exists (CachingFilePersistenceService.mk mem file4).
  split.
  { unfold CachingFilePersistenceService.persistAllToFile.
    fold mem. fold file.
    unfold InMemoryPersistenceService.loadAllAuthors, InMemoryPersistenceService.loadAllUsers,
      InMemoryPersistenceService.loadAllLibraryItems,
      InMemoryPersistenceService.loadAllLoanRecords.
    cbn [bind]. rewrite Hrun1. cbn [bind]. rewrite Hrun2. cbn [bind].
    rewrite map_outcome_clone.
    - cbn [bind]. rewrite Hrun3. cbn [bind]. rewrite Hrun4. reflexivity.
    - intros b Hb. apply In_values in Hb as (k & Hb).
      apply (wf_items_valid _ Hwf _ _ Hb). }
  split; [reflexivity|].
  cbn [CachingFilePersistenceService.m_file_store].
  assert (Hids : forall {V : Type} (id : V -> string) (m : StdMap.t V) row,
             keyed_by id m ->
             (forall k, In k (StdMap.keys m) -> FilePersistenceService.has_id k row = false) ->
             forall x, In x (StdMap.values m) -> FilePersistenceService.has_id (id x) row = false).
  { intros V id m row Hk Hnone x Hx. apply Hnone.
    rewrite <- (keyed_ids id m Hk). now apply in_map. }
  assert (Hauthors : forall id,
            FilePersistenceService.loadAuthor file4 id
              = FilePersistenceService.loadAuthor file1 id).
  { intros id. apply loadAuthor_same_file. now rewrite Ha4, Ha3, Ha2. }
  assert (Husers : forall id,
            FilePersistenceService.loadUser file4 id
              = FilePersistenceService.loadUser file2 id).
  { intros id. apply loadUser_same_file. now rewrite Hu4, Hu3. }
  split; [|split; [|split; [|split; [|split; [|split; [|split]]]]]].
  - intros a Ha. rewrite Hauthors. now apply Hall1.
  - intros id Hid. rewrite Hauthors. now apply Hrest1.
  - intros u Hu. rewrite Husers. now apply Hall2.
  - intros id Hid. rewrite Husers, (Hrest2 _ Hid). apply loadUser_same_file. exact Hu1.
  - intros b Hb. unfold record_in_file. rewrite Hi4. now apply Hin3.
  - exact Hin4.
  - intros row [Hs Hnone] Hin. rewrite Hi4. apply Hkeep3; [exact Hs| |].
    + apply (Hids _ _ _ _ (wf_items_keyed _ Hwf) Hnone).
    + now rewrite Hi2, Hi1.
  - intros row [Hs Hnone] Hin. apply Hkeep4; [exact Hs| |].
    + apply (Hids _ _ _ _ (wf_loans_keyed _ Hwf) Hnone).
    + now rewrite Hl3, Hl2, Hl1.
Qed.

Lemma persist_all_upserts_memory_into_files_witness :
  exists c',
    CachingFilePersistenceService.persistAllToFile 0 sample_cache = Ok c' /\
    FilePersistenceService.loadAuthor (CachingFilePersistenceService.m_file_store c') "a1"
      = Ok (Some (Author.mk "a1" "Ann")) /\
    FilePersistenceService.loadAuthor (CachingFilePersistenceService.m_file_store c') "a2"
      = Ok (Some (Author.mk "a2" "Bob")) /\
    FilePersistenceService.loadUser (CachingFilePersistenceService.m_file_store c') "u1"
      = Ok (Some (User.mk "u1" "Uma")) /\
    record_in_file (FilePersistenceService.loan_fields 0 (open_loan 0))
      (FilePersistenceService.loans_csv (CachingFilePersistenceService.m_file_store c')).
Proof.
  destruct (persist_all_upserts_memory_into_files 0 sample_cache)
    as (c' & Hrun & _ & Hauthors & Hother & Husers & _ & _ & Hloans & _).
  - constructor; intros k v Hin; simpl in Hin;
      repeat (destruct Hin as [Hin|Hin]; [inversion Hin; subst; clear Hin|]);
      try contradiction; simpl; repeat split; try discriminate; try lia;
      try (vm_compute; discriminate).
  - constructor; simpl; repeat constructor; simpl; tauto.
  - constructor; simpl; intros x Hin;
      repeat (destruct Hin as [Hin|Hin]; [subst x|]); try contradiction.
    + repeat constructor.
    + repeat constructor.
    + split; [repeat split|]. split; [repeat split|]. split; [repeat split|].
      intros author [= <-]. repeat split.
    + repeat split.
  - unfold pair_file. vm_compute FilePersistenceService.readCsvFile.
    repeat constructor; eexists _, _; (split; [reflexivity | discriminate]).
  - unfold pair_file. vm_compute FilePersistenceService.readCsvFile. constructor.
  - exists c'. split; [exact Hrun|]. split; [|split; [|split]].
    + apply (Hauthors (Author.mk "a1" "Ann")). simpl. now left.
    + rewrite Hother; [vm_compute; reflexivity|].
      simpl. intros [H|[]]. discriminate.
    + apply (Husers (User.mk "u1" "Uma")). simpl. now left.
    + apply Hloans. simpl. now left.
Defined.

(** ** The loan service over the file backend *)

(** C6, at its failing input: the loan service over the file backend (local
    time zone UTC).  The borrow succeeds, the item is stored as BORROWED and
    the loan is written to the loans file; but the open loan is never read
    back, so the return finds no active loan, raises NotFound and changes
    nothing: the item stays BORROWED and the loan gets no return date. *)
Theorem file_borrow_then_return_fails :
  let borrowed_at := local_time 0 2024 1 5 10 30 7 in
  let returned_at := local_time 0 2024 1 8 16 0 0 in
  exists loan sv1,
    @LoanService.borrowItem _ (FilePersistenceService.backend 0) borrowed_at "u1" "b1"
      (LoanService.mk small_library_files 14 0 []) = (Ok loan, sv1) /\
    loan = LoanRecord.mk "loan_1" "b1" "u1" borrowed_at
             (local_time 0 2024 1 19 10 30 7) None /\
    FilePersistenceService.loadLibraryItem (LoanService.m_persistence_service sv1) "b1"
      = Ok (Some (Book.mk "b1" "First" (Some (Author.mk "a1" "Ann")) "isbn-1" 2001
                    BORROWED)) /\
    FilePersistenceService.loans_csv (LoanService.m_persistence_service sv1)
      = text_lines ["loan_1,b1,u1,2024-01-05 10:30:07,2024-01-19 10:30:07,"] /\
    FilePersistenceService.loadLoanRecordsByItemId 0 (LoanService.m_persistence_service sv1)
      "b1" = Ok [] /\
    @LoanService.returnItem _ (FilePersistenceService.backend 0) returned_at "u1" "b1" sv1
      = (Throw NotFoundException, sv1).
Proof.
  cbv zeta. eexists _, _.
  split; [vm_compute; reflexivity|].
  split; [vm_compute; reflexivity|].
  split; [vm_compute; reflexivity|].
  split; [vm_compute; reflexivity|].
  split; vm_compute; reflexivity.
Qed.

(** C7, at its failing input: the scenario of the claim persisted to files
    (local time zone UTC).  Both open loans are written to the loans file,
    the first one losing its empty last field when the file is rewritten for
    the second; the file backend reads neither back, so the scan over the file backend
    sees no loan and sends no notification, where the same scan over the store
    in memory sends the one for the loan due 2024-01-01. *)
Theorem file_overdue_scan_sends_nothing :
  let scan_at := local_time 0 2024 1 5 9 15 0 in
  exists c,
    CachingFilePersistenceService.persistAllToFile 0
      (CachingFilePersistenceService.mk (overdue_scenario 0) FilePersistenceService.new)
      = Ok c /\
    FilePersistenceService.loans_csv (CachingFilePersistenceService.m_file_store c)
      = text_lines ["loan_1,b1,u1,2023-12-18 17:45:00,2024-01-01 17:45:00";
                    "loan_2,b2,u1,2023-12-27 08:30:00,2024-01-10 08:30:00,"] /\
    FilePersistenceService.loadAllLoanRecords 0 (CachingFilePersistenceService.m_file_store c)
      = Ok [] /\
    @LoanService.processOverdueItems _ (FilePersistenceService.backend 0) 0 scan_at
      (LoanService.mk (CachingFilePersistenceService.m_file_store c) 14 2 [])
      = (Ok tt, LoanService.mk (CachingFilePersistenceService.m_file_store c) 14 2 []) /\
    LoanService.processOverdueItems 0 scan_at (LoanService.mk (overdue_scenario 0) 14 2 [])
      = (Ok tt,
         LoanService.mk (overdue_scenario 0) 14 2
           [("u1", "Dear Uma, the item 'First' (Loan ID: loan_1) was due on 2024-01-01. Please return it as soon as possible.")]).
Proof.
  cbv zeta. eexists.
  split; [vm_compute; reflexivity|].
  split; [vm_compute; reflexivity|].
  split; [vm_compute; reflexivity|].
  split; vm_compute; reflexivity.
Qed.
